(** * notion-videogames: the upsert-and-link engine, embedded in Rocq

    The development follows the Python sources module by module:

    - [PyStr], [Py]        Python values: [str] as a list of code points,
                           objects as attribute dictionaries, exceptions;
    - [Urllib]             the part of [urllib.parse] that
                           [igdb_notion.add_https_scheme] goes through;
    - [Tenacity]           the retry policy configured in [notion.py];
    - [Notion]             [notion.ConnectablePage]: the remote store, the
                           [lru_cache] layers, [retrieve_or_create_from_data];
    - [Igdb], [Hltb], [SteamSpy], [Custom]
                           the page classes of the four source modules;
    - [Main]               the classes that [main.py] registers, and the
                           order in which they reference each other;
    - [Samples], [Cyclic]  sample records and worlds; a class whose records
                           reference each other;
    - [UrlParts]           the steps of [urlsplit] and [urlparse], named.

    Class methods that talk to the store or call back into
    [retrieve_or_create_from_data] are written in a small free monad
    ([Prog]); [Notion] interprets it over an explicit [World]. *)

From Stdlib Require Import List String Ascii ZArith NArith QArith Bool Lia Arith.
Import ListNotations.

Set Implicit Arguments.
Close Scope Q_scope.
Open Scope nat_scope.

(* ===================================================================== *)
(** * Python strings *)
(* ===================================================================== *)

Module PyStr.

(** A Python [str] is a sequence of Unicode code points; its length and its
    slices count code points. *)
Definition char := N.
Definition str := list char.

Definition py (s : string) : str := map N_of_ascii (list_ascii_of_string s).

Definition ch (a : ascii) : char := N_of_ascii a.

Fixpoint eqb (a b : str) : bool :=
  match a, b with
  | [], [] => true
  | x :: a', y :: b' => N.eqb x y && eqb a' b'
  | _, _ => false
  end.

(** [bool(s)]: a string is truthy when it is not empty. *)
Definition nonempty (s : str) : bool :=
  match s with [] => false | _ => true end.

(** [c in s] *)
Definition contains (c : char) (s : str) : bool := existsb (N.eqb c) s.

(** [s[:n]] for a non-negative [n] *)
Definition slice_to (n : nat) (s : str) : str := firstn n s.

(** [s[n:]] for a non-negative [n] *)
Definition slice_from (n : nat) (s : str) : str := skipn n s.

(** [s.find(c)] counted from position [i] of the original string; -1 when
    [c] does not occur. *)
Fixpoint find_from (c : char) (s : str) (i : Z) : Z :=
  match s with
  | [] => (-1)%Z
  | x :: t => if N.eqb x c then i else find_from c t (i + 1)%Z
  end.

Definition find (c : char) (s : str) : Z := find_from c s 0%Z.

(** [s.find(c, start)] for [0 <= start] *)
Definition find_at (c : char) (s : str) (start : nat) : Z :=
  find_from c (skipn start s) (Z.of_nat start).

(** [s.rfind(c)] *)
Fixpoint rfind_from (c : char) (s : str) (i : Z) (last : Z) : Z :=
  match s with
  | [] => last
  | x :: t => rfind_from c t (i + 1)%Z (if N.eqb x c then i else last)
  end.

Definition rfind (c : char) (s : str) : Z := rfind_from c s 0%Z (-1)%Z.

(** [s.split(c, 1)] when [c] occurs in [s]: the text before the first [c]
    and the text after it; [(s, [])] covers the other case, which the
    callers exclude with an [in] test. *)
Fixpoint split1 (c : char) (s : str) : str * str :=
  match s with
  | [] => ([], [])
  | x :: t =>
      if N.eqb x c then ([], t)
      else let '(a, b) := split1 c t in (x :: a, b)
  end.

(** [s.lstrip(chars)] with the character set given as a predicate *)
Fixpoint lstrip (drop : char -> bool) (s : str) : str :=
  match s with
  | [] => []
  | x :: t => if drop x then lstrip drop t else s
  end.

(** [s.replace(c, '')] for a single character [c] *)
Definition remove_char (c : char) (s : str) : str :=
  filter (fun x => negb (N.eqb x c)) s.

(** [s.startswith(p)] *)
Fixpoint startswith (p s : str) : bool :=
  match p, s with
  | [], _ => true
  | x :: p', y :: s' => N.eqb x y && startswith p' s'
  | _ :: _, [] => false
  end.

(** [s.replace(old, new)] for a non-empty [old]: left to right, without
    overlap. [fuel] bounds the scan by the length of [s]. *)
Fixpoint replace_fuel (fuel : nat) (old new s : str) : str :=
  match fuel with
  | O => s
  | S f =>
      match s with
      | [] => []
      | x :: t =>
          if startswith old s
          then new ++ replace_fuel f old new (skipn (List.length old) s)
          else x :: replace_fuel f old new t
      end
  end.

Definition replace (old new s : str) : str :=
  match old with
  | [] => s
  | _ => replace_fuel (List.length s) old new s
  end.

(** [s.split(sep)] for a non-empty [sep] *)
Fixpoint split_fuel (fuel : nat) (sep acc s : str) : list str :=
  match fuel with
  | O => [acc ++ s]
  | S f =>
      match s with
      | [] => [acc]
      | x :: t =>
          if startswith sep s
          then acc :: split_fuel f sep [] (skipn (List.length sep) s)
          else split_fuel f sep (acc ++ [x]) t
      end
  end.

Definition split (sep s : str) : list str :=
  split_fuel (S (List.length s)) sep [] s.

(** [s.removeprefix(p)] *)
Definition removeprefix (p s : str) : str :=
  if startswith p s then skipn (List.length p) s else s.

(** [c.isascii() and c.isalpha()] *)
Definition is_ascii_alpha (c : char) : bool :=
  ((65 <=? c) && (c <=? 90) || (97 <=? c) && (c <=? 122))%N.

Definition is_digit (c : char) : bool := ((48 <=? c) && (c <=? 57))%N.

(** [s.lower()] on ASCII letters, the only ones a scheme can hold *)
Definition lower_char (c : char) : char :=
  if ((65 <=? c) && (c <=? 90))%N then (c + 32)%N else c.

Definition lower (s : str) : str := map lower_char s.

(** [str(n)] for an integer *)
Fixpoint digits_fuel (fuel : nat) (n : N) (acc : str) : str :=
  match fuel with
  | O => acc
  | S f =>
      let acc' := (48 + N.modulo n 10)%N :: acc in
      if (n <? 10)%N then acc' else digits_fuel f (N.div n 10) acc'
  end.

Definition str_of_N (n : N) : str := digits_fuel (S (N.to_nat (N.log2 n))) n [].

Definition str_of_Z (z : Z) : str :=
  match z with
  | Z0 => [48%N]
  | Zpos p => str_of_N (Npos p)
  | Zneg p => 45%N :: str_of_N (Npos p)
  end.

End PyStr.

Import PyStr.

(* ===================================================================== *)
(** * Python values and exceptions *)
(* ===================================================================== *)

Module Py.

(** Domain records reach the engine as Python objects: protobuf messages
    ([igdb_proto], whose declarations are not part of the sources at hand)
    and frozen dataclasses.  An object is its class name and its attribute
    dictionary; [hasattr] and attribute access are lookups in it. *)
#[local] Unset Elimination Schemes.
Inductive PyVal : Type :=
| PyNone
| PyBool (b : bool)
| PyInt (z : Z)
| PyFloat (q : Q)
| PyStr (s : str)
| PyTuple (items : list PyVal)
| PyDatetime (iso : str)
| PyDict (items : list (string * PyVal))
| PyObj (cls : string) (attrs : list (string * PyVal)).
#[local] Set Elimination Schemes.

(** Induction over Python values, through the items of tuples and the
    attributes of objects *)
Fixpoint PyVal_ind (P : PyVal -> Prop)
    (Hnone : P PyNone)
    (Hbool : forall b, P (PyBool b))
    (Hint : forall z, P (PyInt z))
    (Hfloat : forall q, P (PyFloat q))
    (Hstr : forall s, P (PyStr s))
    (Htuple : forall items, Forall P items -> P (PyTuple items))
    (Hdatetime : forall iso, P (PyDatetime iso))
    (Hdict : forall items, Forall (fun kv => P (snd kv)) items -> P (PyDict items))
    (Hobj : forall cls attrs, Forall (fun kv => P (snd kv)) attrs -> P (PyObj cls attrs))
    (v : PyVal) {struct v} : P v :=
  let rec := PyVal_ind Hnone Hbool Hint Hfloat Hstr Htuple Hdatetime Hdict Hobj in
  match v with
  | PyNone => Hnone
  | PyBool b => Hbool b
  | PyInt z => Hint z
  | PyFloat q => Hfloat q
  | PyStr s => Hstr s
  | PyTuple items =>
      Htuple items
        ((fix go (l : list PyVal) : Forall P l :=
            match l with
            | [] => Forall_nil P
            | x :: t => Forall_cons x (rec x) (go t)
            end) items)
  | PyDatetime iso => Hdatetime iso
  | PyDict items =>
      Hdict items
        ((fix go (l : list (string * PyVal)) : Forall (fun kv => P (snd kv)) l :=
            match l with
            | [] => Forall_nil _
            | kv :: t => Forall_cons kv (rec (snd kv)) (go t)
            end) items)
  | PyObj cls attrs =>
      Hobj cls attrs
        ((fix go (l : list (string * PyVal)) : Forall (fun kv => P (snd kv)) l :=
            match l with
            | [] => Forall_nil _
            | kv :: t => Forall_cons kv (rec (snd kv)) (go t)
            end) attrs)
  end.

(** Exceptions, by class.  [APIResponseError] is a subclass of
    [HTTPResponseError] in [notion_client.errors]. *)
Inductive Exn : Type :=
| HTTPResponseError (status : Z)
| APIResponseError (status : Z)
| RequestTimeoutError
| ValueError (msg : string)
| AttributeError (name : string)
| TypeError (msg : string)
| OtherError (cls : string).

Inductive Result (A : Type) : Type :=
| Ok (a : A)
| Raise (e : Exn).

Arguments Ok {A} a.
Arguments Raise {A} e.

Definition rbind {A B} (r : Result A) (k : A -> Result B) : Result B :=
  match r with
  | Ok a => k a
  | Raise e => Raise e
  end.

Fixpoint assoc {V} (k : string) (d : list (string * V)) : option V :=
  match d with
  | [] => None
  | (k', v) :: t => if String.eqb k k' then Some v else assoc k t
  end.

Fixpoint assoc_remove {V} (k : string) (d : list (string * V)) : list (string * V) :=
  match d with
  | [] => []
  | (k', v) :: t => if String.eqb k k' then assoc_remove k t else (k', v) :: assoc_remove k t
  end.

(** [d[k] = v] on a dict that keeps insertion order *)
Fixpoint assoc_set {V} (k : string) (v : V) (d : list (string * V)) : list (string * V) :=
  match d with
  | [] => [(k, v)]
  | (k', v') :: t => if String.eqb k k' then (k, v) :: t else (k', v') :: assoc_set k v t
  end.

(** Structural equality: what dataclass and message [__eq__] compute, and
    so what the cache keys are compared with. *)
Fixpoint pyval_eqb (a b : PyVal) : bool :=
  match a, b with
  | PyNone, PyNone => true
  | PyBool x, PyBool y => Bool.eqb x y
  | PyInt x, PyInt y => Z.eqb x y
  | PyFloat x, PyFloat y =>
      Z.eqb (Qnum x) (Qnum y) && Pos.eqb (Qden x) (Qden y)
  | PyStr x, PyStr y => PyStr.eqb x y
  | PyDatetime x, PyDatetime y => PyStr.eqb x y
  | PyTuple xs, PyTuple ys =>
      (fix go (l1 l2 : list PyVal) : bool :=
         match l1, l2 with
         | [], [] => true
         | x :: r1, y :: r2 => pyval_eqb x y && go r1 r2
         | _, _ => false
         end) xs ys
  | PyDict xs, PyDict ys =>
      (fix go (l1 l2 : list (string * PyVal)) : bool :=
         match l1, l2 with
         | [], [] => true
         | (k1, x) :: r1, (k2, y) :: r2 =>
             String.eqb k1 k2 && pyval_eqb x y && go r1 r2
         | _, _ => false
         end) xs ys
  | PyObj c1 xs, PyObj c2 ys =>
      String.eqb c1 c2 &&
      (fix go (l1 l2 : list (string * PyVal)) : bool :=
         match l1, l2 with
         | [], [] => true
         | (k1, x) :: r1, (k2, y) :: r2 =>
             String.eqb k1 k2 && pyval_eqb x y && go r1 r2
         | _, _ => false
         end) xs ys
  | _, _ => false
  end.

(** [hasattr(o, name)] *)
Definition hasattr (o : PyVal) (name : string) : bool :=
  match o with
  | PyObj _ attrs => match assoc name attrs with Some _ => true | None => false end
  | _ => false
  end.

(** [o.name] *)
Definition getattr (o : PyVal) (name : string) : Result PyVal :=
  match o with
  | PyObj _ attrs =>
      match assoc name attrs with
      | Some v => Ok v
      | None => Raise (AttributeError name)
      end
  | _ => Raise (AttributeError name)
  end.

(** [bool(v)].  Objects here are dataclass and response instances, which
    are truthy. *)
Definition truthy (v : PyVal) : bool :=
  match v with
  | PyNone => false
  | PyBool b => b
  | PyInt z => negb (Z.eqb z 0%Z)
  | PyFloat q => negb (Z.eqb (Qnum q) 0%Z)
  | PyStr s => nonempty s
  | PyTuple l => match l with [] => false | _ => true end
  | PyDatetime _ => true
  | PyDict l => match l with [] => false | _ => true end
  | PyObj _ _ => true
  end.

(** [a or b] *)
Definition py_or (a b : PyVal) : PyVal := if truthy a then a else b.

(** The value read as a [str], for the positions where the source slices,
    concatenates or tests it. *)
Definition as_str (v : PyVal) : Result str :=
  match v with
  | PyStr s => Ok s
  | _ => Raise (TypeError "str expected")
  end.

(** The value iterated over by a comprehension *)
Definition as_list (v : PyVal) : Result (list PyVal) :=
  match v with
  | PyTuple l => Ok l
  | _ => Raise (TypeError "iterable expected")
  end.

End Py.

Import Py.

(* ===================================================================== *)
(** * urllib.parse, as far as add_https_scheme uses it *)
(* ===================================================================== *)

(** The functions follow [Lib/urllib/parse.py] of CPython 3.12 (3.12.4 and
    later, where [urlunsplit] keeps a path that starts with two slashes
    apart from the authority); the sources need 3.12 for
    [itertools.batched] and [typing.override]. *)

Module Urllib.

Record ParseResult : Type := mkParseResult {
  scheme : str;
  netloc : str;
  path : str;
  params : str;
  query : str;
  fragment : str
}.

Definition uses_netloc : list str :=
  map py [EmptyString; "ftp"; "http"; "gopher"; "nntp"; "telnet"; "imap"; "wais";
          "file"; "mms"; "https"; "shttp"; "snews"; "prospero"; "rtsp";
          "rtsps"; "rtspu"; "rsync"; "svn"; "svn+ssh"; "sftp"; "nfs"; "git";
          "git+ssh"; "ws"; "wss"; "itms-services"]%string.

Definition uses_params : list str :=
  map py [EmptyString; "ftp"; "hdl"; "prospero"; "http"; "imap"; "https"; "shttp";
          "rtsp"; "rtsps"; "rtspu"; "sip"; "sips"; "mms"; "sftp"; "tel"]%string.

Definition str_in (s : str) (l : list str) : bool := existsb (PyStr.eqb s) l.

(** [scheme_chars]: ASCII letters, digits and [+-.] *)
Definition scheme_char (c : char) : bool :=
  is_ascii_alpha c || is_digit c
  || N.eqb c 43%N || N.eqb c 45%N || N.eqb c 46%N.

(** [_WHATWG_C0_CONTROL_OR_SPACE]: the code points up to the space *)
Definition c0_control_or_space (c : char) : bool := (c <=? 32)%N.

(** [_UNSAFE_URL_BYTES_TO_REMOVE = ['\t', '\r', '\n']] *)
Definition remove_unsafe (url : str) : str :=
  remove_char 10%N (remove_char 13%N (remove_char 9%N url)).

(** [_splitnetloc(url, 2)] *)
Definition _splitnetloc (url : str) : str * str :=
  let start := 2%nat in
  let delim0 := Z.of_nat (List.length url) in
  let step (delim : Z) (c : char) :=
    let wdelim := find_at c url start in
    if (0 <=? wdelim)%Z then Z.min delim wdelim else delim in
  let delim := fold_left step [47%N; 63%N; 35%N] delim0 in
  (skipn start (firstn (Z.to_nat delim) url), skipn (Z.to_nat delim) url).

(** [_splitparams(url)] *)
Definition _splitparams (url : str) : str * str :=
  if contains 47%N url then
    let i := find_at 59%N url (Z.to_nat (rfind 47%N url)) in
    if (i <? 0)%Z then (url, [])
    else (firstn (Z.to_nat i) url, skipn (Z.to_nat i + 1) url)
  else
    let i := find 59%N url in
    (firstn (Z.to_nat i) url, skipn (Z.to_nat i + 1) url).

Section Parse.

(** Two checks of [urlsplit] consult tables this development does not
    carry: [_check_bracketed_netloc] (the [ipaddress] grammar, reached when
    the netloc holds both brackets) and the NFKC comparison of
    [_checknetloc] (reached when the netloc is not ASCII).  They are
    parameters; [false] stands for the [ValueError] they raise. *)
Variable bracketed_netloc_ok : str -> bool.
Variable nfkc_netloc_ok : str -> bool.

Definition isascii (s : str) : bool := forallb (fun c => (c <? 128)%N) s.

Definition _checknetloc (netloc : str) : bool :=
  if negb (nonempty netloc) || isascii netloc then true
  else nfkc_netloc_ok netloc.

(** [urlsplit(url)], with the default [scheme=''] and
    [allow_fragments=True] *)
Definition urlsplit (url0 : str) : Result (str * str * str * str * str) :=
  let url := lstrip c0_control_or_space url0 in
  let url := remove_unsafe url in
  let i := find 58%N url in
  let '(scheme, url) :=
    if (0 <? i)%Z && match url with c :: _ => is_ascii_alpha c | [] => false end
    then
      if forallb scheme_char (firstn (Z.to_nat i) url)
      then (lower (firstn (Z.to_nat i) url), skipn (Z.to_nat i + 1) url)
      else ([], url)
    else ([], url) in
  let split_rest (netloc url : str) :=
    let '(url, fragment) :=
      if contains 35%N url then split1 35%N url else (url, []) in
    let '(url, query) :=
      if contains 63%N url then split1 63%N url else (url, []) in
    if _checknetloc netloc
    then Ok (scheme, netloc, url, query, fragment)
    else Raise (ValueError "netloc contains invalid characters under NFKC normalization") in
  if startswith (py "//") url then
    let '(netloc, url) := _splitnetloc url in
    let lb := contains 91%N netloc in
    let rb := contains 93%N netloc in
    if (lb && negb rb) || (rb && negb lb)
    then Raise (ValueError "Invalid IPv6 URL")
    else if lb && rb && negb (bracketed_netloc_ok netloc)
    then Raise (ValueError "Invalid IPv6 URL")
    else split_rest netloc url
  else split_rest [] url.

(** [urlparse(url)] *)
Definition urlparse (url : str) : Result ParseResult :=
  rbind (urlsplit url) (fun '(scheme, netloc, url, query, fragment) =>
    let '(url, params) :=
      if str_in scheme uses_params && contains 59%N url
      then _splitparams url
      else (url, []) in
    Ok (mkParseResult scheme netloc url params query fragment)).

End Parse.

(** [urlunsplit((scheme, netloc, url, query, fragment))] *)
Definition urlunsplit (scheme netloc url query fragment : str) : str :=
  let url :=
    if nonempty netloc then
      let url :=
        if nonempty url && negb (startswith (py "/") url)
        then py "/" ++ url else url in
      py "//" ++ netloc ++ url
    else if startswith (py "//") url then py "//" ++ url
    else if nonempty scheme && str_in scheme uses_netloc
            && (negb (nonempty url) || startswith (py "/") url)
    then py "//" ++ url
    else url in
  let url := if nonempty scheme then scheme ++ py ":" ++ url else url in
  let url := if nonempty query then url ++ py "?" ++ query else url in
  let url := if nonempty fragment then url ++ py "#" ++ fragment else url in
  url.

(** [urlunparse(components)] *)
Definition urlunparse (p : ParseResult) : str :=
  let url :=
    if nonempty (params p) then path p ++ py ";" ++ params p else path p in
  urlunsplit (scheme p) (netloc p) url (query p) (fragment p).

End Urllib.


(* ===================================================================== *)
(** * tenacity: the retry policy of notion.py *)
(* ===================================================================== *)

Module Tenacity.

(** [retry_if_exception_type((HTTPResponseError, RequestTimeoutError))]:
    an [isinstance] test, so subclasses count. *)
Definition retry_if_exception_type (e : Exn) : bool :=
  match e with
  | HTTPResponseError _ | APIResponseError _ | RequestTimeoutError => true
  | _ => false
  end.

(** [stop_after_attempt(10)] *)
Definition max_attempt_number : nat := 10.

Definition stop_after_attempt (attempt_number : nat) : bool :=
  max_attempt_number <=? attempt_number.

(** [wait_random_exponential(multiplier=3.75, max=960)] *)
Definition multiplier : Q := 15 # 4.
Definition max_wait : Q := 960 # 1.

Definition Qmin (a b : Q) : Q := if Qle_bool a b then a else b.
Definition Qmax (a b : Q) : Q := if Qle_bool a b then b else a.

(** [wait_exponential.__call__]:
    [max(max(0, min), min(multiplier * 2 ** (attempt_number - 1), max))],
    with [min = 0]. *)
Definition wait_exponential (attempt_number : nat) : Q :=
  let exp := inject_Z (2 ^ Z.of_nat (attempt_number - 1)) in
  let result := (multiplier * exp)%Q in
  Qmax (Qmax 0 0) (Qmin result max_wait).

(** One draw of [random.random()], a number in [0, 1): the rational
    [draw_num / (draw_num + draw_rest + 1)]. *)
Record Draw : Type := mkDraw { draw_num : nat; draw_rest : nat }.

Definition draw_value (d : Draw) : Q :=
  Z.of_nat (draw_num d) # Pos.of_succ_nat (draw_num d + draw_rest d).

(** [random.uniform(0, high)] is [0 + (high - 0) * random.random()]. *)
Definition wait_random_exponential (attempt_number : nat) (d : Draw) : Q :=
  let high := wait_exponential attempt_number in
  (0 + (high - 0) * draw_value d)%Q.

End Tenacity.

(* ===================================================================== *)
(** * notion.py: ConnectablePage *)
(* ===================================================================== *)

Module Notion.

Definition PageId := nat.
Definition DbId := nat.

(** The value of one property in a [pages.create] / [pages.update] payload,
    by kind; the payload of each kind is the Python value the source puts
    there.  [select None] is [{"select": None}]. *)
Inductive PropValue : Type :=
| number (v : PyVal)
| checkbox (v : PyVal)
| title (content : PyVal)
| rich_text (content : PyVal)
| url (v : PyVal)
| select (name : option PyVal)
| date (start : PyVal)
| multi_select (names : list PyVal)
| relation (ids : list PageId).

Definition Properties := list (string * PropValue).

(** A page handle: the Python object that [parse_obj] builds ([obj] stands
    for its identity), with the id and the properties the store reported. *)
Record Page : Type := mkPage {
  obj : nat;
  id : PageId;
  properties : Properties
}.

(** The two query filters the sources build *)
Inductive Filter : Type :=
| NumberEquals (property : string) (v : PyVal)
| RelationContains (property : string) (page : PageId).

(** Positional hints as passed: [()], [(icon_url,)] or
    [(icon_url, cover_url)].  [lru_cache] keys on the argument tuple as
    written, so a call that omits a hint and one that passes [None] for it
    have different keys. *)
Definition Hints := list PyVal.

Definition icon_url_of (h : Hints) : PyVal := nth 0 h PyNone.
Definition cover_url_of (h : Hints) : PyVal := nth 1 h PyNone.

Section Prog.

Variable C : Type.

(** Code of a page class: it computes, raises, calls
    [cls.retrieve_or_create_from_data(data, *hints)] on some class, or runs
    [cls.query().filter(...).first()]. *)
Inductive Prog (A : Type) : Type :=
| Ret (a : A)
| Throw (e : Exn)
| Call (cls : C) (data : PyVal) (hints : Hints) (k : Page -> Prog A)
| QueryFirst (cls : C) (f : Filter) (k : option Page -> Prog A).

Arguments Ret {A} a.
Arguments Throw {A} e.

Fixpoint pbind {A B} (p : Prog A) (f : A -> Prog B) : Prog B :=
  match p with
  | Ret a => f a
  | Throw e => Throw e
  | Call c d h k => Call c d h (fun x => pbind (k x) f)
  | QueryFirst c q k => QueryFirst c q (fun x => pbind (k x) f)
  end.

Definition lift {A} (r : Result A) : Prog A :=
  match r with
  | Ok a => Ret a
  | Raise e => Throw e
  end.

(** A list comprehension whose element expression has effects *)
Fixpoint for_each {A B} (f : A -> Prog B) (l : list A) : Prog (list B) :=
  match l with
  | [] => Ret []
  | x :: t => pbind (f x) (fun y => pbind (for_each f t) (fun ys => Ret (y :: ys)))
  end.

(** A dict literal: the values are evaluated in the order written. *)
Fixpoint dict_literal {V} (entries : list (string * Prog V))
  : Prog (list (string * V)) :=
  match entries with
  | [] => Ret []
  | (k, p) :: t =>
      pbind p (fun v => pbind (dict_literal t) (fun d => Ret ((k, v) :: d)))
  end.

(** What a page class supplies: the two abstract methods of
    [ConnectablePage] and, where the class overrides
    [retrieve_or_create_from_data], the hints its override computes before
    it calls [super()]. *)
Record PageClass : Type := mkPageClass {
  get_notion_properties : PyVal -> Prog Properties;
  retrieve_from_data : PyVal -> Prog (option Page);
  override_hints : option (PyVal -> PyVal -> PyVal -> Result (PyVal * PyVal))
}.

End Prog.

Arguments Ret {C A} a.
Arguments Throw {C A} e.
Arguments Call {C A} cls data hints k.
Arguments QueryFirst {C A} cls f k.
Arguments lift {C A} r.

Declare Scope prog_scope.
Delimit Scope prog_scope with prog.
Notation "x <- p ;; q" := (pbind p (fun x => q))
  (at level 61, p at next level, right associativity) : prog_scope.


(** How a call ends: with a value, with an exception, or not at all. *)
Inductive Outcome (A : Type) : Type :=
| Returns (a : A)
| Raises (e : Exn)
| Diverges.

Arguments Returns {A} a.
Arguments Raises {A} e.
Arguments Diverges {A}.

Section Engine.

Variable C : Type.
Variable C_eq_dec : forall a b : C, {a = b} + {a <> b}.

(** The class table: how each page class implements the abstract methods. *)
Variable classes : C -> PageClass C.

(** A record of the remote store *)
Record RemotePage : Type := mkRemotePage {
  rp_id : PageId;
  rp_parent : DbId;
  rp_properties : Properties;
  rp_icon : option PyVal;
  rp_cover : option PyVal
}.

(** What the run does to the outside, in order.  The class in a store
    event is the class whose method issued the request. *)
Inductive Event : Type :=
| EvQuery (cls : C) (f : Filter) (found : option PageId)
| EvCreate (cls : C) (page : PageId) (props : Properties)
| EvUpdate (cls : C) (page : PageId) (props : Properties)
| EvFault (e : Exn)
| EvSleep (seconds : Q).

Definition Key : Type := C * PyVal * Hints.

Definition hints_eqb (a b : Hints) : bool := pyval_eqb (PyTuple a) (PyTuple b).

Definition key_eqb (a b : Key) : bool :=
  let '(c1, d1, h1) := a in
  let '(c2, d2, h2) := b in
  (if C_eq_dec c1 c2 then true else false) && pyval_eqb d1 d2 && hints_eqb h1 h2.

Definition Cache := list (Key * Page).

Fixpoint cache_get (k : Key) (c : Cache) : option Page :=
  match c with
  | [] => None
  | (k', v) :: t => if key_eqb k k' then Some v else cache_get k t
  end.

(** [cache[key] = result] *)
Definition cache_set (k : Key) (v : Page) (c : Cache) : Cache := (k, v) :: c.

(** Everything a call can read or change:
    - [update]: the class variable [ConnectablePage.update];
    - [session], [database]: [cls._notional__session is not None] and
      [cls._notional__database], as [connect] left them;
    - [store]: the records of the workspace, oldest first;
    - [base_cache]: the [lru_cache] on
      [ConnectablePage.retrieve_or_create_from_data];
      [override_cache]: the [lru_cache]s on the overrides of the
      subclasses (one per class, keyed by class here);
    - [faults]: what the next remote calls will do, [Some e] for a call
      that raises [e] and leaves the store alone, none left for calls that
      succeed; [draws]: the next values of [random.random()];
    - [log]: the events so far, oldest first. *)
Record World : Type := mkWorld {
  update : bool;
  session : C -> bool;
  database : C -> option DbId;
  store : list RemotePage;
  next_page_id : PageId;
  next_obj : nat;
  base_cache : Cache;
  override_cache : Cache;
  faults : list (option Exn);
  draws : list Tenacity.Draw;
  log : list Event
}.

Definition M (A : Type) : Type := World -> Outcome A * World.

Definition mret {A} (a : A) : M A := fun w => (Returns a, w).
Definition mraise {A} (e : Exn) : M A := fun w => (Raises e, w).

Definition mbind {A B} (m : M A) (f : A -> M B) : M B :=
  fun w =>
    match m w with
    | (Returns a, w1) => f a w1
    | (Raises e, w1) => (Raises e, w1)
    | (Diverges, w1) => (Diverges, w1)
    end.

Definition mlift {A} (r : Result A) : M A :=
  match r with
  | Ok a => mret a
  | Raise e => mraise e
  end.

Definition set_log (l : list Event) (w : World) : World :=
  mkWorld (update w) (session w) (database w) (store w) (next_page_id w)
          (next_obj w) (base_cache w) (override_cache w) (faults w) (draws w) l.

Definition set_faults (f : list (option Exn)) (w : World) : World :=
  mkWorld (update w) (session w) (database w) (store w) (next_page_id w)
          (next_obj w) (base_cache w) (override_cache w) f (draws w) (log w).

Definition set_draws (d : list Tenacity.Draw) (w : World) : World :=
  mkWorld (update w) (session w) (database w) (store w) (next_page_id w)
          (next_obj w) (base_cache w) (override_cache w) (faults w) d (log w).

Definition set_next_obj (n : nat) (w : World) : World :=
  mkWorld (update w) (session w) (database w) (store w) (next_page_id w)
          n (base_cache w) (override_cache w) (faults w) (draws w) (log w).

Definition set_store (st : list RemotePage) (next : PageId) (w : World) : World :=
  mkWorld (update w) (session w) (database w) st next
          (next_obj w) (base_cache w) (override_cache w) (faults w) (draws w) (log w).

Definition set_base_cache (c : Cache) (w : World) : World :=
  mkWorld (update w) (session w) (database w) (store w) (next_page_id w)
          (next_obj w) c (override_cache w) (faults w) (draws w) (log w).

Definition set_override_cache (c : Cache) (w : World) : World :=
  mkWorld (update w) (session w) (database w) (store w) (next_page_id w)
          (next_obj w) (base_cache w) c (faults w) (draws w) (log w).

Definition emit (ev : Event) (w : World) : World := set_log (log w ++ [ev]) w.

(** One request to the remote store: it fails when the next scheduled
    fault says so. *)
Definition remote_call : M unit :=
  fun w =>
    match faults w with
    | Some e :: rest => (Raises e, emit (EvFault e) (set_faults rest w))
    | None :: rest => (Returns tt, set_faults rest w)
    | [] => (Returns tt, w)
    end.

(** [cls.parse_obj(response)]: a new handle object each time *)
Definition parse_obj (r : RemotePage) : M Page :=
  fun w => (Returns (mkPage (next_obj w) (rp_id r) (rp_properties r)),
            set_next_obj (S (next_obj w)) w).

Definition matches (f : Filter) (r : RemotePage) : bool :=
  match f with
  | NumberEquals prop v =>
      match assoc prop (rp_properties r) with
      | Some (number v') => pyval_eqb v v'
      | _ => false
      end
  | RelationContains prop page =>
      match assoc prop (rp_properties r) with
      | Some (relation ids) => existsb (Nat.eqb page) ids
      | _ => false
      end
  end.

Definition first_match (db : DbId) (f : Filter) (st : list RemotePage)
  : option RemotePage :=
  List.find (fun r => Nat.eqb (rp_parent r) db && matches f r) st.

(** [cls.query().filter(...).first()]: [query()] wants a connected class;
    then one request, answered with the first record of the class's
    database that passes the filter, or with [None]. *)
Definition query_first (cls : C) (f : Filter) : M (option Page) :=
  fun w =>
    if negb (session w cls)
    then (Raises (ValueError "Unable to query; invalid session"), w)
    else
      match database w cls with
      | None => (Raises (ValueError "Unable to query; invalid database"), w)
      | Some db =>
          mbind remote_call (fun _ w1 =>
            match first_match db f (store w1) with
            | None => (Returns None, emit (EvQuery cls f None) w1)
            | Some r =>
                mbind (parse_obj r) (fun page => mret (Some page))
                      (emit (EvQuery cls f (Some (rp_id r))) w1)
            end) w
      end.

(** [client.pages.create(parent=..., properties=..., icon=..., cover=...)] *)
Definition pages_create (cls : C) (db : DbId) (props : Properties)
    (icon cover : option PyVal) : M RemotePage :=
  mbind remote_call (fun _ w =>
    let r := mkRemotePage (next_page_id w) db props icon cover in
    (Returns r,
     emit (EvCreate cls (rp_id r) props)
          (set_store (store w ++ [r]) (S (next_page_id w)) w))).

(** Properties sent in an update replace the stored ones of the same name. *)
Definition merge_properties (new old : Properties) : Properties :=
  new ++ filter (fun kv => match assoc (fst kv) new with
                           | Some _ => false
                           | None => true
                           end) old.

Definition or_else {A} (a b : option A) : option A :=
  match a with Some _ => a | None => b end.

Fixpoint store_update (page : PageId) (props : Properties)
    (icon cover : option PyVal) (l : list RemotePage)
  : option (RemotePage * list RemotePage) :=
  match l with
  | [] => None
  | r :: t =>
      if Nat.eqb (rp_id r) page then
        let r' := mkRemotePage (rp_id r) (rp_parent r)
                    (merge_properties props (rp_properties r))
                    (or_else icon (rp_icon r)) (or_else cover (rp_cover r)) in
        Some (r', r' :: t)
      else
        match store_update page props icon cover t with
        | Some (r', t') => Some (r', r :: t')
        | None => None
        end
  end.

(** [client.pages.update(page_id=..., properties=..., icon=..., cover=...)];
    a page id the store does not know is answered with a 404. *)
Definition pages_update (cls : C) (page : PageId) (props : Properties)
    (icon cover : option PyVal) : M RemotePage :=
  mbind remote_call (fun _ w =>
    match store_update page props icon cover (store w) with
    | None => (Raises (APIResponseError 404), emit (EvFault (APIResponseError 404)) w)
    | Some (r, st) =>
        (Returns r, emit (EvUpdate cls page props) (set_store st (next_page_id w) w))
    end).

(** The handler of [Call]: the dynamically dispatched
    [cls.retrieve_or_create_from_data]. *)
Definition Handler : Type := C -> PyVal -> Hints -> M Page.

Fixpoint interp (h : Handler) {A} (p : Prog C A) : M A :=
  match p with
  | Ret a => mret a
  | Throw e => mraise e
  | Call c d hs k => mbind (h c d hs) (fun page => interp h (k page))
  | QueryFirst c f k => mbind (query_first c f) (fun r => interp h (k r))
  end.

(** [ConnectablePage.create_from_data] *)
Definition create_from_data (h : Handler) (cls : C) (data : PyVal)
    (icon cover : option PyVal) : M Page :=
  fun w =>
    if negb (session w cls)
    then (Raises (ValueError "Cannot create Page; invalid session"), w)
    else
      match database w cls with
      | None => (Raises (ValueError "Cannot create Page; invalid database"), w)
      | Some db =>
          mbind (interp h (get_notion_properties (classes cls) data)) (fun props =>
          mbind (pages_create cls db props icon cover) (fun r =>
          parse_obj r)) w
      end.

(** [ConnectablePage.update_from_data] *)
Definition update_from_data (h : Handler) (cls : C) (page_id : PageId)
    (data : PyVal) (icon cover : option PyVal) : M Page :=
  fun w =>
    if negb (session w cls)
    then (Raises (ValueError "Cannot update Page; invalid session"), w)
    else
      mbind (interp h (get_notion_properties (classes cls) data)) (fun props =>
      mbind (pages_update cls page_id props icon cover) (fun r =>
      parse_obj r)) w.

(** [{"external": {"url": u}} if u else None] *)
Definition external (u : PyVal) : option PyVal :=
  if truthy u then Some u else None.

(** The body of [ConnectablePage.retrieve_or_create_from_data], under its
    two decorators *)
Definition retrieve_or_create_body (h : Handler) (cls : C) (data : PyVal)
    (hints : Hints) : M Page :=
  let icon := external (icon_url_of hints) in
  let cover := external (cover_url_of hints) in
  mbind (interp h (retrieve_from_data (classes cls) data)) (fun found =>
    match found with
    | Some page =>
        fun w =>
          if update w
          then update_from_data h cls (id page) data icon cover w
          else (Returns page, w)
    | None => create_from_data h cls data icon cover
    end).

(** [time.sleep] for the wait drawn after a failed attempt *)
Definition sleep_before_retry (attempt_number : nat) : World -> Q * World :=
  fun w =>
    let '(d, rest) :=
      match draws w with
      | d :: rest => (d, rest)
      | [] => (Tenacity.mkDraw 0 0, [])
      end in
    let seconds := Tenacity.wait_random_exponential attempt_number d in
    (seconds, emit (EvSleep seconds) (set_draws rest w)).

(** What [tenacity] knows when a retried call ends: the number of the last
    attempt and the waits slept between the attempts, oldest first. *)
Record RetryState : Type := mkRetryState {
  attempt_number : nat;
  waits : list Q
}.

(** [tenacity.retry(retry=..., wait=..., stop=..., reraise=True)] around
    [f].  [left] counts the attempts the stop condition still allows after
    the current one, so the current attempt is number
    [max_attempt_number - left]. *)
Fixpoint retry_loop {A} (left : nat) (slept : list Q) (f : M A) (w : World)
  : Outcome A * World * RetryState :=
  let n := Tenacity.max_attempt_number - left in
  let '(r, w1) := f w in
  match r with
  | Raises e =>
      if Tenacity.retry_if_exception_type e then
        match left with
        | O => (Raises e, w1, mkRetryState n slept)
        | S left' =>
            let '(seconds, w2) := sleep_before_retry n w1 in
            retry_loop left' (slept ++ [seconds]) f w2
        end
      else (Raises e, w1, mkRetryState n slept)
  | _ => (r, w1, mkRetryState n slept)
  end.

Definition retrying {A} (f : M A) (w : World) : Outcome A * World * RetryState :=
  retry_loop (Tenacity.max_attempt_number - 1) [] f w.

Definition retry {A} (f : M A) : M A := fun w => fst (retrying f w).

(** What the waits of a retried call satisfy: the [k]-th one (from 0) was
    drawn after attempt [k + 1]. *)
Definition waits_bounded (ws : list Q) : Prop :=
  forall k q, nth_error ws k = Some q ->
    (0 <= q)%Q /\ (q <= Tenacity.wait_exponential (S k))%Q /\ (q <= 960 # 1)%Q.

(** A wrapped call that fails with a transient error whenever it is tried *)
Definition always_transient {A} (f : M A) : Prop :=
  forall w, exists e w', f w = (Raises e, w') /\
                         Tenacity.retry_if_exception_type e = true.

(** [functools.lru_cache(maxsize=None, typed=True)]: a hit returns the
    stored result; a miss runs the function and stores what it returns;
    nothing is stored when it raises. *)
Definition lru_cache (get : World -> Cache) (set : Cache -> World -> World)
    (k : Key) (f : M Page) : M Page :=
  fun w =>
    match cache_get k (get w) with
    | Some v => (Returns v, w)
    | None =>
        match f w with
        | (Returns v, w1) => (Returns v, set (cache_set k v (get w1)) w1)
        | other => other
        end
    end.

(** [ConnectablePage.retrieve_or_create_from_data], decorated *)
Definition base_retrieve_or_create (h : Handler) (cls : C) (data : PyVal)
    (hints : Hints) : M Page :=
  lru_cache base_cache set_base_cache (cls, data, hints)
    (retry (retrieve_or_create_body h cls data hints)).

(** [cls.retrieve_or_create_from_data(data, *hints)]: the override of the
    class when it has one, which caches too and hands its hints to
    [super()], otherwise the inherited method. *)
Definition dispatch (h : Handler) : Handler :=
  fun cls data hints =>
    match override_hints (classes cls) with
    | None => base_retrieve_or_create h cls data hints
    | Some adjust =>
        lru_cache override_cache set_override_cache (cls, data, hints)
          (mbind (mlift (adjust data (icon_url_of hints) (cover_url_of hints)))
             (fun '(icon_url, cover_url) =>
                base_retrieve_or_create h cls data [icon_url; cover_url]))
    end.

(** The recursion through the class methods, cut at depth [fuel]. *)
Fixpoint retrieve_or_create_from_data (fuel : nat) : Handler :=
  match fuel with
  | O => fun _ _ _ w => (Diverges, w)
  | S fuel' => dispatch (retrieve_or_create_from_data fuel')
  end.

(** A run that makes the same call [n] times in a row *)
Fixpoint call_times (n fuel : nat) (cls : C) (data : PyVal) (hints : Hints)
    (w : World) : list (Outcome Page) * World :=
  match n with
  | O => ([], w)
  | S n' =>
      let '(r, w1) := retrieve_or_create_from_data fuel cls data hints w in
      let '(rs, w2) := call_times n' fuel cls data hints w1 in
      (r :: rs, w2)
  end.

(** The cache that answers [cls.retrieve_or_create_from_data] first *)
Definition outer_cache (cls : C) (w : World) : Cache :=
  match override_hints (classes cls) with
  | None => base_cache w
  | Some _ => override_cache w
  end.

Definition is_create (cls : C) (ev : Event) : bool :=
  match ev with
  | EvCreate c _ _ => if C_eq_dec c cls then true else false
  | _ => false
  end.

Definition is_update (cls : C) (ev : Event) : bool :=
  match ev with
  | EvUpdate c _ _ => if C_eq_dec c cls then true else false
  | _ => false
  end.

(** The number of records created, resp. updated, for a class *)
Definition creates (cls : C) (l : list Event) : nat :=
  List.length (filter (is_create cls) l).

Definition updates (cls : C) (l : list Event) : nat :=
  List.length (filter (is_update cls) l).

(** ** Reference order

    [rank] orders the page classes so that the methods of a class call
    [retrieve_or_create_from_data] only on classes of lower rank. *)
Variable rank : C -> nat.

Inductive calls_below (r : nat) {A} : Prog C A -> Prop :=
| cb_ret : forall a, calls_below r (Ret a)
| cb_throw : forall e, calls_below r (Throw e)
| cb_call : forall c d hs k,
    rank c < r ->
    (forall page, calls_below r (k page)) ->
    calls_below r (Call c d hs k)
| cb_query : forall c f k,
    (forall found, calls_below r (k found)) ->
    calls_below r (QueryFirst c f k).

Definition well_ranked : Prop :=
  forall cls data,
    calls_below (rank cls) (get_notion_properties (classes cls) data) /\
    calls_below (rank cls) (retrieve_from_data (classes cls) data).

(** The class a store event writes to, if it is a write *)
Definition write_class (ev : Event) : option C :=
  match ev with
  | EvCreate c _ _ | EvUpdate c _ _ => Some c
  | _ => None
  end.

(** Events whose writes all go to classes of rank below [r] *)
Definition writes_below (r : nat) (l : list Event) : Prop :=
  Forall (fun ev => match write_class ev with
                    | Some c => rank c < r
                    | None => True
                    end) l.

(** Events whose writes go to [cls] or to classes below it *)
Definition writes_within (cls : C) (l : list Event) : Prop :=
  Forall (fun ev => match write_class ev with
                    | Some c => rank c < rank cls \/ c = cls
                    | None => True
                    end) l.

(** What a handler must satisfy to be run under code that calls below [r] *)
Definition handler_writes_below (h : Handler) (r : nat) : Prop :=
  forall c d hs w res w1,
    rank c < r -> h c d hs w = (res, w1) ->
    exists new, log w1 = log w ++ new /\ writes_below r new.

Definition is_returns {A} (r : Outcome A) : bool :=
  match r with Returns _ => true | _ => false end.

Definition is_diverges {A} (r : Outcome A) : bool :=
  match r with Diverges => true | _ => false end.


(** A handler that comes back on every class of rank below [r] *)
Definition handler_total (h : Handler) (r : nat) : Prop :=
  forall c d hs w, rank c < r -> is_diverges (fst (h c d hs w)) = false.

(** What one call on [cls] may add to the log: writes to [cls] and below,
    at most one of them to [cls] itself, and none to [cls] unless the call
    returns. *)
Definition own_writes {A} (cls : C) (res : Outcome A) (new : list Event) : Prop :=
  writes_within cls new /\
  creates cls new + updates cls new <= 1 /\
  (is_returns res = false -> creates cls new + updates cls new = 0).

End Engine.

End Notion.

(* ===================================================================== *)
(** * The page classes of the run *)
(* ===================================================================== *)

(** The classes that [main.notion_db_types] registers, in its order: the
    IGDB pages, the two statistics pages and the composite game page. *)
Inductive Cls : Type :=
| AgeRatingContentDescription | AgeRating | AlternativeName | Artwork
| CompanyLogo | CompanyWebsite | Company | Cover | PlatformFamily
| PlatformLogo | PlatformVersionCompany | PlatformVersionReleaseDate
| PlatformVersion | PlatformWebsite | Platform | ExternalGame | Franchise
| GameEngineLogo | GameEngine | Region | GameLocalization | GameMode
| GameVideo | Genre | InvolvedCompany | Keyword | Language
| LanguageSupportType | LanguageSupport | MultiplayerMode
| PlayerPerspective | ReleaseDateStatus | ReleaseDate | Screenshot | Theme
| Website | Game
| HLTBNotionPage | SteamSpyNotionPage | CustomGamePage.

Definition Cls_eq_dec (a b : Cls) : {a = b} + {a <> b}.
Proof. decide equality. Defined.

(** What the sources take from outside and this development does not
    model: the text [str()] gives for values other than [None], booleans,
    integers and strings; the builtin [int()]; the two netloc checks of
    [urllib.parse]; the URL prefixes of
    [howlongtobeatpy.JSONResultParser]. *)
Record Builtins : Type := mkBuiltins {
  str_other : PyVal -> str;
  int_of : PyVal -> Result PyVal;
  bracketed_netloc_ok : str -> bool;
  nfkc_netloc_ok : str -> bool;
  IMAGE_URL_PREFIX : str;
  GAME_URL_PREFIX : str
}.

(** ** Expressions of the property dictionaries *)

Module PageCode.

Import Notion.
Open Scope prog_scope.
Open Scope string_scope.

(** [str(v)], also what an f-string puts for [{v}] *)
Definition py_str (env : Builtins) (v : PyVal) : str :=
  match v with
  | PyStr s => s
  | PyInt z => str_of_Z z
  | PyNone => py "None"
  | PyBool true => py "True"
  | PyBool false => py "False"
  | _ => str_other env v
  end.

(** [v[:n]] *)
Definition py_slice_to (n : nat) (v : PyVal) : Result PyVal :=
  match v with
  | PyStr s => Ok (PyStr (firstn n s))
  | PyTuple l => Ok (PyTuple (firstn n l))
  | _ => Raise (TypeError "object is not subscriptable")
  end.

(** [v.isoformat()] *)
Definition py_isoformat (v : PyVal) : Result PyVal :=
  match v with
  | PyDatetime iso => Ok (PyStr iso)
  | _ => Raise (AttributeError "isoformat")
  end.

(** [v.removeprefix(p)] *)
Definition py_removeprefix (p : string) (v : PyVal) : Result PyVal :=
  match v with
  | PyStr s => Ok (PyStr (removeprefix (py p) s))
  | _ => Raise (AttributeError "removeprefix")
  end.

(** [v.replace(old, new)] *)
Definition py_replace (old new : string) (v : PyVal) : Result PyVal :=
  match v with
  | PyStr s => Ok (PyStr (replace (py old) (py new) s))
  | _ => Raise (AttributeError "replace")
  end.

(** [a != b] *)
Definition py_ne (a b : PyVal) : bool := negb (pyval_eqb a b).

(** The values a [for] goes through *)
Definition py_iter (v : PyVal) : Result (list PyVal) :=
  match v with
  | PyTuple l => Ok l
  | PyStr s => Ok (map (fun c => PyStr [c]) s)
  | _ => Raise (TypeError "object is not iterable")
  end.

Section Expressions.

Variable env : Builtins.

(** [data.a.b.c] *)
Fixpoint path (o : PyVal) (names : list string) : Prog Cls PyVal :=
  match names with
  | [] => Ret o
  | n :: rest => v <- lift (getattr o n) ;; path v rest
  end.

(** [e or None] *)
Definition or_none (e : Prog Cls PyVal) : Prog Cls PyVal :=
  v <- e ;; Ret (py_or v PyNone).

(** [a or e], [e] evaluated only when [a] is falsy *)
Definition or_else (a : PyVal) (e : Prog Cls PyVal) : Prog Cls PyVal :=
  if truthy a then Ret a else e.

Definition or_else_ (e1 e2 : Prog Cls PyVal) : Prog Cls PyVal :=
  a <- e1 ;; or_else a e2.

(** [e[:n]] *)
Definition slice (n : nat) (e : Prog Cls PyVal) : Prog Cls PyVal :=
  v <- e ;; lift (py_slice_to n v).

(** [str(e)] *)
Definition str_ (e : Prog Cls PyVal) : Prog Cls PyVal :=
  v <- e ;; Ret (PyStr (py_str env v)).

(** [e.isoformat()] *)
Definition isoformat (e : Prog Cls PyVal) : Prog Cls PyVal :=
  v <- e ;; lift (py_isoformat v).

(** An f-string: literal text and [{e}] fields, left to right *)
Inductive FPart : Type :=
| lit (text : string)
| val (e : Prog Cls PyVal).

Fixpoint fstring_text (parts : list FPart) : Prog Cls str :=
  match parts with
  | [] => Ret []
  | lit text :: rest => s <- fstring_text rest ;; Ret (py text ++ s)%list
  | val e :: rest =>
      v <- e ;; s <- fstring_text rest ;; Ret (py_str env v ++ s)%list
  end.

Definition fstring (parts : list FPart) : Prog Cls PyVal :=
  s <- fstring_text parts ;; Ret (PyStr s).

(** [n.removeprefix(prefix) if n and n != null else None] *)
Definition strip_unless_null (prefix null : string) (e : Prog Cls PyVal)
  : Prog Cls PyVal :=
  n <- e ;;
  if truthy n && py_ne n (PyStr (py null))
  then lift (py_removeprefix prefix n)
  else Ret PyNone.

(** The property values, by kind: [{"number": e}],
    [{"title": [{"text": {"content": e}}]}] and so on *)
Definition number_ (e : Prog Cls PyVal) : Prog Cls PropValue :=
  v <- e ;; Ret (number v).

Definition checkbox_ (e : Prog Cls PyVal) : Prog Cls PropValue :=
  v <- e ;; Ret (checkbox v).

Definition title_ (e : Prog Cls PyVal) : Prog Cls PropValue :=
  v <- e ;; Ret (title v).

Definition rich_text_ (e : Prog Cls PyVal) : Prog Cls PropValue :=
  v <- e ;; Ret (rich_text v).

Definition url_ (e : Prog Cls PyVal) : Prog Cls PropValue :=
  v <- e ;; Ret (url v).

Definition date_ (e : Prog Cls PyVal) : Prog Cls PropValue :=
  v <- e ;; Ret (date v).

(** [{"select": {"name": e}}] *)
Definition select_ (e : Prog Cls PyVal) : Prog Cls PropValue :=
  v <- e ;; Ret (select (Some v)).

(** [{"select": {"name": e} if e != null else None}] *)
Definition select_unless (null : string) (e : Prog Cls PyVal)
  : Prog Cls PropValue :=
  n <- e ;;
  if py_ne n (PyStr (py null))
  then v <- e ;; Ret (select (Some v))
  else Ret (select None).

(** [{"select": {"name": e.removeprefix(prefix)}
                if e and e != null else None}] *)
Definition select_prefixed (prefix null : string) (e : Prog Cls PyVal)
  : Prog Cls PropValue :=
  n <- e ;;
  if truthy n && py_ne n (PyStr (py null))
  then v <- e ;; s <- lift (py_removeprefix prefix v) ;; Ret (select (Some s))
  else Ret (select None).

(** [{"select": {"name": v} if v else None}] *)
Definition select_if_truthy (v : PyVal) : Prog Cls PropValue :=
  Ret (if truthy v then select (Some v) else select None).

(** [{"multi_select": [{"name": x} for x in e]}] *)
Definition multi_select_ (e : Prog Cls PyVal) : Prog Cls PropValue :=
  v <- e ;; l <- lift (py_iter v) ;; Ret (multi_select l).

(** [{"relation": [{"id": str(cls.retrieve_or_create_from_data(e).id)}]}] *)
Definition relation_one (cls : Cls) (e : Prog Cls PyVal) : Prog Cls PropValue :=
  v <- e ;; page <- Call cls v [] Ret ;; Ret (relation [id page]).

(** [{"relation": [{"id": str(cls.retrieve_or_create_from_data(x).id)}
                   for x in e]}] *)
Definition relation_each (cls : Cls) (e : Prog Cls PyVal) : Prog Cls PropValue :=
  v <- e ;;
  l <- lift (py_iter v) ;;
  pages <- for_each (fun x => Call cls x [] Ret) l ;;
  Ret (relation (map id pages)).

End Expressions.

End PageCode.

(* ===================================================================== *)
(** * igdb_notion.py *)
(* ===================================================================== *)

Module Igdb.

Import Notion PageCode.
Open Scope prog_scope.
Open Scope string_scope.

(** https://developers.notion.com/reference/request-limits *)
Definition MAX_RELATION_PAGES : nat := 100.
Definition MAX_TEXT_LENGTH : nat := 2000.

Section WithBuiltins.

Variable env : Builtins.

Definition urlparse : str -> Result Urllib.ParseResult :=
  Urllib.urlparse (bracketed_netloc_ok env) (nfkc_netloc_ok env).

(** [add_https_scheme(url)] for a [str] *)
Definition add_https_scheme (url : str) : Result str :=
  rbind (urlparse url) (fun parsed_url =>
    if nonempty (Urllib.scheme parsed_url)
    then Ok url
    else
      Ok (Urllib.urlunparse
            (Urllib.mkParseResult (py "https")
               (Urllib.netloc parsed_url) (Urllib.path parsed_url)
               (Urllib.params parsed_url) (Urllib.query parsed_url)
               (Urllib.fragment parsed_url)))).

Fixpoint getattr_path (o : PyVal) (names : list string) : Result PyVal :=
  match names with
  | [] => Ok o
  | n :: rest => rbind (getattr o n) (fun v => getattr_path v rest)
  end.

Definition maybe_replace (r : option (string * string)) (v : PyVal) : Result PyVal :=
  match r with
  | Some (old, new) => py_replace old new v
  | None => Ok v
  end.

(** The hints that the overrides of [retrieve_or_create_from_data] compute:
[[
    if not icon_url and data.<image>.url:
        icon_url = add_https_scheme(data.<image>.url)[.replace(old, new)]
    if not cover_url and icon_url:
        cover_url = icon_url.replace(old', new')
]]
    [image] is the attribute path to the URL. *)
Definition image_hints (image : list string) (icon_replace : option (string * string))
    (cover_replace : string * string) (data icon_url cover_url : PyVal)
  : Result (PyVal * PyVal) :=
  rbind
    (if negb (truthy icon_url) then
       rbind (getattr_path data image) (fun u =>
         if truthy u then
           rbind (getattr_path data image) (fun u =>
           rbind (as_str u) (fun s =>
           rbind (add_https_scheme s) (fun s' =>
           maybe_replace icon_replace (PyStr s'))))
         else Ok icon_url)
     else Ok icon_url)
    (fun icon_url =>
       rbind
         (if negb (truthy cover_url) && truthy icon_url
          then py_replace (fst cover_replace) (snd cover_replace) icon_url
          else Ok cover_url)
         (fun cover_url => Ok (icon_url, cover_url))).

(** [IGDBNotionPage.retrieve_from_data] *)
Definition IGDBNotionPage_retrieve_from_data (cls : Cls) (data : PyVal)
  : Prog Cls (option Page) :=
  if negb (hasattr data "id")
  then Throw (ValueError "data has no 'id' attribute")
  else
    v <- lift (getattr data "id") ;;
    QueryFirst cls (NumberEquals "ID" v) Ret.

Local Abbreviation str_ := (PageCode.str_ env).
Local Abbreviation fstring := (PageCode.fstring env).

(** [class AgeRating(IGDBNotionPage[igdb_proto.AgeRating])] *)
Definition AgeRating_get_notion_properties (data : PyVal) : Prog Cls Properties :=
  dict_literal [
    ("ID", number_ (path data ["id"]));
    ("Category", select_unless "AGERATING_CATEGORY_NULL" (path data ["category"; "name"]));
    ("Content Descriptions", relation_each AgeRatingContentDescription (path data ["content_descriptions"]));
    ("Rating", select_unless "AGERATING_RATING_NULL" (path data ["rating"; "name"]));
    ("Rating Cover URL", url_ (or_none (path data ["rating_cover_url"])));
    ("Synopsis", rich_text_ (path data ["synopsis"]));
    ("Checksum", rich_text_ (path data ["checksum"]));
    ("Name", title_ (fstring [val (path data ["category"; "name"]); lit " - "; val (path data ["rating"; "name"])]))
  ].

(** [class AgeRatingContentDescription(IGDBNotionPage[igdb_proto.AgeRatingContentDescription])] *)
Definition AgeRatingContentDescription_get_notion_properties (data : PyVal) : Prog Cls Properties :=
  dict_literal [
    ("ID", number_ (path data ["id"]));
    ("Category", select_unless "AGERATINGCONTENTDESCRIPTION_CATEGORY_NULL" (path data ["category"; "name"]));
    ("Description", rich_text_ (path data ["description"]));
    ("Checksum", rich_text_ (path data ["checksum"]));
    ("Name", title_ (fstring [val (path data ["category"; "name"]); lit " - "; val (path data ["id"])]))
  ].

(** [class AlternativeName(IGDBNotionPage[igdb_proto.AlternativeName])] *)
Definition AlternativeName_get_notion_properties (data : PyVal) : Prog Cls Properties :=
  dict_literal [
    ("ID", number_ (path data ["id"]));
    ("Comment", rich_text_ (path data ["comment"]));
    ("Name", title_ (path data ["name"]));
    ("Checksum", rich_text_ (path data ["checksum"]))
  ].

(** [class Artwork(IGDBNotionPage[igdb_proto.Artwork])] *)
Definition Artwork_get_notion_properties (data : PyVal) : Prog Cls Properties :=
  dict_literal [
    ("ID", number_ (path data ["id"]));
    ("Alpha Channel", checkbox_ (path data ["alpha_channel"]));
    ("Animated", checkbox_ (path data ["animated"]));
    ("Height", number_ (path data ["height"]));
    ("Image ID", rich_text_ (path data ["image_id"]));
    ("URL", url_ (or_none (path data ["url"])));
    ("Width", number_ (path data ["width"]));
    ("Checksum", rich_text_ (path data ["checksum"]));
    ("Name", title_ (str_ (path data ["id"])))
  ].

Definition Artwork_override_hints : PyVal -> PyVal -> PyVal -> Result (PyVal * PyVal) :=
  image_hints ["url"] None ("t_thumb", "t_1080p").

(** [class Company(IGDBNotionPage[igdb_proto.Company])] *)
Definition Company_get_notion_properties (data : PyVal) : Prog Cls Properties :=
  dict_literal [
    ("ID", number_ (path data ["id"]));
    ("Change Date", date_ (isoformat (path data ["change_date"])));
    ("Change Date Category", select_ (path data ["change_date_category"; "name"]));
    ("Country", number_ (path data ["country"]));
    ("Created At", date_ (isoformat (path data ["created_at"])));
    ("Description", rich_text_ (slice MAX_TEXT_LENGTH (path data ["description"])));
    ("Logo", relation_one CompanyLogo (path data ["logo"]));
    ("Name", title_ (path data ["name"]));
    ("Slug", rich_text_ (path data ["slug"]));
    ("Start Date", date_ (isoformat (path data ["start_date"])));
    ("Start Date Category", select_ (path data ["start_date_category"; "name"]));
    ("Updated At", date_ (isoformat (path data ["updated_at"])));
    ("URL", url_ (or_none (path data ["url"])));
    ("Websites", relation_each CompanyWebsite (path data ["websites"]));
    ("Checksum", rich_text_ (path data ["checksum"]))
  ].

Definition Company_override_hints : PyVal -> PyVal -> PyVal -> Result (PyVal * PyVal) :=
  image_hints ["logo"; "url"] (Some ("t_thumb", "t_logo_med")) ("t_thumb", "t_logo_med").

(** [class CompanyLogo(IGDBNotionPage[igdb_proto.CompanyLogo])] *)
Definition CompanyLogo_get_notion_properties (data : PyVal) : Prog Cls Properties :=
  dict_literal [
    ("ID", number_ (path data ["id"]));
    ("Alpha Channel", checkbox_ (path data ["alpha_channel"]));
    ("Animated", checkbox_ (path data ["animated"]));
    ("Height", number_ (path data ["height"]));
    ("Image ID", rich_text_ (path data ["image_id"]));
    ("URL", url_ (or_none (path data ["url"])));
    ("Width", number_ (path data ["width"]));
    ("Checksum", rich_text_ (path data ["checksum"]));
    ("Name", title_ (str_ (path data ["id"])))
  ].

Definition CompanyLogo_override_hints : PyVal -> PyVal -> PyVal -> Result (PyVal * PyVal) :=
  image_hints ["url"] (Some ("t_thumb", "t_logo_med")) ("t_thumb", "t_logo_med").

(** [class CompanyWebsite(IGDBNotionPage[igdb_proto.CompanyWebsite])] *)
Definition CompanyWebsite_get_notion_properties (data : PyVal) : Prog Cls Properties :=
  category <- strip_unless_null "WEBSITE_" "WEBSITE_CATEGORY_NULL" (path data ["category"; "name"]) ;;
  dict_literal [
    ("ID", number_ (path data ["id"]));
    ("Category", select_if_truthy category);
    ("Trusted", checkbox_ (path data ["trusted"]));
    ("URL", url_ (or_none (path data ["url"])));
    ("Checksum", rich_text_ (path data ["checksum"]));
    ("Name", title_ (or_else category (or_else_ (path data ["url"]) (str_ (path data ["id"])))))
  ].

(** [class Cover(IGDBNotionPage[igdb_proto.Cover])] *)
Definition Cover_get_notion_properties (data : PyVal) : Prog Cls Properties :=
  dict_literal [
    ("ID", number_ (path data ["id"]));
    ("Alpha Channel", checkbox_ (path data ["alpha_channel"]));
    ("Animated", checkbox_ (path data ["animated"]));
    ("Height", number_ (path data ["height"]));
    ("Image ID", rich_text_ (path data ["image_id"]));
    ("URL", url_ (or_none (path data ["url"])));
    ("Width", number_ (path data ["width"]));
    ("Checksum", rich_text_ (path data ["checksum"]));
    ("Name", title_ (str_ (path data ["id"])))
  ].

Definition Cover_override_hints : PyVal -> PyVal -> PyVal -> Result (PyVal * PyVal) :=
  image_hints ["url"] None ("/t_thumb/", "/t_cover_big_2x/").

(** [class ExternalGame(IGDBNotionPage[igdb_proto.ExternalGame])] *)
Definition ExternalGame_get_notion_properties (data : PyVal) : Prog Cls Properties :=
  dict_literal [
    ("ID", number_ (path data ["id"]));
    ("Category", select_prefixed "EXTERNALGAME_" "EXTERNALGAME_CATEGORY_NULL" (path data ["category"; "name"]));
    ("Created At", date_ (isoformat (path data ["created_at"])));
    ("Name", title_ (path data ["name"]));
    ("UID", rich_text_ (path data ["uid"]));
    ("Updated At", date_ (isoformat (path data ["updated_at"])));
    ("URL", url_ (or_none (path data ["url"])));
    ("Year", number_ (path data ["year"]));
    ("Media", select_prefixed "EXTERNALGAME_" "EXTERNALGAME_MEDIA_NULL" (path data ["media"; "name"]));
    ("Platform", relation_one Platform (path data ["platform"]));
    ("Checksum", rich_text_ (path data ["checksum"]))
  ].

(** [class Franchise(IGDBNotionPage[igdb_proto.Franchise])] *)
Definition Franchise_get_notion_properties (data : PyVal) : Prog Cls Properties :=
  dict_literal [
    ("ID", number_ (path data ["id"]));
    ("Created At", date_ (isoformat (path data ["created_at"])));
    ("Name", title_ (path data ["name"]));
    ("Slug", rich_text_ (path data ["slug"]));
    ("Updated At", date_ (isoformat (path data ["updated_at"])));
    ("URL", url_ (or_none (path data ["url"])));
    ("Checksum", rich_text_ (path data ["checksum"]))
  ].

(** [class Game(IGDBNotionPage[igdb_proto.Game])] *)
Definition Game_get_notion_properties (data : PyVal) : Prog Cls Properties :=
  dict_literal [
    ("ID", number_ (path data ["id"]));
    ("Age Ratings", relation_each AgeRating (path data ["age_ratings"]));
    ("Aggregated Rating", number_ (path data ["aggregated_rating"]));
    ("Aggregated Rating Count", number_ (path data ["aggregated_rating_count"]));
    ("Alternative Names", relation_each AlternativeName (path data ["alternative_names"]));
    ("Artworks", relation_each Artwork (path data ["artworks"]));
    ("Category", select_ (path data ["category"; "name"]));
    ("Cover", relation_one Cover (path data ["cover"]));
    ("Created At", date_ (isoformat (path data ["created_at"])));
    ("External Games", relation_each ExternalGame (path data ["external_games"]));
    ("First Release Date", date_ (isoformat (path data ["first_release_date"])));
    ("Franchises", relation_each Franchise (path data ["franchises"]));
    ("Game Engines", relation_each GameEngine (path data ["game_engines"]));
    ("Game Modes", relation_each GameMode (path data ["game_modes"]));
    ("Genres", relation_each Genre (path data ["genres"]));
    ("Hypes", number_ (path data ["hypes"]));
    ("Involved Companies", relation_each InvolvedCompany (path data ["involved_companies"]));
    ("Keywords", relation_each Keyword (slice MAX_RELATION_PAGES (path data ["keywords"])));
    ("Multiplayer Modes", relation_each MultiplayerMode (path data ["multiplayer_modes"]));
    ("Name", title_ (path data ["name"]));
    ("Platforms", relation_each Platform (path data ["platforms"]));
    ("Player Perspectives", relation_each PlayerPerspective (path data ["player_perspectives"]));
    ("Rating", number_ (path data ["rating"]));
    ("Rating Count", number_ (path data ["rating_count"]));
    ("Release Dates", relation_each ReleaseDate (path data ["release_dates"]));
    ("Screenshots", relation_each Screenshot (path data ["screenshots"]));
    ("Slug", rich_text_ (path data ["slug"]));
    ("Status", select_ (path data ["status"; "name"]));
    ("Storyline", rich_text_ (slice MAX_TEXT_LENGTH (path data ["storyline"])));
    ("Summary", rich_text_ (path data ["summary"]));
    ("Themes", relation_each Theme (path data ["themes"]));
    ("Total Rating", number_ (path data ["total_rating"]));
    ("Total Rating Count", number_ (path data ["total_rating_count"]));
    ("Updated At", date_ (isoformat (path data ["updated_at"])));
    ("URL", url_ (or_none (path data ["url"])));
    ("Videos", relation_each GameVideo (path data ["videos"]));
    ("Websites", relation_each Website (path data ["websites"]));
    ("Checksum", rich_text_ (path data ["checksum"]));
    ("Language Supports", relation_each LanguageSupport (path data ["language_supports"]));
    ("Game Localizations", relation_each GameLocalization (path data ["game_localizations"]))
  ].

Definition Game_override_hints : PyVal -> PyVal -> PyVal -> Result (PyVal * PyVal) :=
  image_hints ["cover"; "url"] None ("/t_thumb/", "/t_cover_big_2x/").

(** [class GameEngine(IGDBNotionPage[igdb_proto.GameEngine])] *)
Definition GameEngine_get_notion_properties (data : PyVal) : Prog Cls Properties :=
  dict_literal [
    ("ID", number_ (path data ["id"]));
    ("Companies", relation_each Company (path data ["companies"]));
    ("Created At", date_ (isoformat (path data ["created_at"])));
    ("Description", rich_text_ (path data ["description"]));
    ("Logo", relation_one GameEngineLogo (path data ["logo"]));
    ("Name", title_ (path data ["name"]));
    ("Platforms", relation_each Platform (path data ["platforms"]));
    ("Slug", rich_text_ (path data ["slug"]));
    ("Updated At", date_ (isoformat (path data ["updated_at"])));
    ("URL", url_ (or_none (path data ["url"])));
    ("Checksum", rich_text_ (path data ["checksum"]))
  ].

Definition GameEngine_override_hints : PyVal -> PyVal -> PyVal -> Result (PyVal * PyVal) :=
  image_hints ["logo"; "url"] None ("/t_thumb/", "/t_cover_big_2x/").

(** [class GameEngineLogo(IGDBNotionPage[igdb_proto.GameEngineLogo])] *)
Definition GameEngineLogo_get_notion_properties (data : PyVal) : Prog Cls Properties :=
  dict_literal [
    ("ID", number_ (path data ["id"]));
    ("Alpha Channel", checkbox_ (path data ["alpha_channel"]));
    ("Animated", checkbox_ (path data ["animated"]));
    ("Height", number_ (path data ["height"]));
    ("Image ID", rich_text_ (path data ["image_id"]));
    ("URL", url_ (or_none (path data ["url"])));
    ("Width", number_ (path data ["width"]));
    ("Checksum", rich_text_ (path data ["checksum"]));
    ("Name", title_ (str_ (path data ["id"])))
  ].

Definition GameEngineLogo_override_hints : PyVal -> PyVal -> PyVal -> Result (PyVal * PyVal) :=
  image_hints ["url"] None ("/t_thumb/", "/t_cover_big_2x/").

(** [class GameLocalization(IGDBNotionPage[igdb_proto.GameLocalization])] *)
Definition GameLocalization_get_notion_properties (data : PyVal) : Prog Cls Properties :=
  dict_literal [
    ("ID", number_ (path data ["id"]));
    ("Name", title_ (path data ["name"]));
    ("Cover", relation_one Cover (path data ["cover"]));
    ("Region", relation_one Region (path data ["region"]));
    ("Created At", date_ (isoformat (path data ["created_at"])));
    ("Updated At", date_ (isoformat (path data ["updated_at"])));
    ("Checksum", rich_text_ (path data ["checksum"]))
  ].

Definition GameLocalization_override_hints : PyVal -> PyVal -> PyVal -> Result (PyVal * PyVal) :=
  image_hints ["cover"; "url"] None ("/t_thumb/", "/t_cover_big_2x/").

(** [class GameMode(IGDBNotionPage[igdb_proto.GameMode])] *)
Definition GameMode_get_notion_properties (data : PyVal) : Prog Cls Properties :=
  dict_literal [
    ("ID", number_ (path data ["id"]));
    ("Created At", date_ (isoformat (path data ["created_at"])));
    ("Name", title_ (path data ["name"]));
    ("Slug", rich_text_ (path data ["slug"]));
    ("Updated At", date_ (isoformat (path data ["updated_at"])));
    ("URL", url_ (or_none (path data ["url"])));
    ("Checksum", rich_text_ (path data ["checksum"]))
  ].

(** [class GameVideo(IGDBNotionPage[igdb_proto.GameVideo])] *)
Definition GameVideo_get_notion_properties (data : PyVal) : Prog Cls Properties :=
  dict_literal [
    ("ID", number_ (path data ["id"]));
    ("Name", title_ (path data ["name"]));
    ("Video ID", rich_text_ (path data ["video_id"]));
    ("Checksum", rich_text_ (path data ["checksum"]))
  ].

(** [class Genre(IGDBNotionPage[igdb_proto.Genre])] *)
Definition Genre_get_notion_properties (data : PyVal) : Prog Cls Properties :=
  dict_literal [
    ("ID", number_ (path data ["id"]));
    ("Created At", date_ (isoformat (path data ["created_at"])));
    ("Name", title_ (path data ["name"]));
    ("Slug", rich_text_ (path data ["slug"]));
    ("Updated At", date_ (isoformat (path data ["updated_at"])));
    ("URL", url_ (or_none (path data ["url"])));
    ("Checksum", rich_text_ (path data ["checksum"]))
  ].

(** [class InvolvedCompany(IGDBNotionPage[igdb_proto.InvolvedCompany])] *)
Definition InvolvedCompany_get_notion_properties (data : PyVal) : Prog Cls Properties :=
  dict_literal [
    ("ID", number_ (path data ["id"]));
    ("Company", relation_one Company (path data ["company"]));
    ("Created At", date_ (isoformat (path data ["created_at"])));
    ("Developer", checkbox_ (path data ["developer"]));
    ("Porting", checkbox_ (path data ["porting"]));
    ("Publisher", checkbox_ (path data ["publisher"]));
    ("Supporting", checkbox_ (path data ["supporting"]));
    ("Updated At", date_ (isoformat (path data ["updated_at"])));
    ("Checksum", rich_text_ (path data ["checksum"]));
    ("Name", title_ (path data ["company"; "name"]))
  ].

Definition InvolvedCompany_override_hints : PyVal -> PyVal -> PyVal -> Result (PyVal * PyVal) :=
  image_hints ["company"; "logo"; "url"] (Some ("t_thumb", "t_logo_med")) ("t_thumb", "t_logo_med").

(** [class Keyword(IGDBNotionPage[igdb_proto.Keyword])] *)
Definition Keyword_get_notion_properties (data : PyVal) : Prog Cls Properties :=
  dict_literal [
    ("ID", number_ (path data ["id"]));
    ("Created At", date_ (isoformat (path data ["created_at"])));
    ("Name", title_ (path data ["name"]));
    ("Slug", rich_text_ (path data ["slug"]));
    ("Updated At", date_ (isoformat (path data ["updated_at"])));
    ("URL", url_ (or_none (path data ["url"])));
    ("Checksum", rich_text_ (path data ["checksum"]))
  ].

(** [class Language(IGDBNotionPage[igdb_proto.Language])] *)
Definition Language_get_notion_properties (data : PyVal) : Prog Cls Properties :=
  dict_literal [
    ("ID", number_ (path data ["id"]));
    ("Name", title_ (path data ["name"]));
    ("Native Name", rich_text_ (path data ["native_name"]));
    ("Locale", rich_text_ (path data ["locale"]));
    ("Created At", date_ (isoformat (path data ["created_at"])));
    ("Updated At", date_ (isoformat (path data ["updated_at"])));
    ("Checksum", rich_text_ (path data ["checksum"]))
  ].

(** [class LanguageSupport(IGDBNotionPage[igdb_proto.LanguageSupport])] *)
Definition LanguageSupport_get_notion_properties (data : PyVal) : Prog Cls Properties :=
  dict_literal [
    ("ID", number_ (path data ["id"]));
    ("Language", relation_one Language (path data ["language"]));
    ("Language Support Type", relation_one LanguageSupportType (path data ["language_support_type"]));
    ("Created At", date_ (isoformat (path data ["created_at"])));
    ("Updated At", date_ (isoformat (path data ["updated_at"])));
    ("Checksum", rich_text_ (path data ["checksum"]));
    ("Name", title_ (fstring [val (path data ["language"; "name"]); lit " - "; val (path data ["language_support_type"; "name"])]))
  ].

(** [class LanguageSupportType(IGDBNotionPage[igdb_proto.LanguageSupportType])] *)
Definition LanguageSupportType_get_notion_properties (data : PyVal) : Prog Cls Properties :=
  dict_literal [
    ("ID", number_ (path data ["id"]));
    ("Name", title_ (path data ["name"]));
    ("Created At", date_ (isoformat (path data ["created_at"])));
    ("Updated At", date_ (isoformat (path data ["updated_at"])));
    ("Checksum", rich_text_ (path data ["checksum"]))
  ].

(** [class MultiplayerMode(IGDBNotionPage[igdb_proto.MultiplayerMode])] *)
Definition MultiplayerMode_get_notion_properties (data : PyVal) : Prog Cls Properties :=
  dict_literal [
    ("ID", number_ (path data ["id"]));
    ("Campaign Coop", checkbox_ (path data ["campaigncoop"]));
    ("Drop In", checkbox_ (path data ["dropin"]));
    ("LAN Coop", checkbox_ (path data ["lancoop"]));
    ("Offline Coop", checkbox_ (path data ["offlinecoop"]));
    ("Offline Coop Max", number_ (path data ["offlinecoopmax"]));
    ("Offline Max", number_ (path data ["offlinemax"]));
    ("Online Coop", checkbox_ (path data ["onlinecoop"]));
    ("Online Coop Max", number_ (path data ["onlinecoopmax"]));
    ("Online Max", number_ (path data ["onlinemax"]));
    ("Platform", relation_one Platform (path data ["platform"]));
    ("Split Screen", checkbox_ (path data ["splitscreen"]));
    ("Split Screen Online", checkbox_ (path data ["splitscreenonline"]));
    ("Checksum", rich_text_ (path data ["checksum"]));
    ("Name", title_ (fstring [val (path data ["platform"; "name"]); lit " - "; val (path data ["id"])]))
  ].

(** [class Platform(IGDBNotionPage[igdb_proto.Platform])] *)
Definition Platform_get_notion_properties (data : PyVal) : Prog Cls Properties :=
  dict_literal [
    ("ID", number_ (path data ["id"]));
    ("Abbreviation", rich_text_ (path data ["abbreviation"]));
    ("Alternative Name", rich_text_ (path data ["alternative_name"]));
    ("Category", select_unless "PLATFORM_CATEGORY_NULL" (path data ["category"; "name"]));
    ("Created At", date_ (isoformat (path data ["created_at"])));
    ("Generation", number_ (path data ["generation"]));
    ("Name", title_ (path data ["name"]));
    ("Platform Logo", relation_one PlatformLogo (path data ["platform_logo"]));
    ("Platform Family", relation_one PlatformFamily (path data ["platform_family"]));
    ("Slug", rich_text_ (path data ["slug"]));
    ("Summary", rich_text_ (path data ["summary"]));
    ("Updated At", date_ (isoformat (path data ["updated_at"])));
    ("URL", url_ (or_none (path data ["url"])));
    ("Versions", relation_each PlatformVersion (path data ["versions"]));
    ("Websites", relation_each PlatformWebsite (path data ["websites"]));
    ("Checksum", rich_text_ (path data ["checksum"]))
  ].

Definition Platform_override_hints : PyVal -> PyVal -> PyVal -> Result (PyVal * PyVal) :=
  image_hints ["platform_logo"; "url"] (Some ("t_thumb", "t_logo_med")) ("t_thumb", "t_logo_med").

(** [class PlatformFamily(IGDBNotionPage[igdb_proto.PlatformFamily])] *)
Definition PlatformFamily_get_notion_properties (data : PyVal) : Prog Cls Properties :=
  dict_literal [
    ("ID", number_ (path data ["id"]));
    ("Name", title_ (path data ["name"]));
    ("Slug", rich_text_ (path data ["slug"]));
    ("Checksum", rich_text_ (path data ["checksum"]))
  ].

(** [class PlatformLogo(IGDBNotionPage[igdb_proto.PlatformLogo])] *)
Definition PlatformLogo_get_notion_properties (data : PyVal) : Prog Cls Properties :=
  dict_literal [
    ("ID", number_ (path data ["id"]));
    ("Alpha Channel", checkbox_ (path data ["alpha_channel"]));
    ("Animated", checkbox_ (path data ["animated"]));
    ("Height", number_ (path data ["height"]));
    ("Image ID", rich_text_ (path data ["image_id"]));
    ("URL", url_ (or_none (path data ["url"])));
    ("Width", number_ (path data ["width"]));
    ("Checksum", rich_text_ (path data ["checksum"]));
    ("Name", title_ (str_ (path data ["id"])))
  ].

Definition PlatformLogo_override_hints : PyVal -> PyVal -> PyVal -> Result (PyVal * PyVal) :=
  image_hints ["url"] (Some ("t_thumb", "t_logo_med")) ("t_thumb", "t_logo_med").

(** [class PlatformVersion(IGDBNotionPage[igdb_proto.PlatformVersion])] *)
Definition PlatformVersion_get_notion_properties (data : PyVal) : Prog Cls Properties :=
  dict_literal [
    ("ID", number_ (path data ["id"]));
    ("Companies", relation_each PlatformVersionCompany (path data ["companies"]));
    ("Connectivity", rich_text_ (path data ["connectivity"]));
    ("CPU", rich_text_ (path data ["cpu"]));
    ("Graphics", rich_text_ (path data ["graphics"]));
    ("Main Manufacturer", relation_one PlatformVersionCompany (path data ["main_manufacturer"]));
    ("Media", rich_text_ (path data ["media"]));
    ("Memory", rich_text_ (path data ["memory"]));
    ("Name", title_ (path data ["name"]));
    ("Online", rich_text_ (path data ["online"]));
    ("OS", rich_text_ (path data ["os"]));
    ("Output", rich_text_ (path data ["output"]));
    ("Platform Logo", relation_one PlatformLogo (path data ["platform_logo"]));
    ("Release Dates", relation_each PlatformVersionReleaseDate (path data ["platform_version_release_dates"]));
    ("Resolutions", rich_text_ (path data ["resolutions"]));
    ("Slug", rich_text_ (path data ["slug"]));
    ("Sound", rich_text_ (path data ["sound"]));
    ("Storage", rich_text_ (path data ["storage"]));
    ("Summary", rich_text_ (slice MAX_TEXT_LENGTH (path data ["summary"])));
    ("URL", url_ (or_none (path data ["url"])));
    ("Checksum", rich_text_ (path data ["checksum"]))
  ].

Definition PlatformVersion_override_hints : PyVal -> PyVal -> PyVal -> Result (PyVal * PyVal) :=
  image_hints ["platform_logo"; "url"] (Some ("t_thumb", "t_logo_med")) ("t_thumb", "t_logo_med").

(** [class PlatformVersionCompany(IGDBNotionPage[igdb_proto.PlatformVersionCompany])] *)
Definition PlatformVersionCompany_get_notion_properties (data : PyVal) : Prog Cls Properties :=
  dict_literal [
    ("ID", number_ (path data ["id"]));
    ("Comment", rich_text_ (path data ["comment"]));
    ("Company", relation_one Company (path data ["company"]));
    ("Developer", checkbox_ (path data ["developer"]));
    ("Manufacturer", checkbox_ (path data ["manufacturer"]));
    ("Checksum", rich_text_ (path data ["checksum"]));
    ("Name", title_ (fstring [val (path data ["company"; "name"]); lit " - "; val (path data ["id"])]))
  ].

(** [class PlatformVersionReleaseDate(IGDBNotionPage[igdb_proto.PlatformVersionReleaseDate])] *)
Definition PlatformVersionReleaseDate_get_notion_properties (data : PyVal) : Prog Cls Properties :=
  dict_literal [
    ("ID", number_ (path data ["id"]));
    ("Category", select_ (path data ["category"; "name"]));
    ("Created At", date_ (isoformat (path data ["created_at"])));
    ("Date", date_ (isoformat (path data ["date"])));
    ("Human", rich_text_ (path data ["human"]));
    ("M", number_ (path data ["m"]));
    ("Region", select_unless "REGION_REGION_NULL" (path data ["region"; "name"]));
    ("Updated At", date_ (isoformat (path data ["updated_at"])));
    ("Y", number_ (path data ["y"]));
    ("Checksum", rich_text_ (path data ["checksum"]));
    ("Name", title_ (fstring [val (path data ["y"]); lit "/"; val (path data ["m"])]))
  ].

(** [class PlatformWebsite(IGDBNotionPage[igdb_proto.PlatformWebsite])] *)
Definition PlatformWebsite_get_notion_properties (data : PyVal) : Prog Cls Properties :=
  category <- strip_unless_null "WEBSITE_" "WEBSITE_CATEGORY_NULL" (path data ["category"; "name"]) ;;
  dict_literal [
    ("ID", number_ (path data ["id"]));
    ("Category", select_if_truthy category);
    ("Trusted", checkbox_ (path data ["trusted"]));
    ("URL", url_ (or_none (path data ["url"])));
    ("Checksum", rich_text_ (path data ["checksum"]));
    ("Name", title_ (or_else category (or_else_ (path data ["url"]) (str_ (path data ["id"])))))
  ].

(** [class PlayerPerspective(IGDBNotionPage[igdb_proto.PlayerPerspective])] *)
Definition PlayerPerspective_get_notion_properties (data : PyVal) : Prog Cls Properties :=
  dict_literal [
    ("ID", number_ (path data ["id"]));
    ("Created At", date_ (isoformat (path data ["created_at"])));
    ("Name", title_ (path data ["name"]));
    ("Slug", rich_text_ (path data ["slug"]));
    ("Updated At", date_ (isoformat (path data ["updated_at"])));
    ("URL", url_ (or_none (path data ["url"])));
    ("Checksum", rich_text_ (path data ["checksum"]))
  ].

(** [class Region(IGDBNotionPage[igdb_proto.Region])] *)
Definition Region_get_notion_properties (data : PyVal) : Prog Cls Properties :=
  dict_literal [
    ("ID", number_ (path data ["id"]));
    ("Name", title_ (path data ["name"]));
    ("Category", rich_text_ (path data ["category"]));
    ("Identifier", rich_text_ (path data ["identifier"]));
    ("Created At", date_ (isoformat (path data ["created_at"])));
    ("Updated At", date_ (isoformat (path data ["updated_at"])));
    ("Checksum", rich_text_ (path data ["checksum"]))
  ].

(** [class ReleaseDate(IGDBNotionPage[igdb_proto.ReleaseDate])] *)
Definition ReleaseDate_get_notion_properties (data : PyVal) : Prog Cls Properties :=
  dict_literal [
    ("ID", number_ (path data ["id"]));
    ("Category", select_ (path data ["category"; "name"]));
    ("Created At", date_ (isoformat (path data ["created_at"])));
    ("Date", date_ (isoformat (path data ["date"])));
    ("Human", rich_text_ (path data ["human"]));
    ("M", number_ (path data ["m"]));
    ("Platform", relation_one Platform (path data ["platform"]));
    ("Region", select_unless "REGION_REGION_NULL" (path data ["region"; "name"]));
    ("Updated At", date_ (isoformat (path data ["updated_at"])));
    ("Y", number_ (path data ["y"]));
    ("Checksum", rich_text_ (path data ["checksum"]));
    ("Status", relation_one ReleaseDateStatus (path data ["status"]));
    ("Name", title_ (fstring [val (path data ["platform"; "name"]); lit " - "; val (path data ["y"]); lit "/"; val (path data ["m"])]))
  ].

(** [class ReleaseDateStatus(IGDBNotionPage[igdb_proto.ReleaseDateStatus])] *)
Definition ReleaseDateStatus_get_notion_properties (data : PyVal) : Prog Cls Properties :=
  dict_literal [
    ("ID", number_ (path data ["id"]));
    ("Name", title_ (path data ["name"]));
    ("Description", rich_text_ (path data ["description"]));
    ("Created At", date_ (isoformat (path data ["created_at"])));
    ("Updated At", date_ (isoformat (path data ["updated_at"])));
    ("Checksum", rich_text_ (path data ["checksum"]))
  ].

(** [class Screenshot(IGDBNotionPage[igdb_proto.Screenshot])] *)
Definition Screenshot_get_notion_properties (data : PyVal) : Prog Cls Properties :=
  dict_literal [
    ("ID", number_ (path data ["id"]));
    ("Alpha Channel", checkbox_ (path data ["alpha_channel"]));
    ("Animated", checkbox_ (path data ["animated"]));
    ("Height", number_ (path data ["height"]));
    ("Image ID", rich_text_ (path data ["image_id"]));
    ("URL", url_ (or_none (path data ["url"])));
    ("Width", number_ (path data ["width"]));
    ("Checksum", rich_text_ (path data ["checksum"]));
    ("Name", title_ (str_ (path data ["id"])))
  ].

Definition Screenshot_override_hints : PyVal -> PyVal -> PyVal -> Result (PyVal * PyVal) :=
  image_hints ["url"] None ("t_thumb", "t_1080p").

(** [class Theme(IGDBNotionPage[igdb_proto.Theme])] *)
Definition Theme_get_notion_properties (data : PyVal) : Prog Cls Properties :=
  dict_literal [
    ("ID", number_ (path data ["id"]));
    ("Created At", date_ (isoformat (path data ["created_at"])));
    ("Name", title_ (path data ["name"]));
    ("Slug", rich_text_ (path data ["slug"]));
    ("Updated At", date_ (isoformat (path data ["updated_at"])));
    ("URL", url_ (or_none (path data ["url"])));
    ("Checksum", rich_text_ (path data ["checksum"]))
  ].

(** [class Website(IGDBNotionPage[igdb_proto.Website])] *)
Definition Website_get_notion_properties (data : PyVal) : Prog Cls Properties :=
  category <- strip_unless_null "WEBSITE_" "WEBSITE_CATEGORY_NULL" (path data ["category"; "name"]) ;;
  dict_literal [
    ("ID", number_ (path data ["id"]));
    ("Category", select_if_truthy category);
    ("Trusted", checkbox_ (path data ["trusted"]));
    ("URL", url_ (or_none (path data ["url"])));
    ("Checksum", rich_text_ (path data ["checksum"]));
    ("Name", title_ (or_else category (or_else_ (path data ["url"]) (str_ (path data ["id"])))))
  ].

End WithBuiltins.

End Igdb.

(* ===================================================================== *)
(** * Dataclasses *)
(* ===================================================================== *)

Module Dataclass.

Open Scope string_scope.

(** [dict(mapping)] *)
Definition as_dict (mapping : PyVal) : Result (list (string * PyVal)) :=
  match mapping with
  | PyDict items => Ok items
  | _ => Raise (TypeError "mapping expected")
  end.

(** [dic.pop(key, default)] *)
Definition pop (key : string) (default : PyVal) (dic : list (string * PyVal))
  : PyVal * list (string * PyVal) :=
  match assoc key dic with
  | Some v => (v, assoc_remove key dic)
  | None => (default, dic)
  end.

(** [dic[key]] *)
Definition getitem (dic : list (string * PyVal)) (key : string) : Result PyVal :=
  match assoc key dic with
  | Some v => Ok v
  | None => Raise (OtherError "KeyError")
  end.

(** [tuple(x for x in v.split(", ") if x)] *)
Definition split_names (v : PyVal) : Result PyVal :=
  match v with
  | PyStr s => Ok (PyTuple (map PyStr (filter nonempty (split (py ", ") s))))
  | _ => Raise (AttributeError "split")
  end.

(** The keyword arguments of [cls( **dic, k1=v1, ...)]: a keyword given
    twice is a [TypeError]. *)
Definition keywords (dic explicit : list (string * PyVal))
  : Result (list (string * PyVal)) :=
  if existsb (fun kv => match assoc (fst kv) dic with
                        | Some _ => true
                        | None => false
                        end) explicit
  then Raise (TypeError "got multiple values for keyword argument")
  else Ok (dic ++ explicit)%list.

(** The instance a dataclass builds from keyword arguments: each declared
    field takes its keyword or its default, and a field with neither is a
    validation error.  Keywords that name no field are dropped, and the
    type validation that pydantic adds is left out: the values are kept as
    they come. *)
Fixpoint bind_fields (fields : list (string * option PyVal))
    (kwargs : list (string * PyVal)) : Result (list (string * PyVal)) :=
  match fields with
  | [] => Ok []
  | (name, default) :: rest =>
      rbind
        (match assoc name kwargs, default with
         | Some v, _ => Ok v
         | None, Some d => Ok d
         | None, None => Raise (OtherError "ValidationError")
         end)
        (fun v => rbind (bind_fields rest kwargs) (fun attrs => Ok ((name, v) :: attrs)))
  end.

Definition construct (cls : string) (fields : list (string * option PyVal))
    (kwargs : list (string * PyVal)) : Result PyVal :=
  rbind (bind_fields fields kwargs) (fun attrs => Ok (PyObj cls attrs)).

End Dataclass.

(* ===================================================================== *)
(** * hltb_notion.py *)
(* ===================================================================== *)

Module Hltb.

Import Notion PageCode Dataclass.
Open Scope prog_scope.
Open Scope string_scope.

(** The fields of [HowLongToBeatGame], with their defaults *)
Definition HowLongToBeatGame_fields : list (string * option PyVal) :=
  [("game_id", None); ("game_name", None); ("game_name_date", None);
   ("game_alias", None); ("game_type", None); ("game_image", None);
   ("comp_lvl_combine", None); ("comp_lvl_sp", None); ("comp_lvl_co", None);
   ("comp_lvl_mp", None); ("comp_main", None); ("comp_plus", None);
   ("comp_100", None); ("comp_all", None); ("comp_main_count", None);
   ("comp_plus_count", None); ("comp_100_count", None);
   ("comp_all_count", None); ("invested_co", None); ("invested_mp", None);
   ("invested_co_count", None); ("invested_mp_count", None);
   ("count_comp", None); ("count_speedrun", None); ("count_backlog", None);
   ("count_review", None); ("review_score", None); ("count_playing", None);
   ("count_retired", None); ("profile_popular", None);
   ("release_world", None); ("game_image_url", None);
   ("game_web_link", None); ("similarity", None);
   ("comp_lvl_spd", (Some PyNone)); ("profile_steam", (Some PyNone));
   ("profile_devs", (Some (PyTuple [])));
   ("profile_platforms", (Some (PyTuple [])))].

Section WithBuiltins.

Variable env : Builtins.

(** [HowLongToBeatGame.from_dict] *)
Definition HowLongToBeatGame_from_dict (mapping : PyVal) : Result PyVal :=
  rbind (as_dict mapping) (fun dic =>
  let '(profile_dev, dic) := pop "profile_dev" (PyStr []) dic in
  rbind (split_names profile_dev) (fun profile_devs =>
  let '(profile_platform, dic) := pop "profile_platform" (PyStr []) dic in
  rbind (split_names profile_platform) (fun profile_platforms =>
  rbind (getitem dic "game_image") (fun game_image =>
  rbind (getitem dic "game_id") (fun game_id =>
  rbind (keywords dic
           [("profile_devs", profile_devs);
            ("profile_platforms", profile_platforms);
            ("game_image_url",
             PyStr (IMAGE_URL_PREFIX env ++ py_str env game_image)%list);
            ("game_web_link",
             PyStr (GAME_URL_PREFIX env ++ py_str env game_id)%list)])
    (construct "HowLongToBeatGame" HowLongToBeatGame_fields)))))).

(** A similarity score as a number; the scores are floats in [0, 1]. *)
Definition as_number (v : PyVal) : Result Q :=
  match v with
  | PyFloat q => Ok q
  | PyInt z => Ok (inject_Z z)
  | _ => Raise (TypeError "'>' not supported")
  end.

(** [element.similarity], read as a number *)
Definition similarity_of (x : PyVal) : Result Q :=
  rbind (getattr x "similarity") as_number.

Definition Qgt_bool (a b : Q) : bool := negb (Qle_bool a b).

(** [max(results, key=lambda element: element.similarity)]: the first
    element whose key no later key exceeds. *)
Fixpoint max_loop (best best_key : PyVal) (rest : list PyVal) : Result PyVal :=
  match rest with
  | [] => Ok best
  | x :: t =>
      rbind (getattr x "similarity") (fun k =>
      rbind (as_number k) (fun a =>
      rbind (as_number best_key) (fun b =>
      if Qgt_bool a b then max_loop x k t else max_loop best best_key t)))
  end.

Definition max_by_similarity (results : list PyVal) : Result PyVal :=
  match results with
  | [] => Raise (ValueError "max() arg is an empty sequence")
  | x :: t => rbind (getattr x "similarity") (fun k => max_loop x k t)
  end.

(** [HLTBNotionPage.get_best_match], from what
    [hltb_wrapper.search(name, ...)] returned *)
Definition get_best_match (results : PyVal) : Result PyVal :=
  if negb (truthy results) then Ok PyNone
  else
    rbind (py_iter results) (fun l =>
    rbind (max_by_similarity l) (fun best =>
    rbind (getattr best "json_content") (fun json_content =>
    rbind (getattr best "similarity") (fun similarity =>
    rbind (as_dict json_content) (fun items =>
    HowLongToBeatGame_from_dict (PyDict (assoc_set "similarity" similarity items))))))).

Definition HLTBNotionPage_get_notion_properties (data : PyVal) : Prog Cls Properties :=
  dict_literal [
    ("ID", number_ (path data ["game_id"]));
    ("Name", title_ (path data ["game_name"]));
    ("Alias", rich_text_ (path data ["game_alias"]));
    ("Type", select_ (path data ["game_type"]));
    ("Main Story", number_ (path data ["comp_main"]));
    ("Main+Extras", number_ (path data ["comp_plus"]));
    ("Completionist", number_ (path data ["comp_100"]));
    ("All Styles", number_ (path data ["comp_all"]));
    ("Main Story Count", number_ (path data ["comp_main_count"]));
    ("Main+Extras Count", number_ (path data ["comp_plus_count"]));
    ("Completionist Count", number_ (path data ["comp_100_count"]));
    ("All Styles Count", number_ (path data ["comp_all_count"]));
    ("Co-op", number_ (path data ["invested_co"]));
    ("Competitive", number_ (path data ["invested_mp"]));
    ("Co-op Count", number_ (path data ["invested_co_count"]));
    ("Competitive Count", number_ (path data ["invested_mp_count"]));
    ("Review Score", number_ (path data ["review_score"]));
    ("Review Count", number_ (path data ["count_review"]));
    ("Count Completed", number_ (path data ["count_comp"]));
    ("Count Speedruns", number_ (path data ["count_speedrun"]));
    ("Count Backlogs", number_ (path data ["count_backlog"]));
    ("Count Playing", number_ (path data ["count_playing"]));
    ("Count Retired", number_ (path data ["count_retired"]));
    ("Popularity", number_ (path data ["profile_popular"]));
    ("Steam ID", number_ (path data ["profile_steam"]));
    ("Release Year", number_ (path data ["release_world"]));
    ("Profile Devs", multi_select_ (path data ["profile_devs"]));
    ("Profile Platforms", multi_select_ (path data ["profile_platforms"]));
    ("Image URL", url_ (path data ["game_image_url"]));
    ("URL", url_ (path data ["game_web_link"]));
    ("Similarity", number_ (path data ["similarity"]));
    ("Game Name Date", number_ (path data ["game_name_date"]));
    ("comp_lvl_combine", number_ (path data ["comp_lvl_combine"]));
    ("comp_lvl_sp", number_ (path data ["comp_lvl_sp"]));
    ("comp_lvl_co", number_ (path data ["comp_lvl_co"]));
    ("comp_lvl_mp", number_ (path data ["comp_lvl_mp"]));
    ("comp_lvl_spd", number_ (path data ["comp_lvl_spd"]))
  ].

(** [HLTBNotionPage.retrieve_from_data] *)
Definition HLTBNotionPage_retrieve_from_data (data : PyVal)
  : Prog Cls (option Page) :=
  if negb (hasattr data "game_id")
  then Throw (ValueError "data has no 'game_id' attribute")
  else
    v <- lift (getattr data "game_id") ;;
    QueryFirst HLTBNotionPage (NumberEquals "ID" v) Ret.

(** The override of [retrieve_or_create_from_data]:
    [super()...(data, icon_url or data.game_image_url,
                      cover_url or data.game_image_url)] *)
Definition HLTBNotionPage_override_hints (data icon_url cover_url : PyVal)
  : Result (PyVal * PyVal) :=
  rbind (if truthy icon_url then Ok icon_url else getattr data "game_image_url")
    (fun icon => 
  rbind (if truthy cover_url then Ok cover_url else getattr data "game_image_url")
    (fun cover => Ok (icon, cover))).

End WithBuiltins.

End Hltb.

(* ===================================================================== *)
(** * steamspy_notion.py *)
(* ===================================================================== *)

Module SteamSpy.

Import Notion PageCode Dataclass.
Open Scope prog_scope.
Open Scope string_scope.

(** The fields of [SteamSpyGame], with their defaults *)
Definition SteamSpyGame_fields : list (string * option PyVal) :=
  [("appid", None); ("name", None); ("developer", None); ("publisher", None);
   ("positive", None); ("negative", None); ("userscore", None);
   ("owners", None); ("average_forever", None); ("average_2weeks", None);
   ("median_forever", None); ("median_2weeks", None); ("ccu", None);
   ("score_rank", (Some PyNone)); ("price", (Some PyNone));
   ("initialprice", (Some PyNone)); ("discount", (Some PyNone));
   ("languages", (Some (PyTuple []))); ("genres", (Some (PyTuple [])));
   ("tags", (Some (PyTuple [])))].

Section WithBuiltins.

Variable env : Builtins.

(** [int(v) if v else None] *)
Definition int_or_none (v : PyVal) : Result PyVal :=
  if truthy v then int_of env v else Ok PyNone.

(** [tuple(x for x in v.split(", ") if x) if v else ()] *)
Definition names_or_empty (v : PyVal) : Result PyVal :=
  if truthy v then split_names v else Ok (PyTuple []).

(** [SteamSpyGame.from_dict] *)
Definition SteamSpyGame_from_dict (mapping : PyVal) : Result PyVal :=
  rbind (as_dict mapping) (fun dic =>
  let '(score_rank, dic) := pop "score_rank" (PyStr []) dic in
  let '(price, dic) := pop "price" (PyStr []) dic in
  let '(initialprice, dic) := pop "initialprice" (PyStr []) dic in
  let '(discount, dic) := pop "discount" (PyStr []) dic in
  let '(languages_str, dic) := pop "languages" (PyStr []) dic in
  rbind (names_or_empty languages_str) (fun languages =>
  let '(genres_str, dic) := pop "genre" (PyStr []) dic in
  rbind (names_or_empty genres_str) (fun genres =>
  let '(tags_obj, dic) := pop "tags" (PyDict []) dic in
  rbind
    (if truthy tags_obj then
       match tags_obj with
       | PyDict items => Ok (PyTuple (map (fun kv => PyStr (py (fst kv))) items))
       | _ => rbind (py_iter tags_obj) (fun l => Ok (PyTuple l))
       end
     else Ok (PyTuple []))
    (fun tags =>
  rbind (int_or_none score_rank) (fun score_rank =>
  rbind (int_or_none price) (fun price =>
  rbind (int_or_none initialprice) (fun initialprice =>
  rbind (int_or_none discount) (fun discount =>
  rbind (keywords dic
           [("score_rank", score_rank); ("price", price);
            ("initialprice", initialprice); ("discount", discount);
            ("languages", languages); ("genres", genres); ("tags", tags)])
    (construct "SteamSpyGame" SteamSpyGame_fields))))))))).

(** [SteamSpySession.get_steam_spy_data], from the response of the GET:
    [from_dict(response.json()) if response.ok else None] *)
Definition get_steam_spy_data (response : PyVal) : Result PyVal :=
  rbind (getattr response "ok") (fun ok =>
  if truthy ok
  then rbind (getattr response "json") SteamSpyGame_from_dict
  else Ok PyNone).

Definition SteamSpyNotionPage_get_notion_properties (data : PyVal) : Prog Cls Properties :=
  dict_literal [
    ("ID", number_ (path data ["appid"]));
    ("Name", title_ (path data ["name"]));
    ("Developer", rich_text_ (path data ["developer"]));
    ("Publisher", rich_text_ (path data ["publisher"]));
    ("Score Rank", number_ (path data ["score_rank"]));
    ("Positive", number_ (path data ["positive"]));
    ("Negative", number_ (path data ["negative"]));
    ("User Score", number_ (path data ["userscore"]));
    ("Owners", rich_text_ (path data ["owners"]));
    ("Average Forever", number_ (path data ["average_forever"]));
    ("Average 2 Weeks", number_ (path data ["average_2weeks"]));
    ("Median Forever", number_ (path data ["median_forever"]));
    ("Median 2 Weeks", number_ (path data ["median_2weeks"]));
    ("Price", number_ (path data ["price"]));
    ("Initial Price", number_ (path data ["initialprice"]));
    ("Discount", number_ (path data ["discount"]));
    ("CCU", number_ (path data ["ccu"]));
    ("Languages", multi_select_ (path data ["languages"]));
    ("Genres", multi_select_ (path data ["genres"]));
    ("Tags", multi_select_ (path data ["tags"]))
  ].

(** [SteamSpyNotionPage.retrieve_from_data] *)
Definition SteamSpyNotionPage_retrieve_from_data (data : PyVal)
  : Prog Cls (option Page) :=
  if negb (hasattr data "appid")
  then Throw (ValueError "data has no 'appid' attribute")
  else
    v <- lift (getattr data "appid") ;;
    QueryFirst SteamSpyNotionPage (NumberEquals "ID" v) Ret.

Definition base_url : str :=
  py "https://shared.cloudflare.steamstatic.com/store_item_assets".

(** The override of [retrieve_or_create_from_data]:
    [icon_url or f"{base_url}/steam/apps/{data.appid}/logo.png"],
    [cover_url or f"{base_url}/steam/apps/{data.appid}/library_hero.jpg"] *)
Definition SteamSpyNotionPage_override_hints (data icon_url cover_url : PyVal)
  : Result (PyVal * PyVal) :=
  let asset (file : string) :=
    rbind (getattr data "appid") (fun appid =>
      Ok (PyStr (base_url ++ py "/steam/apps/" ++ py_str env appid ++ py file)%list)) in
  rbind (if truthy icon_url then Ok icon_url else asset "/logo.png") (fun icon =>
  rbind (if truthy cover_url then Ok cover_url else asset "/library_hero.jpg")
    (fun cover => Ok (icon, cover))).

End WithBuiltins.

End SteamSpy.

(* ===================================================================== *)
(** * custom_notion.py *)
(* ===================================================================== *)

Module Custom.

Import Notion PageCode.
Open Scope prog_scope.
Open Scope string_scope.

(** [CustomGame(igdb, hltb, steamspy)] *)
Definition CustomGame (igdb hltb steamspy : PyVal) : PyVal :=
  PyObj "CustomGame" [("igdb", igdb); ("hltb", hltb); ("steamspy", steamspy)].

(** [{"relation": [{"id": str(cls.retrieve_or_create_from_data(e).id)}]
                  if e else []}] *)
Definition relation_if (cls : Cls) (e : Prog Cls PyVal) : Prog Cls PropValue :=
  t <- e ;;
  if truthy t then relation_one cls e else Ret (relation []).

(** [CustomGamePage.get_notion_properties] *)
Definition CustomGamePage_get_notion_properties (data : PyVal)
  : Prog Cls Properties :=
  dict_literal [
    ("Name", title_ (path data ["igdb"; "name"]));
    ("IGDB", relation_one Game (path data ["igdb"]));
    ("How Long to Beat", relation_if HLTBNotionPage (path data ["hltb"]));
    ("Steam Spy", relation_if SteamSpyNotionPage (path data ["steamspy"]))
  ].

(** [CustomGamePage.retrieve_from_data]; a page handle is truthy, so the
    [if not igdb_page] branch is never taken. *)
Definition CustomGamePage_retrieve_from_data (data : PyVal)
  : Prog Cls (option Page) :=
  igdb <- path data ["igdb"] ;;
  igdb_page <- Call Game igdb [] Ret ;;
  QueryFirst CustomGamePage (RelationContains "IGDB" (id igdb_page)) Ret.

(** The override of [retrieve_or_create_from_data] *)
Definition CustomGamePage_override_hints (env : Builtins)
  : PyVal -> PyVal -> PyVal -> Result (PyVal * PyVal) :=
  Igdb.image_hints env ["igdb"; "cover"; "url"] None
    ("/t_thumb/", "/t_cover_big_2x/").

End Custom.

(* ===================================================================== *)
(** * main.py: the registered classes *)
(* ===================================================================== *)

Module Main.

Import Notion.

(** The methods of each class in [notion_db_types] *)
Definition classes (env : Builtins) (c : Cls) : PageClass Cls :=
  match c with
  | AgeRating =>
      mkPageClass (Igdb.AgeRating_get_notion_properties env)
        (Igdb.IGDBNotionPage_retrieve_from_data AgeRating) None
  | AgeRatingContentDescription =>
      mkPageClass (Igdb.AgeRatingContentDescription_get_notion_properties env)
        (Igdb.IGDBNotionPage_retrieve_from_data AgeRatingContentDescription) None
  | AlternativeName =>
      mkPageClass (Igdb.AlternativeName_get_notion_properties)
        (Igdb.IGDBNotionPage_retrieve_from_data AlternativeName) None
  | Artwork =>
      mkPageClass (Igdb.Artwork_get_notion_properties env)
        (Igdb.IGDBNotionPage_retrieve_from_data Artwork) (Some (Igdb.Artwork_override_hints env))
  | Company =>
      mkPageClass (Igdb.Company_get_notion_properties)
        (Igdb.IGDBNotionPage_retrieve_from_data Company) (Some (Igdb.Company_override_hints env))
  | CompanyLogo =>
      mkPageClass (Igdb.CompanyLogo_get_notion_properties env)
        (Igdb.IGDBNotionPage_retrieve_from_data CompanyLogo) (Some (Igdb.CompanyLogo_override_hints env))
  | CompanyWebsite =>
      mkPageClass (Igdb.CompanyWebsite_get_notion_properties env)
        (Igdb.IGDBNotionPage_retrieve_from_data CompanyWebsite) None
  | Cover =>
      mkPageClass (Igdb.Cover_get_notion_properties env)
        (Igdb.IGDBNotionPage_retrieve_from_data Cover) (Some (Igdb.Cover_override_hints env))
  | ExternalGame =>
      mkPageClass (Igdb.ExternalGame_get_notion_properties)
        (Igdb.IGDBNotionPage_retrieve_from_data ExternalGame) None
  | Franchise =>
      mkPageClass (Igdb.Franchise_get_notion_properties)
        (Igdb.IGDBNotionPage_retrieve_from_data Franchise) None
  | Game =>
      mkPageClass (Igdb.Game_get_notion_properties)
        (Igdb.IGDBNotionPage_retrieve_from_data Game) (Some (Igdb.Game_override_hints env))
  | GameEngine =>
      mkPageClass (Igdb.GameEngine_get_notion_properties)
        (Igdb.IGDBNotionPage_retrieve_from_data GameEngine) (Some (Igdb.GameEngine_override_hints env))
  | GameEngineLogo =>
      mkPageClass (Igdb.GameEngineLogo_get_notion_properties env)
        (Igdb.IGDBNotionPage_retrieve_from_data GameEngineLogo) (Some (Igdb.GameEngineLogo_override_hints env))
  | GameLocalization =>
      mkPageClass (Igdb.GameLocalization_get_notion_properties)
        (Igdb.IGDBNotionPage_retrieve_from_data GameLocalization) (Some (Igdb.GameLocalization_override_hints env))
  | GameMode =>
      mkPageClass (Igdb.GameMode_get_notion_properties)
        (Igdb.IGDBNotionPage_retrieve_from_data GameMode) None
  | GameVideo =>
      mkPageClass (Igdb.GameVideo_get_notion_properties)
        (Igdb.IGDBNotionPage_retrieve_from_data GameVideo) None
  | Genre =>
      mkPageClass (Igdb.Genre_get_notion_properties)
        (Igdb.IGDBNotionPage_retrieve_from_data Genre) None
  | InvolvedCompany =>
      mkPageClass (Igdb.InvolvedCompany_get_notion_properties)
        (Igdb.IGDBNotionPage_retrieve_from_data InvolvedCompany) (Some (Igdb.InvolvedCompany_override_hints env))
  | Keyword =>
      mkPageClass (Igdb.Keyword_get_notion_properties)
        (Igdb.IGDBNotionPage_retrieve_from_data Keyword) None
  | Language =>
      mkPageClass (Igdb.Language_get_notion_properties)
        (Igdb.IGDBNotionPage_retrieve_from_data Language) None
  | LanguageSupport =>
      mkPageClass (Igdb.LanguageSupport_get_notion_properties env)
        (Igdb.IGDBNotionPage_retrieve_from_data LanguageSupport) None
  | LanguageSupportType =>
      mkPageClass (Igdb.LanguageSupportType_get_notion_properties)
        (Igdb.IGDBNotionPage_retrieve_from_data LanguageSupportType) None
  | MultiplayerMode =>
      mkPageClass (Igdb.MultiplayerMode_get_notion_properties env)
        (Igdb.IGDBNotionPage_retrieve_from_data MultiplayerMode) None
  | Platform =>
      mkPageClass (Igdb.Platform_get_notion_properties)
        (Igdb.IGDBNotionPage_retrieve_from_data Platform) (Some (Igdb.Platform_override_hints env))
  | PlatformFamily =>
      mkPageClass (Igdb.PlatformFamily_get_notion_properties)
        (Igdb.IGDBNotionPage_retrieve_from_data PlatformFamily) None
  | PlatformLogo =>
      mkPageClass (Igdb.PlatformLogo_get_notion_properties env)
        (Igdb.IGDBNotionPage_retrieve_from_data PlatformLogo) (Some (Igdb.PlatformLogo_override_hints env))
  | PlatformVersion =>
      mkPageClass (Igdb.PlatformVersion_get_notion_properties)
        (Igdb.IGDBNotionPage_retrieve_from_data PlatformVersion) (Some (Igdb.PlatformVersion_override_hints env))
  | PlatformVersionCompany =>
      mkPageClass (Igdb.PlatformVersionCompany_get_notion_properties env)
        (Igdb.IGDBNotionPage_retrieve_from_data PlatformVersionCompany) None
  | PlatformVersionReleaseDate =>
      mkPageClass (Igdb.PlatformVersionReleaseDate_get_notion_properties env)
        (Igdb.IGDBNotionPage_retrieve_from_data PlatformVersionReleaseDate) None
  | PlatformWebsite =>
      mkPageClass (Igdb.PlatformWebsite_get_notion_properties env)
        (Igdb.IGDBNotionPage_retrieve_from_data PlatformWebsite) None
  | PlayerPerspective =>
      mkPageClass (Igdb.PlayerPerspective_get_notion_properties)
        (Igdb.IGDBNotionPage_retrieve_from_data PlayerPerspective) None
  | Region =>
      mkPageClass (Igdb.Region_get_notion_properties)
        (Igdb.IGDBNotionPage_retrieve_from_data Region) None
  | ReleaseDate =>
      mkPageClass (Igdb.ReleaseDate_get_notion_properties env)
        (Igdb.IGDBNotionPage_retrieve_from_data ReleaseDate) None
  | ReleaseDateStatus =>
      mkPageClass (Igdb.ReleaseDateStatus_get_notion_properties)
        (Igdb.IGDBNotionPage_retrieve_from_data ReleaseDateStatus) None
  | Screenshot =>
      mkPageClass (Igdb.Screenshot_get_notion_properties env)
        (Igdb.IGDBNotionPage_retrieve_from_data Screenshot) (Some (Igdb.Screenshot_override_hints env))
  | Theme =>
      mkPageClass (Igdb.Theme_get_notion_properties)
        (Igdb.IGDBNotionPage_retrieve_from_data Theme) None
  | Website =>
      mkPageClass (Igdb.Website_get_notion_properties env)
        (Igdb.IGDBNotionPage_retrieve_from_data Website) None
  | HLTBNotionPage =>
      mkPageClass (Hltb.HLTBNotionPage_get_notion_properties)
        (Hltb.HLTBNotionPage_retrieve_from_data)
        (Some Hltb.HLTBNotionPage_override_hints)
  | SteamSpyNotionPage =>
      mkPageClass (SteamSpy.SteamSpyNotionPage_get_notion_properties)
        (SteamSpy.SteamSpyNotionPage_retrieve_from_data)
        (Some (SteamSpy.SteamSpyNotionPage_override_hints env))
  | CustomGamePage =>
      mkPageClass (Custom.CustomGamePage_get_notion_properties)
        (Custom.CustomGamePage_retrieve_from_data)
        (Some (Custom.CustomGamePage_override_hints env))
  end.

(** A reference order of the registered classes: each class sits above
    the classes its methods call. *)
Definition rank (c : Cls) : nat :=
  match c with
  | AgeRatingContentDescription | AlternativeName | Artwork | CompanyLogo | CompanyWebsite | Cover | PlatformFamily | PlatformLogo | PlatformVersionReleaseDate | PlatformWebsite | Franchise | GameEngineLogo | Region | GameMode | GameVideo | Genre | Keyword | Language | LanguageSupportType | PlayerPerspective | ReleaseDateStatus | Screenshot | Theme | Website => 0
  | AgeRating | Company | GameLocalization | LanguageSupport => 1
  | PlatformVersionCompany | InvolvedCompany => 2
  | PlatformVersion => 3
  | Platform => 4
  | ExternalGame | GameEngine | MultiplayerMode | ReleaseDate => 5
  | Game => 6
  | HLTBNotionPage | SteamSpyNotionPage => 0
  | CustomGamePage => 7
  end.

Definition retrieve_or_create_from_data (env : Builtins) :=
  Notion.retrieve_or_create_from_data Cls_eq_dec (classes env).

End Main.


(* ===================================================================== *)
(** * Sample records and worlds *)
(* ===================================================================== *)

Module Samples.

Import Notion.
Open Scope string_scope.

(** Builtins for the samples: the netloc checks pass, [int()] reads
    integers, and the prefixes are those of howlongtobeatpy. *)
Definition env : Builtins :=
  mkBuiltins (fun _ => py "?")
             (fun v => match v with
                       | PyInt z => Ok (PyInt z)
                       | _ => Raise (ValueError "invalid literal for int()")
                       end)
             (fun _ => true) (fun _ => true)
             (py "https://howlongtobeat.com/games/")
             (py "https://howlongtobeat.com/game/").

(** One database per registered class, numbered in the order of
    [notion_db_types] *)
Definition db (c : Cls) : DbId :=
  match c with
  | AgeRatingContentDescription => 0
  | AgeRating => 1
  | AlternativeName => 2
  | Artwork => 3
  | CompanyLogo => 4
  | CompanyWebsite => 5
  | Company => 6
  | Cover => 7
  | PlatformFamily => 8
  | PlatformLogo => 9
  | PlatformVersionCompany => 10
  | PlatformVersionReleaseDate => 11
  | PlatformVersion => 12
  | PlatformWebsite => 13
  | Platform => 14
  | ExternalGame => 15
  | Franchise => 16
  | GameEngineLogo => 17
  | GameEngine => 18
  | Region => 19
  | GameLocalization => 20
  | GameMode => 21
  | GameVideo => 22
  | Genre => 23
  | InvolvedCompany => 24
  | Keyword => 25
  | Language => 26
  | LanguageSupportType => 27
  | LanguageSupport => 28
  | MultiplayerMode => 29
  | PlayerPerspective => 30
  | ReleaseDateStatus => 31
  | ReleaseDate => 32
  | Screenshot => 33
  | Theme => 34
  | Website => 35
  | Game => 36
  | HLTBNotionPage => 37
  | SteamSpyNotionPage => 38
  | CustomGamePage => 39
  end.

(** A world after [connect]: every class has a session and its own
    database, the workspace is empty, nothing is cached, no fault is
    scheduled. *)
Definition connected (update : bool) : World Cls :=
  mkWorld update (fun _ => true) (fun c => Some (db c))
          [] 0 0 [] [] [] [] [].

(** [o] with attribute [name] set to [v] *)
Definition with_attr (name : string) (v : PyVal) (o : PyVal) : PyVal :=
  match o with
  | PyObj cls attrs => PyObj cls (assoc_set name v attrs)
  | _ => o
  end.

(** Messages with every field at a default: numbers 0, texts empty,
    repeated fields empty, enums at their null member, timestamps at the
    epoch, and sub-messages at their own defaults. *)
Definition enum_null : PyVal :=
  PyObj "Enum" [("name", PyStr (py "NULL")); ("value", PyInt 0)].

Definition epoch : PyVal := PyDatetime (py "1970-01-01T00:00:00").

Definition default_AgeRatingContentDescription : PyVal :=
  PyObj "AgeRatingContentDescription"
    [("id", PyInt 0); ("category", enum_null); ("description", PyStr []);
     ("checksum", PyStr [])].

Definition default_AlternativeName : PyVal :=
  PyObj "AlternativeName"
    [("id", PyInt 0); ("comment", PyStr []); ("name", PyStr []);
     ("checksum", PyStr [])].

Definition default_Artwork : PyVal :=
  PyObj "Artwork"
    [("id", PyInt 0); ("alpha_channel", PyBool false);
     ("animated", PyBool false); ("height", PyInt 0); ("image_id", PyStr []);
     ("url", PyStr []); ("width", PyInt 0); ("checksum", PyStr [])].

Definition default_CompanyLogo : PyVal :=
  PyObj "CompanyLogo"
    [("id", PyInt 0); ("alpha_channel", PyBool false);
     ("animated", PyBool false); ("height", PyInt 0); ("image_id", PyStr []);
     ("url", PyStr []); ("width", PyInt 0); ("checksum", PyStr [])].

Definition default_CompanyWebsite : PyVal :=
  PyObj "CompanyWebsite"
    [("category", enum_null); ("id", PyInt 0); ("trusted", PyBool false);
     ("url", PyStr []); ("checksum", PyStr [])].

Definition default_Cover : PyVal :=
  PyObj "Cover"
    [("id", PyInt 0); ("alpha_channel", PyBool false);
     ("animated", PyBool false); ("height", PyInt 0); ("image_id", PyStr []);
     ("url", PyStr []); ("width", PyInt 0); ("checksum", PyStr [])].

Definition default_Franchise : PyVal :=
  PyObj "Franchise"
    [("id", PyInt 0); ("created_at", epoch); ("name", PyStr []);
     ("slug", PyStr []); ("updated_at", epoch); ("url", PyStr []);
     ("checksum", PyStr [])].

Definition default_GameEngineLogo : PyVal :=
  PyObj "GameEngineLogo"
    [("id", PyInt 0); ("alpha_channel", PyBool false);
     ("animated", PyBool false); ("height", PyInt 0); ("image_id", PyStr []);
     ("url", PyStr []); ("width", PyInt 0); ("checksum", PyStr [])].

Definition default_GameMode : PyVal :=
  PyObj "GameMode"
    [("id", PyInt 0); ("created_at", epoch); ("name", PyStr []);
     ("slug", PyStr []); ("updated_at", epoch); ("url", PyStr []);
     ("checksum", PyStr [])].

Definition default_GameVideo : PyVal :=
  PyObj "GameVideo"
    [("id", PyInt 0); ("name", PyStr []); ("video_id", PyStr []);
     ("checksum", PyStr [])].

Definition default_Genre : PyVal :=
  PyObj "Genre"
    [("id", PyInt 0); ("created_at", epoch); ("name", PyStr []);
     ("slug", PyStr []); ("updated_at", epoch); ("url", PyStr []);
     ("checksum", PyStr [])].

Definition default_Keyword : PyVal :=
  PyObj "Keyword"
    [("id", PyInt 0); ("created_at", epoch); ("name", PyStr []);
     ("slug", PyStr []); ("updated_at", epoch); ("url", PyStr []);
     ("checksum", PyStr [])].

Definition default_Language : PyVal :=
  PyObj "Language"
    [("id", PyInt 0); ("name", PyStr []); ("native_name", PyStr []);
     ("locale", PyStr []); ("created_at", epoch); ("updated_at", epoch);
     ("checksum", PyStr [])].

Definition default_LanguageSupportType : PyVal :=
  PyObj "LanguageSupportType"
    [("id", PyInt 0); ("name", PyStr []); ("created_at", epoch);
     ("updated_at", epoch); ("checksum", PyStr [])].

Definition default_PlatformFamily : PyVal :=
  PyObj "PlatformFamily"
    [("id", PyInt 0); ("name", PyStr []); ("slug", PyStr []);
     ("checksum", PyStr [])].

Definition default_PlatformLogo : PyVal :=
  PyObj "PlatformLogo"
    [("id", PyInt 0); ("alpha_channel", PyBool false);
     ("animated", PyBool false); ("height", PyInt 0); ("image_id", PyStr []);
     ("url", PyStr []); ("width", PyInt 0); ("checksum", PyStr [])].

Definition default_PlatformVersionReleaseDate : PyVal :=
  PyObj "PlatformVersionReleaseDate"
    [("id", PyInt 0); ("category", enum_null); ("created_at", epoch);
     ("date", epoch); ("human", PyStr []); ("m", PyInt 0);
     ("region", enum_null); ("updated_at", epoch); ("y", PyInt 0);
     ("checksum", PyStr [])].

Definition default_PlatformWebsite : PyVal :=
  PyObj "PlatformWebsite"
    [("category", enum_null); ("id", PyInt 0); ("trusted", PyBool false);
     ("url", PyStr []); ("checksum", PyStr [])].

Definition default_PlayerPerspective : PyVal :=
  PyObj "PlayerPerspective"
    [("id", PyInt 0); ("created_at", epoch); ("name", PyStr []);
     ("slug", PyStr []); ("updated_at", epoch); ("url", PyStr []);
     ("checksum", PyStr [])].

Definition default_Region : PyVal :=
  PyObj "Region"
    [("id", PyInt 0); ("name", PyStr []); ("category", PyStr []);
     ("identifier", PyStr []); ("created_at", epoch); ("updated_at", epoch);
     ("checksum", PyStr [])].

Definition default_ReleaseDateStatus : PyVal :=
  PyObj "ReleaseDateStatus"
    [("id", PyInt 0); ("name", PyStr []); ("description", PyStr []);
     ("created_at", epoch); ("updated_at", epoch); ("checksum", PyStr [])].

Definition default_Screenshot : PyVal :=
  PyObj "Screenshot"
    [("id", PyInt 0); ("alpha_channel", PyBool false);
     ("animated", PyBool false); ("height", PyInt 0); ("image_id", PyStr []);
     ("url", PyStr []); ("width", PyInt 0); ("checksum", PyStr [])].

Definition default_Theme : PyVal :=
  PyObj "Theme"
    [("id", PyInt 0); ("created_at", epoch); ("name", PyStr []);
     ("slug", PyStr []); ("updated_at", epoch); ("url", PyStr []);
     ("checksum", PyStr [])].

Definition default_Website : PyVal :=
  PyObj "Website"
    [("category", enum_null); ("id", PyInt 0); ("trusted", PyBool false);
     ("url", PyStr []); ("checksum", PyStr [])].

Definition default_AgeRating : PyVal :=
  PyObj "AgeRating"
    [("id", PyInt 0); ("category", enum_null);
     ("content_descriptions", PyTuple []); ("rating", enum_null);
     ("rating_cover_url", PyStr []); ("synopsis", PyStr []);
     ("checksum", PyStr [])].

Definition default_Company : PyVal :=
  PyObj "Company"
    [("id", PyInt 0); ("change_date", epoch);
     ("change_date_category", enum_null); ("country", PyInt 0);
     ("created_at", epoch); ("description", PyStr []);
     ("logo", default_CompanyLogo); ("name", PyStr []); ("slug", PyStr []);
     ("start_date", epoch); ("start_date_category", enum_null);
     ("updated_at", epoch); ("url", PyStr []); ("websites", PyTuple []);
     ("checksum", PyStr [])].

Definition default_GameLocalization : PyVal :=
  PyObj "GameLocalization"
    [("id", PyInt 0); ("name", PyStr []); ("cover", default_Cover);
     ("region", default_Region); ("created_at", epoch);
     ("updated_at", epoch); ("checksum", PyStr [])].

Definition default_LanguageSupport : PyVal :=
  PyObj "LanguageSupport"
    [("id", PyInt 0); ("language", default_Language);
     ("language_support_type", default_LanguageSupportType);
     ("created_at", epoch); ("updated_at", epoch); ("checksum", PyStr [])].

Definition default_InvolvedCompany : PyVal :=
  PyObj "InvolvedCompany"
    [("id", PyInt 0); ("company", default_Company); ("created_at", epoch);
     ("developer", PyBool false); ("porting", PyBool false);
     ("publisher", PyBool false); ("supporting", PyBool false);
     ("updated_at", epoch); ("checksum", PyStr [])].

Definition default_PlatformVersionCompany : PyVal :=
  PyObj "PlatformVersionCompany"
    [("id", PyInt 0); ("comment", PyStr []); ("company", default_Company);
     ("developer", PyBool false); ("manufacturer", PyBool false);
     ("checksum", PyStr [])].

Definition default_PlatformVersion : PyVal :=
  PyObj "PlatformVersion"
    [("id", PyInt 0); ("companies", PyTuple []); ("connectivity", PyStr []);
     ("cpu", PyStr []); ("graphics", PyStr []);
     ("main_manufacturer", default_PlatformVersionCompany);
     ("media", PyStr []); ("memory", PyStr []); ("name", PyStr []);
     ("online", PyStr []); ("os", PyStr []); ("output", PyStr []);
     ("platform_logo", default_PlatformLogo);
     ("platform_version_release_dates", PyTuple []);
     ("resolutions", PyStr []); ("slug", PyStr []); ("sound", PyStr []);
     ("storage", PyStr []); ("summary", PyStr []); ("url", PyStr []);
     ("checksum", PyStr [])].

Definition default_Platform : PyVal :=
  PyObj "Platform"
    [("id", PyInt 0); ("abbreviation", PyStr []);
     ("alternative_name", PyStr []); ("category", enum_null);
     ("created_at", epoch); ("generation", PyInt 0); ("name", PyStr []);
     ("platform_logo", default_PlatformLogo);
     ("platform_family", default_PlatformFamily); ("slug", PyStr []);
     ("summary", PyStr []); ("updated_at", epoch); ("url", PyStr []);
     ("versions", PyTuple []); ("websites", PyTuple []);
     ("checksum", PyStr [])].

Definition default_ExternalGame : PyVal :=
  PyObj "ExternalGame"
    [("id", PyInt 0); ("category", enum_null); ("created_at", epoch);
     ("name", PyStr []); ("uid", PyStr []); ("updated_at", epoch);
     ("url", PyStr []); ("year", PyInt 0); ("media", enum_null);
     ("platform", default_Platform); ("checksum", PyStr [])].

Definition default_GameEngine : PyVal :=
  PyObj "GameEngine"
    [("id", PyInt 0); ("companies", PyTuple []); ("created_at", epoch);
     ("description", PyStr []); ("logo", default_GameEngineLogo);
     ("name", PyStr []); ("platforms", PyTuple []); ("slug", PyStr []);
     ("updated_at", epoch); ("url", PyStr []); ("checksum", PyStr [])].

Definition default_MultiplayerMode : PyVal :=
  PyObj "MultiplayerMode"
    [("id", PyInt 0); ("campaigncoop", PyBool false);
     ("dropin", PyBool false); ("lancoop", PyBool false);
     ("offlinecoop", PyBool false); ("offlinecoopmax", PyInt 0);
     ("offlinemax", PyInt 0); ("onlinecoop", PyBool false);
     ("onlinecoopmax", PyInt 0); ("onlinemax", PyInt 0);
     ("platform", default_Platform); ("splitscreen", PyBool false);
     ("splitscreenonline", PyBool false); ("checksum", PyStr [])].

Definition default_ReleaseDate : PyVal :=
  PyObj "ReleaseDate"
    [("id", PyInt 0); ("category", enum_null); ("created_at", epoch);
     ("date", epoch); ("human", PyStr []); ("m", PyInt 0);
     ("platform", default_Platform); ("region", enum_null);
     ("updated_at", epoch); ("y", PyInt 0); ("checksum", PyStr []);
     ("status", default_ReleaseDateStatus)].

Definition default_Game : PyVal :=
  PyObj "Game"
    [("id", PyInt 0); ("age_ratings", PyTuple []);
     ("aggregated_rating", PyInt 0); ("aggregated_rating_count", PyInt 0);
     ("alternative_names", PyTuple []); ("artworks", PyTuple []);
     ("category", enum_null); ("cover", default_Cover);
     ("created_at", epoch); ("external_games", PyTuple []);
     ("first_release_date", epoch); ("franchises", PyTuple []);
     ("game_engines", PyTuple []); ("game_modes", PyTuple []);
     ("genres", PyTuple []); ("hypes", PyInt 0);
     ("involved_companies", PyTuple []); ("keywords", PyTuple []);
     ("multiplayer_modes", PyTuple []); ("name", PyStr []);
     ("platforms", PyTuple []); ("player_perspectives", PyTuple []);
     ("rating", PyInt 0); ("rating_count", PyInt 0);
     ("release_dates", PyTuple []); ("screenshots", PyTuple []);
     ("slug", PyStr []); ("status", enum_null); ("storyline", PyStr []);
     ("summary", PyStr []); ("themes", PyTuple []);
     ("total_rating", PyInt 0); ("total_rating_count", PyInt 0);
     ("updated_at", epoch); ("url", PyStr []); ("videos", PyTuple []);
     ("websites", PyTuple []); ("checksum", PyStr []);
     ("language_supports", PyTuple []); ("game_localizations", PyTuple [])].

(** The samples of the properties below *)
Definition game_42 : PyVal := with_attr "id" (PyInt 42) default_Game.

Definition text_of_length (n : nat) : PyVal := PyStr (repeat 120%N n).

Definition game_long_summary : PyVal :=
  with_attr "summary" (text_of_length 2001) game_42.

Definition game_long_storyline : PyVal :=
  with_attr "storyline" (text_of_length 2001) game_42.

Definition genre (key : nat) : PyVal :=
  with_attr "id" (PyInt (Z.of_nat key)) default_Genre.

Definition keyword (key : nat) : PyVal :=
  with_attr "id" (PyInt (Z.of_nat key)) default_Keyword.

Definition game_101_genres : PyVal :=
  with_attr "genres" (PyTuple (map genre (seq 1 101))) game_42.

Definition game_101_keywords : PyVal :=
  with_attr "keywords" (PyTuple (map keyword (seq 1 101))) game_42.

Definition custom_42 : PyVal := Custom.CustomGame game_42 PyNone PyNone.

(** What a call stored in a text or relation field of the page it
    returned *)
Definition stored_text (field : string) (r : Outcome Page * World Cls)
  : option str :=
  match fst r with
  | Returns p =>
      match assoc field (properties p) with
      | Some (rich_text (PyStr s)) => Some s
      | _ => None
      end
  | _ => None
  end.

Definition stored_relation (field : string) (r : Outcome Page * World Cls)
  : option (list PageId) :=
  match fst r with
  | Returns p =>
      match assoc field (properties p) with
      | Some (relation ids) => Some ids
      | _ => None
      end
  | _ => None
  end.

(** A new run over the workspace that [w] left: the caches start empty. *)
Definition new_run (w : World Cls) : World Cls :=
  set_override_cache [] (set_base_cache [] w).

(** The flag [ConnectablePage.update] set to [b] *)
Definition with_update (b : bool) (w : World Cls) : World Cls :=
  mkWorld b (session w) (database w) (store w) (next_page_id w) (next_obj w)
          (base_cache w) (override_cache w) (faults w) (draws w) (log w).

(** The workspace that a run which created the page of genre 7 left, at
    the start of a new run *)
Definition genre_7_stored (update : bool) : World Cls :=
  with_update update
    (new_run (snd (Main.retrieve_or_create_from_data env 8 Genre (genre 7) []
                     (connected false)))).

(** A wrapped call that times out whenever it is tried *)
Definition timing_out : M Cls Page :=
  fun w => (Raises RequestTimeoutError, w).

(** A record without its key *)
Definition game_without_id : PyVal := PyObj "Game" [].

(** What a search of HowLongToBeat returns: entries with the JSON of a
    game and a similarity *)
Definition hltb_json (key : Z) : PyVal :=
  PyDict
    (("game_id", PyInt key) :: ("game_name", PyStr (py "Portal"))
     :: ("game_alias", PyStr []) :: ("game_type", PyStr (py "game"))
     :: ("game_image", PyStr (py "portal.jpg"))
     :: ("profile_dev", PyStr (py "Valve, Nuclear Monkey"))
     :: ("profile_platform", PyStr (py "PC"))
     :: map (fun name => (name, PyInt 0))
          ["game_name_date"; "comp_lvl_combine"; "comp_lvl_sp"; "comp_lvl_co";
           "comp_lvl_mp"; "comp_main"; "comp_plus"; "comp_100"; "comp_all";
           "comp_main_count"; "comp_plus_count"; "comp_100_count";
           "comp_all_count"; "invested_co"; "invested_mp";
           "invested_co_count"; "invested_mp_count"; "count_comp";
           "count_speedrun"; "count_backlog"; "count_review"; "review_score";
           "count_playing"; "count_retired"; "profile_popular";
           "release_world"]).

Definition hltb_entry (key : Z) (similarity : Q) : PyVal :=
  PyObj "HowLongToBeatEntry"
    [("json_content", hltb_json key); ("similarity", PyFloat similarity)].

Definition hltb_results : PyVal :=
  PyTuple [hltb_entry 1 (1 # 2); hltb_entry 2 (9 # 10); hltb_entry 3 (3 # 4)].

(** A response of Steam Spy that is not [ok] *)
Definition steamspy_not_found : PyVal :=
  PyObj "Response" [("ok", PyBool false); ("status_code", PyInt 404)].

End Samples.

(* ===================================================================== *)
(** * A client of ConnectablePage with a reference cycle *)
(* ===================================================================== *)

(** No registered class serializes a reference back to a record that is
    being serialized.  This module is what a client with such references
    looks like: one page class whose records name their peer by key, and
    two records that name each other. *)
Module Cyclic.

Import Notion.
Open Scope prog_scope.
Open Scope string_scope.

Inductive NodeCls : Type := NodePage.

Definition NodeCls_eq_dec (a b : NodeCls) : {a = b} + {a <> b}.
Proof. decide equality. Defined.

Definition node (key peer : Z) : PyVal :=
  PyObj "Node" [("id", PyInt key); ("peer", PyInt peer)].

Definition record_a : PyVal := node 1 2.
Definition record_b : PyVal := node 2 1.

(** [RECORDS[key]] *)
Definition RECORDS (key : PyVal) : PyVal :=
  match key with
  | PyInt 1 => record_a
  | _ => record_b
  end.

(** [{"ID": {"number": data.id},
      "Peer": {"relation": [{"id": str(NodePage.retrieve_or_create_from_data(
                                          RECORDS[data.peer]).id)}]}}] *)
Definition NodePage_get_notion_properties (data : PyVal) : Prog NodeCls Properties :=
  key <- lift (getattr data "id") ;;
  peer <- lift (getattr data "peer") ;;
  page <- Call NodePage (RECORDS peer) [] Ret ;;
  Ret [("ID", number key); ("Peer", relation [id page])].

(** As [IGDBNotionPage.retrieve_from_data] *)
Definition NodePage_retrieve_from_data (data : PyVal) : Prog NodeCls (option Page) :=
  if negb (hasattr data "id")
  then Throw (ValueError "data has no 'id' attribute")
  else
    v <- lift (getattr data "id") ;;
    QueryFirst NodePage (NumberEquals "ID" v) Ret.

Definition classes (c : NodeCls) : PageClass NodeCls :=
  mkPageClass NodePage_get_notion_properties NodePage_retrieve_from_data None.

(** A connected class, an empty workspace, nothing cached, no faults *)
Definition world (l : list (Event NodeCls)) : World NodeCls :=
  mkWorld false (fun _ => true) (fun _ => Some 0) [] 0 0 [] [] [] [] l.

Definition retrieve_or_create_from_data :=
  Notion.retrieve_or_create_from_data NodeCls_eq_dec classes.

End Cyclic.

(* ===================================================================== *)
(** * The steps of [urlsplit] and [urlparse]

    [urlsplit] runs four steps in a row: it takes the scheme off, then the
    netloc, then the fragment and the query; [urlparse] then takes the
    parameters off the path.  Each step is named here, with the same
    expressions, so that facts can be stated step by step;
    [urlparse_parts], below, shows that the steps compose to [urlparse]. *)
(* ===================================================================== *)

Module UrlParts.

Import PyStr Py Urllib.

(** No tab, carriage return or newline: what [remove_unsafe] leaves *)
Definition unsafe_free (s : str) : bool :=
  forallb (fun c => negb (N.eqb c 9%N) && negb (N.eqb c 13%N) && negb (N.eqb c 10%N)) s.

(** The three characters that end a netloc: [/], [?] and [#] *)
Definition delimiter (c : char) : bool :=
  N.eqb c 47%N || N.eqb c 63%N || N.eqb c 35%N.

Definition delimiter_free (s : str) : bool :=
  forallb (fun c => negb (delimiter c)) s.

(** The text before the first character that satisfies [p], and the text
    from that character on *)
Fixpoint span_until (p : char -> bool) (s : str) : str * str :=
  match s with
  | [] => ([], [])
  | c :: t =>
      if p c then ([], s)
      else let '(a, b) := span_until p t in (c :: a, b)
  end.

(** The scheme step of [urlsplit] *)
Definition split_scheme (url : str) : str * str :=
  let i := find 58%N url in
  if (0 <? i)%Z && match url with c :: _ => is_ascii_alpha c | [] => false end
  then
    if forallb scheme_char (firstn (Z.to_nat i) url)
    then (lower (firstn (Z.to_nat i) url), skipn (Z.to_nat i + 1) url)
    else ([], url)
  else ([], url).

(** The bracket checks of [urlsplit] pass on this netloc *)
Definition brackets_ok (bracketed_netloc_ok : str -> bool) (netloc : str) : bool :=
  let lb := contains 91%N netloc in
  let rb := contains 93%N netloc in
  negb ((lb && negb rb) || (rb && negb lb))
  && negb (lb && rb && negb (bracketed_netloc_ok netloc)).

(** The netloc step of [urlsplit] *)
Definition split_netloc (bracketed_netloc_ok : str -> bool) (url : str)
  : Result (str * str) :=
  if startswith (py "//") url then
    let '(netloc, url) := _splitnetloc url in
    let lb := contains 91%N netloc in
    let rb := contains 93%N netloc in
    if (lb && negb rb) || (rb && negb lb)
    then Raise (ValueError "Invalid IPv6 URL")
    else if lb && rb && negb (bracketed_netloc_ok netloc)
    then Raise (ValueError "Invalid IPv6 URL")
    else Ok (netloc, url)
  else Ok ([], url).

(** The fragment and query steps of [urlsplit]: path, query, fragment *)
Definition split_tail (url : str) : str * str * str :=
  let '(url, fragment) :=
    if contains 35%N url then split1 35%N url else (url, []) in
  let '(url, query) :=
    if contains 63%N url then split1 63%N url else (url, []) in
  (url, query, fragment).

(** The parameters step of [urlparse] *)
Definition split_params (scheme url : str) : str * str :=
  if str_in scheme uses_params && contains 59%N url
  then _splitparams url
  else (url, []).

(** The first step of [urlunparse]: the parameters back on the path *)
Definition with_params (path params : str) : str :=
  if nonempty params then path ++ py ";" ++ params else path.

(** Empty, or starting with a slash *)
Definition rooted (s : str) : bool :=
  match s with [] => true | c :: _ => N.eqb c 47%N end.

(** The first step of [urlunsplit]: the netloc back before the path *)
Definition unsplit_netloc (scheme netloc url : str) : str :=
  if nonempty netloc then
    let url :=
      if nonempty url && negb (startswith (py "/") url)
      then py "/" ++ url else url in
    py "//" ++ netloc ++ url
  else if startswith (py "//") url then py "//" ++ url
  else if nonempty scheme && str_in scheme uses_netloc
          && (negb (nonempty url) || startswith (py "/") url)
  then py "//" ++ url
  else url.

(** The last steps of [urlunsplit]: what the query and the fragment add *)
Definition unsplit_tail (query fragment : str) : str :=
  (if nonempty query then py "?" ++ query else [])
  ++ (if nonempty fragment then py "#" ++ fragment else []).

(** [urlparse], step by step *)
Definition urlparse_steps (bracketed_netloc_ok nfkc_netloc_ok : str -> bool)
    (url0 : str) : Result ParseResult :=
  let '(scheme, url) :=
    split_scheme (remove_unsafe (lstrip c0_control_or_space url0)) in
  rbind (split_netloc bracketed_netloc_ok url) (fun '(netloc, url) =>
  let '(url, query, fragment) := split_tail url in
  if _checknetloc nfkc_netloc_ok netloc
  then
    let '(url, params) := split_params scheme url in
    Ok (mkParseResult scheme netloc url params query fragment)
  else Raise (ValueError "netloc contains invalid characters under NFKC normalization")).

End UrlParts.

(* ===================================================================== *)
(** * The workspace across calls

    What stays of the store from one call to the next, and the attribute
    that each record type is resolved by. *)
(* ===================================================================== *)

Module Workspace.

Import Notion.

Section Pages.

Variable C : Type.

(** The pages of a store: their ids and the databases they sit in *)
Definition pages_of (st : list RemotePage) : list (PageId * DbId) :=
  map (fun r => (rp_id r, rp_parent r)) st.

(** Page ids are unique, and the store hands out larger ones next. *)
Definition store_wf (w : World C) : Prop :=
  NoDup (map rp_id (store w)) /\
  Forall (fun r => rp_id r < next_page_id w) (store w).

(** [w1] continues [w]: the same flag and connections, the pages of [w]
    in their places, further pages after them. *)
Definition extends (w w1 : World C) : Prop :=
  update w1 = update w /\ session w1 = session w /\ database w1 = database w /\
  (exists more, pages_of (store w1) = pages_of (store w) ++ more) /\
  next_page_id w <= next_page_id w1 /\
  (store_wf w -> store_wf w1).

(** A handler whose calls continue the world they start in *)
Definition handler_extends (h : Handler C) : Prop :=
  forall c d hs w res w1, h c d hs w = (res, w1) -> extends w w1.

(** The events that change the store *)
Definition is_write (ev : Event C) : bool :=
  match ev with
  | EvCreate _ _ _ | EvUpdate _ _ _ => true
  | _ => false
  end.

(** [w1] is [w] but for requests that changed nothing: the events added
    to the log are no writes, and the store is as it was. *)
Definition quiet (w w1 : World C) : Prop :=
  update w1 = update w /\ session w1 = session w /\ database w1 = database w /\
  store w1 = store w /\ next_page_id w1 = next_page_id w /\
  exists new, log w1 = log w ++ new /\
              forallb (fun ev => negb (is_write ev)) new = true.

(** The record that a call resolves to is in the store. *)
Definition resolvable (cls : C) (f : Filter) (w : World C) : Prop :=
  update w = false /\
  exists db r, database w cls = Some db /\ first_match db f (store w) = Some r.

(** The page of a handle: a record of the database of [cls] that passes
    the filter *)
Definition stored_as (cls : C) (f : Filter) (p : Page) (w : World C) : Prop :=
  exists db r,
    database w cls = Some db /\ In r (store w) /\
    rp_id r = id p /\ rp_parent r = db /\ matches f r = true.

(** [i] is a page of the database that [cls] is connected to. *)
Definition page_in (w : World C) (cls : C) (i : PageId) : Prop :=
  exists db, database w cls = Some db /\ In (i, db) (pages_of (store w)).

(** Every handle of a cache is a page of the database of the class it was
    cached for. *)
Definition cache_wf (w : World C) (c : Cache C) : Prop :=
  Forall (fun kp => page_in w (fst (fst (fst kp))) (id (snd kp))) c.

Definition caches_wf (w : World C) : Prop :=
  cache_wf w (base_cache w) /\ cache_wf w (override_cache w).

(** [P] holds of whatever [p] returns, when the call of
    [retrieve_or_create_from_data] on a class [c] and the query of [c]
    answer with pages whose ids satisfy [G c]. *)
Fixpoint ends_with {A} (G : C -> PageId -> Prop) (P : A -> Prop)
    (p : Prog C A) : Prop :=
  match p with
  | Ret a => P a
  | Throw _ => True
  | Call c _ _ k => forall page, G c (id page) -> ends_with G P (k page)
  | QueryFirst c _ k =>
      forall found,
        (forall page, found = Some page -> G c (id page)) ->
        ends_with G P (k found)
  end.

(** The class and the properties of a write *)
Definition write_of (ev : Event C) : option (C * Properties) :=
  match ev with
  | EvCreate c _ props | EvUpdate c _ props => Some (c, props)
  | _ => None
  end.

Definition writes_satisfy (Q : C -> Properties -> Prop) (l : list (Event C))
  : Prop :=
  forall c props, In (Some (c, props)) (map write_of l) -> Q c props.

(** What the run adds to the log from [w] to [w1] *)
Definition added (w w1 : World C) (new : list (Event C)) : Prop :=
  log w1 = log w ++ new.

Definition same_caches (w w1 : World C) : Prop :=
  base_cache w1 = base_cache w /\ override_cache w1 = override_cache w.

(** The writes from [w] to [w1] satisfy [Good], read with the pages that
    [Gw] accepts at [w1]. *)
Definition conforms (Gw : World C -> C -> PageId -> Prop)
    (Good : (C -> PageId -> Prop) -> C -> Properties -> Prop)
    (w w1 : World C) : Prop :=
  exists new, added w w1 new /\ writes_satisfy (Good (Gw w1)) new.

(** A call on [c] from [w] that ended in [w1] with [res]: it keeps [inv],
    writes as [Good] wants and, when it returns, returns a page that [Gw]
    accepts for [c]. *)
Definition sound_at (inv : World C -> Prop)
    (Gw : World C -> C -> PageId -> Prop)
    (Good : (C -> PageId -> Prop) -> C -> Properties -> Prop)
    (c : C) (w : World C) (res : Outcome Page) (w1 : World C) : Prop :=
  inv w1 /\ conforms Gw Good w w1 /\
  forall p, res = Returns p -> Gw w1 c (id p).

Definition handler_sound (inv : World C -> Prop)
    (Gw : World C -> C -> PageId -> Prop)
    (Good : (C -> PageId -> Prop) -> C -> Properties -> Prop)
    (h : Handler C) : Prop :=
  forall c d hs w res w1,
    inv w -> h c d hs w = (res, w1) -> sound_at inv Gw Good c w res w1.

(** [R] holds of every call of [retrieve_or_create_from_data] that [p]
    makes: of the class and of the record handed to it. *)
Fixpoint calls_all {A} (R : C -> PyVal -> Prop) (p : Prog C A) : Prop :=
  match p with
  | Ret _ | Throw _ => True
  | Call c d _ k => R c d /\ forall page, calls_all R (k page)
  | QueryFirst _ _ k => forall found, calls_all R (k found)
  end.

(** What a retried call whose attempts all fail at their request adds to
    the log: the fault of each attempt and, after each but the last, the
    sleep before the next one. *)
Fixpoint attempts_log (es : list Exn) (ws : list Q) : list (Event C) :=
  match es with
  | [] => []
  | e :: es' =>
      EvFault C e ::
      match ws with
      | [] => attempts_log es' []
      | s :: ws' => EvSleep C s :: attempts_log es' ws'
      end
  end.

End Pages.

Section Budget.

Variable C : Type.
Variable C_eq_dec : forall a b : C, {a = b} + {a <> b}.
Variable rank : C -> nat.

(** [p] calls [retrieve_or_create_from_data] of the class [c0] at most [n]
    times, and besides only of classes that [rank] puts below [c0]. *)
Fixpoint calls_at_most {A} (c0 : C) (n : nat) (p : Prog C A) {struct p} : Prop :=
  match p with
  | Ret _ | Throw _ => True
  | Call c _ _ k =>
      if C_eq_dec c c0
      then match n with
           | O => False
           | S m => forall page, calls_at_most c0 m (k page)
           end
      else rank c < rank c0 /\ forall page, calls_at_most c0 n (k page)
  | QueryFirst _ _ k => forall found, calls_at_most c0 n (k found)
  end.

End Budget.

(** The attribute that [retrieve_from_data] reads the key from: [id] in
    [IGDBNotionPage], [game_id] and [appid] in the two statistics pages.
    The composite page has no such attribute; it is resolved through its
    IGDB game. *)
Definition natural_key (c : Cls) : option string :=
  match c with
  | CustomGamePage => None
  | HLTBNotionPage => Some "game_id"%string
  | SteamSpyNotionPage => Some "appid"%string
  | _ => Some "id"%string
  end.

(** The time slept over the waits of a retried call *)
Definition total_wait (ws : list Q) : Q := fold_right Qplus (0 # 1)%Q ws.

(** A reference order that has the keywords directly below the games:
    only the serializer of the games refers to them. *)
Definition rank_keywords_high (c : Cls) : nat :=
  match c with
  | Keyword => 11
  | Game => 12
  | CustomGamePage => 13
  | _ => 2 * Main.rank c
  end.

End Workspace.

(* ===================================================================== *)
(** * The database schemas

    [get_notion_schema] of each registered class, as [create_database]
    sends it, and [get_query_fields] of the IGDB classes. *)
(* ===================================================================== *)

Module Schemas.

Import Notion PageCode PyStr.
Open Scope string_scope.

(** One option of a select: [{"name": n}] or [{"name": n, "color": c}] *)
Record SelectOption : Type := mkOption {
  option_name : str;
  option_color : option string
}.

Inductive RelationType : Type := dual_property | single_property.

(** The schema of one property, by its ["type"]:
    - [{"type": "number", "number": {"format": f}}];
    - [{"type": "title", "title": {}}] and the like;
    - [{"type": "select", "select": {"options": [...]}}];
    - [{"type": "multi_select", "multi_select": {}}], or with ["options"];
    - [{"type": "relation", "relation": {"database_id": str(db),
        "type": t, t: {}}}], [database_id] being the attribute
      [_notional__database] that [str] is applied to ([None] when the
      class is not connected);
    - [{"type": "formula", "formula": {"expression": e}}];
    - [{"type": "rollup", "rollup": {"rollup_property_name": p,
        "relation_property_name": r, "function": f}}]. *)
Inductive SchemaProperty : Type :=
| number_schema (format : string)
| title_schema
| rich_text_schema
| checkbox_schema
| url_schema
| date_schema
| select_schema (options : list SelectOption)
| multi_select_schema (options : option (list SelectOption))
| relation_schema (database_id : option DbId) (kind : RelationType)
| formula_schema (expression : string)
| rollup_schema (rollup_property_name relation_property_name function : string).

Definition Schema : Type := list (string * SchemaProperty).

(** The double quote of the formula texts *)
Definition dq : string := String (Ascii.ascii_of_nat 34) EmptyString.

(** The ["type"] of a schema entry *)
Definition schema_type (p : SchemaProperty) : string :=
  match p with
  | number_schema _ => "number"
  | title_schema => "title"
  | rich_text_schema => "rich_text"
  | checkbox_schema => "checkbox"
  | url_schema => "url"
  | date_schema => "date"
  | select_schema _ => "select"
  | multi_select_schema _ => "multi_select"
  | relation_schema _ _ => "relation"
  | formula_schema _ => "formula"
  | rollup_schema _ _ _ => "rollup"
  end.

(** The key of a property value in a page payload *)
Definition property_type (v : PropValue) : string :=
  match v with
  | number _ => "number"
  | checkbox _ => "checkbox"
  | title _ => "title"
  | rich_text _ => "rich_text"
  | url _ => "url"
  | select _ => "select"
  | date _ => "date"
  | multi_select _ => "multi_select"
  | relation _ => "relation"
  end.

(** Properties that the workspace computes: no page payload sets them. *)
Definition computed (p : SchemaProperty) : bool :=
  match p with
  | formula_schema _ | rollup_schema _ _ _ => true
  | _ => false
  end.

Definition settable (s : Schema) : Schema :=
  filter (fun ks => negb (computed (snd ks))) s.

Section WithEnums.

(** [igdb_proto.<Enum>.__members__], the names in their order *)
Variable members : string -> list str.

(** [cls._notional__database] *)
Variable database : Cls -> option DbId.

(** [AgeRating._get_notion_schema] *)
Definition AgeRating__get_notion_schema (age_rating_content_description_db_id : option DbId) : Schema :=
  [
    ("ID", number_schema "number");
    ("Category", select_schema (map (fun name => mkOption (name) None) (filter (fun name => negb (PyStr.eqb name (py "AGERATING_CATEGORY_NULL"))) (members "AgeRatingCategoryEnum"))));
    ("Content Descriptions", relation_schema age_rating_content_description_db_id dual_property);
    ("Rating", select_schema (map (fun name => mkOption (name) None) (filter (fun name => negb (PyStr.eqb name (py "AGERATING_RATING_NULL"))) (members "AgeRatingRatingEnum"))));
    ("Rating Cover URL", url_schema);
    ("Synopsis", rich_text_schema);
    ("Checksum", rich_text_schema);
    ("Name", title_schema)
  ].

(** [AgeRatingContentDescription._get_notion_schema] *)
Definition AgeRatingContentDescription__get_notion_schema : Schema :=
  [
    ("ID", number_schema "number");
    ("Category", select_schema (map (fun name => mkOption (name) None) (filter (fun name => negb (PyStr.eqb name (py "AGERATINGCONTENTDESCRIPTION_CATEGORY_NULL"))) (members "AgeRatingContentDescriptionCategoryEnum"))));
    ("Description", rich_text_schema);
    ("Checksum", rich_text_schema);
    ("Name", title_schema)
  ].

(** [AlternativeName._get_notion_schema] *)
Definition AlternativeName__get_notion_schema : Schema :=
  [
    ("ID", number_schema "number");
    ("Comment", rich_text_schema);
    ("Name", title_schema);
    ("Checksum", rich_text_schema)
  ].

(** [Artwork._get_notion_schema] *)
Definition Artwork__get_notion_schema : Schema :=
  [
    ("ID", number_schema "number");
    ("Alpha Channel", checkbox_schema);
    ("Animated", checkbox_schema);
    ("Height", number_schema "number");
    ("Image ID", rich_text_schema);
    ("URL", url_schema);
    ("Width", number_schema "number");
    ("Checksum", rich_text_schema);
    ("Name", title_schema)
  ].

(** [Company._get_notion_schema] *)
Definition Company__get_notion_schema (company_logo_db_id : option DbId) (company_website_db_id : option DbId) : Schema :=
  [
    ("ID", number_schema "number");
    ("Change Date", date_schema);
    ("Change Date Category", select_schema (map (fun name => mkOption (name) None) (members "DateFormatChangeDateCategoryEnum")));
    ("Country", number_schema "number");
    ("Created At", date_schema);
    ("Description", rich_text_schema);
    ("Logo", relation_schema company_logo_db_id dual_property);
    ("Name", title_schema);
    ("Slug", rich_text_schema);
    ("Start Date", date_schema);
    ("Start Date Category", select_schema (map (fun name => mkOption (name) None) (members "DateFormatChangeDateCategoryEnum")));
    ("Updated At", date_schema);
    ("URL", url_schema);
    ("Websites", relation_schema company_website_db_id dual_property);
    ("Checksum", rich_text_schema)
  ].

(** [CompanyLogo._get_notion_schema] *)
Definition CompanyLogo__get_notion_schema : Schema :=
  [
    ("ID", number_schema "number");
    ("Alpha Channel", checkbox_schema);
    ("Animated", checkbox_schema);
    ("Height", number_schema "number");
    ("Image ID", rich_text_schema);
    ("URL", url_schema);
    ("Width", number_schema "number");
    ("Checksum", rich_text_schema);
    ("Name", title_schema)
  ].

(** [CompanyWebsite._get_notion_schema] *)
Definition CompanyWebsite__get_notion_schema : Schema :=
  [
    ("ID", number_schema "number");
    ("Category", select_schema (map (fun name => mkOption (removeprefix (py "WEBSITE_") name) None) (filter (fun name => negb (PyStr.eqb name (py "WEBSITE_CATEGORY_NULL"))) (members "WebsiteCategoryEnum"))));
    ("Trusted", checkbox_schema);
    ("URL", url_schema);
    ("Checksum", rich_text_schema);
    ("Name", title_schema)
  ].

(** [Cover._get_notion_schema] *)
Definition Cover__get_notion_schema : Schema :=
  [
    ("ID", number_schema "number");
    ("Alpha Channel", checkbox_schema);
    ("Animated", checkbox_schema);
    ("Height", number_schema "number");
    ("Image ID", rich_text_schema);
    ("URL", url_schema);
    ("Width", number_schema "number");
    ("Checksum", rich_text_schema);
    ("Name", title_schema)
  ].

(** [ExternalGame._get_notion_schema] *)
Definition ExternalGame__get_notion_schema (platform_db_id : option DbId) : Schema :=
  [
    ("ID", number_schema "number");
    ("Category", select_schema (map (fun name => mkOption (removeprefix (py "EXTERNALGAME_") name) None) (filter (fun name => negb (PyStr.eqb name (py "EXTERNALGAME_CATEGORY_NULL"))) (members "ExternalGameCategoryEnum"))));
    ("Created At", date_schema);
    ("Name", title_schema);
    ("UID", rich_text_schema);
    ("Updated At", date_schema);
    ("URL", url_schema);
    ("Year", number_schema "number");
    ("Media", select_schema (map (fun name => mkOption (removeprefix (py "EXTERNALGAME_") name) None) (filter (fun name => negb (PyStr.eqb name (py "EXTERNALGAME_MEDIA_NULL"))) (members "ExternalGameMediaEnum"))));
    ("Platform", relation_schema platform_db_id dual_property);
    ("Checksum", rich_text_schema)
  ].

(** [Franchise._get_notion_schema] *)
Definition Franchise__get_notion_schema : Schema :=
  [
    ("ID", number_schema "number");
    ("Created At", date_schema);
    ("Name", title_schema);
    ("Slug", rich_text_schema);
    ("Updated At", date_schema);
    ("URL", url_schema);
    ("Checksum", rich_text_schema)
  ].

(** [Game._get_notion_schema] *)
Definition Game__get_notion_schema (age_rating_db_id : option DbId) (alternative_name_db_id : option DbId) (artwork_db_id : option DbId) (cover_db_id : option DbId) (external_game_db_id : option DbId) (franchise_db_id : option DbId) (game_engine_db_id : option DbId) (game_mode_db_id : option DbId) (genre_db_id : option DbId) (involved_company_db_id : option DbId) (keyword_db_id : option DbId) (multiplayer_mode_db_id : option DbId) (platform_db_id : option DbId) (player_perspective_db_id : option DbId) (release_date_db_id : option DbId) (screenshot_db_id : option DbId) (theme_db_id : option DbId) (game_video_db_id : option DbId) (website_db_id : option DbId) (language_support_db_id : option DbId) (game_localization_db_id : option DbId) : Schema :=
  [
    ("ID", number_schema "number");
    ("Age Ratings", relation_schema age_rating_db_id dual_property);
    ("Aggregated Rating", number_schema "number");
    ("Aggregated Rating Count", number_schema "number");
    ("Alternative Names", relation_schema alternative_name_db_id dual_property);
    ("Artworks", relation_schema artwork_db_id dual_property);
    ("Category", select_schema (map (fun name => mkOption (name) None) (members "GameCategoryEnum")));
    ("Cover", relation_schema cover_db_id dual_property);
    ("Created At", date_schema);
    ("External Games", relation_schema external_game_db_id dual_property);
    ("First Release Date", date_schema);
    ("Franchises", relation_schema franchise_db_id dual_property);
    ("Game Engines", relation_schema game_engine_db_id dual_property);
    ("Game Modes", relation_schema game_mode_db_id dual_property);
    ("Genres", relation_schema genre_db_id dual_property);
    ("Hypes", number_schema "number");
    ("Involved Companies", relation_schema involved_company_db_id dual_property);
    ("Keywords", relation_schema keyword_db_id dual_property);
    ("Multiplayer Modes", relation_schema multiplayer_mode_db_id dual_property);
    ("Name", title_schema);
    ("Platforms", relation_schema platform_db_id dual_property);
    ("Player Perspectives", relation_schema player_perspective_db_id dual_property);
    ("Rating", number_schema "number");
    ("Rating Count", number_schema "number");
    ("Release Dates", relation_schema release_date_db_id dual_property);
    ("Screenshots", relation_schema screenshot_db_id dual_property);
    ("Slug", rich_text_schema);
    ("Status", select_schema (map (fun name => mkOption (name) None) (members "GameStatusEnum")));
    ("Storyline", rich_text_schema);
    ("Summary", rich_text_schema);
    ("Themes", relation_schema theme_db_id dual_property);
    ("Total Rating", number_schema "number");
    ("Total Rating Count", number_schema "number");
    ("Updated At", date_schema);
    ("URL", url_schema);
    ("Videos", relation_schema game_video_db_id dual_property);
    ("Websites", relation_schema website_db_id dual_property);
    ("Checksum", rich_text_schema);
    ("Language Supports", relation_schema language_support_db_id dual_property);
    ("Game Localizations", relation_schema game_localization_db_id dual_property)
  ].

(** [GameEngine._get_notion_schema] *)
Definition GameEngine__get_notion_schema (company_db_id : option DbId) (game_engine_logo_db_id : option DbId) (platform_db_id : option DbId) : Schema :=
  [
    ("ID", number_schema "number");
    ("Companies", relation_schema company_db_id dual_property);
    ("Created At", date_schema);
    ("Description", rich_text_schema);
    ("Logo", relation_schema game_engine_logo_db_id dual_property);
    ("Name", title_schema);
    ("Platforms", relation_schema platform_db_id dual_property);
    ("Slug", rich_text_schema);
    ("Updated At", date_schema);
    ("URL", url_schema);
    ("Checksum", rich_text_schema)
  ].

(** [GameEngineLogo._get_notion_schema] *)
Definition GameEngineLogo__get_notion_schema : Schema :=
  [
    ("ID", number_schema "number");
    ("Alpha Channel", checkbox_schema);
    ("Animated", checkbox_schema);
    ("Height", number_schema "number");
    ("Image ID", rich_text_schema);
    ("URL", url_schema);
    ("Width", number_schema "number");
    ("Checksum", rich_text_schema);
    ("Name", title_schema)
  ].

(** [GameLocalization._get_notion_schema] *)
Definition GameLocalization__get_notion_schema (cover_db_id : option DbId) (region_db_id : option DbId) : Schema :=
  [
    ("ID", number_schema "number");
    ("Name", title_schema);
    ("Cover", relation_schema cover_db_id dual_property);
    ("Region", relation_schema region_db_id dual_property);
    ("Created At", date_schema);
    ("Updated At", date_schema);
    ("Checksum", rich_text_schema)
  ].

(** [GameMode._get_notion_schema] *)
Definition GameMode__get_notion_schema : Schema :=
  [
    ("ID", number_schema "number");
    ("Created At", date_schema);
    ("Name", title_schema);
    ("Slug", rich_text_schema);
    ("Updated At", date_schema);
    ("URL", url_schema);
    ("Checksum", rich_text_schema)
  ].

(** [GameVideo._get_notion_schema] *)
Definition GameVideo__get_notion_schema : Schema :=
  [
    ("ID", number_schema "number");
    ("Name", title_schema);
    ("Video ID", rich_text_schema);
    ("Checksum", rich_text_schema)
  ].

(** [Genre._get_notion_schema] *)
Definition Genre__get_notion_schema : Schema :=
  [
    ("ID", number_schema "number");
    ("Created At", date_schema);
    ("Name", title_schema);
    ("Slug", rich_text_schema);
    ("Updated At", date_schema);
    ("URL", url_schema);
    ("Checksum", rich_text_schema)
  ].

(** [InvolvedCompany._get_notion_schema] *)
Definition InvolvedCompany__get_notion_schema (company_db_id : option DbId) : Schema :=
  [
    ("ID", number_schema "number");
    ("Company", relation_schema company_db_id dual_property);
    ("Created At", date_schema);
    ("Developer", checkbox_schema);
    ("Porting", checkbox_schema);
    ("Publisher", checkbox_schema);
    ("Supporting", checkbox_schema);
    ("Updated At", date_schema);
    ("Checksum", rich_text_schema);
    ("Name", title_schema)
  ].

(** [Keyword._get_notion_schema] *)
Definition Keyword__get_notion_schema : Schema :=
  [
    ("ID", number_schema "number");
    ("Created At", date_schema);
    ("Name", title_schema);
    ("Slug", rich_text_schema);
    ("Updated At", date_schema);
    ("URL", url_schema);
    ("Checksum", rich_text_schema)
  ].

(** [Language._get_notion_schema] *)
Definition Language__get_notion_schema : Schema :=
  [
    ("ID", number_schema "number");
    ("Name", title_schema);
    ("Native Name", rich_text_schema);
    ("Locale", rich_text_schema);
    ("Created At", date_schema);
    ("Updated At", date_schema);
    ("Checksum", rich_text_schema)
  ].

(** [LanguageSupport._get_notion_schema] *)
Definition LanguageSupport__get_notion_schema (language_db_id : option DbId) (language_support_type_db_id : option DbId) : Schema :=
  [
    ("ID", number_schema "number");
    ("Language", relation_schema language_db_id dual_property);
    ("Language Support Type", relation_schema language_support_type_db_id dual_property);
    ("Created At", date_schema);
    ("Updated At", date_schema);
    ("Checksum", rich_text_schema);
    ("Name", title_schema)
  ].

(** [LanguageSupportType._get_notion_schema] *)
Definition LanguageSupportType__get_notion_schema : Schema :=
  [
    ("ID", number_schema "number");
    ("Name", title_schema);
    ("Created At", date_schema);
    ("Updated At", date_schema);
    ("Checksum", rich_text_schema)
  ].

(** [MultiplayerMode._get_notion_schema] *)
Definition MultiplayerMode__get_notion_schema (platform_db_id : option DbId) : Schema :=
  [
    ("ID", number_schema "number");
    ("Campaign Coop", checkbox_schema);
    ("Drop In", checkbox_schema);
    ("LAN Coop", checkbox_schema);
    ("Offline Coop", checkbox_schema);
    ("Offline Coop Max", number_schema "number");
    ("Offline Max", number_schema "number");
    ("Online Coop", checkbox_schema);
    ("Online Coop Max", number_schema "number");
    ("Online Max", number_schema "number");
    ("Platform", relation_schema platform_db_id dual_property);
    ("Split Screen", checkbox_schema);
    ("Split Screen Online", checkbox_schema);
    ("Checksum", rich_text_schema);
    ("Name", title_schema)
  ].

(** [Platform._get_notion_schema] *)
Definition Platform__get_notion_schema (platform_logo_db_id : option DbId) (platform_family_db_id : option DbId) (platform_version_db_id : option DbId) (platform_website_db_id : option DbId) : Schema :=
  [
    ("ID", number_schema "number");
    ("Abbreviation", rich_text_schema);
    ("Alternative Name", rich_text_schema);
    ("Category", select_schema (map (fun name => mkOption (name) None) (filter (fun name => negb (PyStr.eqb name (py "PLATFORM_CATEGORY_NULL"))) (members "PlatformCategoryEnum"))));
    ("Created At", date_schema);
    ("Generation", number_schema "number");
    ("Name", title_schema);
    ("Platform Logo", relation_schema platform_logo_db_id dual_property);
    ("Platform Family", relation_schema platform_family_db_id dual_property);
    ("Slug", rich_text_schema);
    ("Summary", rich_text_schema);
    ("Updated At", date_schema);
    ("URL", url_schema);
    ("Versions", relation_schema platform_version_db_id dual_property);
    ("Websites", relation_schema platform_website_db_id dual_property);
    ("Checksum", rich_text_schema)
  ].

(** [PlatformFamily._get_notion_schema] *)
Definition PlatformFamily__get_notion_schema : Schema :=
  [
    ("ID", number_schema "number");
    ("Name", title_schema);
    ("Slug", rich_text_schema);
    ("Checksum", rich_text_schema)
  ].

(** [PlatformLogo._get_notion_schema] *)
Definition PlatformLogo__get_notion_schema : Schema :=
  [
    ("ID", number_schema "number");
    ("Alpha Channel", checkbox_schema);
    ("Animated", checkbox_schema);
    ("Height", number_schema "number");
    ("Image ID", rich_text_schema);
    ("URL", url_schema);
    ("Width", number_schema "number");
    ("Checksum", rich_text_schema);
    ("Name", title_schema)
  ].

(** [PlatformVersion._get_notion_schema] *)
Definition PlatformVersion__get_notion_schema (platform_version_company_db_id : option DbId) (platform_logo_db_id : option DbId) (platform_version_release_date_db_id : option DbId) : Schema :=
  [
    ("ID", number_schema "number");
    ("Companies", relation_schema platform_version_company_db_id dual_property);
    ("Connectivity", rich_text_schema);
    ("CPU", rich_text_schema);
    ("Graphics", rich_text_schema);
    ("Main Manufacturer", relation_schema platform_version_company_db_id dual_property);
    ("Media", rich_text_schema);
    ("Memory", rich_text_schema);
    ("Name", title_schema);
    ("Online", rich_text_schema);
    ("OS", rich_text_schema);
    ("Output", rich_text_schema);
    ("Platform Logo", relation_schema platform_logo_db_id dual_property);
    ("Release Dates", relation_schema platform_version_release_date_db_id dual_property);
    ("Resolutions", rich_text_schema);
    ("Slug", rich_text_schema);
    ("Sound", rich_text_schema);
    ("Storage", rich_text_schema);
    ("Summary", rich_text_schema);
    ("URL", url_schema);
    ("Checksum", rich_text_schema)
  ].

(** [PlatformVersionCompany._get_notion_schema] *)
Definition PlatformVersionCompany__get_notion_schema (company_db_id : option DbId) : Schema :=
  [
    ("ID", number_schema "number");
    ("Comment", rich_text_schema);
    ("Company", relation_schema company_db_id dual_property);
    ("Developer", checkbox_schema);
    ("Manufacturer", checkbox_schema);
    ("Checksum", rich_text_schema);
    ("Name", title_schema)
  ].

(** [PlatformVersionReleaseDate._get_notion_schema] *)
Definition PlatformVersionReleaseDate__get_notion_schema : Schema :=
  [
    ("ID", number_schema "number");
    ("Category", select_schema (map (fun name => mkOption (name) None) (members "DateFormatChangeDateCategoryEnum")));
    ("Created At", date_schema);
    ("Date", date_schema);
    ("Human", rich_text_schema);
    ("M", number_schema "number");
    ("Region", select_schema (map (fun name => mkOption (name) None) (filter (fun name => negb (PyStr.eqb name (py "REGION_REGION_NULL"))) (members "RegionRegionEnum"))));
    ("Updated At", date_schema);
    ("Y", number_schema "number");
    ("Checksum", rich_text_schema);
    ("Name", title_schema)
  ].

(** [PlatformWebsite._get_notion_schema] *)
Definition PlatformWebsite__get_notion_schema : Schema :=
  [
    ("ID", number_schema "number");
    ("Category", select_schema (map (fun name => mkOption (removeprefix (py "WEBSITE_") name) None) (filter (fun name => negb (PyStr.eqb name (py "WEBSITE_CATEGORY_NULL"))) (members "WebsiteCategoryEnum"))));
    ("Trusted", checkbox_schema);
    ("URL", url_schema);
    ("Checksum", rich_text_schema);
    ("Name", title_schema)
  ].

(** [PlayerPerspective._get_notion_schema] *)
Definition PlayerPerspective__get_notion_schema : Schema :=
  [
    ("ID", number_schema "number");
    ("Created At", date_schema);
    ("Name", title_schema);
    ("Slug", rich_text_schema);
    ("Updated At", date_schema);
    ("URL", url_schema);
    ("Checksum", rich_text_schema)
  ].

(** [Region._get_notion_schema] *)
Definition Region__get_notion_schema : Schema :=
  [
    ("ID", number_schema "number");
    ("Name", title_schema);
    ("Category", rich_text_schema);
    ("Identifier", rich_text_schema);
    ("Created At", date_schema);
    ("Updated At", date_schema);
    ("Checksum", rich_text_schema)
  ].

(** [ReleaseDate._get_notion_schema] *)
Definition ReleaseDate__get_notion_schema (platform_db_id : option DbId) (release_date_status_db_id : option DbId) : Schema :=
  [
    ("ID", number_schema "number");
    ("Category", select_schema (map (fun name => mkOption (name) None) (members "DateFormatChangeDateCategoryEnum")));
    ("Created At", date_schema);
    ("Date", date_schema);
    ("Human", rich_text_schema);
    ("M", number_schema "number");
    ("Platform", relation_schema platform_db_id dual_property);
    ("Region", select_schema (map (fun name => mkOption (name) None) (filter (fun name => negb (PyStr.eqb name (py "REGION_REGION_NULL"))) (members "RegionRegionEnum"))));
    ("Updated At", date_schema);
    ("Y", number_schema "number");
    ("Checksum", rich_text_schema);
    ("Status", relation_schema release_date_status_db_id dual_property);
    ("Name", title_schema)
  ].

(** [ReleaseDateStatus._get_notion_schema] *)
Definition ReleaseDateStatus__get_notion_schema : Schema :=
  [
    ("ID", number_schema "number");
    ("Name", title_schema);
    ("Description", rich_text_schema);
    ("Created At", date_schema);
    ("Updated At", date_schema);
    ("Checksum", rich_text_schema)
  ].

(** [Screenshot._get_notion_schema] *)
Definition Screenshot__get_notion_schema : Schema :=
  [
    ("ID", number_schema "number");
    ("Alpha Channel", checkbox_schema);
    ("Animated", checkbox_schema);
    ("Height", number_schema "number");
    ("Image ID", rich_text_schema);
    ("URL", url_schema);
    ("Width", number_schema "number");
    ("Checksum", rich_text_schema);
    ("Name", title_schema)
  ].

(** [Theme._get_notion_schema] *)
Definition Theme__get_notion_schema : Schema :=
  [
    ("ID", number_schema "number");
    ("Created At", date_schema);
    ("Name", title_schema);
    ("Slug", rich_text_schema);
    ("Updated At", date_schema);
    ("URL", url_schema);
    ("Checksum", rich_text_schema)
  ].

(** [Website._get_notion_schema] *)
Definition Website__get_notion_schema : Schema :=
  [
    ("ID", number_schema "number");
    ("Category", select_schema (map (fun name => mkOption (removeprefix (py "WEBSITE_") name) None) (filter (fun name => negb (PyStr.eqb name (py "WEBSITE_CATEGORY_NULL"))) (members "WebsiteCategoryEnum"))));
    ("Trusted", checkbox_schema);
    ("URL", url_schema);
    ("Checksum", rich_text_schema);
    ("Name", title_schema)
  ].

(** [HLTBNotionPage._get_notion_schema] *)
Definition HLTBNotionPage__get_notion_schema : Schema :=
  [
    ("ID", number_schema "number");
    ("Name", title_schema);
    ("Alias", rich_text_schema);
    ("Type", select_schema ([]));
    ("Main Story", number_schema "number");
    ("Main+Extras", number_schema "number");
    ("Completionist", number_schema "number");
    ("All Styles", number_schema "number");
    ("Main Story (h)", formula_schema ("round(prop(" ++ dq ++ "Main Story" ++ dq ++ ") / 36) / 100")%string);
    ("Main+Extras (h)", formula_schema ("round(prop(" ++ dq ++ "Main+Extras" ++ dq ++ ") / 36) / 100")%string);
    ("Completionist (h)", formula_schema ("round(prop(" ++ dq ++ "Completionist" ++ dq ++ ") / 36) / 100")%string);
    ("All Styles (h)", formula_schema ("round(prop(" ++ dq ++ "All Styles" ++ dq ++ ") / 36) / 100")%string);
    ("Main Story Count", number_schema "number");
    ("Main+Extras Count", number_schema "number");
    ("Completionist Count", number_schema "number");
    ("All Styles Count", number_schema "number");
    ("Co-op", number_schema "number");
    ("Competitive", number_schema "number");
    ("Co-op (h)", formula_schema ("round(prop(" ++ dq ++ "Co-op" ++ dq ++ ") / 36) / 100")%string);
    ("Competitive (h)", formula_schema ("round(prop(" ++ dq ++ "Competitive" ++ dq ++ ") / 36) / 100")%string);
    ("Co-op Count", number_schema "number");
    ("Competitive Count", number_schema "number");
    ("Review Score", number_schema "number");
    ("Review Count", number_schema "number");
    ("Count Completed", number_schema "number");
    ("Count Speedruns", number_schema "number");
    ("Count Backlogs", number_schema "number");
    ("Count Playing", number_schema "number");
    ("Count Retired", number_schema "number");
    ("Popularity", number_schema "number");
    ("Steam ID", number_schema "number");
    ("Release Year", number_schema "number");
    ("Profile Devs", multi_select_schema None);
    ("Profile Platforms", multi_select_schema None);
    ("Image URL", url_schema);
    ("URL", url_schema);
    ("Similarity", number_schema "number");
    ("Game Name Date", number_schema "number");
    ("comp_lvl_combine", number_schema "number");
    ("comp_lvl_sp", number_schema "number");
    ("comp_lvl_co", number_schema "number");
    ("comp_lvl_mp", number_schema "number");
    ("comp_lvl_spd", number_schema "number")
  ].

(** [SteamSpyNotionPage._get_notion_schema] *)
Definition SteamSpyNotionPage__get_notion_schema : Schema :=
  [
    ("ID", number_schema "number");
    ("Name", title_schema);
    ("Developer", rich_text_schema);
    ("Publisher", rich_text_schema);
    ("Score Rank", number_schema "number");
    ("Positive", number_schema "number");
    ("Negative", number_schema "number");
    ("User Score", number_schema "number");
    ("Owners", rich_text_schema);
    ("Average Forever", number_schema "number");
    ("Average 2 Weeks", number_schema "number");
    ("Median Forever", number_schema "number");
    ("Median 2 Weeks", number_schema "number");
    ("Price", number_schema "number");
    ("Initial Price", number_schema "number");
    ("Discount", number_schema "number");
    ("CCU", number_schema "number");
    ("Languages", multi_select_schema None);
    ("Genres", multi_select_schema None);
    ("Tags", multi_select_schema None);
    ("Review Count", formula_schema ("prop(" ++ dq ++ "Positive" ++ dq ++ ") + prop(" ++ dq ++ "Negative" ++ dq ++ ")")%string);
    ("Review Percent", formula_schema ("round(100 * prop(" ++ dq ++ "Positive" ++ dq ++ ") / (prop(" ++ dq ++ "Positive" ++ dq ++ ") + prop(" ++ dq ++ "Negative" ++ dq ++ ")))")%string);
    ("Average Forever (h)", formula_schema ("round(100 * prop(" ++ dq ++ "Average Forever" ++ dq ++ ") / 60) / 100")%string);
    ("Average 2 Weeks (h)", formula_schema ("round(100 * prop(" ++ dq ++ "Average 2 Weeks" ++ dq ++ ") / 60) / 100")%string);
    ("Median Forever (h)", formula_schema ("round(100 * prop(" ++ dq ++ "Median Forever" ++ dq ++ ") / 60) / 100")%string);
    ("Median 2 Weeks (h)", formula_schema ("round(100 * prop(" ++ dq ++ "Median 2 Weeks" ++ dq ++ ") / 60) / 100")%string)
  ].

(** [CustomGamePage._get_notion_schema] *)
Definition CustomGamePage__get_notion_schema (igdb_game_db_id : option DbId) (hltb_game_db_id : option DbId) (steamspy_game_db_id : option DbId) : Schema :=
  [
    ("Name", title_schema);
    ("Owned", multi_select_schema (Some [mkOption (py "Steam") (Some "blue"); mkOption (py "Switch") (Some "red")]));
    ("Category", rollup_schema "Category" "IGDB" "show_original");
    ("Game Modes", rollup_schema "Game Modes" "IGDB" "show_original");
    ("Critic Rating", rollup_schema "Aggregated Rating" "IGDB" "show_original");
    ("Critic Rating Count", rollup_schema "Aggregated Rating Count" "IGDB" "show_original");
    ("Users Rating", rollup_schema "Rating" "IGDB" "show_original");
    ("Users Rating Count", rollup_schema "Rating Count" "IGDB" "show_original");
    ("HLTB Review Score", rollup_schema "Review Score" "How Long to Beat" "show_original");
    ("HLTB Review Count", rollup_schema "Review Count" "How Long to Beat" "show_original");
    ("Themes", rollup_schema "Themes" "IGDB" "show_original");
    ("Genres", rollup_schema "Genres" "IGDB" "show_original");
    ("Player Perspectives", rollup_schema "Player Perspectives" "IGDB" "show_original");
    ("Platforms", rollup_schema "Platforms" "IGDB" "show_original");
    ("Main Story (h)", rollup_schema "Main Story (h)" "How Long to Beat" "show_original");
    ("Main+Extras (h)", rollup_schema "Main+Extras (h)" "How Long to Beat" "show_original");
    ("Completionist (h)", rollup_schema "Completionist (h)" "How Long to Beat" "show_original");
    ("First Release Date", rollup_schema "First Release Date" "IGDB" "show_original");
    ("IGDB URL", rollup_schema "URL" "IGDB" "show_original");
    ("HowLongToBeat URL", rollup_schema "URL" "How Long to Beat" "show_original");
    ("IGDB", relation_schema igdb_game_db_id single_property);
    ("How Long to Beat", relation_schema hltb_game_db_id single_property);
    ("Steam Spy", relation_schema steamspy_game_db_id single_property)
  ].
Definition get_notion_schema (c : Cls) : Schema :=
  match c with
  | AgeRatingContentDescription => AgeRatingContentDescription__get_notion_schema
  | AgeRating => AgeRating__get_notion_schema (database AgeRatingContentDescription)
  | AlternativeName => AlternativeName__get_notion_schema
  | Artwork => Artwork__get_notion_schema
  | CompanyLogo => CompanyLogo__get_notion_schema
  | CompanyWebsite => CompanyWebsite__get_notion_schema
  | Company => Company__get_notion_schema (database CompanyLogo) (database CompanyWebsite)
  | Cover => Cover__get_notion_schema
  | PlatformFamily => PlatformFamily__get_notion_schema
  | PlatformLogo => PlatformLogo__get_notion_schema
  | PlatformVersionCompany => PlatformVersionCompany__get_notion_schema (database Company)
  | PlatformVersionReleaseDate => PlatformVersionReleaseDate__get_notion_schema
  | PlatformVersion => PlatformVersion__get_notion_schema (database PlatformVersionCompany) (database PlatformLogo) (database PlatformVersionReleaseDate)
  | PlatformWebsite => PlatformWebsite__get_notion_schema
  | Platform => Platform__get_notion_schema (database PlatformLogo) (database PlatformFamily) (database PlatformVersion) (database PlatformWebsite)
  | ExternalGame => ExternalGame__get_notion_schema (database Platform)
  | Franchise => Franchise__get_notion_schema
  | GameEngineLogo => GameEngineLogo__get_notion_schema
  | GameEngine => GameEngine__get_notion_schema (database Company) (database GameEngineLogo) (database Platform)
  | Region => Region__get_notion_schema
  | GameLocalization => GameLocalization__get_notion_schema (database Cover) (database Region)
  | GameMode => GameMode__get_notion_schema
  | GameVideo => GameVideo__get_notion_schema
  | Genre => Genre__get_notion_schema
  | InvolvedCompany => InvolvedCompany__get_notion_schema (database Company)
  | Keyword => Keyword__get_notion_schema
  | Language => Language__get_notion_schema
  | LanguageSupportType => LanguageSupportType__get_notion_schema
  | LanguageSupport => LanguageSupport__get_notion_schema (database Language) (database LanguageSupportType)
  | MultiplayerMode => MultiplayerMode__get_notion_schema (database Platform)
  | PlayerPerspective => PlayerPerspective__get_notion_schema
  | ReleaseDateStatus => ReleaseDateStatus__get_notion_schema
  | ReleaseDate => ReleaseDate__get_notion_schema (database Platform) (database ReleaseDateStatus)
  | Screenshot => Screenshot__get_notion_schema
  | Theme => Theme__get_notion_schema
  | Website => Website__get_notion_schema
  | Game => Game__get_notion_schema (database AgeRating) (database AlternativeName) (database Artwork) (database Cover) (database ExternalGame) (database Franchise) (database GameEngine) (database GameMode) (database Genre) (database InvolvedCompany) (database Keyword) (database MultiplayerMode) (database Platform) (database PlayerPerspective) (database ReleaseDate) (database Screenshot) (database Theme) (database GameVideo) (database Website) (database LanguageSupport) (database GameLocalization)
  | HLTBNotionPage => HLTBNotionPage__get_notion_schema
  | SteamSpyNotionPage => SteamSpyNotionPage__get_notion_schema
  | CustomGamePage => CustomGamePage__get_notion_schema (database Game) (database HLTBNotionPage) (database SteamSpyNotionPage)
  end.

(** A property value as its schema entry announces it: the same type,
    and for a relation the pages [G] accepts for the class whose database
    the entry names. *)
Definition agrees (G : Cls -> PageId -> Prop) (s : SchemaProperty)
    (v : PropValue) : Prop :=
  schema_type s = property_type v /\
  match s, v with
  | relation_schema d _, relation ids =>
      exists c, d = database c /\ Forall (G c) ids
  | _, _ => True
  end.

(** A page payload of class [c] against the schema of [c] *)
Definition fits (G : Cls -> PageId -> Prop) (c : Cls) (props : Properties)
  : Prop :=
  (forall k v, In (k, v) props ->
     exists s, assoc k (get_notion_schema c) = Some s /\ agrees G s v) /\
  (c <> CustomGamePage ->
   map fst props = map fst (settable (get_notion_schema c))).

End WithEnums.

(** ** The fields asked of the IGDB API *)

(** [IGDBNotionPage.get_query_fields] *)
Definition IGDBNotionPage_get_query_fields : list str := [py "*"].

(** [AgeRatingContentDescription] inherits [get_query_fields]. *)
Definition AgeRatingContentDescription_get_query_fields : list str :=
  IGDBNotionPage_get_query_fields.

(** [AgeRating.get_query_fields] *)
Definition AgeRating_get_query_fields : list str :=
  IGDBNotionPage_get_query_fields ++
  map (fun f => (py "content_descriptions." ++ f)%list) AgeRatingContentDescription_get_query_fields.

(** [AlternativeName] inherits [get_query_fields]. *)
Definition AlternativeName_get_query_fields : list str :=
  IGDBNotionPage_get_query_fields.

(** [Artwork] inherits [get_query_fields]. *)
Definition Artwork_get_query_fields : list str :=
  IGDBNotionPage_get_query_fields.

(** [CompanyLogo] inherits [get_query_fields]. *)
Definition CompanyLogo_get_query_fields : list str :=
  IGDBNotionPage_get_query_fields.

(** [CompanyWebsite] inherits [get_query_fields]. *)
Definition CompanyWebsite_get_query_fields : list str :=
  IGDBNotionPage_get_query_fields.

(** [Company.get_query_fields] *)
Definition Company_get_query_fields : list str :=
  IGDBNotionPage_get_query_fields ++
  map (fun f => (py "logo." ++ f)%list) CompanyLogo_get_query_fields ++
  map (fun f => (py "websites." ++ f)%list) CompanyWebsite_get_query_fields.

(** [Cover] inherits [get_query_fields]. *)
Definition Cover_get_query_fields : list str :=
  IGDBNotionPage_get_query_fields.

(** [PlatformFamily] inherits [get_query_fields]. *)
Definition PlatformFamily_get_query_fields : list str :=
  IGDBNotionPage_get_query_fields.

(** [PlatformLogo] inherits [get_query_fields]. *)
Definition PlatformLogo_get_query_fields : list str :=
  IGDBNotionPage_get_query_fields.

(** [PlatformVersionCompany.get_query_fields] *)
Definition PlatformVersionCompany_get_query_fields : list str :=
  IGDBNotionPage_get_query_fields ++
  map (fun f => (py "company." ++ f)%list) Company_get_query_fields.

(** [PlatformVersionReleaseDate] inherits [get_query_fields]. *)
Definition PlatformVersionReleaseDate_get_query_fields : list str :=
  IGDBNotionPage_get_query_fields.

(** [PlatformVersion.get_query_fields] *)
Definition PlatformVersion_get_query_fields : list str :=
  IGDBNotionPage_get_query_fields ++
  map (fun f => (py "companies." ++ f)%list) PlatformVersionCompany_get_query_fields ++
  map (fun f => (py "main_manufacturer." ++ f)%list) PlatformVersionCompany_get_query_fields ++
  map (fun f => (py "platform_logo." ++ f)%list) PlatformLogo_get_query_fields ++
  map (fun f => (py "platform_version_release_dates." ++ f)%list) PlatformVersionReleaseDate_get_query_fields.

(** [PlatformWebsite] inherits [get_query_fields]. *)
Definition PlatformWebsite_get_query_fields : list str :=
  IGDBNotionPage_get_query_fields.

(** [Platform.get_query_fields] *)
Definition Platform_get_query_fields : list str :=
  IGDBNotionPage_get_query_fields ++
  map (fun f => (py "platform_logo." ++ f)%list) PlatformLogo_get_query_fields ++
  map (fun f => (py "platform_family." ++ f)%list) PlatformFamily_get_query_fields ++
  map (fun f => (py "versions." ++ f)%list) PlatformVersion_get_query_fields ++
  map (fun f => (py "websites." ++ f)%list) PlatformWebsite_get_query_fields.

(** [ExternalGame.get_query_fields] *)
Definition ExternalGame_get_query_fields : list str :=
  IGDBNotionPage_get_query_fields ++
  map (fun f => (py "platform." ++ f)%list) Platform_get_query_fields.

(** [Franchise] inherits [get_query_fields]. *)
Definition Franchise_get_query_fields : list str :=
  IGDBNotionPage_get_query_fields.

(** [GameEngineLogo] inherits [get_query_fields]. *)
Definition GameEngineLogo_get_query_fields : list str :=
  IGDBNotionPage_get_query_fields.

(** [GameEngine.get_query_fields] *)
Definition GameEngine_get_query_fields : list str :=
  IGDBNotionPage_get_query_fields ++
  map (fun f => (py "companies." ++ f)%list) Company_get_query_fields ++
  map (fun f => (py "logo." ++ f)%list) GameEngineLogo_get_query_fields ++
  map (fun f => (py "platforms." ++ f)%list) Platform_get_query_fields.

(** [Region] inherits [get_query_fields]. *)
Definition Region_get_query_fields : list str :=
  IGDBNotionPage_get_query_fields.

(** [GameLocalization.get_query_fields] *)
Definition GameLocalization_get_query_fields : list str :=
  IGDBNotionPage_get_query_fields ++
  map (fun f => (py "cover." ++ f)%list) Cover_get_query_fields ++
  map (fun f => (py "region." ++ f)%list) Region_get_query_fields.

(** [GameMode] inherits [get_query_fields]. *)
Definition GameMode_get_query_fields : list str :=
  IGDBNotionPage_get_query_fields.

(** [GameVideo] inherits [get_query_fields]. *)
Definition GameVideo_get_query_fields : list str :=
  IGDBNotionPage_get_query_fields.

(** [Genre] inherits [get_query_fields]. *)
Definition Genre_get_query_fields : list str :=
  IGDBNotionPage_get_query_fields.

(** [InvolvedCompany.get_query_fields] *)
Definition InvolvedCompany_get_query_fields : list str :=
  IGDBNotionPage_get_query_fields ++
  map (fun f => (py "company." ++ f)%list) Company_get_query_fields.

(** [Keyword] inherits [get_query_fields]. *)
Definition Keyword_get_query_fields : list str :=
  IGDBNotionPage_get_query_fields.

(** [Language] inherits [get_query_fields]. *)
Definition Language_get_query_fields : list str :=
  IGDBNotionPage_get_query_fields.

(** [LanguageSupportType] inherits [get_query_fields]. *)
Definition LanguageSupportType_get_query_fields : list str :=
  IGDBNotionPage_get_query_fields.

(** [LanguageSupport.get_query_fields] *)
Definition LanguageSupport_get_query_fields : list str :=
  IGDBNotionPage_get_query_fields ++
  map (fun f => (py "language." ++ f)%list) Language_get_query_fields ++
  map (fun f => (py "language_support_type." ++ f)%list) LanguageSupportType_get_query_fields.

(** [MultiplayerMode.get_query_fields] *)
Definition MultiplayerMode_get_query_fields : list str :=
  IGDBNotionPage_get_query_fields ++
  map (fun f => (py "platform." ++ f)%list) Platform_get_query_fields.

(** [PlayerPerspective] inherits [get_query_fields]. *)
Definition PlayerPerspective_get_query_fields : list str :=
  IGDBNotionPage_get_query_fields.

(** [ReleaseDateStatus] inherits [get_query_fields]. *)
Definition ReleaseDateStatus_get_query_fields : list str :=
  IGDBNotionPage_get_query_fields.

(** [ReleaseDate.get_query_fields] *)
Definition ReleaseDate_get_query_fields : list str :=
  IGDBNotionPage_get_query_fields ++
  map (fun f => (py "platform." ++ f)%list) Platform_get_query_fields ++
  map (fun f => (py "status." ++ f)%list) ReleaseDateStatus_get_query_fields.

(** [Screenshot] inherits [get_query_fields]. *)
Definition Screenshot_get_query_fields : list str :=
  IGDBNotionPage_get_query_fields.

(** [Theme] inherits [get_query_fields]. *)
Definition Theme_get_query_fields : list str :=
  IGDBNotionPage_get_query_fields.

(** [Website] inherits [get_query_fields]. *)
Definition Website_get_query_fields : list str :=
  IGDBNotionPage_get_query_fields.

(** [Game.get_query_fields] *)
Definition Game_get_query_fields : list str :=
  IGDBNotionPage_get_query_fields ++
  map (fun f => (py "age_ratings." ++ f)%list) AgeRating_get_query_fields ++
  map (fun f => (py "alternative_names." ++ f)%list) AlternativeName_get_query_fields ++
  map (fun f => (py "artworks." ++ f)%list) Artwork_get_query_fields ++
  map (fun f => (py "cover." ++ f)%list) Cover_get_query_fields ++
  map (fun f => (py "external_games." ++ f)%list) ExternalGame_get_query_fields ++
  map (fun f => (py "franchise." ++ f)%list) Franchise_get_query_fields ++
  map (fun f => (py "franchises." ++ f)%list) Franchise_get_query_fields ++
  map (fun f => (py "game_engines." ++ f)%list) GameEngine_get_query_fields ++
  map (fun f => (py "game_modes." ++ f)%list) GameMode_get_query_fields ++
  map (fun f => (py "genres." ++ f)%list) Genre_get_query_fields ++
  map (fun f => (py "involved_companies." ++ f)%list) InvolvedCompany_get_query_fields ++
  map (fun f => (py "keywords." ++ f)%list) Keyword_get_query_fields ++
  map (fun f => (py "multiplayer_modes." ++ f)%list) MultiplayerMode_get_query_fields ++
  map (fun f => (py "platforms." ++ f)%list) Platform_get_query_fields ++
  map (fun f => (py "player_perspectives." ++ f)%list) PlayerPerspective_get_query_fields ++
  map (fun f => (py "release_dates." ++ f)%list) ReleaseDate_get_query_fields ++
  map (fun f => (py "screenshots." ++ f)%list) Screenshot_get_query_fields ++
  map (fun f => (py "themes." ++ f)%list) Theme_get_query_fields ++
  map (fun f => (py "videos." ++ f)%list) GameVideo_get_query_fields ++
  map (fun f => (py "websites." ++ f)%list) Website_get_query_fields ++
  map (fun f => (py "language_supports." ++ f)%list) LanguageSupport_get_query_fields ++
  map (fun f => (py "game_localizations." ++ f)%list) GameLocalization_get_query_fields.
Definition get_query_fields (c : Cls) : option (list str) :=
  match c with
  | AgeRatingContentDescription => Some AgeRatingContentDescription_get_query_fields
  | AgeRating => Some AgeRating_get_query_fields
  | AlternativeName => Some AlternativeName_get_query_fields
  | Artwork => Some Artwork_get_query_fields
  | CompanyLogo => Some CompanyLogo_get_query_fields
  | CompanyWebsite => Some CompanyWebsite_get_query_fields
  | Company => Some Company_get_query_fields
  | Cover => Some Cover_get_query_fields
  | PlatformFamily => Some PlatformFamily_get_query_fields
  | PlatformLogo => Some PlatformLogo_get_query_fields
  | PlatformVersionCompany => Some PlatformVersionCompany_get_query_fields
  | PlatformVersionReleaseDate => Some PlatformVersionReleaseDate_get_query_fields
  | PlatformVersion => Some PlatformVersion_get_query_fields
  | PlatformWebsite => Some PlatformWebsite_get_query_fields
  | Platform => Some Platform_get_query_fields
  | ExternalGame => Some ExternalGame_get_query_fields
  | Franchise => Some Franchise_get_query_fields
  | GameEngineLogo => Some GameEngineLogo_get_query_fields
  | GameEngine => Some GameEngine_get_query_fields
  | Region => Some Region_get_query_fields
  | GameLocalization => Some GameLocalization_get_query_fields
  | GameMode => Some GameMode_get_query_fields
  | GameVideo => Some GameVideo_get_query_fields
  | Genre => Some Genre_get_query_fields
  | InvolvedCompany => Some InvolvedCompany_get_query_fields
  | Keyword => Some Keyword_get_query_fields
  | Language => Some Language_get_query_fields
  | LanguageSupportType => Some LanguageSupportType_get_query_fields
  | LanguageSupport => Some LanguageSupport_get_query_fields
  | MultiplayerMode => Some MultiplayerMode_get_query_fields
  | PlayerPerspective => Some PlayerPerspective_get_query_fields
  | ReleaseDateStatus => Some ReleaseDateStatus_get_query_fields
  | ReleaseDate => Some ReleaseDate_get_query_fields
  | Screenshot => Some Screenshot_get_query_fields
  | Theme => Some Theme_get_query_fields
  | Website => Some Website_get_query_fields
  | Game => Some Game_get_query_fields
  | _ => None
  end.

(** [v] is the attribute [a] of [data], or one of the values that a [for]
    over it goes through. *)
Definition from_attribute (data : PyVal) (a : string) (v : PyVal) : Prop :=
  exists u, getattr data a = Ok u /\
            (v = u \/ exists l, py_iter u = Ok l /\ In v l).

(** The record [v] that is handed to class [c] comes from an attribute of
    [data] that [fields] asks for with every field that [c] asks for. *)
Definition asked_under (fields : list str) (data : PyVal) (c : Cls) (v : PyVal)
  : Prop :=
  exists a sub,
    from_attribute data a v /\ get_query_fields c = Some sub /\
    forall f, In f sub -> In (py a ++ py "." ++ f)%list fields.

End Schemas.

(* ===================================================================== *)
(** * main.py: creating and connecting the databases *)
(* ===================================================================== *)

Module Setup.

Import Notion Schemas.
Open Scope string_scope.

(** A dict display or comprehension: a key written again keeps its place
    and takes the later value. *)
Definition dict_of {V} (items : list (string * V)) : list (string * V) :=
  fold_left (fun d kv => assoc_set (fst kv) (snd kv) d) items [].

(** The entries of [notion_db_types] with a title of their own, as written *)
Definition fixed_db_types : list (string * Cls) :=
  [ ("Age Rating Content Descriptions", AgeRatingContentDescription);
    ("Age Ratings", AgeRating);
    ("Alternative Names", AlternativeName);
    ("Artworks", Artwork);
    ("Company Logos", CompanyLogo);
    ("Company Websites", CompanyWebsite);
    ("Companies", Company);
    ("Covers", Cover);
    ("Platform Families", PlatformFamily);
    ("Platform Logos", PlatformLogo);
    ("Platform Version Companies", PlatformVersionCompany);
    ("Platform Version Release Dates", PlatformVersionReleaseDate);
    ("Platform Versions", PlatformVersion);
    ("Platform Websites", PlatformWebsite);
    ("Platforms", Platform);
    ("External Games", ExternalGame);
    ("Franchises", Franchise);
    ("Game Engine Logos", GameEngineLogo);
    ("Game Engines", GameEngine);
    ("Regions", Region);
    ("Game Localizations", GameLocalization);
    ("Game Modes", GameMode);
    ("Game Videos", GameVideo);
    ("Genres", Genre);
    ("Involved Companies", InvolvedCompany);
    ("Keywords", Keyword);
    ("Languages", Language);
    ("Language Support Types", LanguageSupportType);
    ("Language Supports", LanguageSupport);
    ("Multiplayer Modes", MultiplayerMode);
    ("Player Perspectives", PlayerPerspective);
    ("Release Date Statuses", ReleaseDateStatus);
    ("Release Dates", ReleaseDate);
    ("Screenshots", Screenshot);
    ("Themes", Theme);
    ("Websites", Website);
    ("IGDB Games", Game);
    ("HowLongToBeat Games", HLTBNotionPage);
    ("Steam Spy Games", SteamSpyNotionPage) ].

(** The place of a class in [notion_db_types] as written *)
Definition position (c : Cls) : nat :=
  match c with
  | AgeRatingContentDescription => 0
  | AgeRating => 1
  | AlternativeName => 2
  | Artwork => 3
  | CompanyLogo => 4
  | CompanyWebsite => 5
  | Company => 6
  | Cover => 7
  | PlatformFamily => 8
  | PlatformLogo => 9
  | PlatformVersionCompany => 10
  | PlatformVersionReleaseDate => 11
  | PlatformVersion => 12
  | PlatformWebsite => 13
  | Platform => 14
  | ExternalGame => 15
  | Franchise => 16
  | GameEngineLogo => 17
  | GameEngine => 18
  | Region => 19
  | GameLocalization => 20
  | GameMode => 21
  | GameVideo => 22
  | Genre => 23
  | InvolvedCompany => 24
  | Keyword => 25
  | Language => 26
  | LanguageSupportType => 27
  | LanguageSupport => 28
  | MultiplayerMode => 29
  | PlayerPerspective => 30
  | ReleaseDateStatus => 31
  | ReleaseDate => 32
  | Screenshot => 33
  | Theme => 34
  | Website => 35
  | Game => 36
  | HLTBNotionPage => 37
  | SteamSpyNotionPage => 38
  | CustomGamePage => 39
  end.

(** [main.notion_db_types]: the display ends with the entry of the
    composite page, under the title [MAIN_GAMES_DB_NAME] of the
    environment. *)
Definition notion_db_types (MAIN_GAMES_DB_NAME : string) : list (string * Cls) :=
  dict_of (fixed_db_types ++ [(MAIN_GAMES_DB_NAME, CustomGamePage)]).

(** What the loop changes: the class attributes [_notional__session]
    (whether it is set) and [_notional__database] of every class, the
    databases that [databases.create] was asked for, with title, id and
    schema, oldest first, and the id that the next new database gets. *)
Record State : Type := mkState {
  session_of : Cls -> bool;
  database_of : Cls -> option DbId;
  created : list (string * DbId * Schema);
  next_database : DbId
}.

(** Before [connect], the classes have no session and no database. *)
Definition initial : State :=
  mkState (fun _ => false) (fun _ => None) [] 0.

(** [cls.connect(session, database)]: the attributes of the connected
    page are set on [cls]. *)
Definition connect (cls : Cls) (db : DbId) (s : State) : State :=
  mkState (fun c => if Cls_eq_dec c cls then true else session_of s c)
          (fun c => if Cls_eq_dec c cls then Some db else database_of s c)
          (created s) (next_database s).

(** [cls.create_database(parent, title, session)]; [session] tells
    whether a session is passed.  The schema is the one of the class at
    the time of the call. *)
Definition create_database (members : string -> list PyStr.str) (cls : Cls)
    (title : string) (session : bool) (s : State) : Result DbId * State :=
  if negb (session || session_of s cls)
  then (Raise (ValueError "Cannot create Database; invalid session"), s)
  else
    let schema := get_notion_schema members (database_of s) cls in
    (Ok (next_database s),
     mkState (session_of s) (database_of s)
       (created s ++ [(title, next_database s, schema)])
       (S (next_database s))).

(** [existing_dbs]: the child databases of the main page whose title is a
    key of [notion_db_types], by title *)
Definition existing_dbs (MAIN_GAMES_DB_NAME : string)
    (children : list (string * DbId)) : list (string * DbId) :=
  dict_of
    (filter (fun child =>
               match assoc (fst child) (notion_db_types MAIN_GAMES_DB_NAME) with
               | Some _ => true
               | None => false
               end) children).

(** One turn of the loop:
[[
    database = existing_dbs.get(title) or page_type.create_database(
        MAIN_PAGE_ID, title, notional_session)
    page_type.connect(notional_session, database)
]]
    A database object is truthy. *)
Definition setup_step (members : string -> list PyStr.str)
    (existing : list (string * DbId)) (entry : string * Cls) (s : State)
  : Result State :=
  match assoc (fst entry) existing with
  | Some db => Ok (connect (snd entry) db s)
  | None =>
      match create_database members (snd entry) (fst entry) true s with
      | (Ok db, s1) => Ok (connect (snd entry) db s1)
      | (Raise e, _) => Raise e
      end
  end.

Fixpoint setup_loop (members : string -> list PyStr.str)
    (existing : list (string * DbId)) (entries : list (string * Cls))
    (s : State) : Result State :=
  match entries with
  | [] => Ok s
  | entry :: rest =>
      rbind (setup_step members existing entry s)
            (setup_loop members existing rest)
  end.

(** [for title, page_type in notion_db_types.items(): ...] on a new
    process, [children] being the child databases of the main page *)
Definition setup (members : string -> list PyStr.str)
    (MAIN_GAMES_DB_NAME : string) (children : list (string * DbId))
  : Result State :=
  setup_loop members (existing_dbs MAIN_GAMES_DB_NAME children)
    (notion_db_types MAIN_GAMES_DB_NAME) initial.

(** The classes before place [n] are connected. *)
Definition connected_below (n : nat) (s : State) : Prop :=
  forall c, position c < n ->
    session_of s c = true /\ exists db, database_of s c = Some db.

(** Every schema sent names a database in each relation, and was sent for
    a title that no database was found under. *)
Definition created_complete (existing : list (string * DbId)) (s : State)
  : Prop :=
  forall title db schema,
    In (title, db, schema) (created s) ->
    assoc title existing = None /\
    forall k d kind, In (k, relation_schema d kind) schema -> d <> None.

End Setup.

(* ===================================================================== *)
(** * igdb_notion.py: timestamps *)
(* ===================================================================== *)

Module Timestamps.

Open Scope Z_scope.

(** [betterproto._Timestamp] *)
Record _Timestamp : Type := mkTimestamp { seconds : Z; nanos : Z }.

(** A [timedelta], in microseconds: [timedelta(seconds=s, microseconds=u)]
    wants at most 999999999 days. *)
Definition timedelta (s u : Z) : Result Z :=
  let total := s * 1000000 + u in
  if Z.abs (total / 86400000000) >? 999999999
  then Raise (OtherError "OverflowError")
  else Ok total.

(** A [datetime] with time zone UTC, in microseconds since
    [betterproto.DATETIME_ZERO], 1970-01-01T00:00:00+00:00 *)
Definition datetime_min : Z := -62135596800000000.
Definition datetime_max : Z := 253402300799999999.

(** [betterproto.DATETIME_ZERO + offset]: the years 1 to 9999 *)
Definition DATETIME_ZERO_plus (offset : Z) : Result Z :=
  if (datetime_min <=? offset) && (offset <=? datetime_max)
  then Ok offset
  else Raise (OtherError "OverflowError").

(** [_to_datetime] *)
Definition _to_datetime (self : _Timestamp) : Result Z :=
  rbind
    (if seconds self <? 1000000000000
     then timedelta (seconds self) (nanos self / 1000)
     else timedelta (seconds self / 1000) (nanos self / 1000000))
    DATETIME_ZERO_plus.

End Timestamps.

(* ===================================================================== *)
(** * hltb_notion.py: the search results that make a game *)
(* ===================================================================== *)

Module Lookup.

Import Dataclass Hltb.
Open Scope string_scope.

Definition has_key (k : string) (items : list (string * PyVal)) : bool :=
  match assoc k items with
  | Some _ => true
  | None => false
  end.

(** The keywords that [from_dict] passes itself *)
Definition computed_keys : list string :=
  ["profile_devs"; "profile_platforms"; "game_image_url"; "game_web_link"].

(** A key that is absent or holds a text: what [from_dict] splits *)
Definition text_or_absent (k : string) (items : list (string * PyVal)) : bool :=
  match assoc k items with
  | Some (PyStr _) | None => true
  | Some _ => false
  end.

(** The JSON of a search result that [get_best_match] builds a game
    from: it has every field of [HowLongToBeatGame] that has no default,
    but for the similarity, which [get_best_match] adds, and the fields
    that [from_dict] computes; it has none of the keywords that
    [from_dict] passes itself; and its two lists of names are texts. *)
Definition complete_json (items : list (string * PyVal)) : bool :=
  forallb (fun field =>
             match snd field with
             | Some _ => true
             | None =>
                 has_key (fst field) items ||
                 existsb (String.eqb (fst field)) ("similarity" :: computed_keys)
             end) HowLongToBeatGame_fields
  && forallb (fun k => negb (has_key k items)) computed_keys
  && text_or_absent "profile_dev" items
  && text_or_absent "profile_platform" items.

End Lookup.
(* ===================================================================== *)
(** * Properties *)
(* ===================================================================== *)

Unset Implicit Arguments.

Section PyValFacts.

Lemma str_eqb_refl (s : str) : PyStr.eqb s s = true.
Proof.
  induction s as [|c s IH]; simpl; [reflexivity|].
  rewrite N.eqb_refl. exact IH.
Qed.

Lemma str_eqb_eq (a b : str) : PyStr.eqb a b = true -> a = b.
Proof.
  revert b. induction a as [|x a IH]; intros [|y b]; simpl; try discriminate; auto.
  intros H. apply andb_prop in H as [H1 H2].
  apply N.eqb_eq in H1. f_equal; auto.
Qed.

Lemma assoc_app_some {V} (k : string) (v : V) (a b : list (string * V)) :
  assoc k a = Some v -> assoc k (a ++ b) = Some v.
Proof.
  induction a as [|[k' v'] a IH]; [discriminate|].
  simpl. destruct (String.eqb k k'); auto.
Qed.

Lemma pyval_eqb_refl (v : PyVal) : pyval_eqb v v = true.
Proof.
  induction v as [| | | | |items IH| |items IH|cls attrs IH] using PyVal_ind; simpl;
    try reflexivity.
  - destruct b; reflexivity.
  - apply Z.eqb_refl.
  - rewrite Z.eqb_refl, Pos.eqb_refl. reflexivity.
  - apply str_eqb_refl.
  - induction IH as [|x t Hx _ IHt]; [reflexivity|].
    rewrite Hx. exact IHt.
  - apply str_eqb_refl.
  - induction IH as [|[k x] t Hx _ IHt]; [reflexivity|].
    simpl in Hx. rewrite String.eqb_refl, Hx. exact IHt.
  - rewrite String.eqb_refl. simpl.
    induction IH as [|[k x] t Hx _ IHt]; [reflexivity|].
    simpl in Hx. rewrite String.eqb_refl, Hx. exact IHt.
Qed.

End PyValFacts.

Import Notion.

(** ** The retry policy *)

Section RetryFacts.

Context {C : Type}.

Lemma Qmin_le_l (a b : Q) : (Tenacity.Qmin a b <= a)%Q.
Proof.
  unfold Tenacity.Qmin. destruct (Qle_bool a b) eqn:E.
  - apply Qle_refl.
  - apply Qlt_le_weak. apply Qnot_le_lt. intro H.
    apply Qle_bool_iff in H. congruence.
Qed.

Lemma Qmin_le_r (a b : Q) : (Tenacity.Qmin a b <= b)%Q.
Proof.
  unfold Tenacity.Qmin. destruct (Qle_bool a b) eqn:E.
  - apply Qle_bool_iff. exact E.
  - apply Qle_refl.
Qed.

Lemma wait_exponential_nonneg (n : nat) : (0 <= Tenacity.wait_exponential n)%Q.
Proof.
  unfold Tenacity.wait_exponential, Tenacity.Qmax.
  change (Qle_bool 0 0) with true. cbv iota.
  destruct (Qle_bool 0 _) eqn:E.
  - apply Qle_bool_iff. exact E.
  - apply Qle_refl.
Qed.

Lemma wait_exponential_le_max (n : nat) :
  (Tenacity.wait_exponential n <= Tenacity.max_wait)%Q.
Proof.
  unfold Tenacity.wait_exponential, Tenacity.Qmax.
  change (Qle_bool 0 0) with true. cbv iota.
  destruct (Qle_bool 0 _) eqn:E.
  - apply Qmin_le_r.
  - unfold Tenacity.max_wait. discriminate.
Qed.

Lemma draw_value_range (d : Tenacity.Draw) :
  (0 <= Tenacity.draw_value d)%Q /\ (Tenacity.draw_value d < 1)%Q.
Proof.
  unfold Tenacity.draw_value, Qle, Qlt. simpl. split; lia.
Qed.

(** Every wait lies between 0 and the exponential bound of its attempt,
    which never exceeds 960. *)
Lemma wait_random_exponential_range (n : nat) (d : Tenacity.Draw) :
  (0 <= Tenacity.wait_random_exponential n d)%Q /\
  (Tenacity.wait_random_exponential n d <= Tenacity.wait_exponential n)%Q /\
  (Tenacity.wait_random_exponential n d <= 960 # 1)%Q.
Proof.
  pose proof (wait_exponential_nonneg n) as Hh.
  pose proof (wait_exponential_le_max n) as Hm.
  destruct (draw_value_range d) as [H0 H1].
  unfold Tenacity.wait_random_exponential.
  set (h := Tenacity.wait_exponential n) in *.
  set (u := Tenacity.draw_value d) in *.
  assert (E : (0 + (h - 0) * u == h * u)%Q) by ring.
  assert (Hle : (h * u <= h)%Q).
  { rewrite <- (Qmult_1_r h) at 2.
    rewrite (Qmult_comm h u), (Qmult_comm h 1).
    apply Qmult_le_compat_r; [apply Qlt_le_weak; exact H1 | exact Hh]. }
  repeat split.
  - rewrite E. apply Qmult_le_0_compat; assumption.
  - rewrite E. exact Hle.
  - rewrite E. eapply Qle_trans; [exact Hle | exact Hm].
Qed.

Lemma sleep_before_retry_wait (n : nat) (w : World C) :
  exists d, fst (sleep_before_retry n w) = Tenacity.wait_random_exponential n d.
Proof.
  unfold sleep_before_retry. destruct (draws w) as [|d rest]; eexists; reflexivity.
Qed.

Lemma retry_loop_exhaustion {A} (f : M C A) (Hf : always_transient f) :
  forall left slept w,
    left < Tenacity.max_attempt_number ->
    List.length slept = Tenacity.max_attempt_number - 1 - left ->
    waits_bounded slept ->
    exists e w_last w_end ws,
      retry_loop left slept f w
        = (Raises e, w_end, mkRetryState Tenacity.max_attempt_number ws) /\
      f w_last = (Raises e, w_end) /\
      Tenacity.retry_if_exception_type e = true /\
      List.length ws = Tenacity.max_attempt_number - 1 /\
      waits_bounded ws.
Proof.
  induction left as [|left IH]; intros slept w Hlt Hlen Hb.
  - destruct (Hf w) as (e & w' & Hfw & He).
    exists e, w, w', slept.
    split; [simpl; rewrite Hfw, He; reflexivity|].
    split; [exact Hfw|]. split; [exact He|]. split; [|exact Hb].
    rewrite Hlen. unfold Tenacity.max_attempt_number. lia.
  - destruct (Hf w) as (e & w' & Hfw & He).
    cbn [retry_loop]. rewrite Hfw, He.
    destruct (sleep_before_retry (Tenacity.max_attempt_number - S left) w')
      as [seconds w2] eqn:Es.
    apply IH.
    + lia.
    + rewrite length_app, Hlen. cbn [List.length].
      unfold Tenacity.max_attempt_number in *. lia.
    + intros k q Hk.
      destruct (Nat.lt_ge_cases k (List.length slept)) as [Hin|Hout].
      * rewrite nth_error_app1 in Hk by exact Hin. apply (Hb k q Hk).
      * rewrite nth_error_app2 in Hk by exact Hout.
        destruct (k - List.length slept) as [|j] eqn:Ek.
        2:{ destruct j; discriminate. }
        simpl in Hk. injection Hk as <-.
        destruct (sleep_before_retry_wait (Tenacity.max_attempt_number - S left) w')
          as [d Hd].
        rewrite Es in Hd. cbn [fst] in Hd. subst seconds.
        assert (Tenacity.max_attempt_number - S left = S k) as ->.
        { unfold Tenacity.max_attempt_number in *. lia. }
        apply wait_random_exponential_range.
Qed.

Lemma retry_loop_not_retried {A} (f : M C A) (left : nat) (slept : list Q)
    (w w' : World C) (e : Exn) :
  f w = (Raises e, w') ->
  Tenacity.retry_if_exception_type e = false ->
  retry_loop left slept f w
    = (Raises e, w', mkRetryState (Tenacity.max_attempt_number - left) slept).
Proof.
  intros Hf He. destruct left; simpl; rewrite Hf, He; reflexivity.
Qed.

Lemma retry_loop_returns {A} (f : M C A) (left : nat) (slept : list Q)
    (w w' : World C) (a : A) :
  f w = (Returns a, w') ->
  retry_loop left slept f w
    = (Returns a, w', mkRetryState (Tenacity.max_attempt_number - left) slept).
Proof.
  intros Hf. destruct left; simpl; rewrite Hf; reflexivity.
Qed.

Lemma retry_loop_diverges {A} (f : M C A) (left : nat) (slept : list Q)
    (w w' : World C) :
  f w = (Diverges, w') ->
  retry_loop left slept f w
    = (Diverges, w', mkRetryState (Tenacity.max_attempt_number - left) slept).
Proof.
  intros Hf. destruct left; simpl; rewrite Hf; reflexivity.
Qed.

End RetryFacts.

(** ** Caches and logs *)

Section EngineFacts.

Context {C : Type} (C_eq_dec : forall a b : C, {a = b} + {a <> b}).
Context (classes : C -> PageClass C).

Local Abbreviation roc := (retrieve_or_create_from_data C_eq_dec classes).

Lemma key_eqb_refl (k : Key C) : key_eqb C_eq_dec k k = true.
Proof.
  destruct k as [[c d] h]. unfold key_eqb, hints_eqb.
  destruct (C_eq_dec c c); [|congruence].
  rewrite !pyval_eqb_refl. reflexivity.
Qed.

Lemma cache_get_set (k : Key C) (v : Page) (c : Cache C) :
  cache_get C_eq_dec k (cache_set k v c) = Some v.
Proof. simpl. rewrite key_eqb_refl. reflexivity. Qed.

Lemma lru_cache_hit get set (k : Key C) (f : M C Page) (w : World C) (v : Page) :
  cache_get C_eq_dec k (get w) = Some v ->
  lru_cache C_eq_dec get set k f w = (Returns v, w).
Proof. intros H. unfold lru_cache. rewrite H. reflexivity. Qed.

Lemma lru_cache_stores get set (k : Key C) (f : M C Page) (w w1 : World C) (v : Page) :
  (forall c w', get (set c w') = c) ->
  lru_cache C_eq_dec get set k f w = (Returns v, w1) ->
  cache_get C_eq_dec k (get w1) = Some v.
Proof.
  intros Hgs. unfold lru_cache.
  destruct (cache_get C_eq_dec k (get w)) as [v0|] eqn:E.
  - intros H. injection H as <- <-. exact E.
  - destruct (f w) as [[a|e|] w'] eqn:Ef; intros H; try discriminate.
    injection H as <- <-. rewrite Hgs. apply cache_get_set.
Qed.

Lemma dispatch_stores (h : Handler C) cls data hints (w w1 : World C) (p : Page) :
  dispatch C_eq_dec classes h cls data hints w = (Returns p, w1) ->
  cache_get C_eq_dec (cls, data, hints) (outer_cache classes cls w1) = Some p.
Proof.
  unfold dispatch, outer_cache, base_retrieve_or_create.
  destruct (override_hints (classes cls)) as [adjust|];
    apply lru_cache_stores; reflexivity.
Qed.

Lemma dispatch_hit (h : Handler C) cls data hints (w : World C) (p : Page) :
  cache_get C_eq_dec (cls, data, hints) (outer_cache classes cls w) = Some p ->
  dispatch C_eq_dec classes h cls data hints w = (Returns p, w).
Proof.
  unfold dispatch, outer_cache, base_retrieve_or_create.
  destruct (override_hints (classes cls)); apply lru_cache_hit.
Qed.

Lemma roc_returns_fuel fuel cls data hints (w w1 : World C) (p : Page) :
  roc fuel cls data hints w = (Returns p, w1) -> exists fuel', fuel = S fuel'.
Proof. destruct fuel; [discriminate | eauto]. Qed.

Lemma call_times_cached n fuel cls data hints (w : World C) (p : Page) :
  cache_get C_eq_dec (cls, data, hints) (outer_cache classes cls w) = Some p ->
  call_times C_eq_dec classes n (S fuel) cls data hints w
    = (repeat (Returns p) n, w).
Proof.
  intros H. induction n as [|n IH]; [reflexivity|].
  cbn [call_times retrieve_or_create_from_data].
  rewrite (dispatch_hit _ _ _ _ _ _ H), IH. reflexivity.
Qed.

End EngineFacts.

(** ** Writes of a call, under a reference order *)

Section RankFacts.

Context {C : Type} (C_eq_dec : forall a b : C, {a = b} + {a <> b}).
Context (classes : C -> PageClass C) (rank : C -> nat).

Local Abbreviation roc := (retrieve_or_create_from_data C_eq_dec classes).
Local Abbreviation creates := (Notion.creates C_eq_dec).
Local Abbreviation updates := (Notion.updates C_eq_dec).

Lemma creates_app cls (a b : list (Event C)) :
  creates cls (a ++ b) = creates cls a + creates cls b.
Proof. unfold Notion.creates. rewrite filter_app, length_app. reflexivity. Qed.

Lemma updates_app cls (a b : list (Event C)) :
  updates cls (a ++ b) = updates cls a + updates cls b.
Proof. unfold Notion.updates. rewrite filter_app, length_app. reflexivity. Qed.

Lemma writes_below_app r (a b : list (Event C)) :
  writes_below rank r a -> writes_below rank r b -> writes_below rank r (a ++ b).
Proof. unfold writes_below. intros. apply Forall_app. auto. Qed.

Lemma writes_within_app cls (a b : list (Event C)) :
  writes_within rank cls a -> writes_within rank cls b ->
  writes_within rank cls (a ++ b).
Proof. unfold writes_within. intros. apply Forall_app. auto. Qed.

Lemma writes_below_none cls (l : list (Event C)) :
  writes_below rank (rank cls) l -> creates cls l = 0 /\ updates cls l = 0.
Proof.
  unfold writes_below, Notion.creates, Notion.updates.
  induction 1 as [|ev l Hev _ IH]; [split; reflexivity|].
  destruct IH as [IHc IHu]. simpl.
  destruct ev as [c f o|c pg pr|c pg pr|e|q]; simpl in *; auto.
  - destruct (C_eq_dec c cls) as [->|]; [lia | auto].
  - destruct (C_eq_dec c cls) as [->|]; [lia | auto].
Qed.

Lemma writes_below_within cls (l : list (Event C)) :
  writes_below rank (rank cls) l -> writes_within rank cls l.
Proof.
  unfold writes_below, writes_within. apply Forall_impl.
  intros ev. destruct (write_class ev); auto.
Qed.

Lemma writes_within_below cls r (l : list (Event C)) :
  rank cls < r -> writes_within rank cls l -> writes_below rank r l.
Proof.
  intros Hr. unfold writes_below, writes_within. apply Forall_impl.
  intros ev. destruct (write_class ev); auto.
  intros [H| ->]; lia.
Qed.

Lemma remote_call_log (w w1 : World C) res :
  remote_call w = (res, w1) ->
  exists new, log w1 = log w ++ new /\ writes_below rank 0 new.
Proof.
  unfold remote_call. destruct (faults w) as [|[e|] rest]; intros H;
    injection H as <- <-; simpl.
  - exists []. rewrite app_nil_r. split; [reflexivity | constructor].
  - exists [EvFault C e]. split; [reflexivity|]. repeat constructor.
  - exists []. rewrite app_nil_r. split; [reflexivity | constructor].
Qed.

Lemma writes_below_mono r r' (l : list (Event C)) :
  r <= r' -> writes_below rank r l -> writes_below rank r' l.
Proof.
  intros Hr. unfold writes_below. apply Forall_impl.
  intros ev. destruct (write_class ev); auto. lia.
Qed.

Lemma query_first_log cls f (w w1 : World C) res :
  query_first cls f w = (res, w1) ->
  exists new, log w1 = log w ++ new /\ writes_below rank 0 new.
Proof.
  unfold query_first.
  destruct (negb (session w cls)).
  { intros H; injection H as <- <-. exists []. rewrite app_nil_r.
    split; [reflexivity | constructor]. }
  destruct (database w cls) as [db|].
  2:{ intros H; injection H as <- <-. exists []. rewrite app_nil_r.
      split; [reflexivity | constructor]. }
  unfold mbind. destruct (remote_call w) as [[[]|e|] w'] eqn:Er;
    destruct (remote_call_log _ _ _ Er) as (new & Hn & Hb).
  - destruct (first_match db f (store w')) as [r|]; intros H.
    + unfold parse_obj, mret in H. injection H as <- <-. simpl.
      exists (new ++ [EvQuery cls f (Some (rp_id r))]).
      rewrite Hn, app_assoc. split; [reflexivity|].
      apply writes_below_app; [exact Hb | repeat constructor].
    + injection H as <- <-. simpl.
      exists (new ++ [EvQuery cls f None]).
      rewrite Hn, app_assoc. split; [reflexivity|].
      apply writes_below_app; [exact Hb | repeat constructor].
  - intros H; injection H as <- <-. eauto.
  - intros H; injection H as <- <-. eauto.
Qed.

Lemma interp_log (h : Handler C) r {A} (p : Prog C A) :
  calls_below rank r p ->
  handler_writes_below rank h r ->
  forall w res w1,
    interp h p w = (res, w1) ->
    exists new, log w1 = log w ++ new /\ writes_below rank r new.
Proof.
  intros Hp Hh. induction Hp as [a|e|c d hs k Hc Hk IH|c f k Hk IH];
    intros w res w1 H; simpl in H.
  - injection H as <- <-. exists []. rewrite app_nil_r. split; [reflexivity|constructor].
  - injection H as <- <-. exists []. rewrite app_nil_r. split; [reflexivity|constructor].
  - unfold mbind in H. destruct (h c d hs w) as [[pg|e|] w'] eqn:Eh;
      destruct (Hh _ _ _ _ _ _ Hc Eh) as (n1 & Hn1 & Hb1).
    + destruct (IH _ _ _ _ H) as (n2 & Hn2 & Hb2).
      exists (n1 ++ n2). rewrite Hn2, Hn1, app_assoc. split; [reflexivity|].
      apply writes_below_app; assumption.
    + injection H as <- <-. eauto.
    + injection H as <- <-. eauto.
  - unfold mbind in H. destruct (query_first c f w) as [[found|e|] w'] eqn:Eq;
      destruct (query_first_log _ _ _ _ _ Eq) as (n1 & Hn1 & Hb1);
      apply (writes_below_mono _ _ _ (Nat.le_0_l r)) in Hb1.
    + destruct (IH _ _ _ _ H) as (n2 & Hn2 & Hb2).
      exists (n1 ++ n2). rewrite Hn2, Hn1, app_assoc. split; [reflexivity|].
      apply writes_below_app; assumption.
    + injection H as <- <-. eauto.
    + injection H as <- <-. eauto.
Qed.

Hypothesis Hranked : well_ranked classes rank.

Local Abbreviation own_writes := (Notion.own_writes C_eq_dec rank).

Lemma own_writes_below {A} cls (res : Outcome A) (new : list (Event C)) :
  writes_below rank (rank cls) new -> own_writes cls res new.
Proof.
  intros H. destruct (writes_below_none cls _ H) as [Hc Hu].
  split; [apply writes_below_within; exact H|].
  rewrite Hc, Hu. split; [lia | reflexivity].
Qed.

Lemma log_nil (w : World C) : log w = log w ++ [].
Proof. rewrite app_nil_r. reflexivity. Qed.

Lemma pages_create_log cls db props icon cover (w w1 : World C) res :
  pages_create cls db props icon cover w = (res, w1) ->
  exists new, log w1 = log w ++ new /\
    writes_within rank cls new /\ updates cls new = 0 /\ creates cls new <= 1 /\
    (is_returns res = false -> creates cls new = 0).
Proof.
  unfold pages_create, mbind.
  destruct (remote_call w) as [[[]|e|] w'] eqn:Er;
    destruct (remote_call_log _ _ _ Er) as (n1 & Hn1 & Hb1);
    apply (writes_below_mono _ _ _ (Nat.le_0_l (rank cls))) in Hb1;
    destruct (writes_below_none cls _ Hb1) as [Hc Hu];
    intros H; injection H as <- <-.
  - exists (n1 ++ [EvCreate cls (next_page_id w') props]). simpl.
    rewrite Hn1, app_assoc. split; [reflexivity|].
    split.
    { apply writes_within_app; [apply writes_below_within; exact Hb1|].
      apply Forall_cons; [simpl; right; reflexivity | constructor]. }
    rewrite updates_app, creates_app, Hc, Hu.
    unfold Notion.updates, Notion.creates. simpl.
    destruct (C_eq_dec cls cls); [|congruence]. simpl.
    repeat split; try lia; try discriminate.
  - exists n1. split; [exact Hn1|]. split; [apply writes_below_within; exact Hb1|].
    rewrite Hc, Hu. repeat split; lia.
  - exists n1. split; [exact Hn1|]. split; [apply writes_below_within; exact Hb1|].
    rewrite Hc, Hu. repeat split; lia.
Qed.

Lemma pages_update_log cls page props icon cover (w w1 : World C) res :
  pages_update cls page props icon cover w = (res, w1) ->
  exists new, log w1 = log w ++ new /\
    writes_within rank cls new /\ creates cls new = 0 /\ updates cls new <= 1 /\
    (is_returns res = false -> updates cls new = 0).
Proof.
  unfold pages_update, mbind.
  destruct (remote_call w) as [[[]|e|] w'] eqn:Er;
    destruct (remote_call_log _ _ _ Er) as (n1 & Hn1 & Hb1);
    apply (writes_below_mono _ _ _ (Nat.le_0_l (rank cls))) in Hb1;
    destruct (writes_below_none cls _ Hb1) as [Hc Hu].
  - destruct (store_update page props icon cover (store w')) as [[r st]|];
      intros H; injection H as <- <-.
    + exists (n1 ++ [EvUpdate cls page props]). simpl.
      rewrite Hn1, app_assoc. split; [reflexivity|].
      split.
      { apply writes_within_app; [apply writes_below_within; exact Hb1|].
        apply Forall_cons; [simpl; right; reflexivity | constructor]. }
      rewrite updates_app, creates_app, Hc, Hu.
      unfold Notion.updates, Notion.creates. simpl.
      destruct (C_eq_dec cls cls); [|congruence]. simpl.
      repeat split; try lia; try discriminate.
    + exists (n1 ++ [EvFault C (APIResponseError 404)]). simpl.
      rewrite Hn1, app_assoc. split; [reflexivity|].
      split.
      { apply writes_within_app; [apply writes_below_within; exact Hb1|].
        apply Forall_cons; [exact I | constructor]. }
      rewrite updates_app, creates_app, Hc, Hu.
      unfold Notion.updates, Notion.creates. simpl. repeat split; lia.
  - intros H; injection H as <- <-.
    exists n1. split; [exact Hn1|]. split; [apply writes_below_within; exact Hb1|].
    rewrite Hc, Hu. repeat split; lia.
  - intros H; injection H as <- <-.
    exists n1. split; [exact Hn1|]. split; [apply writes_below_within; exact Hb1|].
    rewrite Hc, Hu. repeat split; lia.
Qed.

Lemma parse_obj_log r (w w1 : World C) res :
  parse_obj r w = (res, w1) -> log w1 = log w /\ is_returns res = true.
Proof. unfold parse_obj. intros H; injection H as <- <-. split; reflexivity. Qed.

Lemma create_from_data_log (h : Handler C) cls data icon cover (w w1 : World C) res :
  handler_writes_below rank h (rank cls) ->
  create_from_data classes h cls data icon cover w = (res, w1) ->
  exists new, log w1 = log w ++ new /\ own_writes cls res new.
Proof.
  intros Hh. unfold create_from_data.
  destruct (negb (session w cls)).
  { intros H; injection H as <- <-. exists []. split; [apply log_nil|].
    apply own_writes_below. constructor. }
  destruct (database w cls) as [db|].
  2:{ intros H; injection H as <- <-. exists []. split; [apply log_nil|].
      apply own_writes_below. constructor. }
  unfold mbind.
  destruct (interp h (get_notion_properties (classes cls) data) w)
    as [[props|e|] w'] eqn:Ei;
    destruct (interp_log _ _ _ (proj1 (Hranked cls data)) Hh _ _ _ Ei) as (n1 & Hn1 & Hb1).
  2,3: intros H; injection H as <- <-; exists n1; split; [exact Hn1|];
       apply own_writes_below; exact Hb1.
  destruct (writes_below_none cls _ Hb1) as [Hc1 Hu1].
  destruct (pages_create cls db props icon cover w') as [[r|e|] w2] eqn:Ec;
    destruct (pages_create_log _ _ _ _ _ _ _ _ Ec) as (n2 & Hn2 & Hw2 & Hu2 & Hc2 & Hf2).
  - intros H. destruct (parse_obj_log _ _ _ _ H) as [Hl Hr].
    exists (n1 ++ n2). rewrite Hl, Hn2, Hn1, app_assoc. split; [reflexivity|].
    split; [apply writes_within_app; [apply writes_below_within; exact Hb1 | exact Hw2]|].
    rewrite creates_app, updates_app, Hc1, Hu1, Hu2, Hr.
    split; [lia | discriminate].
  - intros H; injection H as <- <-.
    exists (n1 ++ n2). rewrite Hn2, Hn1, app_assoc. split; [reflexivity|].
    split; [apply writes_within_app; [apply writes_below_within; exact Hb1 | exact Hw2]|].
    rewrite creates_app, updates_app, Hc1, Hu1, Hu2, (Hf2 eq_refl).
    split; [lia | reflexivity].
  - intros H; injection H as <- <-.
    exists (n1 ++ n2). rewrite Hn2, Hn1, app_assoc. split; [reflexivity|].
    split; [apply writes_within_app; [apply writes_below_within; exact Hb1 | exact Hw2]|].
    rewrite creates_app, updates_app, Hc1, Hu1, Hu2, (Hf2 eq_refl).
    split; [lia | reflexivity].
Qed.

Lemma update_from_data_log (h : Handler C) cls page data icon cover
    (w w1 : World C) res :
  handler_writes_below rank h (rank cls) ->
  update_from_data classes h cls page data icon cover w = (res, w1) ->
  exists new, log w1 = log w ++ new /\ own_writes cls res new.
Proof.
  intros Hh. unfold update_from_data.
  destruct (negb (session w cls)).
  { intros H; injection H as <- <-. exists []. split; [apply log_nil|].
    apply own_writes_below. constructor. }
  unfold mbind.
  destruct (interp h (get_notion_properties (classes cls) data) w)
    as [[props|e|] w'] eqn:Ei;
    destruct (interp_log _ _ _ (proj1 (Hranked cls data)) Hh _ _ _ Ei) as (n1 & Hn1 & Hb1).
  2,3: intros H; injection H as <- <-; exists n1; split; [exact Hn1|];
       apply own_writes_below; exact Hb1.
  destruct (writes_below_none cls _ Hb1) as [Hc1 Hu1].
  destruct (pages_update cls page props icon cover w') as [[r|e|] w2] eqn:Ec;
    destruct (pages_update_log _ _ _ _ _ _ _ _ Ec) as (n2 & Hn2 & Hw2 & Hc2 & Hu2 & Hf2).
  - intros H. destruct (parse_obj_log _ _ _ _ H) as [Hl Hr].
    exists (n1 ++ n2). rewrite Hl, Hn2, Hn1, app_assoc. split; [reflexivity|].
    split; [apply writes_within_app; [apply writes_below_within; exact Hb1 | exact Hw2]|].
    rewrite creates_app, updates_app, Hc1, Hu1, Hc2, Hr.
    split; [lia | discriminate].
  - intros H; injection H as <- <-.
    exists (n1 ++ n2). rewrite Hn2, Hn1, app_assoc. split; [reflexivity|].
    split; [apply writes_within_app; [apply writes_below_within; exact Hb1 | exact Hw2]|].
    rewrite creates_app, updates_app, Hc1, Hu1, Hc2, (Hf2 eq_refl).
    split; [lia | reflexivity].
  - intros H; injection H as <- <-.
    exists (n1 ++ n2). rewrite Hn2, Hn1, app_assoc. split; [reflexivity|].
    split; [apply writes_within_app; [apply writes_below_within; exact Hb1 | exact Hw2]|].
    rewrite creates_app, updates_app, Hc1, Hu1, Hc2, (Hf2 eq_refl).
    split; [lia | reflexivity].
Qed.

Lemma own_writes_prepend {A} cls (res : Outcome A) (n1 n2 : list (Event C)) :
  writes_below rank (rank cls) n1 -> own_writes cls res n2 ->
  own_writes cls res (n1 ++ n2).
Proof.
  intros Hb (Hw & Hle & Hf).
  destruct (writes_below_none cls _ Hb) as [Hc Hu].
  split; [apply writes_within_app; [apply writes_below_within; exact Hb | exact Hw]|].
  rewrite creates_app, updates_app, Hc, Hu. simpl. split; assumption.
Qed.

Lemma body_log (h : Handler C) cls data hints (w w1 : World C) res :
  handler_writes_below rank h (rank cls) ->
  retrieve_or_create_body classes h cls data hints w = (res, w1) ->
  exists new, log w1 = log w ++ new /\ own_writes cls res new.
Proof.
  intros Hh. unfold retrieve_or_create_body, mbind.
  destruct (interp h (retrieve_from_data (classes cls) data) w)
    as [[found|e|] w'] eqn:Ei;
    destruct (interp_log _ _ _ (proj2 (Hranked cls data)) Hh _ _ _ Ei) as (n1 & Hn1 & Hb1).
  2,3: intros H; injection H as <- <-; exists n1; split; [exact Hn1|];
       apply own_writes_below; exact Hb1.
  destruct found as [page|].
  - destruct (update w').
    + intros H. destruct (update_from_data_log _ _ _ _ _ _ _ _ _ Hh H) as (n2 & Hn2 & Ho).
      exists (n1 ++ n2). rewrite Hn2, Hn1, app_assoc. split; [reflexivity|].
      apply own_writes_prepend; assumption.
    + intros H; injection H as <- <-. exists n1. split; [exact Hn1|].
      apply own_writes_below; exact Hb1.
  - intros H. destruct (create_from_data_log _ _ _ _ _ _ _ _ Hh H) as (n2 & Hn2 & Ho).
    exists (n1 ++ n2). rewrite Hn2, Hn1, app_assoc. split; [reflexivity|].
    apply own_writes_prepend; assumption.
Qed.

Lemma own_writes_after {A} cls (res : Outcome A) (n1 n2 : list (Event C)) :
  writes_within rank cls n1 ->
  creates cls n1 + updates cls n1 = 0 ->
  own_writes cls res n2 ->
  own_writes cls res (n1 ++ n2).
Proof.
  intros Hw1 H0 (Hw & Hle & Hf).
  split; [apply writes_within_app; assumption|].
  rewrite creates_app, updates_app. split; [lia|].
  intros Hr. specialize (Hf Hr). lia.
Qed.

Lemma sleep_before_retry_log n (w : World C) :
  exists q, log (snd (sleep_before_retry n w)) = log w ++ [EvSleep C q].
Proof.
  unfold sleep_before_retry. destruct (draws w); eexists; reflexivity.
Qed.

Lemma retry_loop_log {A} cls (f : M C A) :
  (forall w res w1, f w = (res, w1) ->
     exists new, log w1 = log w ++ new /\ own_writes cls res new) ->
  forall left slept w res w1 st,
    retry_loop left slept f w = (res, w1, st) ->
    exists new, log w1 = log w ++ new /\ own_writes cls res new.
Proof.
  intros Hf. induction left as [|left IH]; intros slept w res w1 st;
    cbn [retry_loop]; destruct (f w) as [r w'] eqn:Ef;
    destruct (Hf _ _ _ Ef) as (n1 & Hn1 & Ho1).
  - destruct r as [a|e|]; [|destruct (Tenacity.retry_if_exception_type e)|];
      intros H; injection H as <- <- _; eauto.
  - destruct r as [a|e|].
    + intros H; injection H as <- <- _; eauto.
    + destruct (Tenacity.retry_if_exception_type e).
      * destruct (sleep_before_retry (Tenacity.max_attempt_number - S left) w')
          as [q w2] eqn:Es.
        intros H. destruct (IH _ _ _ _ _ H) as (n2 & Hn2 & Ho2).
        destruct (sleep_before_retry_log (Tenacity.max_attempt_number - S left) w')
          as [q' Hq]. rewrite Es in Hq. cbn [snd] in Hq.
        exists (n1 ++ [EvSleep C q'] ++ n2).
        rewrite Hn2, Hq, Hn1, <- !app_assoc. split; [reflexivity|].
        destruct Ho1 as (Hw1 & _ & Hz1).
        apply own_writes_after; [exact Hw1 | apply Hz1; reflexivity|].
        apply own_writes_after; [|reflexivity | exact Ho2].
        apply Forall_cons; [exact I | constructor].
      * intros H; injection H as <- <- _; eauto.
    + intros H; injection H as <- <- _; eauto.
Qed.

Lemma lru_cache_log get set cls (k : Key C) (f : M C Page) :
  (forall c w, log (set c w) = log w) ->
  (forall w res w1, f w = (res, w1) ->
     exists new, log w1 = log w ++ new /\ own_writes cls res new) ->
  forall w res w1,
    lru_cache C_eq_dec get set k f w = (res, w1) ->
    exists new, log w1 = log w ++ new /\ own_writes cls res new.
Proof.
  intros Hset Hf w res w1. unfold lru_cache.
  destruct (cache_get C_eq_dec k (get w)) as [v|].
  - intros H; injection H as <- <-. exists []. split; [apply log_nil|].
    apply own_writes_below. constructor.
  - destruct (f w) as [r w'] eqn:Ef. destruct (Hf _ _ _ Ef) as (n1 & Hn1 & Ho1).
    destruct r as [v|e|]; intros H; injection H as <- <-; eauto.
    exists n1. rewrite Hset. auto.
Qed.

Lemma base_log (h : Handler C) cls data hints (w w1 : World C) res :
  handler_writes_below rank h (rank cls) ->
  base_retrieve_or_create C_eq_dec classes h cls data hints w = (res, w1) ->
  exists new, log w1 = log w ++ new /\ own_writes cls res new.
Proof.
  intros Hh. unfold base_retrieve_or_create.
  apply lru_cache_log; [reflexivity|].
  clear w w1 res. intros w res w1. unfold retry, retrying.
  destruct (retry_loop _ _ _ w) as [[r w'] st] eqn:Er. cbn [fst].
  intros H; injection H as <- <-.
  apply (retry_loop_log cls _ (fun w res w1 => body_log h cls data hints w w1 res Hh)
           _ _ _ _ _ _ Er).
Qed.

Lemma dispatch_log (h : Handler C) cls data hints (w w1 : World C) res :
  handler_writes_below rank h (rank cls) ->
  dispatch C_eq_dec classes h cls data hints w = (res, w1) ->
  exists new, log w1 = log w ++ new /\ own_writes cls res new.
Proof.
  intros Hh. unfold dispatch.
  destruct (override_hints (classes cls)) as [adjust|]; [|apply base_log; exact Hh].
  apply lru_cache_log; [reflexivity|].
  clear w w1 res. intros w res w1. unfold mbind, mlift.
  destruct (adjust data (icon_url_of hints) (cover_url_of hints)) as [[i c]|e].
  - apply base_log; exact Hh.
  - intros H; injection H as <- <-. exists []. split; [apply log_nil|].
    apply own_writes_below. constructor.
Qed.

(** The writes of a call: to its own class and to classes below, with at
    most one write to its own class, and none there unless it returns. *)
Lemma roc_log fuel :
  forall cls data hints (w w1 : World C) res,
    roc fuel cls data hints w = (res, w1) ->
    exists new, log w1 = log w ++ new /\ own_writes cls res new.
Proof.
  induction fuel as [|fuel IH]; intros cls data hints w w1 res.
  - intros H; injection H as <- <-. exists []. split; [apply log_nil|].
    apply own_writes_below. constructor.
  - cbn [retrieve_or_create_from_data]. apply dispatch_log.
    intros c d hs w0 r0 w2 Hc Hcall.
    destruct (IH _ _ _ _ _ _ Hcall) as (new & Hn & Hw & _).
    exists new. split; [exact Hn|].
    apply (writes_within_below c); assumption.
Qed.

(** *** Termination *)

Lemma query_first_total cls f (w : World C) :
  is_diverges (fst (query_first cls f w)) = false.
Proof.
  unfold query_first. destruct (negb (session w cls)); [reflexivity|].
  destruct (database w cls) as [db|]; [|reflexivity].
  unfold mbind, remote_call.
  destruct (faults w) as [|[e|] rest]; try reflexivity;
    match goal with |- context [first_match ?d ?f ?s] =>
      destruct (first_match d f s) end; reflexivity.
Qed.

Lemma interp_total (h : Handler C) r {A} (p : Prog C A) :
  calls_below rank r p -> handler_total rank h r ->
  forall w, is_diverges (fst (interp h p w)) = false.
Proof.
  intros Hp Hh. induction Hp as [a|e|c d hs k Hc Hk IH|c f k Hk IH];
    intros w; simpl; try reflexivity.
  - unfold mbind. specialize (Hh c d hs w Hc).
    destruct (h c d hs w) as [[pg|e|] w']; try reflexivity; [apply IH | discriminate].
  - unfold mbind. pose proof (query_first_total c f w) as Hq.
    destruct (query_first c f w) as [[x|e|] w']; try reflexivity; [apply IH | discriminate].
Qed.

Lemma pages_create_total cls db props icon cover (w : World C) :
  is_diverges (fst (pages_create cls db props icon cover w)) = false.
Proof.
  unfold pages_create, mbind, remote_call.
  destruct (faults w) as [|[e|] rest]; reflexivity.
Qed.

Lemma pages_update_total cls page props icon cover (w : World C) :
  is_diverges (fst (pages_update cls page props icon cover w)) = false.
Proof.
  unfold pages_update, mbind, remote_call.
  destruct (faults w) as [|[e|] rest]; try reflexivity;
    match goal with |- context [store_update ?a ?b ?c ?d ?s] =>
      destruct (store_update a b c d s) as [[? ?]|] end; reflexivity.
Qed.

Lemma create_from_data_total (h : Handler C) cls data icon cover (w : World C) :
  handler_total rank h (rank cls) ->
  is_diverges (fst (create_from_data classes h cls data icon cover w)) = false.
Proof.
  intros Hh. unfold create_from_data.
  destruct (negb (session w cls)); [reflexivity|].
  destruct (database w cls) as [db|]; [|reflexivity].
  unfold mbind.
  pose proof (interp_total h _ _ (proj1 (Hranked cls data)) Hh w) as Hi.
  destruct (interp h (get_notion_properties (classes cls) data) w)
    as [[props|e|] w']; try reflexivity; [|discriminate].
  pose proof (pages_create_total cls db props icon cover w') as Hc.
  destruct (pages_create cls db props icon cover w') as [[r|e|] w2];
    try reflexivity. discriminate.
Qed.

Lemma update_from_data_total (h : Handler C) cls page data icon cover (w : World C) :
  handler_total rank h (rank cls) ->
  is_diverges (fst (update_from_data classes h cls page data icon cover w)) = false.
Proof.
  intros Hh. unfold update_from_data.
  destruct (negb (session w cls)); [reflexivity|].
  unfold mbind.
  pose proof (interp_total h _ _ (proj1 (Hranked cls data)) Hh w) as Hi.
  destruct (interp h (get_notion_properties (classes cls) data) w)
    as [[props|e|] w']; try reflexivity; [|discriminate].
  pose proof (pages_update_total cls page props icon cover w') as Hc.
  destruct (pages_update cls page props icon cover w') as [[r|e|] w2];
    try reflexivity. discriminate.
Qed.

Lemma body_total (h : Handler C) cls data hints (w : World C) :
  handler_total rank h (rank cls) ->
  is_diverges (fst (retrieve_or_create_body classes h cls data hints w)) = false.
Proof.
  intros Hh. unfold retrieve_or_create_body, mbind.
  pose proof (interp_total h _ _ (proj2 (Hranked cls data)) Hh w) as Hi.
  destruct (interp h (retrieve_from_data (classes cls) data) w)
    as [[[page|]|e|] w']; try reflexivity; [| |discriminate].
  - destruct (update w'); [|reflexivity].
    apply update_from_data_total; exact Hh.
  - apply create_from_data_total; exact Hh.
Qed.

Lemma retry_loop_total {A} (f : M C A) :
  (forall w, is_diverges (fst (f w)) = false) ->
  forall left slept w,
    is_diverges (fst (fst (retry_loop left slept f w))) = false.
Proof.
  intros Hf. induction left as [|left IH]; intros slept w;
    cbn [retry_loop]; specialize (Hf w); destruct (f w) as [[a|e|] w'];
    try reflexivity; try discriminate.
  - destruct (Tenacity.retry_if_exception_type e); reflexivity.
  - destruct (Tenacity.retry_if_exception_type e); [|reflexivity].
    destruct (sleep_before_retry _ w') as [q w2]. apply IH.
Qed.

Lemma lru_cache_total get set (k : Key C) (f : M C Page) :
  (forall w, is_diverges (fst (f w)) = false) ->
  forall w, is_diverges (fst (lru_cache C_eq_dec get set k f w)) = false.
Proof.
  intros Hf w. unfold lru_cache.
  destruct (cache_get C_eq_dec k (get w)); [reflexivity|].
  specialize (Hf w). destruct (f w) as [[v|e|] w']; try reflexivity. discriminate.
Qed.

Lemma base_total (h : Handler C) cls data hints (w : World C) :
  handler_total rank h (rank cls) ->
  is_diverges (fst (base_retrieve_or_create C_eq_dec classes h cls data hints w)) = false.
Proof.
  intros Hh. unfold base_retrieve_or_create. apply lru_cache_total.
  intros w0. unfold retry, retrying. apply retry_loop_total.
  intros w1. apply body_total. exact Hh.
Qed.

Lemma dispatch_total (h : Handler C) cls data hints (w : World C) :
  handler_total rank h (rank cls) ->
  is_diverges (fst (dispatch C_eq_dec classes h cls data hints w)) = false.
Proof.
  intros Hh. unfold dispatch.
  destruct (override_hints (classes cls)) as [adjust|]; [|apply base_total; exact Hh].
  apply lru_cache_total. intros w0. unfold mbind, mlift.
  destruct (adjust data (icon_url_of hints) (cover_url_of hints)) as [[i c]|e];
    [|reflexivity].
  apply base_total. exact Hh.
Qed.

Lemma roc_total fuel :
  forall cls data hints (w : World C),
    rank cls < fuel ->
    is_diverges (fst (roc fuel cls data hints w)) = false.
Proof.
  induction fuel as [|fuel IH]; intros cls data hints w Hlt; [lia|].
  cbn [retrieve_or_create_from_data]. apply dispatch_total.
  intros c d hs w0 Hc. apply IH. lia.
Qed.

(** *** Repeated calls *)

Lemma call_times_creates n fuel cls data hints :
  forall (w : World C),
    creates cls (log (snd (call_times C_eq_dec classes n fuel cls data hints w)))
      <= creates cls (log w) + 1.
Proof.
  induction n as [|n IH]; intros w; [simpl; lia|].
  cbn [call_times].
  destruct (roc fuel cls data hints w) as [r w1] eqn:E1.
  destruct (roc_log fuel _ _ _ _ _ _ E1) as (new & Hn & _ & Hle & Hz).
  destruct r as [p|e|].
  - destruct (roc_returns_fuel C_eq_dec classes _ _ _ _ _ _ _ E1) as [fuel' ->].
    rewrite (call_times_cached C_eq_dec classes n fuel' cls data hints w1 p).
    + cbn [snd]. rewrite Hn, creates_app. lia.
    + exact (dispatch_stores C_eq_dec classes _ _ _ _ _ _ _ E1).
  - specialize (IH w1).
    destruct (call_times C_eq_dec classes n fuel cls data hints w1) as [rs w2].
    cbn [snd] in *. rewrite Hn, creates_app in IH. specialize (Hz eq_refl). lia.
  - specialize (IH w1).
    destruct (call_times C_eq_dec classes n fuel cls data hints w1) as [rs w2].
    cbn [snd] in *. rewrite Hn, creates_app in IH. specialize (Hz eq_refl). lia.
Qed.

End RankFacts.

(** ** The reference order of the registered classes *)

Section RankedCode.

Context {C : Type} (rank : C -> nat) (r : nat).

Lemma calls_below_pbind {A B} (p : Prog C A) (f : A -> Prog C B) :
  calls_below rank r p -> (forall a, calls_below rank r (f a)) ->
  calls_below rank r (pbind p f).
Proof.
  intros Hp Hf. induction Hp; simpl; try constructor; auto.
Qed.

Lemma calls_below_lift {A} (x : Result A) : calls_below rank r (@lift C A x).
Proof. destruct x; constructor. Qed.

Lemma calls_below_for_each {A B} (f : A -> Prog C B) (l : list A) :
  (forall x, calls_below rank r (f x)) -> calls_below rank r (for_each f l).
Proof.
  intros Hf. induction l as [|x l IH]; simpl; [constructor|].
  apply calls_below_pbind; [apply Hf|]. intros y.
  apply calls_below_pbind; [exact IH|]. intros ys. constructor.
Qed.

Lemma calls_below_dict_literal {V} (entries : list (string * Prog C V)) :
  Forall (fun e => calls_below rank r (snd e)) entries ->
  calls_below rank r (dict_literal entries).
Proof.
  induction 1 as [|[k p] t Hp _ IH]; simpl; [constructor|].
  apply calls_below_pbind; [exact Hp|]. intros v.
  apply calls_below_pbind; [exact IH|]. intros d. constructor.
Qed.

End RankedCode.

Section RankedExpressions.

Import PageCode.

Context (rank : Cls -> nat) (r : nat) (env : Builtins).

Lemma calls_below_path o names : calls_below rank r (path o names).
Proof.
  revert o. induction names as [|n rest IH]; intros o; simpl; [constructor|].
  apply calls_below_pbind; [apply calls_below_lift | intros v; apply IH].
Qed.

Lemma calls_below_or_none e :
  calls_below rank r e -> calls_below rank r (or_none e).
Proof. intros H. apply calls_below_pbind; [exact H | constructor]. Qed.

Lemma calls_below_or_else a e :
  calls_below rank r e -> calls_below rank r (or_else a e).
Proof. intros H. unfold or_else. destruct (truthy a); [constructor | exact H]. Qed.

Lemma calls_below_or_else_ e1 e2 :
  calls_below rank r e1 -> calls_below rank r e2 ->
  calls_below rank r (or_else_ e1 e2).
Proof.
  intros H1 H2. apply calls_below_pbind; [exact H1|].
  intros a. apply calls_below_or_else. exact H2.
Qed.

Lemma calls_below_slice n e :
  calls_below rank r e -> calls_below rank r (slice n e).
Proof.
  intros H. apply calls_below_pbind; [exact H | intros; apply calls_below_lift].
Qed.

Lemma calls_below_str_ e :
  calls_below rank r e -> calls_below rank r (str_ env e).
Proof. intros H. apply calls_below_pbind; [exact H | constructor]. Qed.

Lemma calls_below_isoformat e :
  calls_below rank r e -> calls_below rank r (isoformat e).
Proof.
  intros H. apply calls_below_pbind; [exact H | intros; apply calls_below_lift].
Qed.

Lemma calls_below_fstring_text parts :
  Forall (fun p => match p with
                   | lit _ => True
                   | val e => calls_below rank r e
                   end) parts ->
  calls_below rank r (fstring_text env parts).
Proof.
  induction 1 as [|[text|e] t Hp _ IH]; simpl; [constructor| |].
  - apply calls_below_pbind; [exact IH | constructor].
  - apply calls_below_pbind; [exact Hp|]. intros v.
    apply calls_below_pbind; [exact IH | constructor].
Qed.

Lemma calls_below_fstring parts :
  Forall (fun p => match p with
                   | lit _ => True
                   | val e => calls_below rank r e
                   end) parts ->
  calls_below rank r (fstring env parts).
Proof.
  intros H. apply calls_below_pbind; [apply calls_below_fstring_text; exact H|].
  constructor.
Qed.

Lemma calls_below_strip_unless_null prefix null e :
  calls_below rank r e -> calls_below rank r (strip_unless_null prefix null e).
Proof.
  intros H. apply calls_below_pbind; [exact H|]. intros n.
  destruct (_ && _); [apply calls_below_lift | constructor].
Qed.

Lemma calls_below_number_ e : calls_below rank r e -> calls_below rank r (number_ e).
Proof. intros H. apply calls_below_pbind; [exact H | constructor]. Qed.

Lemma calls_below_checkbox_ e : calls_below rank r e -> calls_below rank r (checkbox_ e).
Proof. intros H. apply calls_below_pbind; [exact H | constructor]. Qed.

Lemma calls_below_title_ e : calls_below rank r e -> calls_below rank r (title_ e).
Proof. intros H. apply calls_below_pbind; [exact H | constructor]. Qed.

Lemma calls_below_rich_text_ e : calls_below rank r e -> calls_below rank r (rich_text_ e).
Proof. intros H. apply calls_below_pbind; [exact H | constructor]. Qed.

Lemma calls_below_url_ e : calls_below rank r e -> calls_below rank r (url_ e).
Proof. intros H. apply calls_below_pbind; [exact H | constructor]. Qed.

Lemma calls_below_date_ e : calls_below rank r e -> calls_below rank r (date_ e).
Proof. intros H. apply calls_below_pbind; [exact H | constructor]. Qed.

Lemma calls_below_select_ e : calls_below rank r e -> calls_below rank r (select_ e).
Proof. intros H. apply calls_below_pbind; [exact H | constructor]. Qed.

Lemma calls_below_select_unless null e :
  calls_below rank r e -> calls_below rank r (select_unless null e).
Proof.
  intros H. apply calls_below_pbind; [exact H|]. intros n.
  destruct (py_ne _ _); [|constructor].
  apply calls_below_pbind; [exact H | constructor].
Qed.

Lemma calls_below_select_prefixed prefix null e :
  calls_below rank r e -> calls_below rank r (select_prefixed prefix null e).
Proof.
  intros H. apply calls_below_pbind; [exact H|]. intros n.
  destruct (_ && _); [|constructor].
  apply calls_below_pbind; [exact H|]. intros v.
  apply calls_below_pbind; [apply calls_below_lift | constructor].
Qed.

Lemma calls_below_select_if_truthy v : calls_below rank r (select_if_truthy v).
Proof. constructor. Qed.

Lemma calls_below_multi_select_ e :
  calls_below rank r e -> calls_below rank r (multi_select_ e).
Proof.
  intros H. apply calls_below_pbind; [exact H|]. intros v.
  apply calls_below_pbind; [apply calls_below_lift | constructor].
Qed.

Lemma calls_below_relation_one cls e :
  rank cls < r -> calls_below rank r e -> calls_below rank r (relation_one cls e).
Proof.
  intros Hr H. apply calls_below_pbind; [exact H|]. intros v.
  apply calls_below_pbind; [|constructor].
  constructor; [exact Hr | constructor].
Qed.

Lemma calls_below_relation_each cls e :
  rank cls < r -> calls_below rank r e -> calls_below rank r (relation_each cls e).
Proof.
  intros Hr H. apply calls_below_pbind; [exact H|]. intros v.
  apply calls_below_pbind; [apply calls_below_lift|]. intros l.
  apply calls_below_pbind; [|constructor].
  apply calls_below_for_each. intros x. constructor; [exact Hr | constructor].
Qed.

Lemma calls_below_relation_if cls e :
  rank cls < r -> calls_below rank r e ->
  calls_below rank r (Custom.relation_if cls e).
Proof.
  intros Hr H. apply calls_below_pbind; [exact H|]. intros t.
  destruct (truthy t); [apply calls_below_relation_one; assumption | constructor].
Qed.

End RankedExpressions.

Create HintDb ranked.

#[local] Hint Resolve calls_below_path calls_below_or_none calls_below_or_else
  calls_below_or_else_ calls_below_slice calls_below_str_ calls_below_isoformat
  calls_below_fstring calls_below_strip_unless_null calls_below_number_
  calls_below_checkbox_ calls_below_title_ calls_below_rich_text_
  calls_below_url_ calls_below_date_ calls_below_select_
  calls_below_select_unless calls_below_select_prefixed
  calls_below_select_if_truthy calls_below_multi_select_
  calls_below_relation_one calls_below_relation_each calls_below_relation_if
  calls_below_lift : ranked.

Ltac rank_lt := cbv; repeat constructor.

Ltac head_of t :=
  match t with
  | ?f _ => head_of f
  | _ => t
  end.

Ltac ranked_entries :=
  repeat first
    [ apply Forall_nil
    | apply Forall_cons; [cbn [snd]|]
    | apply calls_below_relation_one; [rank_lt|]
    | apply calls_below_relation_each; [rank_lt|]
    | apply calls_below_relation_if; [rank_lt|]
    | apply calls_below_fstring
    | apply calls_below_title_; apply calls_below_fstring
    | exact I
    | solve [auto 6 with ranked] ].

Ltac ranked_properties :=
  match goal with
  | |- calls_below _ _ (pbind _ _) =>
      apply calls_below_pbind; [auto with ranked | intros; ranked_properties]
  | |- calls_below _ _ (dict_literal _) =>
      apply calls_below_dict_literal; ranked_entries
  end.

Lemma igdb_retrieve_ranked r cls data :
  calls_below Main.rank r (Igdb.IGDBNotionPage_retrieve_from_data cls data).
Proof.
  unfold Igdb.IGDBNotionPage_retrieve_from_data.
  destruct (negb (hasattr data "id")); [constructor|].
  apply calls_below_pbind; [apply calls_below_lift|].
  intros v. constructor. intros. constructor.
Qed.

(** Every registered class calls only classes that [Main.rank] puts
    below it. *)
Lemma main_well_ranked (env : Builtins) : well_ranked (Main.classes env) Main.rank.
Proof.
  intros cls data. split.
  - destruct cls; cbn [Main.classes get_notion_properties];
      match goal with |- calls_below _ _ ?p =>
        let h := head_of p in unfold h end; ranked_properties.
  - destruct cls; cbn [Main.classes retrieve_from_data];
      try apply igdb_retrieve_ranked.
    + unfold Hltb.HLTBNotionPage_retrieve_from_data.
      destruct (negb (hasattr data "game_id")); [constructor|].
      apply calls_below_pbind; [apply calls_below_lift|].
      intros v. constructor. intros. constructor.
    + unfold SteamSpy.SteamSpyNotionPage_retrieve_from_data.
      destruct (negb (hasattr data "appid")); [constructor|].
      apply calls_below_pbind; [apply calls_below_lift|].
      intros v. constructor. intros. constructor.
    + unfold Custom.CustomGamePage_retrieve_from_data.
      apply calls_below_pbind; [apply calls_below_path|]. intros igdb.
      apply calls_below_pbind; [|intros; constructor; intros; constructor].
      constructor; [rank_lt | constructor].
Qed.

(** ** Running the serializers *)

Section InterpFacts.

Context {C : Type} (h : Handler C).

Lemma interp_pbind {A B} (p : Prog C A) (f : A -> Prog C B) (w : World C) :
  interp h (pbind p f) w = mbind (interp h p) (fun a => interp h (f a)) w.
Proof.
  revert w. induction p as [a|e|c d hs k IH|c q k IH]; intros w; simpl.
  - reflexivity.
  - reflexivity.
  - unfold mbind. destruct (h c d hs w) as [[pg|e|] w']; auto.
  - unfold mbind. destruct (query_first c q w) as [[x|e|] w']; auto.
Qed.

Lemma interp_pbind_returns {A B} (p : Prog C A) (f : A -> Prog C B)
    (w w1 : World C) (b : B) :
  interp h (pbind p f) w = (Returns b, w1) ->
  exists a w', interp h p w = (Returns a, w') /\ interp h (f a) w' = (Returns b, w1).
Proof.
  rewrite interp_pbind. unfold mbind.
  destruct (interp h p w) as [[a|e|] w']; try discriminate. eauto.
Qed.

Lemma interp_lift_returns {A} (x : Result A) (w w1 : World C) (a : A) :
  interp h (lift x) w = (Returns a, w1) -> x = Ok a /\ w1 = w.
Proof.
  destruct x; simpl; unfold mret, mraise; intros H; inversion H; auto.
Qed.

(** Each value of a dict literal is what its expression returned. *)
Lemma interp_dict_literal_assoc {V} (entries : list (string * Prog C V)) :
  forall (w w1 : World C) (d : list (string * V)),
    interp h (dict_literal entries) w = (Returns d, w1) ->
    forall k e, assoc k entries = Some e ->
      exists v wa wb, assoc k d = Some v /\ interp h e wa = (Returns v, wb).
Proof.
  induction entries as [|[k0 p] t IH]; intros w w1 d H k e Hk; [discriminate|].
  simpl in H.
  apply interp_pbind_returns in H as (v0 & w' & Hp & H).
  apply interp_pbind_returns in H as (d' & w'' & Ht & H).
  simpl in H. unfold mret in H. injection H as <- <-.
  simpl in Hk |- *. destruct (String.eqb k k0).
  - injection Hk as <-. eauto.
  - apply (IH _ _ _ Ht _ _ Hk).
Qed.

(** Each element of a comprehension is what its expression returned, in
    order. *)
Lemma interp_for_each {A B} (f : A -> Prog C B) (l : list A) :
  forall (w w1 : World C) (ys : list B),
    interp h (for_each f l) w = (Returns ys, w1) ->
    Forall2 (fun x y => exists wa wb, interp h (f x) wa = (Returns y, wb)) l ys.
Proof.
  induction l as [|x l IH]; intros w w1 ys H; simpl in H.
  - unfold mret in H. injection H as <- <-. constructor.
  - apply interp_pbind_returns in H as (y & w' & Hy & H).
    apply interp_pbind_returns in H as (ys' & w'' & Hys & H).
    simpl in H. unfold mret in H. injection H as <- <-.
    constructor; eauto.
Qed.

Lemma first_match_spec (db : DbId) (f : Filter) (st : list RemotePage) :
  match first_match db f st with
  | None => forall r, In r st -> rp_parent r = db -> matches f r = false
  | Some r =>
      exists before after,
        st = before ++ r :: after /\ rp_parent r = db /\ matches f r = true /\
        forall r', In r' before -> rp_parent r' = db -> matches f r' = false
  end.
Proof.
  unfold first_match. induction st as [|r0 t IH]; simpl; [intros r []|].
  destruct (Nat.eqb (rp_parent r0) db && matches f r0) eqn:E.
  - apply andb_prop in E as [E1 E2]. apply Nat.eqb_eq in E1.
    exists [], t. repeat split; auto. intros r' [].
  - destruct (List.find _ t) as [r|].
    + destruct IH as (before & after & -> & Hdb & Hm & Hb).
      exists (r0 :: before), after. repeat split; auto.
      intros r' [<-|Hin] Hp; [|auto].
      rewrite Hp, Nat.eqb_refl in E. exact E.
    + intros r [<-|Hin] Hp; [|auto].
      rewrite Hp, Nat.eqb_refl in E. exact E.
Qed.

(** One query: one request, one event, the first match or [None]. *)
Lemma interp_query_first (cls : C) (f : Filter) (w : World C) (db : DbId) :
  session w cls = true -> database w cls = Some db ->
  hd None (faults w) = None ->
  exists w',
    interp h (QueryFirst cls f Ret) w
      = (Returns (option_map (fun r => mkPage (next_obj w) (rp_id r) (rp_properties r))
                    (first_match db f (store w))), w') /\
    log w' = log w ++ [EvQuery cls f (option_map rp_id (first_match db f (store w)))] /\
    store w' = store w /\
    faults w' = tl (faults w).
Proof.
  intros Hs Hd Hf. simpl. unfold mbind, query_first. rewrite Hs, Hd. cbn [negb].
  unfold mbind, remote_call.
  destruct (faults w) as [|[e|] rest] eqn:Ef; [|discriminate Hf|].
  - destruct (first_match db f (store w)) as [r|]; eexists;
      (split; [unfold parse_obj, mret; simpl; reflexivity|]);
      simpl; rewrite ?Ef; auto.
  - cbn [store set_faults]. destruct (first_match db f (store w)) as [r|];
      eexists; (split; [unfold parse_obj, mret; simpl; reflexivity|]);
      simpl; rewrite ?Ef; auto.
Qed.

End InterpFacts.

Lemma hasattr_getattr (o : PyVal) (name : string) :
  hasattr o name = true -> exists v, getattr o name = Ok v.
Proof.
  destruct o; simpl; try discriminate.
  destruct (assoc name attrs); [eauto | discriminate].
Qed.

Lemma getattr_hasattr (o : PyVal) (name : string) (v : PyVal) :
  getattr o name = Ok v -> hasattr o name = true.
Proof.
  destruct o; simpl; try discriminate.
  destruct (assoc name attrs); [reflexivity | discriminate].
Qed.

(* ===================================================================== *)
(** * The claims *)
(* ===================================================================== *)

Section Claims.

Local Open Scope string_scope.
Local Open Scope list_scope.

(** C1.  A run that calls [retrieve_or_create_from_data(d, *hints)] [n]
    times creates at most one record for the class of [d]; once a call has
    returned a handle, every call of the run returns that same handle
    object, and the later calls leave the world as the first one left it:
    no request, no call into the serializers, no write. *)
Theorem retrieve_or_create_once (env : Builtins) (n fuel : nat) (cls : Cls)
    (data : PyVal) (hints : Hints) (w : World Cls) :
  creates Cls_eq_dec cls
    (log (snd (call_times Cls_eq_dec (Main.classes env) n fuel cls data hints w)))
    <= creates Cls_eq_dec cls (log w) + 1 /\
  forall p w1,
    Main.retrieve_or_create_from_data env fuel cls data hints w = (Returns p, w1) ->
    call_times Cls_eq_dec (Main.classes env) (S n) fuel cls data hints w
      = (repeat (Returns p) (S n), w1).
Proof.
  split.
  - apply (call_times_creates Cls_eq_dec (Main.classes env) Main.rank
             (main_well_ranked env)).
  - intros p w1 H. cbn [call_times]. unfold Main.retrieve_or_create_from_data in H.
    rewrite H.
    destruct (roc_returns_fuel _ _ _ _ _ _ _ _ _ H) as [fuel' ->].
    rewrite (call_times_cached Cls_eq_dec (Main.classes env) n fuel' cls data hints w1 p).
    + reflexivity.
    + exact (dispatch_stores _ _ _ _ _ _ _ _ _ H).
Qed.

(** C2, as amended.  On the registered classes, whose serializers never
    call back into a class that is being serialized, every call of
    [retrieve_or_create_from_data] comes back, within recursion depth 8;
    and a call that returns a handle has stored it under its key by then
    (not before: [lru_cache] stores on return). *)
Theorem retrieve_or_create_terminates (env : Builtins) (k : nat) (cls : Cls)
    (data : PyVal) (hints : Hints) (w : World Cls) :
  is_diverges (fst (Main.retrieve_or_create_from_data env (8 + k) cls data hints w)) = false /\
  forall p w1,
    Main.retrieve_or_create_from_data env (8 + k) cls data hints w = (Returns p, w1) ->
    cache_get Cls_eq_dec (cls, data, hints)
      (outer_cache (Main.classes env) cls w1) = Some p.
Proof.
  split.
  - apply (roc_total Cls_eq_dec (Main.classes env) Main.rank (main_well_ranked env)).
    destruct cls; cbv; lia.
  - intros p w1 H. exact (dispatch_stores _ _ _ _ _ _ _ _ _ H).
Qed.

(** Two records that reference each other: whatever the recursion depth,
    the call on the first one has not come back. *)
Lemma cyclic_records_at_depth :
  forall fuel,
    fst (Cyclic.retrieve_or_create_from_data fuel Cyclic.NodePage
           Cyclic.record_a [] (Cyclic.world [])) = Diverges.
Proof.
  assert (H : forall fuel l,
             fst (Cyclic.retrieve_or_create_from_data fuel Cyclic.NodePage
                    Cyclic.record_a [] (Cyclic.world l)) = Diverges /\
             fst (Cyclic.retrieve_or_create_from_data fuel Cyclic.NodePage
                    Cyclic.record_b [] (Cyclic.world l)) = Diverges).
  { induction fuel as [|fuel IH]; intros l; [split; reflexivity|].
    split.
    - pose proof (proj2 (IH (l ++ [EvQuery Cyclic.NodePage
                                     (NumberEquals "ID" (PyInt 1)) None]))) as Hb.
      unfold Cyclic.retrieve_or_create_from_data in *.
      cbn [retrieve_or_create_from_data]. 
      destruct (retrieve_or_create_from_data Cyclic.NodeCls_eq_dec Cyclic.classes fuel
                  Cyclic.NodePage Cyclic.record_b [] _) as [r w'] eqn:E in Hb.
      cbn [fst] in Hb. subst r.
      cbv -[retrieve_or_create_from_data app] in E |- *.
      rewrite E. reflexivity.
    - pose proof (proj1 (IH (l ++ [EvQuery Cyclic.NodePage
                                     (NumberEquals "ID" (PyInt 2)) None]))) as Ha.
      unfold Cyclic.retrieve_or_create_from_data in *.
      cbn [retrieve_or_create_from_data].
      destruct (retrieve_or_create_from_data Cyclic.NodeCls_eq_dec Cyclic.classes fuel
                  Cyclic.NodePage Cyclic.record_a [] _) as [r w'] eqn:E in Ha.
      cbn [fst] in Ha. subst r.
      cbv -[retrieve_or_create_from_data app] in E |- *.
      rewrite E. reflexivity. }
  intros fuel. apply H.
Qed.

(** C2, the claim as stated.  Two records that reference each other: there
    is no recursion depth at which the call on the first one comes back.
    The record being serialized has no cache entry when its peer loops
    back to it, because the entry is only written when the call returns. *)
Lemma cyclic_records_diverge :
  ~ exists fuel,
      is_diverges
        (fst (Cyclic.retrieve_or_create_from_data fuel Cyclic.NodePage
                Cyclic.record_a [] (Cyclic.world []))) = false.
Proof.
  intros [fuel H]. rewrite cyclic_records_at_depth in H. discriminate.
Qed.

(** C3.  A record that resolves to an existing page, at a cache miss.
    With the update flag off, the call returns the handle that the
    resolution produced and leaves the world as the resolution left it,
    but for the cache entry: nothing is created and nothing is updated.
    With the flag on, once the properties are serialized and the store
    takes the request, the call issues one update of that page with the
    serialized properties, and the page holds each of them afterwards. *)
Theorem existing_record_update_toggle {C : Type}
    (C_eq_dec : forall a b : C, {a = b} + {a <> b})
    (classes : C -> PageClass C) (h : Handler C) (cls : C) (data : PyVal)
    (hints : Hints) (w w1 : World C) (page : Page) :
  cache_get C_eq_dec (cls, data, hints) (base_cache w) = None ->
  interp h (retrieve_from_data (classes cls) data) w = (Returns (Some page), w1) ->
  (update w1 = false ->
     base_retrieve_or_create C_eq_dec classes h cls data hints w
       = (Returns page,
          set_base_cache (cache_set (cls, data, hints) page (base_cache w1)) w1)) /\
  (update w1 = true ->
     session w1 cls = true ->
     forall props w2 r st,
       interp h (get_notion_properties (classes cls) data) w1 = (Returns props, w2) ->
       hd None (faults w2) = None ->
       store_update (id page) props (external (icon_url_of hints))
         (external (cover_url_of hints)) (store w2) = Some (r, st) ->
       exists w3,
         base_retrieve_or_create C_eq_dec classes h cls data hints w
           = (Returns (mkPage (next_obj w2) (id page) (rp_properties r)), w3) /\
         log w3 = log w2 ++ [EvUpdate cls (id page) props] /\
         store w3 = st /\
         forall k v, assoc k props = Some v -> assoc k (rp_properties r) = Some v).
Proof.
  intros Hmiss Hres. split.
  - intros Hflag. unfold base_retrieve_or_create, lru_cache. rewrite Hmiss.
    unfold retry, retrying.
    rewrite (retry_loop_returns _ _ _ w w1 page); [reflexivity|].
    unfold retrieve_or_create_body, mbind. rewrite Hres, Hflag. reflexivity.
  - intros Hflag Hsession props w2 r st Hprops Hfault Hupd.
    assert (Hbody : exists w3,
      retrieve_or_create_body classes h cls data hints w
        = (Returns (mkPage (next_obj w2) (id page) (rp_properties r)), w3) /\
      log w3 = log w2 ++ [EvUpdate cls (id page) props] /\ store w3 = st).
    { assert (Hid : rp_id r = id page).
      { clear - Hupd. revert r st Hupd.
        induction (store w2) as [|r0 t IH]; intros r st Hupd; [discriminate|].
        simpl in Hupd. destruct (Nat.eqb (rp_id r0) (id page)) eqn:E.
        - injection Hupd as <- _. simpl. apply Nat.eqb_eq. exact E.
        - destruct (store_update _ _ _ _ t) as [[r' t']|]; [|discriminate].
          injection Hupd as <- _. apply (IH r' t' eq_refl). }
      replace (mkPage (next_obj w2) (id page) (rp_properties r))
        with (mkPage (next_obj w2) (rp_id r) (rp_properties r))
        by (rewrite Hid; reflexivity).
      unfold retrieve_or_create_body, mbind. rewrite Hres, Hflag.
      unfold update_from_data. rewrite Hsession. cbn [negb].
      unfold mbind. rewrite Hprops.
      unfold pages_update, mbind, remote_call.
      destruct (faults w2) as [|[e|] rest] eqn:Ef; [| discriminate Hfault |].
      - rewrite Hupd. unfold parse_obj. eexists. split; [simpl; reflexivity|].
        split; reflexivity.
      - cbn [store set_faults]. rewrite Hupd. unfold parse_obj. eexists.
        split; [simpl; reflexivity|]. split; reflexivity. }
    destruct Hbody as (w3 & Hb & Hlog & Hstore).
    exists (set_base_cache
              (cache_set (cls, data, hints)
                 (mkPage (next_obj w2) (id page) (rp_properties r)) (base_cache w3)) w3).
    split; [|split; [exact Hlog | split; [exact Hstore|]]].
    + unfold base_retrieve_or_create, lru_cache. rewrite Hmiss.
      unfold retry, retrying.
      rewrite (retry_loop_returns _ _ _ w w3 _ Hb). reflexivity.
    + clear - Hupd. revert r st Hupd.
      induction (store w2) as [|r0 t IH]; intros r st Hupd; [discriminate|].
      simpl in Hupd. destruct (Nat.eqb (rp_id r0) (id page)).
      * injection Hupd as <- _. intros k v Hk. simpl.
        unfold merge_properties. apply assoc_app_some. exact Hk.
      * destruct (store_update _ _ _ _ t) as [[r' t']|]; [|discriminate].
        injection Hupd as <- _. apply (IH r' t' eq_refl).
Qed.

(** C7.  An attempt that fails with anything but an HTTP response error or
    a request timeout ends the wrapped call at once: at whichever attempt
    it happens, the error is raised as it is, the world is the one the
    attempt left, and the wrapper neither sleeps nor tries again.  The
    missing-key [ValueError] is such an error: on an IGDB record without
    [id], the call raises it on the first attempt, before any request. *)
Theorem non_transient_not_retried :
  (forall (C A : Type) (f : M C A) (left : nat) (slept : list Q)
          (w w' : World C) (e : Exn),
      f w = (Raises e, w') ->
      Tenacity.retry_if_exception_type e = false ->
      retry_loop left slept f w
        = (Raises e, w', mkRetryState (Tenacity.max_attempt_number - left) slept)) /\
  (forall (env : Builtins) (h : Handler Cls) (cls : Cls) (data : PyVal)
          (hints : Hints) (w : World Cls),
      retrieve_from_data (Main.classes env cls)
        = Igdb.IGDBNotionPage_retrieve_from_data cls ->
      hasattr data "id" = false ->
      retrying (retrieve_or_create_body (Main.classes env) h cls data hints) w
        = (Raises (ValueError "data has no 'id' attribute"), w, mkRetryState 1 [])).
Proof.
  split.
  - intros C A f left slept w w' e. apply retry_loop_not_retried.
  - intros env h cls data hints w Hcls Hno. unfold retrying.
    rewrite (retry_loop_not_retried _ _ _ w w (ValueError "data has no 'id' attribute"));
      [reflexivity | | reflexivity].
    unfold retrieve_or_create_body, mbind. rewrite Hcls.
    unfold Igdb.IGDBNotionPage_retrieve_from_data. rewrite Hno. reflexivity.
Qed.


Lemma interp_path1 (h : Handler Cls) (data : PyVal) (attr : string)
    (w w' : World Cls) (v : PyVal) :
  interp h (PageCode.path data [attr]) w = (Returns v, w') ->
  getattr data attr = Ok v /\ w' = w.
Proof.
  cbn [PageCode.path]. intros H.
  apply interp_pbind_returns in H as (v0 & w0 & H0 & H).
  apply interp_lift_returns in H0 as [H0 ->].
  cbn [interp] in H. unfold mret in H. injection H as <- <-. auto.
Qed.

Lemma interp_slice (h : Handler Cls) (n : nat) (e : Prog Cls PyVal)
    (w w' : World Cls) (v : PyVal) :
  interp h (PageCode.slice n e) w = (Returns v, w') ->
  exists v0 w0, interp h e w = (Returns v0, w0) /\
                PageCode.py_slice_to n v0 = Ok v /\ w' = w0.
Proof.
  unfold PageCode.slice. intros H.
  apply interp_pbind_returns in H as (v0 & w0 & H0 & H).
  apply interp_lift_returns in H as [H ->]. eauto.
Qed.

Lemma sliced_text (h : Handler Cls) (attr : string) (data : PyVal) (s : str)
    (wa wb : World Cls) (v : PropValue) :
  getattr data attr = Ok (PyStr s) ->
  interp h (PageCode.rich_text_
              (PageCode.slice Igdb.MAX_TEXT_LENGTH (PageCode.path data [attr]))) wa
    = (Returns v, wb) ->
  v = rich_text (PyStr (firstn 2000 s)).
Proof.
  intros Hattr H. unfold PageCode.rich_text_ in H.
  apply interp_pbind_returns in H as (v1 & w1 & Hslice & H).
  cbn [interp] in H. unfold mret in H. injection H as <- _.
  apply interp_slice in Hslice as (v0 & w0 & Hpath & Hs & _).
  apply interp_path1 in Hpath as [Hget _].
  rewrite Hattr in Hget. injection Hget as <-.
  cbv beta iota delta [PageCode.py_slice_to] in Hs.
  assert (Hv1 : v1 = PyStr (firstn Igdb.MAX_TEXT_LENGTH s)) by congruence.
  subst v1. reflexivity.
Qed.

Lemma firstn_truncates (s : str) :
  (2000 < List.length s -> List.length (firstn 2000 s) = 2000) /\
  (List.length s <= 2000 -> firstn 2000 s = s).
Proof.
  split; intros H.
  - rewrite length_firstn. lia.
  - apply firstn_all2. exact H.
Qed.



(** C8, the claim as stated.  The composite game record resolves
    differently: its resolver first resolves or creates the IGDB game
    page, which here takes two queries and two creations, and only then
    queries the composite database, with a relation filter; and a record
    without its [igdb] attribute raises [AttributeError], not the
    missing-key [ValueError]. *)
Lemma composite_resolution_calls_engine :
  let resolution :=
    interp (Main.retrieve_or_create_from_data Samples.env 8)
      (retrieve_from_data (Main.classes Samples.env CustomGamePage) Samples.custom_42)
      (Samples.connected false) in
  fst resolution = Returns None /\
  List.length (log (snd resolution)) = 5 /\
  creates Cls_eq_dec Game (log (snd resolution)) = 1 /\
  creates Cls_eq_dec Cover (log (snd resolution)) = 1 /\
  fst (interp (Main.retrieve_or_create_from_data Samples.env 8)
         (retrieve_from_data (Main.classes Samples.env CustomGamePage)
            (PyObj "CustomGame" []))
         (Samples.connected false))
    = Raises (AttributeError "igdb").
Proof. vm_compute. repeat split; reflexivity. Qed.

(** C8, as amended.  For the records with a numeric key (IGDB messages by
    [id], HowLongToBeat games by [game_id], Steam Spy games by [appid]),
    the resolver raises the missing-key [ValueError] when the record lacks
    the attribute, and otherwise is one query for the records whose "ID"
    equals the key.  On a connected class, when the store takes the
    request, that query is one event; it returns [None] when no record of
    the class's database matches, and the first matching record
    otherwise. *)
Theorem numeric_key_resolution :
  (forall cls data,
      (hasattr data "id" = false ->
       Igdb.IGDBNotionPage_retrieve_from_data cls data
         = Throw (ValueError "data has no 'id' attribute")) /\
      (hasattr data "id" = true ->
       exists v, getattr data "id" = Ok v /\
         Igdb.IGDBNotionPage_retrieve_from_data cls data
           = QueryFirst cls (NumberEquals "ID" v) Ret)) /\
  (forall data,
      (hasattr data "game_id" = false ->
       Hltb.HLTBNotionPage_retrieve_from_data data
         = Throw (ValueError "data has no 'game_id' attribute")) /\
      (hasattr data "game_id" = true ->
       exists v, getattr data "game_id" = Ok v /\
         Hltb.HLTBNotionPage_retrieve_from_data data
           = QueryFirst HLTBNotionPage (NumberEquals "ID" v) Ret)) /\
  (forall data,
      (hasattr data "appid" = false ->
       SteamSpy.SteamSpyNotionPage_retrieve_from_data data
         = Throw (ValueError "data has no 'appid' attribute")) /\
      (hasattr data "appid" = true ->
       exists v, getattr data "appid" = Ok v /\
         SteamSpy.SteamSpyNotionPage_retrieve_from_data data
           = QueryFirst SteamSpyNotionPage (NumberEquals "ID" v) Ret)) /\
  (forall (h : Handler Cls) cls f (w : World Cls) db,
      session w cls = true -> database w cls = Some db ->
      hd None (faults w) = None ->
      exists w',
        interp h (QueryFirst cls f Ret) w
          = (Returns (option_map
                        (fun r => mkPage (next_obj w) (rp_id r) (rp_properties r))
                        (first_match db f (store w))), w') /\
        log w' = log w ++ [EvQuery cls f (option_map rp_id (first_match db f (store w)))] /\
        store w' = store w /\
        match first_match db f (store w) with
        | None =>
            forall r, In r (store w) -> rp_parent r = db -> matches f r = false
        | Some r =>
            exists before after,
              store w = before ++ r :: after /\
              rp_parent r = db /\ matches f r = true /\
              forall r', In r' before -> rp_parent r' = db -> matches f r' = false
        end).
Proof.
  repeat split.
  - unfold Igdb.IGDBNotionPage_retrieve_from_data. intros ->. reflexivity.
  - intros Hh. destruct (hasattr_getattr _ _ Hh) as [v Hv]. exists v.
    split; [exact Hv|].
    unfold Igdb.IGDBNotionPage_retrieve_from_data. rewrite Hh, Hv. reflexivity.
  - unfold Hltb.HLTBNotionPage_retrieve_from_data. intros ->. reflexivity.
  - intros Hh. destruct (hasattr_getattr _ _ Hh) as [v Hv]. exists v.
    split; [exact Hv|].
    unfold Hltb.HLTBNotionPage_retrieve_from_data. rewrite Hh, Hv. reflexivity.
  - unfold SteamSpy.SteamSpyNotionPage_retrieve_from_data. intros ->. reflexivity.
  - intros Hh. destruct (hasattr_getattr _ _ Hh) as [v Hv]. exists v.
    split; [exact Hv|].
    unfold SteamSpy.SteamSpyNotionPage_retrieve_from_data. rewrite Hh, Hv. reflexivity.
  - intros h cls f w db Hs Hd Hf.
    destruct (interp_query_first h cls f w db Hs Hd Hf) as (w' & H1 & H2 & H3 & _).
    exists w'. repeat split; auto. apply first_match_spec.
Qed.

(** The loop of [max] keeps an element no other exceeds. *)
Lemma max_loop_spec (rest : list PyVal) :
  forall best bk b,
    getattr best "similarity" = Ok bk -> Hltb.as_number bk = Ok b ->
    Forall (fun x => exists q, Hltb.similarity_of x = Ok q) rest ->
    exists m qm,
      Hltb.max_loop best bk rest = Ok m /\
      (m = best \/ In m rest) /\
      Hltb.similarity_of m = Ok qm /\
      (b <= qm)%Q /\
      forall x q, In x rest -> Hltb.similarity_of x = Ok q -> (q <= qm)%Q.
Proof.
  induction rest as [|x t IH]; intros best bk b Hk Hb HF.
  - exists best, b. simpl. repeat split; auto.
    + unfold Hltb.similarity_of. rewrite Hk. exact Hb.
    + apply Qle_refl.
    + intros x q [].
  - inversion HF as [|? ? [a Ha] HF']; subst.
    unfold Hltb.similarity_of in Ha.
    destruct (getattr x "similarity") as [k|e] eqn:Ek; [|discriminate].
    simpl in Ha. cbn [Hltb.max_loop]. rewrite Ek. cbn [rbind].
    rewrite Ha, Hb. cbn [rbind].
    destruct (Hltb.Qgt_bool a b) eqn:Egt.
    + destruct (IH x k a Ek Ha HF') as (m & qm & Hm & Hin & Hs & Hle & Hall).
      exists m, qm. repeat split; auto.
      * destruct Hin as [->|Hin]; right; [left; reflexivity | right; exact Hin].
      * unfold Hltb.Qgt_bool in Egt. apply Bool.negb_true_iff in Egt.
        apply Qle_trans with a; [|exact Hle].
        apply Qlt_le_weak. apply Qnot_le_lt. intros Hab.
        apply Qle_bool_iff in Hab. congruence.
      * intros y q [<-|Hy] Hq.
        -- unfold Hltb.similarity_of in Hq. rewrite Ek in Hq. simpl in Hq.
           assert (q = a) by congruence. subst q. exact Hle.
        -- eapply Hall; eauto.
    + destruct (IH best bk b Hk Hb HF') as (m & qm & Hm & Hin & Hs & Hle & Hall).
      exists m, qm. repeat split; auto.
      * destruct Hin as [->|Hin]; [left; reflexivity | right; right; exact Hin].
      * intros y q [<-|Hy] Hq.
        -- unfold Hltb.similarity_of in Hq. rewrite Ek in Hq. simpl in Hq.
           assert (q = a) by congruence. subst q.
           unfold Hltb.Qgt_bool in Egt. apply Bool.negb_false_iff in Egt.
           apply Qle_bool_iff in Egt. eapply Qle_trans; eauto.
        -- eapply Hall; eauto.
Qed.

(** [max(results, key=...)] on a non-empty list whose elements all have a
    numeric similarity *)
Lemma max_by_similarity_spec (l : list PyVal) :
  l <> [] ->
  Forall (fun x => exists q, Hltb.similarity_of x = Ok q) l ->
  exists best qb,
    Hltb.max_by_similarity l = Ok best /\ In best l /\
    Hltb.similarity_of best = Ok qb /\
    forall x q, In x l -> Hltb.similarity_of x = Ok q -> (q <= qb)%Q.
Proof.
  destruct l as [|x t]; [congruence|]. intros _ HF.
  inversion HF as [|? ? [a Ha] HF']; subst.
  unfold Hltb.similarity_of in Ha.
  destruct (getattr x "similarity") as [k|e] eqn:Ek; [|discriminate].
  simpl in Ha.
  destruct (max_loop_spec t x k a Ek Ha HF') as (m & qm & Hm & Hin & Hs & Hle & Hall).
  exists m, qm. unfold Hltb.max_by_similarity. rewrite Ek. cbn [rbind].
  repeat split; auto.
  - destruct Hin as [->|Hin]; [left; reflexivity | right; exact Hin].
  - intros y q [<-|Hy] Hq.
    + unfold Hltb.similarity_of in Hq. rewrite Ek in Hq. simpl in Hq.
      assert (q = a) by congruence. subst q. exact Hle.
    + eapply Hall; eauto.
Qed.

(** The optional relation of the composite record: empty when the
    attribute is falsy. *)
Lemma relation_if_falsy (h : Handler Cls) (cls : Cls) (data : PyVal)
    (attr : string) (t : PyVal) (wa wb : World Cls) (v : PropValue) :
  getattr data attr = Ok t -> truthy t = false ->
  interp h (Custom.relation_if cls (PageCode.path data [attr])) wa = (Returns v, wb) ->
  v = relation [] /\ wb = wa.
Proof.
  intros Hget Ht H. unfold Custom.relation_if in H.
  apply interp_pbind_returns in H as (t' & w' & Hp & H).
  apply (interp_path1 h) in Hp as [Hp ->].
  assert (t' = t) by congruence. subst t'. rewrite Ht in H.
  cbn [interp] in H. unfold mret in H. injection H as <- <-. auto.
Qed.

End Claims.

(* --------------------------------------------------------------------- *)
(** ** URLs *)
(* --------------------------------------------------------------------- *)

Module StrFacts.

Import PyStr UrlParts.
Open Scope list_scope.

Lemma contains_app (c : char) (a b : str) :
  contains c (a ++ b) = contains c a || contains c b.
Proof. apply existsb_app. Qed.

Lemma contains_cons (c x : char) (s : str) :
  contains c (x :: s) = N.eqb c x || contains c s.
Proof. reflexivity. Qed.

Lemma startswith_app (p a b : str) :
  startswith p a = true -> startswith p (a ++ b) = true.
Proof.
  revert a. induction p as [|x p IH]; intros [|y a]; simpl; auto; try discriminate.
  intros H. apply andb_true_iff in H as [-> H]. simpl. auto.
Qed.

(** [s.split(c, 1)] cuts at the first [c]. *)
Lemma split1_inv (c : char) (s : str) :
  forall a b, contains c s = true -> split1 c s = (a, b) ->
    s = a ++ c :: b /\ contains c a = false.
Proof.
  induction s as [|x t IH]; intros a b Hc H; [discriminate|].
  simpl in H. rewrite contains_cons in Hc.
  destruct (N.eqb x c) eqn:E.
  - apply N.eqb_eq in E. subst x. injection H as <- <-. auto.
  - rewrite N.eqb_sym, E in Hc. simpl in Hc.
    destruct (split1 c t) as [a' b'] eqn:Es. injection H as <- <-.
    destruct (IH a' b' Hc eq_refl) as [-> Ha]. split; [reflexivity|].
    rewrite contains_cons, N.eqb_sym, E. exact Ha.
Qed.

Lemma split1_app (c : char) (a b : str) :
  contains c a = false -> split1 c (a ++ c :: b) = (a, b).
Proof.
  induction a as [|x a IH]; simpl; intros H.
  - rewrite N.eqb_refl. reflexivity.
  - apply orb_false_iff in H as [Hx Ha]. rewrite N.eqb_sym, Hx, (IH Ha).
    reflexivity.
Qed.

Lemma span_until_inv (p : char -> bool) (s : str) :
  forall a b, span_until p s = (a, b) ->
    s = a ++ b /\ forallb (fun c => negb (p c)) a = true /\
    match b with [] => True | c :: _ => p c = true end.
Proof.
  induction s as [|x t IH]; intros a b H; simpl in H.
  - injection H as <- <-. auto.
  - destruct (p x) eqn:E.
    + injection H as <- <-. auto.
    + destruct (span_until p t) as [a' b'] eqn:Es. injection H as <- <-.
      destruct (IH a' b' eq_refl) as (-> & Ha & Hb).
      simpl. rewrite E. auto.
Qed.

Lemma span_until_app (p : char -> bool) (a b : str) :
  forallb (fun c => negb (p c)) a = true ->
  match b with [] => True | c :: _ => p c = true end ->
  span_until p (a ++ b) = (a, b).
Proof.
  induction a as [|x a IH]; simpl; intros Ha Hb.
  - destruct b as [|c b]; [reflexivity|]. simpl. rewrite Hb. reflexivity.
  - apply andb_true_iff in Ha as [Hx Ha]. apply negb_true_iff in Hx.
    rewrite Hx, (IH Ha Hb). reflexivity.
Qed.

(** [s.find(c)]: -1 when [c] does not occur, the position of the first
    occurrence otherwise. *)
Lemma find_from_none (c : char) (s : str) :
  forall i, contains c s = false -> find_from c s i = (-1)%Z.
Proof.
  induction s as [|x t IH]; intros i H; [reflexivity|].
  rewrite contains_cons in H. apply orb_false_iff in H as [Hx Ht].
  simpl. rewrite N.eqb_sym, Hx. auto.
Qed.

Lemma find_from_found (c : char) (s : str) :
  forall i, contains c s = true ->
    exists a b, s = a ++ c :: b /\ contains c a = false /\
                find_from c s i = (i + Z.of_nat (List.length a))%Z.
Proof.
  induction s as [|x t IH]; intros i H; [discriminate|].
  rewrite contains_cons in H. simpl.
  destruct (N.eqb x c) eqn:E.
  - apply N.eqb_eq in E. subst x. exists [], t. simpl.
    repeat split; auto. lia.
  - rewrite N.eqb_sym, E in H. simpl in H.
    destruct (IH (i + 1)%Z H) as (a & b & -> & Ha & Hf).
    exists (x :: a), b. rewrite Hf. repeat split.
    + rewrite contains_cons, N.eqb_sym, E. exact Ha.
    + cbn [List.length]. lia.
Qed.

Lemma find_from_bounds (c : char) (s : str) (i : Z) :
  find_from c s i = (-1)%Z \/
  (i <= find_from c s i < i + Z.of_nat (List.length s))%Z.
Proof.
  destruct (contains c s) eqn:E.
  - destruct (find_from_found c s i E) as (a & b & -> & _ & ->).
    right. rewrite length_app. cbn [List.length]. lia.
  - left. apply find_from_none. exact E.
Qed.

(** [s.rfind(c)] *)
Lemma rfind_from_app_single (c x : char) (s : str) :
  N.eqb x c = false ->
  forall i last, rfind_from c (s ++ [x]) i last = rfind_from c s i last.
Proof.
  intros Hx. induction s as [|y t IH]; intros i last; simpl.
  - rewrite Hx. reflexivity.
  - apply IH.
Qed.

Lemma rfind_from_bounds (c : char) (s : str) :
  forall i last,
    rfind_from c s i last = last \/
    (i <= rfind_from c s i last < i + Z.of_nat (List.length s))%Z.
Proof.
  induction s as [|y t IH]; intros i last; [left; reflexivity|].
  cbn [rfind_from List.length].
  destruct (N.eqb y c).
  - destruct (IH (i + 1)%Z i) as [->|H]; right; lia.
  - destruct (IH (i + 1)%Z last) as [->|H]; [left; reflexivity | right; lia].
Qed.

(** The minimum that [_splitnetloc] computes is where the first delimiter
    stands. *)
Lemma delim_span (s : str) :
  forall i, (0 <= i)%Z ->
    let step (d : Z) (c : char) :=
      let w := find_from c s i in
      if (0 <=? w)%Z then Z.min d w else d in
    let d := fold_left step [47%N; 63%N; 35%N] (i + Z.of_nat (List.length s))%Z in
    (i <= d <= i + Z.of_nat (List.length s))%Z /\
    firstn (Z.to_nat (d - i)) s = fst (span_until delimiter s) /\
    skipn (Z.to_nat (d - i)) s = snd (span_until delimiter s).
Proof.
  induction s as [|x t IH]; intros i Hi.
  - cbn. replace (i + 0 - i)%Z with 0%Z by lia. repeat split; lia.
  - specialize (IH (i + 1)%Z ltac:(lia)). cbv zeta in IH |- *.
    cbn [fold_left find_from span_until List.length] in IH |- *.
    pose proof (find_from_bounds 47%N t (i + 1)) as B1.
    pose proof (find_from_bounds 63%N t (i + 1)) as B2.
    pose proof (find_from_bounds 35%N t (i + 1)) as B3.
    replace (i + Z.of_nat (S (List.length t)))%Z
      with (i + 1 + Z.of_nat (List.length t))%Z by lia.
    destruct (delimiter x) eqn:Ex; cbn [fst snd].
    + unfold delimiter in Ex.
      match goal with
      | |- context [Z.to_nat (?e - i)] => assert (Hd : e = i)
      end.
      { destruct (N.eqb x 47%N), (N.eqb x 63%N), (N.eqb x 35%N);
          try discriminate;
          repeat match goal with
            | |- context [(0 <=? ?w)%Z] => destruct (Z.leb_spec 0 w)
            end; lia. }
      rewrite Hd. replace (i - i)%Z with 0%Z by lia.
      repeat split; auto; lia.
    + unfold delimiter in Ex.
      apply orb_false_iff in Ex as [Ex E3]. apply orb_false_iff in Ex as [E1 E2].
      rewrite E1, E2, E3.
      destruct IH as (Hd & Hf & Hs).
      set (d := (if (0 <=? find_from 35%N t (i + 1))%Z then _ else _)) in *.
      replace (Z.to_nat (d - i)) with (S (Z.to_nat (d - (i + 1)))) by lia.
      cbn [firstn skipn]. rewrite Hf, Hs.
      destruct (span_until delimiter t); cbn [fst snd].
      clearbody d. repeat split; auto; lia.
Qed.

Lemma _splitnetloc_span (url : str) :
  startswith (py "//") url = true ->
  Urllib._splitnetloc url = span_until delimiter (skipn 2 url).
Proof.
  destruct url as [|a [|b s]]; try discriminate.
  - simpl. rewrite andb_false_r. discriminate.
  - intros _. unfold Urllib._splitnetloc, find_at.
    cbn [skipn List.length].
    pose proof (delim_span s 2%Z ltac:(lia)) as H. cbv zeta in H.
    replace (Z.of_nat (S (S (List.length s))))
      with (2 + Z.of_nat (List.length s))%Z by lia.
    change (Z.of_nat 2) with 2%Z.
    destruct H as (Hd & Hf & Hs).
    set (d := fold_left _ _ _) in *.
    replace (Z.to_nat d) with (S (S (Z.to_nat (d - 2)))) by lia.
    cbn [firstn skipn]. rewrite Hf, Hs.
    destruct (span_until delimiter s); reflexivity.
Qed.

Lemma firstn_length_app (a b : str) : firstn (List.length a) (a ++ b) = a.
Proof. induction a; simpl; congruence. Qed.

Lemma skipn_length_app (a b : str) : skipn (List.length a) (a ++ b) = b.
Proof. induction a; simpl; congruence. Qed.

(** [_splitparams] and the first step of [urlunparse]: either the two
    parts put together are the text that was split, or the text ended in
    its only parameter separator; and splitting the parts put together
    gives the parts back. *)
Lemma _splitparams_with_params (url p ps : str) :
  contains 59%N url = true -> Urllib._splitparams url = (p, ps) ->
  (url = with_params p ps \/ (ps = [] /\ url = p ++ [59%N])) /\
  (if contains 59%N (with_params p ps)
   then Urllib._splitparams (with_params p ps)
   else (with_params p ps, [])) = (p, ps).
Proof.
  intros Hc H.
  assert (Hcore :
    url = with_params p ps \/
    (ps = [] /\ url = p ++ [59%N] /\
     (if contains 59%N p then Urllib._splitparams p else (p, [])) = (p, []))).
  { unfold Urllib._splitparams in H. destruct (contains 47%N url) eqn:Hs.
    - set (r := Z.to_nat (rfind 47%N url)) in *. unfold find_at in H.
      destruct (contains 59%N (skipn r url)) eqn:Hc'.
      + destruct (find_from_found 59%N (skipn r url) (Z.of_nat r) Hc')
          as (a & b & Hab & Ha & Hf).
        rewrite Hf in H.
        destruct (Z.ltb_spec (Z.of_nat r + Z.of_nat (List.length a)) 0); [lia|].
        replace (Z.to_nat (Z.of_nat r + Z.of_nat (List.length a)))
          with (r + List.length a) in H by lia.
        set (pre := firstn r url).
        assert (Hlen : List.length pre = r).
        { unfold pre. rewrite length_firstn.
          pose proof (length_skipn r url) as Hl. rewrite Hab in Hl.
          rewrite length_app in Hl. cbn [List.length] in Hl. lia. }
        assert (Hurl : url = (pre ++ a) ++ 59%N :: b).
        { rewrite <- (firstn_skipn r url) at 1. fold pre. rewrite Hab.
          rewrite app_assoc. reflexivity. }
        assert (Hp : firstn (r + List.length a) url = pre ++ a).
        { rewrite Hurl at 1. rewrite <- Hlen, <- length_app.
          apply firstn_length_app. }
        assert (Hps : skipn (r + List.length a + 1) url = b).
        { rewrite Hurl at 1.
          change (59%N :: b) with ([59%N] ++ b). rewrite app_assoc.
          replace (r + List.length a + 1)
            with (List.length ((pre ++ a) ++ [59%N]))
            by (rewrite !length_app; cbn [List.length]; lia).
          apply skipn_length_app. }
        rewrite Hp, Hps in H. injection H as <- <-.
        destruct b as [|c b].
        * right. repeat split; [exact Hurl|].
          destruct (contains 59%N (pre ++ a)) eqn:Hcp; [|reflexivity].
          unfold Urllib._splitparams.
          assert (Hs' : contains 47%N (pre ++ a) = true).
          { rewrite Hurl, contains_app in Hs. simpl in Hs.
            rewrite orb_false_r in Hs. exact Hs. }
          rewrite Hs'.
          assert (Hr : Z.to_nat (rfind 47%N (pre ++ a)) = r).
          { unfold r, rfind.
            rewrite <- (rfind_from_app_single 47%N 59%N (pre ++ a) eq_refl).
            apply (f_equal (fun s => Z.to_nat (rfind_from 47%N s 0 (-1)))).
            symmetry. exact Hurl. }
          rewrite Hr. unfold find_at. rewrite <- Hlen at 1.
          rewrite skipn_length_app, (find_from_none _ _ _ Ha). reflexivity.
        * left. unfold with_params. cbn [nonempty]. exact Hurl.
      + rewrite (find_from_none _ _ _ Hc') in H. cbn in H.
        injection H as <- <-. left. reflexivity.
    - unfold find in H.
      destruct (find_from_found 59%N url 0%Z Hc) as (a & b & Hab & Ha & Hf).
      rewrite Hf in H.
      replace (Z.to_nat (0 + Z.of_nat (List.length a))) with (List.length a)
        in H by lia.
      assert (Hp : firstn (List.length a) url = a)
        by (rewrite Hab; apply firstn_length_app).
      assert (Hps : skipn (List.length a + 1) url = b).
      { rewrite Hab. change (59%N :: b) with ([59%N] ++ b). rewrite app_assoc.
        replace (List.length a + 1) with (List.length (a ++ [59%N]))
          by (rewrite length_app; cbn [List.length]; lia).
        apply skipn_length_app. }
      rewrite Hp, Hps in H. injection H as <- <-.
      destruct b as [|c b].
      + right. repeat split; [exact Hab|]. rewrite Ha. reflexivity.
      + left. exact Hab. }
  destruct Hcore as [Hu | (-> & Hu & Hp)].
  - split; [left; exact Hu|]. rewrite <- Hu, Hc. exact H.
  - split; [right; auto|]. exact Hp.
Qed.

(** What [remove_unsafe] leaves has no character to remove. *)
Lemma unsafe_free_remove_unsafe (s : str) :
  unsafe_free (Urllib.remove_unsafe s) = true.
Proof.
  unfold unsafe_free, Urllib.remove_unsafe, remove_char.
  apply forallb_forall. intros c Hc.
  apply filter_In in Hc as [Hc H10]. apply filter_In in Hc as [Hc H13].
  apply filter_In in Hc as [_ H9]. rewrite H9, H13, H10. reflexivity.
Qed.

Lemma remove_unsafe_id (s : str) :
  unsafe_free s = true -> Urllib.remove_unsafe s = s.
Proof.
  unfold unsafe_free, Urllib.remove_unsafe, remove_char.
  induction s as [|c s IH]; [reflexivity|]. cbn [forallb filter].
  intros H. apply andb_true_iff in H as [Hc Hs].
  apply andb_true_iff in Hc as [Hc H10]. apply andb_true_iff in Hc as [H9 H13].
  rewrite H9. cbn [filter]. rewrite H13. cbn [filter]. rewrite H10.
  f_equal. apply IH. exact Hs.
Qed.

Lemma unsafe_free_app (a b : str) :
  unsafe_free (a ++ b) = unsafe_free a && unsafe_free b.
Proof. apply forallb_app. Qed.

Lemma unsafe_free_skipn (n : nat) (s : str) :
  unsafe_free s = true -> unsafe_free (skipn n s) = true.
Proof.
  intros H. rewrite <- (firstn_skipn n s), unsafe_free_app in H.
  apply andb_true_iff in H as [_ H]. exact H.
Qed.

End StrFacts.

Section UrlFacts.

Import PyStr Py Urllib UrlParts StrFacts.
Open Scope list_scope.

Variables bracketed_netloc_ok nfkc_netloc_ok : str -> bool.

Lemma urlparse_parts (url0 : str) :
  urlparse bracketed_netloc_ok nfkc_netloc_ok url0
  = urlparse_steps bracketed_netloc_ok nfkc_netloc_ok url0.
Proof.
  unfold urlparse, urlsplit, urlparse_steps, split_scheme, split_netloc,
    split_tail, split_params.
  set (u := remove_unsafe (lstrip c0_control_or_space url0)).
  destruct ((0 <? find 58%N u)%Z
            && match u with c :: _ => is_ascii_alpha c | [] => false end);
    [destruct (forallb scheme_char (firstn (Z.to_nat (find 58%N u)) u))|].
  all: cbv beta iota zeta.
  all: repeat match goal with
         | |- context [_splitnetloc ?v] =>
             destruct (_splitnetloc v) as [n r]; cbv beta iota zeta
         | |- context [if ?b then _ else _] =>
             destruct b eqn:?; cbn [rbind]; cbv beta iota zeta
         | |- context [split1 ?c ?v] => destruct (split1 c v); cbv beta iota zeta
         | |- context [_splitparams ?v] =>
             destruct (_splitparams v); cbv beta iota zeta
         end; try reflexivity; try discriminate.
Qed.

Lemma urlunsplit_parts (scheme netloc url query fragment : str) :
  urlunsplit scheme netloc url query fragment
  = (if nonempty scheme then scheme ++ py ":" else [])
    ++ unsplit_netloc scheme netloc url ++ unsplit_tail query fragment.
Proof.
  unfold urlunsplit, unsplit_tail, unsplit_netloc.
  set (body := if nonempty netloc then _ else _). clearbody body.
  destruct (nonempty scheme), (nonempty query), (nonempty fragment);
    cbn [app]; rewrite <- ?app_assoc, ?app_nil_r; reflexivity.
Qed.

Lemma split_scheme_https (x : str) :
  split_scheme (py "https:" ++ x) = (py "https", x).
Proof. reflexivity. Qed.

Lemma split_scheme_unsafe_free (u s v : str) :
  split_scheme u = (s, v) -> unsafe_free u = true -> unsafe_free v = true.
Proof.
  unfold split_scheme. intros H Hu.
  destruct (_ && _); [destruct (forallb _ _)|]; injection H as <- <-; auto.
  apply unsafe_free_skipn. exact Hu.
Qed.

Lemma split_netloc_inv (url netloc rest : str) :
  split_netloc bracketed_netloc_ok url = Ok (netloc, rest) ->
  brackets_ok bracketed_netloc_ok netloc = true /\
  delimiter_free netloc = true /\
  (unsafe_free url = true ->
   unsafe_free netloc = true /\ unsafe_free rest = true) /\
  (nonempty netloc = true ->
   match rest with [] => True | c :: _ => delimiter c = true end).
Proof.
  unfold split_netloc. destruct (startswith (py "//") url) eqn:Hs.
  - rewrite (_splitnetloc_span url Hs).
    destruct (span_until delimiter (skipn 2 url)) as [a r] eqn:Hsp.
    apply span_until_inv in Hsp as (Hu & Ha & Hr).
    destruct (_ || _) eqn:E1; [discriminate|].
    destruct (_ && negb (bracketed_netloc_ok a)) eqn:E2; [discriminate|].
    intros H. injection H as <- <-.
    split; [unfold brackets_ok; cbv zeta; rewrite E1, E2; reflexivity|].
    split; [exact Ha|]. split; [|auto].
    intros Hf. apply (unsafe_free_skipn 2) in Hf. rewrite Hu in Hf.
    rewrite unsafe_free_app in Hf. apply andb_true_iff in Hf. exact Hf.
  - intros H. injection H as <- <-. repeat split; auto. discriminate.
Qed.

Lemma split_netloc_app (netloc rest : str) :
  brackets_ok bracketed_netloc_ok netloc = true ->
  delimiter_free netloc = true ->
  match rest with [] => True | c :: _ => delimiter c = true end ->
  split_netloc bracketed_netloc_ok (py "//" ++ netloc ++ rest) = Ok (netloc, rest).
Proof.
  intros Hb Hd Hr. unfold split_netloc.
  change (startswith (py "//") (py "//" ++ netloc ++ rest)) with true.
  cbv iota. rewrite _splitnetloc_span by reflexivity.
  change (skipn 2 (py "//" ++ netloc ++ rest)) with (netloc ++ rest).
  rewrite (span_until_app delimiter netloc rest Hd Hr).
  unfold brackets_ok in Hb. cbv zeta in Hb.
  apply andb_true_iff in Hb as [H1 H2].
  apply negb_true_iff in H1, H2. rewrite H1, H2. reflexivity.
Qed.

Lemma split_tail_inv (url p q f : str) :
  split_tail url = (p, q, f) ->
  contains 35%N p = false /\ contains 63%N p = false /\
  contains 35%N q = false /\
  (unsafe_free url = true ->
   unsafe_free p = true /\ unsafe_free q = true /\ unsafe_free f = true) /\
  (match url with [] => True | c :: _ => delimiter c = true end ->
   rooted p = true).
Proof.
  unfold split_tail.
  assert (Hfrag : exists u1 f1,
            (if contains 35%N url then split1 35%N url else (url, [])) = (u1, f1) /\
            contains 35%N u1 = false /\
            (url = u1 /\ f1 = [] \/ url = u1 ++ 35%N :: f1)).
  { destruct (contains 35%N url) eqn:E.
    - destruct (split1 35%N url) as [u1 f1] eqn:Es.
      destruct (split1_inv _ _ _ _ E Es) as [Hu Hc]. eauto 6.
    - eauto 7. }
  destruct Hfrag as (u1 & f1 & -> & Hc1 & Hu1).
  assert (Hq : exists u2 q2,
            (if contains 63%N u1 then split1 63%N u1 else (u1, [])) = (u2, q2) /\
            contains 63%N u2 = false /\
            (u1 = u2 /\ q2 = [] \/ u1 = u2 ++ 63%N :: q2)).
  { destruct (contains 63%N u1) eqn:E.
    - destruct (split1 63%N u1) as [u2 q2] eqn:Es.
      destruct (split1_inv _ _ _ _ E Es) as [Hu Hc]. eauto 6.
    - eauto 7. }
  destruct Hq as (u2 & q2 & -> & Hc2 & Hu2).
  intros H. injection H as <- <- <-.
  assert (Hu1' : contains 35%N u2 = false /\ contains 35%N q2 = false).
  { destruct Hu2 as [[-> ->] | ->]; [auto|].
    rewrite contains_app, contains_cons in Hc1.
    apply orb_false_iff in Hc1 as [H1 H2]. apply orb_false_iff in H2 as [_ H2].
    auto. }
  destruct Hu1' as [Hc3 Hc4].
  split; [exact Hc3|]. split; [exact Hc2|]. split; [exact Hc4|]. split.
  - intros Hf.
    destruct Hu1 as [[-> ->] | ->], Hu2 as [[-> ->] | ->];
      rewrite ?unsafe_free_app in Hf; cbn [unsafe_free forallb] in Hf;
      repeat match goal with
        | H : _ && _ = true |- _ => apply andb_true_iff in H as [? ?]
        end; repeat split; try assumption; reflexivity.
  - intros Hd. destruct u2 as [|c u2]; [reflexivity|].
    rewrite contains_cons in Hc2, Hc3.
    apply orb_false_iff in Hc2 as [Hc2 _]. apply orb_false_iff in Hc3 as [Hc3 _].
    assert (Hc : delimiter c = true)
      by (destruct Hu1 as [[-> ->] | ->], Hu2 as [[-> ->] | ->]; exact Hd).
    unfold delimiter in Hc. rewrite N.eqb_sym in Hc2, Hc3.
    rewrite Hc2, Hc3, !orb_false_r in Hc. exact Hc.
Qed.

Lemma unsplit_tail_head (q f : str) :
  match unsplit_tail q f with [] => True | c :: _ => delimiter c = true end.
Proof. destruct q, f; simpl; auto. Qed.

Lemma split_tail_app (p q f : str) :
  contains 35%N p = false -> contains 63%N p = false ->
  contains 35%N q = false ->
  split_tail (p ++ unsplit_tail q f) = (p, q, f).
Proof.
  intros Hp35 Hp63 Hq35. unfold split_tail, unsplit_tail.
  destruct q as [|cq q], f as [|cf f]; cbn [nonempty];
    change (py "?") with [63%N]; change (py "#") with [35%N]; cbn [app];
    rewrite ?app_nil_r.
  - rewrite Hp35, Hp63. reflexivity.
  - rewrite contains_app, contains_cons, N.eqb_refl, orb_true_r.
    rewrite (split1_app _ _ _ Hp35). cbv beta iota zeta.
    rewrite Hp63. reflexivity.
  - match goal with
    | |- context [contains 35%N ?x] => assert (Hpq : contains 35%N x = false)
    end.
    { rewrite contains_app, Hp35, contains_cons, Hq35. reflexivity. }
    rewrite Hpq. cbv beta iota zeta.
    rewrite contains_app, contains_cons, N.eqb_refl, orb_true_r.
    rewrite (split1_app _ _ _ Hp63). reflexivity.
  - match goal with
    | |- context [contains 35%N (p ++ ?x :: ?y :: ?z ++ ?w)] =>
        assert (Hpq : contains 35%N (p ++ x :: y :: z) = false);
        [| change (p ++ x :: y :: z ++ w) with (p ++ (x :: y :: z) ++ w) ]
    end.
    { rewrite contains_app, Hp35, contains_cons, Hq35. reflexivity. }
    rewrite app_assoc.
    rewrite contains_app, (contains_cons 35%N 35%N), N.eqb_refl, orb_true_r.
    rewrite (split1_app _ _ _ Hpq). cbv beta iota zeta.
    rewrite contains_app, contains_cons, N.eqb_refl, orb_true_r.
    rewrite (split1_app _ _ _ Hp63). reflexivity.
Qed.

Lemma split_params_with_params (s s' p0 p ps : str) :
  str_in s uses_params = true -> str_in s' uses_params = true ->
  split_params s p0 = (p, ps) ->
  (p0 = with_params p ps \/ (ps = [] /\ p0 = p ++ [59%N])) /\
  split_params s' (with_params p ps) = (p, ps).
Proof.
  unfold split_params. intros -> ->. cbn [andb].
  destruct (contains 59%N p0) eqn:E; intros H.
  - apply (_splitparams_with_params _ _ _ E H).
  - injection H as <- <-. unfold with_params. cbn [nonempty].
    rewrite E. auto.
Qed.

(** A part of the text that was split, when the parameters are put back *)
Lemma with_params_part (p0 p ps : str) :
  p0 = with_params p ps \/ (ps = [] /\ p0 = p ++ [59%N]) ->
  (forall c, contains c p0 = false -> contains c (with_params p ps) = false) /\
  (unsafe_free p0 = true -> unsafe_free (with_params p ps) = true) /\
  (rooted p0 = true -> rooted (with_params p ps) = true).
Proof.
  intros [->|[-> ->]]; [auto|]. unfold with_params. cbn [nonempty].
  repeat split.
  - intros c H. rewrite contains_app in H. apply orb_false_iff in H as [H _].
    exact H.
  - intros H. rewrite unsafe_free_app in H. apply andb_true_iff in H as [H _].
    exact H.
  - destruct p; auto.
Qed.

Lemma split_netloc_unsplit (netloc url t : str) :
  brackets_ok bracketed_netloc_ok netloc = true ->
  delimiter_free netloc = true ->
  (nonempty netloc = true -> rooted url = true) ->
  match t with [] => True | c :: _ => delimiter c = true end ->
  split_netloc bracketed_netloc_ok (unsplit_netloc (py "https") netloc url ++ t)
  = Ok (netloc, url ++ t).
Proof.
  intros Hb Hd Hr Ht. unfold unsplit_netloc.
  destruct netloc as [|c0 n0]; cbn [nonempty].
  - change (nonempty (py "https") && str_in (py "https") uses_netloc) with true.
    cbn [andb].
    destruct url as [|x u].
    + cbn [startswith py nonempty negb orb].
      apply (split_netloc_app [] t); auto.
    + destruct (N.eqb x 47%N) eqn:Ex.
      * apply N.eqb_eq in Ex. subst x.
        match goal with
        | |- split_netloc _ (?body ++ t) = _ =>
            assert (Hbody : body = py "//" ++ [] ++ 47%N :: u)
        end.
        { match goal with
          | |- context [if ?c then _ else _] => destruct c
          end; reflexivity. }
        rewrite Hbody. rewrite <- !app_assoc.
        apply (split_netloc_app [] ((47%N :: u) ++ t)); auto.
      * assert (Hs1 : startswith (py "/") (x :: u) = false).
        { change (N.eqb 47%N x && true = false).
          rewrite N.eqb_sym, Ex. reflexivity. }
        assert (Hs2 : startswith (py "//") (x :: u) = false).
        { change (N.eqb 47%N x && startswith (py "/") u = false).
          rewrite N.eqb_sym, Ex. reflexivity. }
        rewrite Hs1, Hs2. cbn [nonempty negb orb].
        unfold split_netloc.
        assert (Hs3 : startswith (py "//") ((x :: u) ++ t) = false).
        { change (N.eqb 47%N x && startswith (py "/") (u ++ t) = false).
          rewrite N.eqb_sym, Ex. reflexivity. }
        rewrite Hs3. reflexivity.
  - specialize (Hr eq_refl). destruct url as [|x u].
    + cbn [nonempty andb]. rewrite <- !app_assoc.
      apply (split_netloc_app (c0 :: n0) ([] ++ t)); auto.
    + simpl in Hr. apply N.eqb_eq in Hr. subst x.
      change (nonempty (47%N :: u) && negb (startswith (py "/") (47%N :: u)))
        with false.
      cbv iota. rewrite <- !app_assoc.
      apply (split_netloc_app (c0 :: n0) ((47%N :: u) ++ t)); auto.
      reflexivity.
Qed.

Lemma unsafe_free_unsplit (nl url q f : str) :
  unsafe_free nl = true -> unsafe_free url = true ->
  unsafe_free q = true -> unsafe_free f = true ->
  unsafe_free (unsplit_netloc (py "https") nl url ++ unsplit_tail q f) = true.
Proof.
  intros Hn Hu Hq Hf. unfold unsplit_netloc, unsplit_tail.
  repeat match goal with
    | |- context [if ?c then _ else _] => destruct c
    end;
    rewrite ?unsafe_free_app, ?Hn, ?Hu, ?Hq, ?Hf; reflexivity.
Qed.

(** The parts of a URL that [urlparse] found no scheme in *)
Lemma urlparse_inv (url0 : str) (p : ParseResult) :
  urlparse bracketed_netloc_ok nfkc_netloc_ok url0 = Ok p ->
  scheme p = [] ->
  brackets_ok bracketed_netloc_ok (netloc p) = true /\
  delimiter_free (netloc p) = true /\
  _checknetloc nfkc_netloc_ok (netloc p) = true /\
  (nonempty (netloc p) = true ->
   rooted (with_params (path p) (params p)) = true) /\
  contains 35%N (with_params (path p) (params p)) = false /\
  contains 63%N (with_params (path p) (params p)) = false /\
  contains 35%N (query p) = false /\
  unsafe_free (netloc p) = true /\
  unsafe_free (with_params (path p) (params p)) = true /\
  unsafe_free (query p) = true /\ unsafe_free (fragment p) = true /\
  split_params (py "https") (with_params (path p) (params p))
    = (path p, params p).
Proof.
  rewrite urlparse_parts. unfold urlparse_steps.
  destruct (split_scheme _) as [s v] eqn:Hsch.
  destruct (split_netloc _ v) as [[nl rest]|e] eqn:Hn; [|discriminate].
  cbn [rbind].
  destruct (split_tail rest) as [[p0 q] f] eqn:Ht.
  destruct (_checknetloc _ nl) eqn:Hck; [|discriminate].
  destruct (split_params s p0) as [pa ps] eqn:Hp.
  intros H Hs. injection H as <-. cbn [scheme netloc path params query fragment] in *.
  subst s.
  assert (Hv : unsafe_free v = true).
  { apply (split_scheme_unsafe_free _ _ _ Hsch).
    apply unsafe_free_remove_unsafe. }
  destruct (split_netloc_inv _ _ _ Hn) as (Hb & Hd & Hu & Hr).
  destruct (Hu Hv) as [Hunl Hurest].
  destruct (split_tail_inv _ _ _ _ Ht) as (H35 & H63 & Hq35 & Hut & Hroot).
  destruct (Hut Hurest) as (Hup0 & Huq & Huf).
  destruct (split_params_with_params [] (py "https") _ _ _ eq_refl eq_refl Hp)
    as [Hpart Hsp].
  destruct (with_params_part _ _ _ Hpart) as (Hc & Hu' & Hr').
  split; [exact Hb|]. split; [exact Hd|]. split; [exact Hck|].
  split; [intros Hne; apply Hr', Hroot, Hr, Hne|].
  split; [apply Hc, H35|]. split; [apply Hc, H63|]. split; [exact Hq35|].
  split; [exact Hunl|]. split; [apply Hu', Hup0|]. split; [exact Huq|].
  split; [exact Huf|]. exact Hsp.
Qed.

(** Parsing what [urlunparse] makes of such parts, with the scheme
    [https], gives the parts back. *)
Lemma urlparse_https (nl pa ps q f : str) :
  brackets_ok bracketed_netloc_ok nl = true ->
  delimiter_free nl = true ->
  _checknetloc nfkc_netloc_ok nl = true ->
  (nonempty nl = true -> rooted (with_params pa ps) = true) ->
  contains 35%N (with_params pa ps) = false ->
  contains 63%N (with_params pa ps) = false ->
  contains 35%N q = false ->
  unsafe_free nl = true -> unsafe_free (with_params pa ps) = true ->
  unsafe_free q = true -> unsafe_free f = true ->
  split_params (py "https") (with_params pa ps) = (pa, ps) ->
  urlparse bracketed_netloc_ok nfkc_netloc_ok
    (urlunparse (mkParseResult (py "https") nl pa ps q f))
  = Ok (mkParseResult (py "https") nl pa ps q f).
Proof.
  intros Hb Hd Hck Hr H35 H63 Hq35 Hunl Huu Huq Huf Hsp.
  unfold urlunparse. cbn [scheme netloc path params query fragment].
  change (if nonempty ps then pa ++ py ";" ++ ps else pa) with (with_params pa ps).
  rewrite urlunsplit_parts.
  change (if nonempty (py "https") then py "https" ++ py ":" else [])
    with (py "https:").
  rewrite urlparse_parts. unfold urlparse_steps.
  set (body := unsplit_netloc (py "https") nl (with_params pa ps) ++ unsplit_tail q f).
  assert (Hbody : unsafe_free body = true)
    by (apply unsafe_free_unsplit; assumption).
  change (lstrip c0_control_or_space (py "https:" ++ body)) with (py "https:" ++ body).
  change (remove_unsafe (py "https:" ++ body)) with (py "https:" ++ remove_unsafe body).
  rewrite (remove_unsafe_id _ Hbody), split_scheme_https.
  unfold body.
  rewrite (split_netloc_unsplit _ _ _ Hb Hd Hr (unsplit_tail_head q f)).
  cbn [rbind]. rewrite (split_tail_app _ _ _ H35 H63 Hq35), Hck, Hsp.
  reflexivity.
Qed.

End UrlFacts.

Section UrlClaims.

Import PyStr Py Urllib UrlParts.
Open Scope list_scope.

(** C10.  [add_https_scheme] keeps a URL that has a scheme as it is; to a
    URL without a scheme it adds the scheme: the result is [urlunparse] of
    the parts of the URL with the scheme [https], and parsing the result
    gives these same parts; and calling the function on its result
    changes nothing, so that calling it twice is calling it once (it
    raises when the URL does not parse).  [urlunparse] is the one of
    CPython 3.12.4 and later, as in [Urllib]. *)
Theorem add_https_scheme_idempotent (env : Builtins) (url : str) :
  (forall p, Igdb.urlparse env url = Ok p -> nonempty (scheme p) = true ->
     Igdb.add_https_scheme env url = Ok url) /\
  (forall p, Igdb.urlparse env url = Ok p -> nonempty (scheme p) = false ->
     let with_https :=
       mkParseResult (py "https") (netloc p) (path p) (params p)
                     (query p) (fragment p) in
     Igdb.add_https_scheme env url = Ok (urlunparse with_https) /\
     Igdb.urlparse env (urlunparse with_https) = Ok with_https) /\
  rbind (Igdb.add_https_scheme env url) (Igdb.add_https_scheme env)
    = Igdb.add_https_scheme env url.
Proof.
  assert (Hhttps : forall p, Igdb.urlparse env url = Ok p ->
            nonempty (scheme p) = false ->
            Igdb.urlparse env
              (urlunparse (mkParseResult (py "https") (netloc p) (path p)
                             (params p) (query p) (fragment p)))
            = Ok (mkParseResult (py "https") (netloc p) (path p)
                    (params p) (query p) (fragment p))).
  { intros p Hp Hs. unfold Igdb.urlparse in *.
    assert (Hs' : scheme p = []) by (destruct (scheme p); [reflexivity|discriminate]).
    destruct (urlparse_inv _ _ _ _ Hp Hs')
      as (Hb & Hd & Hck & Hr & H35 & H63 & Hq35 & Hunl & Huu & Huq & Huf & Hsp).
    apply urlparse_https; assumption. }
  split; [|split].
  - intros p Hp Hs. unfold Igdb.add_https_scheme. rewrite Hp. cbn [rbind].
    rewrite Hs. reflexivity.
  - intros p Hp Hs. cbv zeta. split; [|apply Hhttps; assumption].
    unfold Igdb.add_https_scheme. rewrite Hp. cbn [rbind]. rewrite Hs.
    reflexivity.
  - unfold Igdb.add_https_scheme at 1 3.
    destruct (Igdb.urlparse env url) as [p|e] eqn:Hp; [|reflexivity].
    cbn [rbind]. destruct (nonempty (scheme p)) eqn:Hs; cbn [rbind].
    + unfold Igdb.add_https_scheme. rewrite Hp. cbn [rbind]. rewrite Hs.
      reflexivity.
    + unfold Igdb.add_https_scheme. rewrite (Hhttps p eq_refl Hs). reflexivity.
Qed.

End UrlClaims.


(* --------------------------------------------------------------------- *)
(** ** The properties at sample inputs *)
(* --------------------------------------------------------------------- *)

Section Witnesses.

Import PyStr Py Notion.
Local Open Scope string_scope.
Local Open Scope list_scope.

(** Three calls for game 42 on an empty workspace return one handle. *)
Lemma retrieve_or_create_once_witness :
  exists p w1,
    Main.retrieve_or_create_from_data Samples.env 8 Game Samples.game_42 []
      (Samples.connected false) = (Returns p, w1) /\
    call_times Cls_eq_dec (Main.classes Samples.env) 3 8 Game Samples.game_42 []
      (Samples.connected false) = (repeat (Returns p) 3, w1).
Proof.
  eexists. eexists. split; [vm_compute; reflexivity|].
  apply (proj2 (retrieve_or_create_once Samples.env 2 8 Game Samples.game_42 []
                  (Samples.connected false))).
  vm_compute. reflexivity.
Defined.

(** The call for game 42 returns and has stored its handle. *)
Lemma retrieve_or_create_terminates_witness :
  exists p w1,
    Main.retrieve_or_create_from_data Samples.env (8 + 0) Game Samples.game_42 []
      (Samples.connected false) = (Returns p, w1) /\
    cache_get Cls_eq_dec (Game, Samples.game_42, [])
      (outer_cache (Main.classes Samples.env) Game w1) = Some p.
Proof.
  eexists. eexists. split; [vm_compute; reflexivity|].
  apply (proj2 (retrieve_or_create_terminates Samples.env 0 Game Samples.game_42 []
                  (Samples.connected false))).
  vm_compute. reflexivity.
Defined.

(** The page of genre 7 exists when the run starts.  With the flag off
    the call returns the handle of the resolution; with the flag on it
    returns after one update. *)
Lemma existing_record_update_toggle_witness :
  (exists page w1,
     interp (Main.retrieve_or_create_from_data Samples.env 7)
       (retrieve_from_data (Main.classes Samples.env Genre) (Samples.genre 7))
       (Samples.genre_7_stored false) = (Returns (Some page), w1) /\
     base_retrieve_or_create Cls_eq_dec (Main.classes Samples.env)
       (Main.retrieve_or_create_from_data Samples.env 7) Genre (Samples.genre 7) []
       (Samples.genre_7_stored false)
     = (Returns page,
        set_base_cache
          (cache_set (Genre, Samples.genre 7, []) page (base_cache w1)) w1)) /\
  (exists page props w2 w3,
     base_retrieve_or_create Cls_eq_dec (Main.classes Samples.env)
       (Main.retrieve_or_create_from_data Samples.env 7) Genre (Samples.genre 7) []
       (Samples.genre_7_stored true) = (Returns page, w3) /\
     log w3 = log w2 ++ [EvUpdate Genre (id page) props]).
Proof.
  split.
  - eexists. eexists. split; [vm_compute; reflexivity|].
    apply (proj1 (existing_record_update_toggle Cls_eq_dec
                    (Main.classes Samples.env)
                    (Main.retrieve_or_create_from_data Samples.env 7)
                    Genre (Samples.genre 7) [] (Samples.genre_7_stored false)
                    _ _ ltac:(vm_compute; reflexivity)
                    ltac:(vm_compute; reflexivity))).
    vm_compute. reflexivity.
  - edestruct (existing_record_update_toggle Cls_eq_dec
                 (Main.classes Samples.env)
                 (Main.retrieve_or_create_from_data Samples.env 7)
                 Genre (Samples.genre 7) [] (Samples.genre_7_stored true))
      as [_ Hon].
    + vm_compute. reflexivity.
    + vm_compute. reflexivity.
    + edestruct Hon as (w3 & Hcall & Hlog & _).
      * vm_compute. reflexivity.
      * vm_compute. reflexivity.
      * vm_compute. reflexivity.
      * vm_compute. reflexivity.
      * vm_compute. reflexivity.
      * eexists. eexists. eexists. exists w3. split; [exact Hcall | exact Hlog].
Defined.


(** A game record without [id]: the error of the first attempt is raised. *)
Lemma non_transient_not_retried_witness :
  retrying
    (retrieve_or_create_body (Main.classes Samples.env)
       (Main.retrieve_or_create_from_data Samples.env 7) Game
       Samples.game_without_id [])
    (Samples.connected false)
  = (Raises (ValueError "data has no 'id' attribute"), Samples.connected false,
     mkRetryState 1 []).
Proof.
  apply (proj2 non_transient_not_retried); reflexivity.
Defined.

(** Game 42 is resolved by one query on "ID", which finds nothing on an
    empty workspace. *)
Lemma numeric_key_resolution_witness :
  Igdb.IGDBNotionPage_retrieve_from_data Game Samples.game_without_id
    = Throw (ValueError "data has no 'id' attribute") /\
  (exists v, getattr Samples.game_42 "id" = Ok v /\
     Igdb.IGDBNotionPage_retrieve_from_data Game Samples.game_42
       = QueryFirst Game (NumberEquals "ID" v) Ret) /\
  (exists w',
     interp (Main.retrieve_or_create_from_data Samples.env 7)
       (QueryFirst Game (NumberEquals "ID" (PyInt 42)) Ret)
       (Samples.connected false) = (Returns None, w') /\
     log w' = [EvQuery Game (NumberEquals "ID" (PyInt 42)) None]).
Proof.
  destruct numeric_key_resolution as (Higdb & _ & _ & Hquery).
  split; [apply (proj1 (Higdb Game Samples.game_without_id)); reflexivity|].
  split; [apply (proj2 (Higdb Game Samples.game_42)); reflexivity|].
  destruct (Hquery (Main.retrieve_or_create_from_data Samples.env 7) Game
              (NumberEquals "ID" (PyInt 42)) (Samples.connected false)
              (Samples.db Game) eq_refl eq_refl eq_refl)
    as (w' & Hcall & Hlog & _).
  exists w'. split; [exact Hcall | exact Hlog].
Defined.

(** A URL with a scheme is kept; a URL without one gets [https]. *)
Lemma add_https_scheme_idempotent_witness :
  Igdb.add_https_scheme Samples.env (py "http://example.com/a")
    = Ok (py "http://example.com/a") /\
  Igdb.add_https_scheme Samples.env (py "//example.com/a;b?c#d")
    = Ok (py "https://example.com/a;b?c#d") /\
  Igdb.urlparse Samples.env (py "https://example.com/a;b?c#d")
    = Ok (Urllib.mkParseResult (py "https") (py "example.com") (py "/a")
            (py "b") (py "c") (py "d")).
Proof.
  split.
  - apply (proj1 (add_https_scheme_idempotent Samples.env (py "http://example.com/a"))
             (Urllib.mkParseResult (py "http") (py "example.com") (py "/a") [] [] []));
      vm_compute; reflexivity.
  - apply (proj1 (proj2 (add_https_scheme_idempotent Samples.env
                           (py "//example.com/a;b?c#d")))
             (Urllib.mkParseResult [] (py "example.com") (py "/a")
                (py "b") (py "c") (py "d")));
      vm_compute; reflexivity.
Defined.

End Witnesses.

(* ===================================================================== *)
(** * Further properties of the code *)
(* ===================================================================== *)

(** ** The store across calls *)

Section ExtendsFacts.

Import Notion Workspace.

Context {C : Type} (C_eq_dec : forall a b : C, {a = b} + {a <> b}).
Context (classes : C -> PageClass C).

(** A step that leaves the store and the connections alone *)
Lemma extends_same (w w1 : World C) :
  update w1 = update w -> session w1 = session w -> database w1 = database w ->
  store w1 = store w -> next_page_id w1 = next_page_id w -> extends w w1.
Proof.
  intros Hu Hs Hd Hst Hn. repeat split; auto; try lia.
  - exists []. rewrite Hst, app_nil_r. reflexivity.
  - unfold store_wf in *. rewrite Hst. tauto.
  - unfold store_wf in *. rewrite Hst, Hn. tauto.
Qed.

Lemma extends_refl (w : World C) : extends w w.
Proof. apply extends_same; reflexivity. Qed.

Lemma extends_trans (w1 w2 w3 : World C) :
  extends w1 w2 -> extends w2 w3 -> extends w1 w3.
Proof.
  intros (Hu & Hs & Hd & [m Hm] & Hn & Hw) (Hu' & Hs' & Hd' & [m' Hm'] & Hn' & Hw').
  split; [congruence|]. split; [congruence|]. split; [congruence|].
  split; [|split; [lia | auto]].
  exists (m ++ m'). rewrite Hm', Hm, app_assoc. reflexivity.
Qed.

Lemma remote_call_extends (w w1 : World C) res :
  remote_call w = (res, w1) -> extends w w1.
Proof.
  unfold remote_call. destruct (faults w) as [|[e|] rest]; intros H;
    injection H as <- <-; apply extends_same; reflexivity.
Qed.

Lemma parse_obj_extends r (w w1 : World C) res :
  parse_obj r w = (res, w1) -> extends w w1.
Proof.
  unfold parse_obj. intros H. injection H as <- <-.
  apply extends_same; reflexivity.
Qed.

Lemma query_first_extends cls f (w w1 : World C) res :
  query_first cls f w = (res, w1) -> extends w w1.
Proof.
  unfold query_first. destruct (negb (session w cls)).
  { intros H. injection H as <- <-. apply extends_refl. }
  destruct (database w cls) as [db|].
  2:{ intros H. injection H as <- <-. apply extends_refl. }
  unfold mbind. destruct (remote_call w) as [[[]|e|] w0] eqn:Hr;
    pose proof (remote_call_extends _ _ _ Hr) as H0.
  - destruct (first_match db f (store w0)) as [r|]; intros H.
    + unfold parse_obj, mret in H. injection H as <- <-.
      eapply extends_trans; [exact H0|]. apply extends_same; reflexivity.
    + injection H as <- <-.
      eapply extends_trans; [exact H0|]. apply extends_same; reflexivity.
  - intros H. injection H as <- <-. exact H0.
  - intros H. injection H as <- <-. exact H0.
Qed.

Lemma pages_create_extends cls db props icon cover (w w1 : World C) res :
  pages_create cls db props icon cover w = (res, w1) -> extends w w1.
Proof.
  unfold pages_create, mbind.
  destruct (remote_call w) as [[[]|e|] w0] eqn:Hr;
    pose proof (remote_call_extends _ _ _ Hr) as H0;
    intros H; injection H as <- <-; try exact H0.
  eapply extends_trans; [exact H0|].
  split; [reflexivity|]. split; [reflexivity|]. split; [reflexivity|].
  split; [|split].
  - eexists. cbn. unfold pages_of. rewrite map_app. reflexivity.
  - cbn. lia.
  - intros [Hnd Hlt]. unfold store_wf. cbn. split.
    + rewrite map_app. cbn. apply NoDup_app; auto.
      * constructor; [intros [] | constructor].
      * intros x Hx [<-|[]]. apply in_map_iff in Hx as (r & Hr' & Hin).
        rewrite Forall_forall in Hlt. specialize (Hlt r Hin). lia.
    + apply Forall_app. split.
      * eapply Forall_impl; [|exact Hlt]. cbn. intros; lia.
      * constructor; [cbn; lia | constructor].
Qed.

Lemma store_update_pages page props icon cover (st : list RemotePage) :
  forall r st', store_update page props icon cover st = Some (r, st') ->
    pages_of st' = pages_of st /\ map rp_id st' = map rp_id st /\
    In r st' /\ rp_id r = page /\
    exists old, In old st /\ rp_id old = page /\ rp_parent r = rp_parent old /\
      rp_properties r = merge_properties props (rp_properties old) /\
      forall old', In old' st -> rp_id old' = page ->
        NoDup (map rp_id st) -> old' = old.
Proof.
  induction st as [|r0 t IH]; intros r st' H; [discriminate|].
  cbn [store_update] in H. destruct (Nat.eqb (rp_id r0) page) eqn:E.
  - injection H as <- <-. apply Nat.eqb_eq in E. cbn.
    repeat split; auto.
    exists r0. repeat split; auto.
    intros old' [<-|Hin] Hid Hnd; [reflexivity|].
    inversion Hnd as [|? ? Hnot _]; subst. exfalso. apply Hnot.
    apply in_map_iff. exists old'. split; [congruence | exact Hin].
  - destruct (store_update page props icon cover t) as [[r' t']|] eqn:Et;
      [|discriminate].
    injection H as <- <-.
    destruct (IH r' t' eq_refl) as (Hp & Hi & Hin & Hid & old & Ho & Hoid & Hpar & Hprops & Huniq).
    unfold pages_of in *. cbn [map In]. rewrite Hp, Hi. repeat split; auto.
    exists old. repeat split; auto.
    intros old' [<-|Hin'] Hid' Hnd.
    + apply Nat.eqb_neq in E. congruence.
    + inversion Hnd; subst. apply Huniq; auto.
Qed.

Lemma pages_update_extends cls page props icon cover (w w1 : World C) res :
  pages_update cls page props icon cover w = (res, w1) -> extends w w1.
Proof.
  unfold pages_update, mbind.
  destruct (remote_call w) as [[[]|e|] w0] eqn:Hr;
    pose proof (remote_call_extends _ _ _ Hr) as H0;
    try (intros H; injection H as <- <-; exact H0).
  destruct (store_update page props icon cover (store w0)) as [[r st]|] eqn:Hu;
    intros H; injection H as <- <-.
  - eapply extends_trans; [exact H0|].
    destruct (store_update_pages _ _ _ _ _ _ _ Hu) as (Hp & Hi & _).
    split; [reflexivity|]. split; [reflexivity|]. split; [reflexivity|].
    split; [|split].
    + exists []. rewrite app_nil_r. exact Hp.
    + cbn. lia.
    + intros [Hnd Hlt]. unfold store_wf. cbn. rewrite Hi. split; [exact Hnd|].
      apply Forall_forall. intros x Hx.
      assert (Hx' : In (rp_id x) (map rp_id (store w0))).
      { rewrite <- Hi. apply in_map. exact Hx. }
      apply in_map_iff in Hx' as (y & Hy & Hin).
      rewrite Forall_forall in Hlt. specialize (Hlt y Hin). lia.
  - eapply extends_trans; [exact H0|]. apply extends_same; reflexivity.
Qed.

Lemma interp_extends (h : Handler C) {A} (p : Prog C A) :
  handler_extends h ->
  forall w res w1, interp h p w = (res, w1) -> extends w w1.
Proof.
  intros Hh. induction p as [a|e|c d hs k IH|c f k IH]; intros w res w1 H.
  - injection H as <- <-. apply extends_refl.
  - injection H as <- <-. apply extends_refl.
  - cbn [interp] in H. unfold mbind in H.
    destruct (h c d hs w) as [[page|e|] w0] eqn:Hc;
      pose proof (Hh _ _ _ _ _ _ Hc) as H0.
    + eapply extends_trans; [exact H0 | exact (IH _ _ _ _ H)].
    + injection H as <- <-. exact H0.
    + injection H as <- <-. exact H0.
  - cbn [interp] in H. unfold mbind in H.
    destruct (query_first c f w) as [[found|e|] w0] eqn:Hq;
      pose proof (query_first_extends _ _ _ _ _ Hq) as H0.
    + eapply extends_trans; [exact H0 | exact (IH _ _ _ _ H)].
    + injection H as <- <-. exact H0.
    + injection H as <- <-. exact H0.
Qed.

Lemma create_from_data_extends (h : Handler C) cls data icon cover
    (w w1 : World C) res :
  handler_extends h ->
  create_from_data classes h cls data icon cover w = (res, w1) -> extends w w1.
Proof.
  intros Hh. unfold create_from_data.
  destruct (negb (session w cls)).
  { intros H. injection H as <- <-. apply extends_refl. }
  destruct (database w cls) as [db|].
  2:{ intros H. injection H as <- <-. apply extends_refl. }
  unfold mbind.
  destruct (interp h _ w) as [[props|e|] w0] eqn:Hp;
    pose proof (interp_extends h _ Hh _ _ _ Hp) as H0;
    try (intros H; injection H as <- <-; exact H0).
  destruct (pages_create cls db props icon cover w0) as [[r|e|] w2] eqn:Hc;
    pose proof (pages_create_extends _ _ _ _ _ _ _ _ Hc) as H2;
    intros H; try (injection H as <- <-; eapply extends_trans; eassumption).
  all: eapply extends_trans; [exact H0|]; eapply extends_trans; [exact H2|];
    exact (parse_obj_extends _ _ _ _ H).
Qed.

Lemma update_from_data_extends (h : Handler C) cls page data icon cover
    (w w1 : World C) res :
  handler_extends h ->
  update_from_data classes h cls page data icon cover w = (res, w1) -> extends w w1.
Proof.
  intros Hh. unfold update_from_data.
  destruct (negb (session w cls)).
  { intros H. injection H as <- <-. apply extends_refl. }
  unfold mbind.
  destruct (interp h _ w) as [[props|e|] w0] eqn:Hp;
    pose proof (interp_extends h _ Hh _ _ _ Hp) as H0;
    try (intros H; injection H as <- <-; exact H0).
  destruct (pages_update cls page props icon cover w0) as [[r|e|] w2] eqn:Hc;
    pose proof (pages_update_extends _ _ _ _ _ _ _ _ Hc) as H2;
    intros H; try (injection H as <- <-; eapply extends_trans; eassumption).
  all: eapply extends_trans; [exact H0|]; eapply extends_trans; [exact H2|];
    exact (parse_obj_extends _ _ _ _ H).
Qed.

Lemma body_extends (h : Handler C) cls data hints (w w1 : World C) res :
  handler_extends h ->
  retrieve_or_create_body classes h cls data hints w = (res, w1) -> extends w w1.
Proof.
  intros Hh. unfold retrieve_or_create_body, mbind.
  destruct (interp h _ w) as [[[page|]|e|] w0] eqn:Hp;
    pose proof (interp_extends h _ Hh _ _ _ Hp) as H0;
    try (intros H; injection H as <- <-; exact H0).
  - destruct (update w0).
    + intros H. eapply extends_trans; [exact H0|].
      exact (update_from_data_extends _ _ _ _ _ _ _ _ _ Hh H).
    + intros H. injection H as <- <-. exact H0.
  - intros H. eapply extends_trans; [exact H0|].
    exact (create_from_data_extends _ _ _ _ _ _ _ _ Hh H).
Qed.

Lemma sleep_before_retry_extends n (w : World C) :
  extends w (snd (sleep_before_retry n w)).
Proof.
  unfold sleep_before_retry. destruct (draws w); apply extends_same; reflexivity.
Qed.

(** What holds between the start of a retried call and its end, when it
    holds across each attempt and each sleep *)
Lemma retry_loop_preserves {A} (R : World C -> World C -> Prop) (f : M C A) :
  (forall w, R w w) ->
  (forall w1 w2 w3, R w1 w2 -> R w2 w3 -> R w1 w3) ->
  (forall w res w1, f w = (res, w1) -> R w w1) ->
  (forall n w, R w (snd (sleep_before_retry n w))) ->
  forall left slept w res w1 st,
    retry_loop left slept f w = (res, w1, st) -> R w w1.
Proof.
  intros Hrefl Htrans Hf Hs.
  induction left as [|left IH]; intros slept w res w1 st H; cbn [retry_loop] in H.
  - destruct (f w) as [[a|e|] w0] eqn:Hfw; pose proof (Hf _ _ _ Hfw) as H0.
    + injection H as <- <- <-. exact H0.
    + destruct (Tenacity.retry_if_exception_type e); injection H as <- <- <-; exact H0.
    + injection H as <- <- <-. exact H0.
  - destruct (f w) as [[a|e|] w0] eqn:Hfw; pose proof (Hf _ _ _ Hfw) as H0.
    + injection H as <- <- <-. exact H0.
    + destruct (Tenacity.retry_if_exception_type e).
      * pose proof (Hs (Tenacity.max_attempt_number - S left) w0) as H1.
        destruct (sleep_before_retry _ w0) as [seconds w2]. cbn [snd] in H1.
        eapply Htrans; [exact H0|]. eapply Htrans; [exact H1|].
        exact (IH _ _ _ _ _ H).
      * injection H as <- <- <-. exact H0.
    + injection H as <- <- <-. exact H0.
Qed.

Lemma lru_cache_preserves (R : World C -> World C -> Prop) get set
    (k : Key C) (f : M C Page) :
  (forall w, R w w) ->
  (forall w1 w2 w3, R w1 w2 -> R w2 w3 -> R w1 w3) ->
  (forall c w, R w (set c w)) ->
  (forall w res w1, f w = (res, w1) -> R w w1) ->
  forall w res w1, lru_cache C_eq_dec get set k f w = (res, w1) -> R w w1.
Proof.
  intros Hrefl Htrans Hset Hf w res w1. unfold lru_cache.
  destruct (cache_get C_eq_dec k (get w)).
  { intros H. injection H as <- <-. apply Hrefl. }
  destruct (f w) as [[v|e|] w0] eqn:Hfw; pose proof (Hf _ _ _ Hfw) as H0;
    intros H; injection H as <- <-; auto.
  eapply Htrans; [exact H0 | apply Hset].
Qed.

Lemma base_extends (h : Handler C) cls data hints (w w1 : World C) res :
  handler_extends h ->
  base_retrieve_or_create C_eq_dec classes h cls data hints w = (res, w1) ->
  extends w w1.
Proof.
  intros Hh. unfold base_retrieve_or_create.
  apply (lru_cache_preserves (@extends C)); auto using extends_refl.
  - exact extends_trans.
  - intros c w'. apply extends_same; reflexivity.
  - intros w' res' w1' H. unfold retry, retrying in H.
    destruct (retry_loop _ _ _ w') as [[r0 w0] st] eqn:Hr. cbn [fst] in H.
    injection H as <- <-.
    refine (retry_loop_preserves (@extends C) _ extends_refl extends_trans _ _ _ _ _ _ _ _ Hr).
    + intros w2 res2 w3. apply body_extends. exact Hh.
    + apply sleep_before_retry_extends.
Qed.

Lemma dispatch_extends (h : Handler C) :
  handler_extends h -> handler_extends (dispatch C_eq_dec classes h).
Proof.
  intros Hh cls data hints w res w1. unfold dispatch.
  destruct (override_hints (classes cls)) as [adjust|];
    [|apply base_extends; exact Hh].
  apply (lru_cache_preserves (@extends C)); auto using extends_refl.
  - exact extends_trans.
  - intros c w'. apply extends_same; reflexivity.
  - intros w' res' w1'. unfold mbind, mlift.
    destruct (adjust _ _ _) as [[icon cover]|e]; cbn.
    + apply base_extends. exact Hh.
    + intros H. injection H as <- <-. apply extends_refl.
Qed.

Lemma roc_extends fuel :
  handler_extends (retrieve_or_create_from_data C_eq_dec classes fuel).
Proof.
  induction fuel as [|fuel IH].
  - intros c d hs w res w1 H. injection H as <- <-. apply extends_refl.
  - cbn [retrieve_or_create_from_data]. apply dispatch_extends. exact IH.
Qed.

End ExtendsFacts.

(** ** Records that are in the store already *)

Section QuietFacts.

Import Notion Workspace.

Context {C : Type} (C_eq_dec : forall a b : C, {a = b} + {a <> b}).
Context (classes : C -> PageClass C).

Lemma quiet_same (w w1 : World C) :
  update w1 = update w -> session w1 = session w -> database w1 = database w ->
  store w1 = store w -> next_page_id w1 = next_page_id w -> log w1 = log w ->
  quiet w w1.
Proof.
  intros. repeat split; auto. exists []. rewrite app_nil_r. auto.
Qed.

Lemma quiet_refl (w : World C) : quiet w w.
Proof. apply quiet_same; reflexivity. Qed.

Lemma quiet_trans (w1 w2 w3 : World C) :
  quiet w1 w2 -> quiet w2 w3 -> quiet w1 w3.
Proof.
  intros (Hu & Hs & Hd & Hst & Hn & n1 & Hl & H1)
         (Hu' & Hs' & Hd' & Hst' & Hn' & n2 & Hl' & H2).
  repeat split; try congruence.
  exists (n1 ++ n2). split.
  - rewrite Hl', Hl, app_assoc. reflexivity.
  - rewrite forallb_app, H1, H2. reflexivity.
Qed.

(** One more event that is no write *)
Lemma quiet_emit (ev : Event C) (w : World C) :
  is_write ev = false -> quiet w (emit ev w).
Proof.
  intros H. repeat split; auto. exists [ev]. split; [reflexivity|].
  cbn. rewrite H. reflexivity.
Qed.

Lemma quiet_resolvable cls f (w w1 : World C) :
  quiet w w1 -> resolvable cls f w -> resolvable cls f w1.
Proof.
  intros (Hu & _ & Hd & Hst & _) (Hup & db & r & Hdb & Hm).
  split; [congruence|]. exists db, r. rewrite Hd, Hst. auto.
Qed.

Lemma remote_call_quiet (w w1 : World C) res :
  remote_call w = (res, w1) -> quiet w w1.
Proof.
  unfold remote_call. destruct (faults w) as [|[e|] rest]; intros H;
    injection H as <- <-.
  - apply quiet_refl.
  - eapply quiet_trans; [|apply quiet_emit; reflexivity].
    apply quiet_same; reflexivity.
  - apply quiet_same; reflexivity.
Qed.

(** A query changes nothing; on a connected class it finds what the store
    holds. *)
Lemma query_first_quiet cls f (w w1 : World C) res :
  query_first cls f w = (res, w1) ->
  quiet w w1 /\
  forall found, res = Returns found ->
    match found with
    | Some page =>
        exists db r, database w cls = Some db /\
          first_match db f (store w) = Some r /\ id page = rp_id r
    | None =>
        exists db, database w cls = Some db /\ first_match db f (store w) = None
    end.
Proof.
  unfold query_first. destruct (negb (session w cls)).
  { intros H. injection H as <- <-. split; [apply quiet_refl | discriminate]. }
  destruct (database w cls) as [db|].
  2:{ intros H. injection H as <- <-. split; [apply quiet_refl | discriminate]. }
  unfold mbind. destruct (remote_call w) as [[[]|e|] w0] eqn:Hr;
    pose proof (remote_call_quiet _ _ _ Hr) as H0;
    try (intros H; injection H as <- <-; split; [exact H0 | discriminate]).
  assert (Hst : store w0 = store w) by apply H0.
  rewrite Hst.
  destruct (first_match db f (store w)) as [r|] eqn:Hm; intros H.
  - unfold parse_obj, mret in H. injection H as <- <-. split.
    + eapply quiet_trans; [exact H0|].
      apply quiet_trans with (emit (EvQuery cls f (Some (rp_id r))) w0);
        [apply quiet_emit; reflexivity | apply quiet_same; reflexivity].
    + intros found Hf. injection Hf as <-. exists db, r. auto.
  - injection H as <- <-. split.
    + eapply quiet_trans; [exact H0|]. apply quiet_emit. reflexivity.
    + intros found Hf. injection Hf as <-. exists db. auto.
Qed.

Lemma sleep_before_retry_quiet n (w : World C) :
  quiet w (snd (sleep_before_retry n w)).
Proof.
  unfold sleep_before_retry. destruct (draws w); cbn [snd];
    (eapply quiet_trans; [|apply quiet_emit; reflexivity]);
    apply quiet_same; reflexivity.
Qed.

(** The body of a call for a record that resolves, with the flag off: one
    query, and the handle of the record when the query is answered. *)
Lemma body_quiet (h : Handler C) cls data hints f (w w1 : World C) res :
  retrieve_from_data (classes cls) data = QueryFirst cls f Ret ->
  resolvable cls f w ->
  retrieve_or_create_body classes h cls data hints w = (res, w1) ->
  quiet w w1.
Proof.
  intros Hret (Hup & db & r & Hdb & Hm). unfold retrieve_or_create_body.
  rewrite Hret. cbn [interp]. unfold mbind.
  destruct (query_first cls f w) as [[found|e|] w0] eqn:Hq;
    destruct (query_first_quiet _ _ _ _ _ Hq) as [H0 Hfound];
    try (intros H; injection H as <- <-; exact H0).
  unfold mret. specialize (Hfound found eq_refl).
  destruct found as [page|].
  - assert (Hu0 : update w0 = false) by (destruct H0 as (-> & _); exact Hup).
    rewrite Hu0. intros H. injection H as <- <-. exact H0.
  - destruct Hfound as (db' & Hdb' & Hnone). congruence.
Qed.

Lemma base_quiet (h : Handler C) cls data hints f (w w1 : World C) res :
  retrieve_from_data (classes cls) data = QueryFirst cls f Ret ->
  resolvable cls f w ->
  base_retrieve_or_create C_eq_dec classes h cls data hints w = (res, w1) ->
  quiet w w1.
Proof.
  intros Hret Hres H. revert Hres.
  refine (lru_cache_preserves C_eq_dec
            (fun w w1 => resolvable cls f w -> quiet w w1)
            (@base_cache C) (@set_base_cache C) _ _ _ _ _ _ w res w1 H).
  - intros w' _. apply quiet_refl.
  - intros wa wb wc Hab Hbc Ha. pose proof (Hab Ha) as Hq.
    eapply quiet_trans; [exact Hq|]. apply Hbc.
    eapply quiet_resolvable; eassumption.
  - intros c w' _. apply quiet_same; reflexivity.
  - intros w' res' w1' Hr. unfold retry, retrying in Hr.
    destruct (retry_loop _ _ _ w') as [[r0 w0] st] eqn:Hl. cbn [fst] in Hr.
    injection Hr as <- <-.
    refine (retry_loop_preserves
              (fun w w1 => resolvable cls f w -> quiet w w1)
              _ _ _ _ _ _ _ _ _ _ _ Hl).
    + intros w2 _. apply quiet_refl.
    + intros wa wb wc Hab Hbc Ha. pose proof (Hab Ha) as Hq.
      eapply quiet_trans; [exact Hq|]. apply Hbc.
      eapply quiet_resolvable; eassumption.
    + intros w2 res2 w3 Hb Hres2. eapply body_quiet; eassumption.
    + intros n w2 _. apply sleep_before_retry_quiet.
Qed.

Lemma roc_quiet fuel cls data hints f (w w1 : World C) res :
  retrieve_from_data (classes cls) data = QueryFirst cls f Ret ->
  resolvable cls f w ->
  retrieve_or_create_from_data C_eq_dec classes fuel cls data hints w = (res, w1) ->
  quiet w w1.
Proof.
  intros Hret Hres. destruct fuel as [|fuel].
  { intros H. injection H as <- <-. apply quiet_refl. }
  cbn [retrieve_or_create_from_data]. unfold dispatch.
  destruct (override_hints (classes cls)) as [adjust|].
  2:{ apply base_quiet with (f := f); assumption. }
  intros H. revert Hres.
  refine (lru_cache_preserves C_eq_dec
            (fun w w1 => resolvable cls f w -> quiet w w1)
            (@override_cache C) (@set_override_cache C) _ _ _ _ _ _ w res w1 H).
  - intros w' _. apply quiet_refl.
  - intros wa wb wc Hab Hbc Ha. pose proof (Hab Ha) as Hq.
    eapply quiet_trans; [exact Hq|]. apply Hbc.
    eapply quiet_resolvable; eassumption.
  - intros c w' _. apply quiet_same; reflexivity.
  - intros w' res' w1'. unfold mbind, mlift.
    destruct (adjust _ _ _) as [[icon cover]|e]; cbn.
    + intros Hb Hres'. eapply base_quiet; eassumption.
    + intros Hb _. injection Hb as <- <-. apply quiet_refl.
Qed.

End QuietFacts.

(** ** Handles and the records they denote *)

Section StoredFacts.

Import Notion Workspace.

Context {C : Type} (C_eq_dec : forall a b : C, {a = b} + {a <> b}).
Context (classes : C -> PageClass C).

Lemma quiet_store_wf (w w1 : World C) : quiet w w1 -> store_wf w -> store_wf w1.
Proof.
  intros (_ & _ & _ & Hst & Hn & _). unfold store_wf. rewrite Hst, Hn. tauto.
Qed.

Lemma stored_as_same cls f p (w w1 : World C) :
  database w1 = database w -> store w1 = store w ->
  stored_as cls f p w -> stored_as cls f p w1.
Proof.
  intros Hd Hs (db & r & H). exists db, r. rewrite Hd, Hs. exact H.
Qed.

(** A retried call that returns: the attempt that returned *)
Lemma retry_loop_returns_inv {A} (R : World C -> World C -> Prop) (f : M C A) :
  (forall w, R w w) ->
  (forall w1 w2 w3, R w1 w2 -> R w2 w3 -> R w1 w3) ->
  (forall w res w1, f w = (res, w1) -> R w w1) ->
  (forall n w, R w (snd (sleep_before_retry n w))) ->
  forall left slept w a w1 st,
    retry_loop left slept f w = (Returns a, w1, st) ->
    exists w', R w w' /\ f w' = (Returns a, w1).
Proof.
  intros Hrefl Htrans Hf Hs.
  induction left as [|left IH]; intros slept w a w1 st H; cbn [retry_loop] in H.
  - destruct (f w) as [[a'|e|] w0] eqn:Hfw.
    + injection H as <- <- <-. eauto.
    + destruct (Tenacity.retry_if_exception_type e); discriminate.
    + discriminate.
  - destruct (f w) as [[a'|e|] w0] eqn:Hfw; pose proof (Hf _ _ _ Hfw) as H0.
    + injection H as <- <- <-. eauto.
    + destruct (Tenacity.retry_if_exception_type e); [|discriminate].
      pose proof (Hs (Tenacity.max_attempt_number - S left) w0) as H1.
      destruct (sleep_before_retry _ w0) as [seconds w2]. cbn [snd] in H1.
      destruct (IH _ _ _ _ _ H) as (w' & Hr & Hw').
      exists w'. split; [|exact Hw'].
      eapply Htrans; [exact H0|]. eapply Htrans; eassumption.
    + discriminate.
Qed.

Lemma lru_cache_returns_inv get set (k : Key C) (f : M C Page)
    (w w1 : World C) (p : Page) :
  cache_get C_eq_dec k (get w) = None ->
  lru_cache C_eq_dec get set k f w = (Returns p, w1) ->
  exists w0, f w = (Returns p, w0) /\ w1 = set (cache_set k p (get w0)) w0.
Proof.
  unfold lru_cache. intros ->.
  destruct (f w) as [[v|e|] w0]; intros H; try discriminate.
  injection H as <- <-. eauto.
Qed.

Lemma first_match_in db f (st : list RemotePage) r :
  first_match db f st = Some r ->
  In r st /\ rp_parent r = db /\ matches f r = true.
Proof.
  unfold first_match. intros H. apply find_some in H as [Hin Hb].
  apply andb_true_iff in Hb as [Hp Hm]. apply Nat.eqb_eq in Hp. auto.
Qed.

Lemma in_first_match db f (st : list RemotePage) r :
  In r st -> rp_parent r = db -> matches f r = true ->
  exists r0, first_match db f st = Some r0.
Proof.
  intros Hin Hp Hm. unfold first_match.
  destruct (List.find _ st) as [r0|] eqn:E; [eauto|].
  pose proof (find_none _ _ E r Hin) as Hn. cbn in Hn.
  rewrite Hp, Nat.eqb_refl, Hm in Hn. discriminate.
Qed.

Section OneRecord.

Variables (cls : C) (data : PyVal) (v : PyVal).

Hypothesis Hret :
  retrieve_from_data (classes cls) data = QueryFirst cls (NumberEquals "ID" v) Ret.

Hypothesis Hser :
  forall (h : Handler C) w props w',
    interp h (get_notion_properties (classes cls) data) w = (Returns props, w') ->
    assoc "ID" props = Some (number v).

Lemma matches_serialized (r : RemotePage) props rest :
  assoc "ID" props = Some (number v) ->
  rp_properties r = props ++ rest ->
  matches (NumberEquals "ID" v) r = true.
Proof.
  intros Hid Hp. cbn [matches]. rewrite Hp, (assoc_app_some _ _ _ _ Hid).
  apply pyval_eqb_refl.
Qed.

(** The attempt that returns a handle leaves its page in the store, in
    the database of the class, with the key of the record in "ID". *)
Lemma body_stored (h : Handler C) hints (w w1 : World C) (p : Page) :
  handler_extends h -> store_wf w ->
  retrieve_or_create_body classes h cls data hints w = (Returns p, w1) ->
  stored_as cls (NumberEquals "ID" v) p w1.
Proof.
  intros Hh Hwf. unfold retrieve_or_create_body. rewrite Hret.
  cbn [interp]. unfold mbind.
  destruct (query_first cls _ w) as [[found|e|] w0] eqn:Hq; try discriminate.
  destruct (query_first_quiet _ _ _ _ _ Hq) as [H0 Hfound].
  unfold mret. specialize (Hfound found eq_refl).
  pose proof (quiet_store_wf _ _ H0 Hwf) as Hwf0.
  destruct H0 as (_ & _ & Hd0 & Hst0 & _).
  destruct found as [page|].
  - destruct Hfound as (db & r & Hdb & Hm & Hid).
    apply first_match_in in Hm as (Hin & Hpar & Hmatch).
    destruct (update w0).
    + (* the page is updated *)
      unfold update_from_data. destruct (negb (session w0 cls)); [discriminate|].
      unfold mbind.
      destruct (interp h _ w0) as [[props|e|] w2] eqn:Hp; try discriminate.
      pose proof (interp_extends h _ Hh _ _ _ Hp)
        as (_ & _ & Hd2 & [more Hmore] & _ & Hwf2).
      specialize (Hwf2 Hwf0). pose proof (Hser _ _ _ _ Hp) as HID.
      unfold pages_update, mbind.
      destruct (remote_call w2) as [[[]|e|] w3] eqn:Hr; try discriminate.
      destruct (remote_call_quiet _ _ _ Hr) as (_ & _ & Hd3 & Hst3 & _).
      destruct (store_update _ _ _ _ (store w3)) as [[r' st]|] eqn:Hu;
        [|discriminate].
      unfold parse_obj. intros H. injection H as <- <-.
      destruct (store_update_pages _ _ _ _ _ _ _ Hu)
        as (_ & _ & Hin' & Hid' & old & Hold & Holdid & Hpar' & Hprops & Huniq).
      exists db, r'. cbn -[matches In].
      split; [rewrite Hd3, Hd2, Hd0; exact Hdb|].
      split; [exact Hin'|]. split; [reflexivity|]. split.
      * (* the record updated is the record found *)
        assert (Hr2 : exists r2, In r2 (store w3) /\ rp_id r2 = rp_id r /\
                                 rp_parent r2 = rp_parent r).
        { assert (Hi : In (rp_id r, rp_parent r) (pages_of (store w2))).
          { rewrite Hmore. apply in_or_app. left. rewrite Hst0.
            unfold pages_of. apply in_map_iff. exists r. auto. }
          unfold pages_of in Hi. apply in_map_iff in Hi as (r2 & Heq & Hin2).
          injection Heq as E1 E2. exists r2. rewrite Hst3. auto. }
        destruct Hr2 as (r2 & Hin2 & Hid2 & Hpar2).
        assert (r2 = old).
        { apply Huniq; [exact Hin2 | congruence |].
          rewrite Hst3. apply Hwf2. }
        subst r2. congruence.
      * eapply matches_serialized; eassumption.
    + intros H. injection H as <- <-. exists db, r. rewrite Hd0, Hst0. auto.
  - (* the page is created *)
    unfold create_from_data. destruct (negb (session w0 cls)); [discriminate|].
    destruct (database w0 cls) as [db|] eqn:Hdb; [|discriminate].
    unfold mbind.
    destruct (interp h _ w0) as [[props|e|] w2] eqn:Hp; try discriminate.
    pose proof (interp_extends h _ Hh _ _ _ Hp) as (_ & _ & Hd2 & _).
    pose proof (Hser _ _ _ _ Hp) as HID.
    unfold pages_create, mbind.
    destruct (remote_call w2) as [[[]|e|] w3] eqn:Hr; try discriminate.
    destruct (remote_call_quiet _ _ _ Hr) as (_ & _ & Hd3 & _).
    cbv beta iota zeta. unfold parse_obj. intros H. injection H as <- <-.
    exists db, (mkRemotePage (next_page_id w3) db props
                  (external (icon_url_of hints)) (external (cover_url_of hints))).
    cbn -[matches In]. split; [rewrite Hd3, Hd2; exact Hdb|].
    split; [apply in_or_app; right; left; reflexivity|].
    split; [reflexivity|]. split; [reflexivity|].
    apply (matches_serialized _ props []); [exact HID|]. cbn.
    rewrite app_nil_r. reflexivity.
Qed.

Lemma base_stored (h : Handler C) hints (w w1 : World C) (p : Page) :
  handler_extends h -> store_wf w -> base_cache w = [] ->
  base_retrieve_or_create C_eq_dec classes h cls data hints w = (Returns p, w1) ->
  stored_as cls (NumberEquals "ID" v) p w1.
Proof.
  intros Hh Hwf Hc H. unfold base_retrieve_or_create in H.
  apply lru_cache_returns_inv in H as (w0 & H & ->); [|rewrite Hc; reflexivity].
  unfold retry, retrying in H.
  destruct (retry_loop _ _ _ w) as [[r0 w0'] st] eqn:Hl. cbn [fst] in H.
  injection H as -> ->.
  destruct (retry_loop_returns_inv (@extends C) _ (@extends_refl C)
              (@extends_trans C)
              (fun w res w1 => body_extends classes h cls data hints w w1 res Hh)
              (@sleep_before_retry_extends C) _ _ _ _ _ _ Hl)
    as (w' & Hext & Hb).
  apply (stored_as_same _ _ _ w0); [reflexivity | reflexivity |].
  eapply body_stored; [exact Hh | | exact Hb].
  apply Hext. exact Hwf.
Qed.

Lemma roc_stored fuel hints (w w1 : World C) (p : Page) :
  store_wf w -> base_cache w = [] -> override_cache w = [] ->
  retrieve_or_create_from_data C_eq_dec classes fuel cls data hints w
    = (Returns p, w1) ->
  stored_as cls (NumberEquals "ID" v) p w1.
Proof.
  intros Hwf Hb Ho. destruct fuel as [|fuel]; [discriminate|].
  cbn [retrieve_or_create_from_data]. unfold dispatch.
  pose proof (roc_extends C_eq_dec classes fuel) as Hh.
  destruct (override_hints (classes cls)) as [adjust|].
  2:{ apply base_stored; assumption. }
  intros H.
  apply lru_cache_returns_inv in H as (w0 & H & ->); [|rewrite Ho; reflexivity].
  unfold mbind, mlift in H.
  destruct (adjust _ _ _) as [[icon cover]|e]; cbn in H; [|discriminate].
  apply (stored_as_same _ _ _ w0); [reflexivity | reflexivity |].
  eapply base_stored; eassumption.
Qed.

End OneRecord.

End StoredFacts.

(** ** The key of a record, in the resolver and in the serializer *)

Section KeyFacts.

Import Notion Workspace PageCode.
Local Open Scope string_scope.
Local Open Scope list_scope.

Variable env : Builtins.

(** With its key, a record is resolved by one query on "ID". *)
Lemma numeric_retrieve (cls : Cls) (k : string) (data v : PyVal) :
  natural_key cls = Some k -> getattr data k = Ok v ->
  retrieve_from_data (Main.classes env cls) data
    = QueryFirst cls (NumberEquals "ID" v) Ret.
Proof.
  intros Hk Hv. pose proof (getattr_hasattr _ _ _ Hv) as Hh.
  destruct cls; try discriminate; injection Hk as <-;
    cbn [Main.classes retrieve_from_data];
    unfold Igdb.IGDBNotionPage_retrieve_from_data,
      Hltb.HLTBNotionPage_retrieve_from_data,
      SteamSpy.SteamSpyNotionPage_retrieve_from_data;
    rewrite Hh, Hv; reflexivity.
Qed.

Lemma interp_number_path (h : Handler Cls) (data : PyVal) (attr : string)
    (w w' : World Cls) (pv : PropValue) :
  interp h (number_ (path data [attr])) w = (Returns pv, w') ->
  exists v, getattr data attr = Ok v /\ pv = number v.
Proof.
  unfold number_. intros H.
  apply interp_pbind_returns in H as (v & w0 & Hp & H).
  apply (interp_path1 h) in Hp as [Hp _].
  cbn [interp] in H. unfold mret in H. injection H as <- _. eauto.
Qed.

Ltac serialized_id H :=
  match type of H with
  | interp _ (?f) _ = _ =>
      let hd := head_of f in unfold hd in H
  end;
  lazymatch type of H with
  | interp _ (dict_literal _) _ = _ => idtac
  | interp _ (pbind _ _) _ = _ =>
      apply interp_pbind_returns in H as (? & ? & _ & H)
  end;
  let v := fresh "v" in
  let Hv := fresh "Hv" in
  let He := fresh "He" in
  destruct (interp_dict_literal_assoc _ _ _ _ _ H "ID" _ eq_refl)
    as (v & ? & ? & Hv & He);
  apply interp_number_path in He as (? & ? & ->);
  rewrite Hv; congruence.

(** The serializer of a record type puts the key of the record in "ID". *)
Lemma id_serialized (cls : Cls) (k : string) (data v : PyVal)
    (h : Handler Cls) (w w' : World Cls) (props : Properties) :
  natural_key cls = Some k -> getattr data k = Ok v ->
  interp h (get_notion_properties (Main.classes env cls) data) w
    = (Returns props, w') ->
  assoc "ID" props = Some (number v).
Proof.
  intros Hk Hv H.
  destruct cls; try discriminate; injection Hk as <-;
    cbn [Main.classes get_notion_properties] in H; serialized_id H.
Qed.

End KeyFacts.

Section WorkspaceProperties.

Import Notion Workspace.
Local Open Scope string_scope.
Local Open Scope list_scope.

(** X1.  Whatever a call of [retrieve_or_create_from_data] does and however
    it ends, it leaves the update flag and the connections of the classes
    as they were, every page of the store in its place and in its
    database, with further pages only after them, and unique page ids
    unique. *)
Theorem calls_keep_the_pages (env : Builtins) (fuel : nat) (cls : Cls)
    (data : PyVal) (hints : Hints) (w : World Cls) :
  extends w (snd (Main.retrieve_or_create_from_data env fuel cls data hints w)).
Proof.
  destruct (Main.retrieve_or_create_from_data env fuel cls data hints w)
    as [res w1] eqn:H.
  exact (roc_extends Cls_eq_dec (Main.classes env) fuel _ _ _ _ _ _ H).
Qed.

(** X2.  A record with a numeric key whose page is in the store is not
    written again while the update flag is off: whatever the hints, the
    caches and the faults of the store, the call leaves the store as it
    is, and the events it adds to the log are no creations and no
    updates. *)
Theorem stored_record_is_not_rewritten (env : Builtins) (fuel : nat) (cls : Cls)
    (k : string) (data v : PyVal) (hints : Hints) (w : World Cls) :
  natural_key cls = Some k -> getattr data k = Ok v ->
  resolvable cls (NumberEquals "ID" v) w ->
  quiet w (snd (Main.retrieve_or_create_from_data env fuel cls data hints w)).
Proof.
  intros Hk Hv Hres.
  destruct (Main.retrieve_or_create_from_data env fuel cls data hints w)
    as [res w1] eqn:H.
  exact (roc_quiet Cls_eq_dec (Main.classes env) fuel cls data hints _ w w1 res
           (numeric_retrieve env cls k data v Hk Hv) Hres H).
Qed.

(** Genre 7 has its page: a call on a new run only queries. *)
Lemma stored_record_is_not_rewritten_witness :
  quiet (Samples.genre_7_stored false)
    (snd (Main.retrieve_or_create_from_data Samples.env 8 Genre (Samples.genre 7) []
            (Samples.genre_7_stored false))).
Proof.
  apply (stored_record_is_not_rewritten Samples.env 8 Genre "id" (Samples.genre 7)
           (PyInt 7)).
  - reflexivity.
  - reflexivity.
  - split; [reflexivity|]. eexists. eexists. split; vm_compute; reflexivity.
Defined.

(** X3.  On a run that starts with empty caches and unique page ids, the
    handle that a call returns for a record with a numeric key denotes a
    page of the store: a record of the database of the class whose "ID"
    is the key of the record, whether the call found, updated or created
    it. *)
Theorem returned_handle_is_stored (env : Builtins) (fuel : nat) (cls : Cls)
    (k : string) (data v : PyVal) (hints : Hints) (w w1 : World Cls) (p : Page) :
  natural_key cls = Some k -> getattr data k = Ok v ->
  store_wf w -> base_cache w = [] -> override_cache w = [] ->
  Main.retrieve_or_create_from_data env fuel cls data hints w = (Returns p, w1) ->
  stored_as cls (NumberEquals "ID" v) p w1.
Proof.
  intros Hk Hv Hwf Hb Ho H.
  apply (roc_stored Cls_eq_dec (Main.classes env) cls data v
           (numeric_retrieve env cls k data v Hk Hv)
           (fun h w props w' => id_serialized env cls k data v h w w' props Hk Hv)
           fuel hints w w1 p Hwf Hb Ho H).
Qed.

(** Game 42 on an empty workspace: the page created is in the store. *)
Lemma returned_handle_is_stored_witness :
  exists p w1,
    Main.retrieve_or_create_from_data Samples.env 8 Game Samples.game_42 []
      (Samples.connected false) = (Returns p, w1) /\
    stored_as Game (NumberEquals "ID" (PyInt 42)) p w1.
Proof.
  eexists. eexists. split; [vm_compute; reflexivity|].
  apply (returned_handle_is_stored Samples.env 8 Game "id" Samples.game_42
           (PyInt 42) [] (Samples.connected false)).
  - reflexivity.
  - reflexivity.
  - split; [constructor | constructor].
  - reflexivity.
  - reflexivity.
  - vm_compute. reflexivity.
Defined.

(** X4.  Running again writes nothing: once a call for a record with a
    numeric key has returned on a run that started with empty caches, any
    later call for the record over the store it left, with the update
    flag off (a new run, other hints), leaves the store as it is and adds
    no creation and no update to the log. *)
Theorem second_run_writes_nothing (env : Builtins) (fuel : nat) (cls : Cls)
    (k : string) (data v : PyVal) (hints : Hints) (w w1 : World Cls) (p : Page) :
  natural_key cls = Some k -> getattr data k = Ok v ->
  store_wf w -> base_cache w = [] -> override_cache w = [] ->
  Main.retrieve_or_create_from_data env fuel cls data hints w = (Returns p, w1) ->
  forall (fuel' : nat) (hints' : Hints) (w2 : World Cls),
    store w2 = store w1 -> database w2 = database w1 -> update w2 = false ->
    quiet w2 (snd (Main.retrieve_or_create_from_data env fuel' cls data hints' w2)).
Proof.
  intros Hk Hv Hwf Hb Ho H fuel' hints' w2 Hst Hd Hu.
  pose proof (roc_stored Cls_eq_dec (Main.classes env) cls data v
                (numeric_retrieve env cls k data v Hk Hv)
                (fun h w props w' => id_serialized env cls k data v h w w' props Hk Hv)
                fuel hints w w1 p Hwf Hb Ho H)
    as (db & r & Hdb & Hin & _ & Hpar & Hm).
  destruct (in_first_match db _ _ r Hin Hpar Hm) as [r0 Hr0].
  destruct (Main.retrieve_or_create_from_data env fuel' cls data hints' w2)
    as [res w3] eqn:H2.
  refine (roc_quiet Cls_eq_dec (Main.classes env) fuel' cls data hints' _ w2 w3 res
            (numeric_retrieve env cls k data v Hk Hv) _ H2).
  split; [exact Hu|]. exists db, r0. rewrite Hd, Hst. auto.
Qed.

(** Game 42, created on an empty workspace, and a new run with a hint. *)
Lemma second_run_writes_nothing_witness :
  exists w1,
    w1 = snd (Main.retrieve_or_create_from_data Samples.env 8 Game
                Samples.game_42 [] (Samples.connected false)) /\
    quiet (Samples.new_run w1)
      (snd (Main.retrieve_or_create_from_data Samples.env 8 Game Samples.game_42
              [PyStr (py "https://example.com/icon.png")] (Samples.new_run w1))).
Proof.
  eexists. split; [reflexivity|].
  eapply (second_run_writes_nothing Samples.env 8 Game "id" Samples.game_42
            (PyInt 42) [] (Samples.connected false)).
  - reflexivity.
  - reflexivity.
  - split; [constructor | constructor].
  - reflexivity.
  - reflexivity.
  - vm_compute. reflexivity.
  - reflexivity.
  - reflexivity.
  - reflexivity.
Defined.

End WorkspaceProperties.

(** ** The retry policy *)

Section RetryProperties.

Import Notion Workspace.
Local Open Scope list_scope.

Context {C : Type}.

(** However a retried call ends, the waits it slept are within the
    bounds of their attempts, and one fewer than the attempts. *)
Lemma retry_loop_waits {A} (f : M C A) :
  forall left slept w res w1 st,
    left < Tenacity.max_attempt_number ->
    List.length slept = Tenacity.max_attempt_number - 1 - left ->
    waits_bounded slept ->
    retry_loop left slept f w = (res, w1, st) ->
    waits_bounded (waits st) /\
    attempt_number st = S (List.length (waits st)) /\
    attempt_number st <= Tenacity.max_attempt_number.
Proof.
  assert (Hend : forall left slept,
             left < Tenacity.max_attempt_number ->
             List.length slept = Tenacity.max_attempt_number - 1 - left ->
             waits_bounded slept ->
             waits_bounded (waits (mkRetryState (Tenacity.max_attempt_number - left) slept)) /\
             attempt_number (mkRetryState (Tenacity.max_attempt_number - left) slept)
               = S (List.length (waits (mkRetryState (Tenacity.max_attempt_number - left) slept))) /\
             attempt_number (mkRetryState (Tenacity.max_attempt_number - left) slept)
               <= Tenacity.max_attempt_number).
  { intros left slept Hlt Hlen Hb. cbn [waits attempt_number].
    unfold Tenacity.max_attempt_number in *. split; [exact Hb | split; lia]. }
  induction left as [|left IH]; intros slept w res w1 st Hlt Hlen Hb H;
    cbn [retry_loop] in H.
  - destruct (f w) as [[a|e|] w0].
    + injection H as <- <- <-. exact (Hend _ slept Hlt Hlen Hb).
    + destruct (Tenacity.retry_if_exception_type e); injection H as <- <- <-;
        exact (Hend _ slept Hlt Hlen Hb).
    + injection H as <- <- <-. exact (Hend _ slept Hlt Hlen Hb).
  - destruct (f w) as [[a|e|] w0].
    + injection H as <- <- <-. exact (Hend _ slept Hlt Hlen Hb).
    + destruct (Tenacity.retry_if_exception_type e).
      2:{ injection H as <- <- <-. exact (Hend _ slept Hlt Hlen Hb). }
      destruct (sleep_before_retry (Tenacity.max_attempt_number - S left) w0)
        as [seconds w2] eqn:Es.
      refine (IH _ _ _ _ _ _ _ _ H).
      * lia.
      * rewrite length_app, Hlen. cbn [List.length].
        unfold Tenacity.max_attempt_number in *. lia.
      * intros k q Hk.
        destruct (Nat.lt_ge_cases k (List.length slept)) as [Hin|Hout].
        -- rewrite nth_error_app1 in Hk by exact Hin. apply (Hb k q Hk).
        -- rewrite nth_error_app2 in Hk by exact Hout.
           destruct (k - List.length slept) as [|j] eqn:Ek.
           2:{ destruct j; discriminate. }
           simpl in Hk. injection Hk as <-.
           destruct (sleep_before_retry_wait (Tenacity.max_attempt_number - S left) w0)
             as [d Hd].
           rewrite Es in Hd. cbn [fst] in Hd. subst seconds.
           assert (Tenacity.max_attempt_number - S left = S k) as ->.
           { unfold Tenacity.max_attempt_number in *. lia. }
           apply wait_random_exponential_range.
    + injection H as <- <- <-. exact (Hend _ slept Hlt Hlen Hb).
Qed.

(** The waits of attempts [first], [first + 1], ... are at most the
    exponential bounds of these attempts together. *)
Lemma total_wait_le_bounds (ws : list Q) :
  forall first,
    (forall k q, nth_error ws k = Some q ->
       (q <= Tenacity.wait_exponential (first + k))%Q) ->
    (total_wait ws
     <= total_wait (map Tenacity.wait_exponential (seq first (List.length ws))))%Q.
Proof.
  induction ws as [|q ws IH]; intros first Hb.
  - apply Qle_refl.
  - cbn [total_wait fold_right List.length seq map].
    apply Qplus_le_compat.
    + specialize (Hb 0 q eq_refl). rewrite Nat.add_0_r in Hb. exact Hb.
    + apply IH. intros k q' Hk. specialize (Hb (S k) q' Hk).
      rewrite Nat.add_succ_r in Hb. exact Hb.
Qed.

Lemma total_wait_bound (ws : list Q) :
  waits_bounded ws -> List.length ws <= 9 ->
  (total_wait ws <= 7665 # 4)%Q.
Proof.
  intros Hb Hlen.
  eapply Qle_trans.
  - apply (total_wait_le_bounds ws 1). intros k q Hk. apply (Hb k q Hk).
  - revert Hlen. generalize (List.length ws). clear. intros n Hn.
    do 10 (destruct n as [|n]; [vm_compute; discriminate|]). lia.
Qed.

End RetryProperties.

Section FaultFacts.

Import Notion Workspace.
Local Open Scope list_scope.

Context {C : Type} (C_eq_dec : forall a b : C, {a = b} + {a <> b}).
Context (classes : C -> PageClass C).

Variables (h : Handler C) (cls : C) (data : PyVal) (hints : Hints) (f : Filter).

Hypothesis Hret : retrieve_from_data (classes cls) data = QueryFirst cls f Ret.

(** An attempt whose query the store refuses *)
Lemma body_faulted (w : World C) (db : DbId) (e : Exn) (rest : list (option Exn)) :
  session w cls = true -> database w cls = Some db ->
  faults w = Some e :: rest ->
  retrieve_or_create_body classes h cls data hints w
    = (Raises e, emit (EvFault C e) (set_faults rest w)).
Proof.
  intros Hs Hd Hf. unfold retrieve_or_create_body. rewrite Hret.
  cbn [interp]. unfold mbind, query_first. rewrite Hs, Hd. cbn [negb].
  unfold mbind, remote_call. rewrite Hf. reflexivity.
Qed.

(** An attempt whose query the store answers with the record *)
Lemma body_found (w : World C) (db : DbId) (r : RemotePage) :
  session w cls = true -> database w cls = Some db -> update w = false ->
  hd None (faults w) = None ->
  first_match db f (store w) = Some r ->
  exists p w1,
    retrieve_or_create_body classes h cls data hints w = (Returns p, w1) /\
    id p = rp_id r /\ properties p = rp_properties r /\
    quiet w w1 /\ faults w1 = tl (faults w).
Proof.
  intros Hs Hd Hu Hf Hm.
  destruct (retrieve_or_create_body classes h cls data hints w) as [res w1] eqn:Hb.
  pose proof (body_quiet classes h cls data hints f w w1 res Hret
                (conj Hu (ex_intro _ db (ex_intro _ r (conj Hd Hm)))) Hb) as Hq.
  unfold retrieve_or_create_body in Hb. rewrite Hret in Hb.
  unfold mbind in Hb.
  destruct (interp_query_first h cls f w db Hs Hd Hf) as (w' & Hi & _ & _ & Hfa).
  rewrite Hi, Hm in Hb. cbn [option_map] in Hb.
  assert (Hu' : update w' = false).
  { destruct (interp h (QueryFirst cls f Ret) w) as [res' w''] eqn:E.
    cbn [interp] in E. unfold mbind in E.
    destruct (query_first cls f w) as [[x|x|] w3] eqn:Eq;
      destruct (query_first_quiet _ _ _ _ _ Eq) as [(Hu3 & _) _];
      unfold mret in E; injection E as <- <-; injection Hi as _ <-; congruence. }
  rewrite Hu' in Hb. injection Hb as <- <-.
  eexists. eexists. split; [reflexivity|].
  split; [reflexivity|]. split; [reflexivity|]. split; [exact Hq | exact Hfa].
Qed.

(** Transient faults before the store answers: one attempt and one sleep
    for each, then the attempt that returns. *)
Lemma retry_loop_absorbs (e : Exn) (db : DbId) (r : RemotePage)
    (rest : list (option Exn)) :
  Tenacity.retry_if_exception_type e = true ->
  hd None rest = None ->
  forall k left slept w,
    k <= left ->
    session w cls = true -> database w cls = Some db -> update w = false ->
    first_match db f (store w) = Some r ->
    faults w = repeat (Some e) k ++ rest ->
    exists p w1 ws,
      retry_loop left slept (retrieve_or_create_body classes h cls data hints) w
        = (Returns p, w1,
           mkRetryState (Tenacity.max_attempt_number - (left - k)) (slept ++ ws)) /\
      List.length ws = k /\
      id p = rp_id r /\ properties p = rp_properties r /\
      quiet w w1 /\ faults w1 = tl rest.
Proof.
  intros He Hrest. induction k as [|k IH]; intros left slept w Hk Hs Hd Hu Hm Hf.
  - cbn [repeat app] in Hf.
    destruct (body_found w db r Hs Hd Hu) as (p & w1 & Hb & Hid & Hp & Hq & Hfa);
      [rewrite Hf; exact Hrest | exact Hm |].
    exists p, w1, []. rewrite (retry_loop_returns _ _ _ _ _ _ Hb).
    rewrite app_nil_r, Nat.sub_0_r.
    split; [reflexivity|]. split; [reflexivity|]. split; [exact Hid|].
    split; [exact Hp|]. split; [exact Hq|]. rewrite Hfa, Hf. reflexivity.
  - destruct left as [|left]; [lia|].
    cbn [repeat app] in Hf.
    pose proof (body_faulted w db e _ Hs Hd Hf) as Hb.
    cbn [retry_loop]. rewrite Hb, He.
    set (w0 := emit (EvFault C e) (set_faults (repeat (Some e) k ++ rest) w)).
    pose proof (sleep_before_retry_quiet (Tenacity.max_attempt_number - S left) w0)
      as Hq2.
    assert (Hfs : faults (snd (sleep_before_retry
                                 (Tenacity.max_attempt_number - S left) w0))
                  = repeat (Some e) k ++ rest).
    { unfold sleep_before_retry. destruct (draws w0); reflexivity. }
    destruct (sleep_before_retry (Tenacity.max_attempt_number - S left) w0)
      as [seconds w2].
    cbn [snd] in Hq2, Hfs.
    assert (Hq0 : quiet w w0).
    { apply quiet_trans with (set_faults (repeat (Some e) k ++ rest) w);
        [apply quiet_same; reflexivity | apply quiet_emit; reflexivity]. }
    pose proof (quiet_trans _ _ _ Hq0 Hq2) as Hq.
    destruct Hq as (Hu2 & Hs2 & Hd2 & Hst2 & Hn2 & Hlog).
    destruct (IH left (slept ++ [seconds]) w2) as (p & w1 & ws & Hl & Hlen & Hid & Hp & Hq1 & Hfa).
    + lia.
    + rewrite Hs2. exact Hs.
    + rewrite Hd2. exact Hd.
    + congruence.
    + rewrite Hst2. exact Hm.
    + exact Hfs.
    + exists p, w1, (seconds :: ws). rewrite Hl, <- app_assoc.
      cbn [List.length app].
      split; [reflexivity|]. split; [congruence|]. split; [exact Hid|].
      split; [exact Hp|]. split; [|exact Hfa].
      apply quiet_trans with w2; [|exact Hq1].
      repeat split; auto.
Qed.

End FaultFacts.

Section RetryClaims.

Import Notion Workspace.
Local Open Scope string_scope.
Local Open Scope list_scope.

(** X5.  However a call under the retry policy ends, it was tried at most
    10 times, it slept once between two attempts, each wait within the
    exponential bound of its attempt and within 960, and all its waits
    together are at most 1916.25 time units. *)
Theorem retried_call_sleeps_at_most {C A : Type} (f : M C A) (w : World C) :
  attempt_number (snd (retrying f w)) <= 10 /\
  attempt_number (snd (retrying f w)) = S (List.length (waits (snd (retrying f w)))) /\
  waits_bounded (waits (snd (retrying f w))) /\
  (total_wait (waits (snd (retrying f w))) <= 7665 # 4)%Q.
Proof.
  unfold retrying.
  destruct (retry_loop (Tenacity.max_attempt_number - 1) [] f w) as [[res w1] st] eqn:H.
  cbn [snd].
  destruct (retry_loop_waits f (Tenacity.max_attempt_number - 1) [] w res w1 st
              ltac:(unfold Tenacity.max_attempt_number; lia)
              eq_refl ltac:(intros [|k] q Hk; discriminate) H)
    as (Hb & Hn & Hle).
  unfold Tenacity.max_attempt_number in Hle.
  split; [exact Hle|]. split; [exact Hn|]. split; [exact Hb|].
  apply total_wait_bound; [exact Hb | lia].
Qed.

(** X6.  Up to 9 transient faults of the store in a row are absorbed: for
    a record with a numeric key whose page is in the store, with the
    update flag off, the call under the retry policy makes one attempt
    and one sleep for each fault and returns, at the next attempt, a
    handle of the stored page; it has written nothing. *)
Theorem transient_faults_are_absorbed (env : Builtins) (h : Handler Cls)
    (cls : Cls) (key : string) (data v : PyVal) (hints : Hints) (db : DbId)
    (r : RemotePage) (e : Exn) (k : nat) (rest : list (option Exn))
    (w : World Cls) :
  natural_key cls = Some key -> getattr data key = Ok v ->
  session w cls = true -> database w cls = Some db -> update w = false ->
  first_match db (NumberEquals "ID" v) (store w) = Some r ->
  Tenacity.retry_if_exception_type e = true -> k <= 9 ->
  faults w = repeat (Some e) k ++ rest -> hd None rest = None ->
  exists p w1 ws,
    retrying (retrieve_or_create_body (Main.classes env) h cls data hints) w
      = (Returns p, w1, mkRetryState (S k) ws) /\
    List.length ws = k /\ id p = rp_id r /\ properties p = rp_properties r /\
    quiet w w1.
Proof.
  intros Hk Hv Hs Hd Hu Hm He Hle Hf Hrest.
  destruct (retry_loop_absorbs (Main.classes env) h cls data hints _
              (numeric_retrieve env cls key data v Hk Hv) e db r rest He Hrest
              k (Tenacity.max_attempt_number - 1) [] w
              ltac:(unfold Tenacity.max_attempt_number; lia) Hs Hd Hu Hm Hf)
    as (p & w1 & ws & Hl & Hlen & Hid & Hp & Hq & _).
  exists p, w1, ws. unfold retrying. rewrite Hl.
  replace (Tenacity.max_attempt_number - (Tenacity.max_attempt_number - 1 - k))
    with (S k) by (unfold Tenacity.max_attempt_number; lia).
  split; [reflexivity|]. split; [exact Hlen|]. split; [exact Hid|].
  split; [exact Hp | exact Hq].
Qed.

(** Genre 7 is stored; the store fails three times, then answers. *)
Lemma transient_faults_are_absorbed_witness :
  exists p w1 ws,
    retrying
      (retrieve_or_create_body (Main.classes Samples.env)
         (Main.retrieve_or_create_from_data Samples.env 7) Genre
         (Samples.genre 7) [])
      (set_faults (repeat (Some (HTTPResponseError 502)) 3)
         (Samples.genre_7_stored false))
    = (Returns p, w1, mkRetryState 4 ws) /\
    List.length ws = 3.
Proof.
  destruct (first_match (Samples.db Genre) (NumberEquals "ID" (PyInt 7))
              (store (set_faults (repeat (Some (HTTPResponseError 502)) 3)
                        (Samples.genre_7_stored false)))) as [r|] eqn:Hm.
  2:{ vm_compute in Hm. discriminate. }
  destruct (transient_faults_are_absorbed Samples.env
              (Main.retrieve_or_create_from_data Samples.env 7)
              Genre "id" (Samples.genre 7) (PyInt 7) [] (Samples.db Genre)
              r (HTTPResponseError 502) 3 []
              (set_faults (repeat (Some (HTTPResponseError 502)) 3)
                 (Samples.genre_7_stored false))
              eq_refl eq_refl eq_refl eq_refl eq_refl Hm eq_refl
              ltac:(lia) eq_refl eq_refl)
    as (p & w1 & ws & Hl & Hlen & _).
  exists p, w1, ws. split; [exact Hl | exact Hlen].
Defined.

End RetryClaims.

(* ===================================================================== *)
(** * What the run writes, against the schemas *)
(* ===================================================================== *)

Section ConformFacts.

Import Notion Workspace.

Context {C : Type} (C_eq_dec : forall a b : C, {a = b} + {a <> b}).
Context (classes : C -> PageClass C).

Variable inv : World C -> Prop.
Variable Gw : World C -> C -> PageId -> Prop.
Variable Good : (C -> PageId -> Prop) -> C -> Properties -> Prop.

Hypothesis Gw_extends :
  forall w w1 c i, extends w w1 -> Gw w c i -> Gw w1 c i.
Hypothesis Gw_stored :
  forall w c db i,
    database w c = Some db -> In (i, db) (pages_of (store w)) -> Gw w c i.
Hypothesis inv_extends :
  forall w w1, extends w w1 -> same_caches w w1 -> inv w -> inv w1.
Hypothesis inv_cached :
  forall w k p, inv w ->
    cache_get C_eq_dec k (base_cache w) = Some p \/
    cache_get C_eq_dec k (override_cache w) = Some p ->
    Gw w (fst (fst k)) (id p).
Hypothesis inv_base :
  forall w k p, inv w -> Gw w (fst (fst k)) (id p) ->
    inv (set_base_cache (cache_set k p (base_cache w)) w).
Hypothesis inv_override :
  forall w k p, inv w -> Gw w (fst (fst k)) (id p) ->
    inv (set_override_cache (cache_set k p (override_cache w)) w).
Hypothesis Good_mono :
  forall (G G' : C -> PageId -> Prop) c props,
    (forall c i, G c i -> G' c i) -> Good G c props -> Good G' c props.
Hypothesis Hprops :
  forall G cls data,
    ends_with G (Good G cls) (get_notion_properties (classes cls) data).
Hypothesis Hretr :
  forall G cls data,
    ends_with G (fun found => forall page, found = Some page -> G cls (id page))
      (retrieve_from_data (classes cls) data).

Local Abbreviation conforms := (conforms Gw Good).
Local Abbreviation handler_sound := (handler_sound inv Gw Good).
Local Abbreviation sound_at := (sound_at inv Gw Good).

Lemma conforms_same (w w1 : World C) : log w1 = log w -> conforms w w1.
Proof.
  intros H. exists []. split; [unfold added; rewrite app_nil_r; exact H|].
  intros c props [].
Qed.

Lemma conforms_trans (w1 w2 w3 : World C) :
  extends w2 w3 -> conforms w1 w2 -> conforms w2 w3 -> conforms w1 w3.
Proof.
  intros He (n1 & H1 & S1) (n2 & H2 & S2). exists (n1 ++ n2). split.
  - unfold added in *. rewrite H2, H1, app_assoc. reflexivity.
  - intros c props Hin. rewrite map_app in Hin. apply in_app_or in Hin as [Hin|Hin].
    + eapply Good_mono; [|exact (S1 _ _ Hin)].
      intros c' i. apply Gw_extends. exact He.
    + exact (S2 _ _ Hin).
Qed.

Lemma quiet_is_extends (w w1 : World C) : quiet w w1 -> extends w w1.
Proof.
  intros (Hu & Hs & Hd & Hst & Hn & _). apply extends_same; assumption.
Qed.

Lemma quiet_conforms (w w1 : World C) : quiet w w1 -> conforms w w1.
Proof.
  intros (_ & _ & _ & _ & _ & new & Hl & Hq). exists new. split; [exact Hl|].
  intros c props Hin. apply in_map_iff in Hin as (ev & Hev & Hin).
  rewrite forallb_forall in Hq. specialize (Hq _ Hin).
  destruct ev; cbn in Hev, Hq; discriminate.
Qed.

Lemma same_caches_refl (w : World C) : same_caches w w.
Proof. split; reflexivity. Qed.

Lemma same_caches_trans (w1 w2 w3 : World C) :
  same_caches w1 w2 -> same_caches w2 w3 -> same_caches w1 w3.
Proof. intros [A B] [A' B']. split; congruence. Qed.

Lemma remote_call_caches (w w1 : World C) res :
  remote_call w = (res, w1) -> same_caches w w1.
Proof.
  unfold remote_call. destruct (faults w) as [|[e|] rest];
    intros H; injection H as <- <-; split; reflexivity.
Qed.

Lemma query_first_caches cls f (w w1 : World C) res :
  query_first cls f w = (res, w1) -> same_caches w w1.
Proof.
  unfold query_first. destruct (negb (session w cls)).
  { intros H. injection H as <- <-. apply same_caches_refl. }
  destruct (database w cls) as [db|].
  2:{ intros H. injection H as <- <-. apply same_caches_refl. }
  unfold mbind. destruct (remote_call w) as [[[]|e|] w0] eqn:Hr;
    pose proof (remote_call_caches _ _ _ Hr) as H0.
  - destruct (first_match db f (store w0)); cbn;
      intros H; injection H as <- <-; exact H0.
  - intros H. injection H as <- <-. exact H0.
  - intros H. injection H as <- <-. exact H0.
Qed.

Lemma sleep_before_retry_caches n (w : World C) :
  same_caches w (snd (sleep_before_retry n w)).
Proof.
  unfold sleep_before_retry. destruct (draws w); split; reflexivity.
Qed.

(** A page created: the one write is the payload, and the record is in
    the database asked for. *)
Lemma pages_create_spec cls db props icon cover (w w1 : World C) res :
  pages_create cls db props icon cover w = (res, w1) ->
  same_caches w w1 /\
  (exists new, added w w1 new /\
     forall c ps, In (Some (c, ps)) (map (@write_of C) new) -> c = cls /\ ps = props) /\
  forall r, res = Returns r -> In (rp_id r, db) (pages_of (store w1)).
Proof.
  unfold pages_create, mbind.
  destruct (remote_call w) as [[[]|e|] w0] eqn:Hr;
    pose proof (remote_call_caches _ _ _ Hr) as Hc;
    destruct (remote_call_quiet _ _ _ Hr) as (_ & _ & _ & _ & _ & n0 & Hl0 & Hq0).
  - intros H. injection H as <- <-. split; [exact Hc|]. split.
    + exists (n0 ++ [EvCreate cls (next_page_id w0) props]). split.
      * unfold added. cbn. rewrite Hl0, app_assoc. reflexivity.
      * intros c ps Hin. rewrite map_app in Hin.
        apply in_app_or in Hin as [Hin|Hin].
        -- apply in_map_iff in Hin as (ev & Hev & Hin).
           rewrite forallb_forall in Hq0. specialize (Hq0 _ Hin).
           destruct ev; cbn in Hev, Hq0; discriminate.
        -- cbn in Hin. destruct Hin as [Hin|[]]. injection Hin as <- <-. auto.
    + intros r Hres. injection Hres as <-. cbn. unfold pages_of.
      rewrite map_app. apply in_or_app. right. left. reflexivity.
  - intros H. injection H as <- <-. split; [exact Hc|]. split.
    + exists n0. split; [exact Hl0|]. intros c ps Hin.
      apply in_map_iff in Hin as (ev & Hev & Hin).
      rewrite forallb_forall in Hq0. specialize (Hq0 _ Hin).
      destruct ev; cbn in Hev, Hq0; discriminate.
    + discriminate.
  - intros H. injection H as <- <-. split; [exact Hc|]. split.
    + exists n0. split; [exact Hl0|]. intros c ps Hin.
      apply in_map_iff in Hin as (ev & Hev & Hin).
      rewrite forallb_forall in Hq0. specialize (Hq0 _ Hin).
      destruct ev; cbn in Hev, Hq0; discriminate.
    + discriminate.
Qed.

(** A page updated: the one write is the payload, and the record has the
    id asked for. *)
Lemma pages_update_spec cls page props icon cover (w w1 : World C) res :
  pages_update cls page props icon cover w = (res, w1) ->
  same_caches w w1 /\
  (exists new, added w w1 new /\
     forall c ps, In (Some (c, ps)) (map (@write_of C) new) -> c = cls /\ ps = props) /\
  forall r, res = Returns r -> rp_id r = page.
Proof.
  unfold pages_update, mbind.
  destruct (remote_call w) as [[[]|e|] w0] eqn:Hr;
    pose proof (remote_call_caches _ _ _ Hr) as Hc;
    destruct (remote_call_quiet _ _ _ Hr) as (_ & _ & _ & _ & _ & n0 & Hl0 & Hq0);
    assert (Hn0 : forall c ps, In (Some (c, ps)) (map (@write_of C) n0) -> c = cls /\ ps = props)
      by (intros c ps Hin; apply in_map_iff in Hin as (ev & Hev & Hin);
          rewrite forallb_forall in Hq0; specialize (Hq0 _ Hin);
          destruct ev; cbn in Hev, Hq0; discriminate).
  - destruct (store_update page props icon cover (store w0)) as [[r st]|] eqn:Hu.
    + intros H. injection H as <- <-. split; [exact Hc|]. split.
      * exists (n0 ++ [EvUpdate cls page props]). split.
        -- unfold added. cbn. rewrite Hl0, app_assoc. reflexivity.
        -- intros c ps Hin. rewrite map_app in Hin.
           apply in_app_or in Hin as [Hin|Hin]; [auto|].
           cbn in Hin. destruct Hin as [Hin|[]]. injection Hin as <- <-. auto.
      * intros r0 Hres. injection Hres as <-.
        apply (store_update_pages _ _ _ _ _ _ _ Hu).
    + intros H. injection H as <- <-. split; [exact Hc|]. split.
      * exists (n0 ++ [@EvFault C (APIResponseError 404)]). split.
        -- unfold added. cbn. rewrite Hl0, app_assoc. reflexivity.
        -- intros c ps Hin. rewrite map_app in Hin.
           apply in_app_or in Hin as [Hin|Hin]; [auto|].
           cbn in Hin. destruct Hin as [Hin|[]]. discriminate.
      * discriminate.
  - intros H. injection H as <- <-. split; [exact Hc|]. split; [eauto|discriminate].
  - intros H. injection H as <- <-. split; [exact Hc|]. split; [eauto|discriminate].
Qed.

Lemma parse_obj_spec r (w w1 : World C) res :
  parse_obj r w = (res, w1) ->
  extends w w1 /\ same_caches w w1 /\ log w1 = log w /\
  forall p, res = Returns p -> id p = rp_id r.
Proof.
  unfold parse_obj. intros H. injection H as <- <-.
  split; [apply extends_same; reflexivity|].
  split; [split; reflexivity|]. split; [reflexivity|].
  intros p Hp. injection Hp as <-. reflexivity.
Qed.

(** Running class code under a sound handler: what it returns is as
    [ends_with] says, read with the pages accepted at the end. *)
Lemma interp_sound (h : Handler C) {A} (p : Prog C A) :
  handler_extends h -> handler_sound h ->
  forall w res w1, inv w -> interp h p w = (res, w1) ->
    inv w1 /\ conforms w w1 /\
    forall (P : A -> Prop) a, ends_with (Gw w1) P p -> res = Returns a -> P a.
Proof.
  intros He Hs.
  induction p as [a|e|c d hs k IH|c f k IH]; intros w res w1 Hi H;
    cbn [interp] in H.
  - injection H as <- <-. split; [exact Hi|].
    split; [apply conforms_same; reflexivity|].
    intros P a' HP Hr. injection Hr as <-. exact HP.
  - injection H as <- <-. split; [exact Hi|].
    split; [apply conforms_same; reflexivity|]. discriminate.
  - unfold mbind in H. destruct (h c d hs w) as [[page|e|] w0] eqn:Hh;
      destruct (Hs _ _ _ _ _ _ Hi Hh) as (Hi0 & Hc0 & Hp0).
    + destruct (IH page _ _ _ Hi0 H) as (Hi1 & Hc1 & HP1).
      pose proof (interp_extends h (k page) He _ _ _ H) as He1.
      split; [exact Hi1|]. split; [exact (conforms_trans _ _ _ He1 Hc0 Hc1)|].
      intros P a HP Hr. apply (HP1 P a); [|exact Hr]. cbn [ends_with] in HP.
      apply HP. apply (Gw_extends _ _ _ _ He1). apply Hp0. reflexivity.
    + injection H as <- <-. split; [exact Hi0|]. split; [exact Hc0|]. discriminate.
    + injection H as <- <-. split; [exact Hi0|]. split; [exact Hc0|]. discriminate.
  - unfold mbind in H. destruct (query_first c f w) as [[found|e|] w0] eqn:Hq;
      destruct (query_first_quiet _ _ _ _ _ Hq) as [Hq0 Hfound];
      pose proof (inv_extends _ _ (quiet_is_extends _ _ Hq0)
                    (query_first_caches _ _ _ _ _ Hq) Hi) as Hi0;
      pose proof (quiet_conforms _ _ Hq0) as Hc0.
    + destruct (IH found _ _ _ Hi0 H) as (Hi1 & Hc1 & HP1).
      pose proof (interp_extends h (k found) He _ _ _ H) as He1.
      split; [exact Hi1|]. split; [exact (conforms_trans _ _ _ He1 Hc0 Hc1)|].
      intros P a HP Hr. apply (HP1 P a); [|exact Hr]. cbn [ends_with] in HP.
      apply HP. intros page ->. specialize (Hfound _ eq_refl).
      destruct Hfound as (db & r & Hdb & Hm & Hid).
      apply (Gw_extends _ _ _ _ He1). apply (Gw_extends _ _ _ _ (quiet_is_extends _ _ Hq0)).
      apply (Gw_stored _ _ _ _ Hdb). rewrite Hid.
      apply first_match_in in Hm as (Hin & Hpar & _).
      unfold pages_of. apply in_map_iff. exists r. rewrite Hpar. auto.
    + injection H as <- <-. split; [exact Hi0|]. split; [exact Hc0|]. discriminate.
    + injection H as <- <-. split; [exact Hi0|]. split; [exact Hc0|]. discriminate.
Qed.

Lemma sound_at_fail (c : C) (w : World C) (res : Outcome Page) :
  inv w -> (forall p, res <> Returns p) -> sound_at c w res w.
Proof.
  intros Hi Hr. split; [exact Hi|]. split; [apply conforms_same; reflexivity|].
  intros p Hp. destruct (Hr _ Hp).
Qed.

(** The writes of one request, all with the payload [props] of [cls] *)
Lemma payload_conforms cls props (w w1 : World C) :
  Good (Gw w1) cls props ->
  (exists new, added w w1 new /\
     forall c ps, In (Some (c, ps)) (map (@write_of C) new) -> c = cls /\ ps = props) ->
  conforms w w1.
Proof.
  intros Hg (new & Hl & Hw). exists new. split; [exact Hl|].
  intros c ps Hin. destruct (Hw _ _ Hin) as [-> ->]. exact Hg.
Qed.

Lemma create_from_data_sound (h : Handler C) cls data icon cover
    (w w1 : World C) res :
  handler_extends h -> handler_sound h -> inv w ->
  create_from_data classes h cls data icon cover w = (res, w1) ->
  sound_at cls w res w1.
Proof.
  intros He Hs Hi. unfold create_from_data.
  destruct (negb (session w cls)).
  { intros H. injection H as <- <-. apply sound_at_fail; [exact Hi|discriminate]. }
  destruct (database w cls) as [db|] eqn:Hdb.
  2:{ intros H. injection H as <- <-. apply sound_at_fail; [exact Hi|discriminate]. }
  unfold mbind.
  destruct (interp h _ w) as [[props|e|] w2] eqn:Hp;
    destruct (interp_sound h _ He Hs _ _ _ Hi Hp) as (Hi2 & Hc2 & HP2).
  2,3: intros H; injection H as <- <-; split; [exact Hi2|];
       split; [exact Hc2|discriminate].
  pose proof (interp_extends h _ He _ _ _ Hp) as He2.
  pose proof (HP2 _ _ (Hprops (Gw w2) cls data) eq_refl) as Hgood.
  destruct (pages_create cls db props icon cover w2) as [[r|e|] w3] eqn:Hcr;
    destruct (pages_create_spec _ _ _ _ _ _ _ _ Hcr) as (Hs3 & Hw3 & Hr3);
    pose proof (pages_create_extends _ _ _ _ _ _ _ _ Hcr) as He3;
    pose proof (inv_extends _ _ He3 Hs3 Hi2) as Hi3;
    assert (Hc3 : conforms w w3)
      by (apply (conforms_trans _ _ _ He3 Hc2);
          apply (payload_conforms cls props); [|exact Hw3];
          apply (Good_mono (Gw w2)); [intros c i; apply (Gw_extends _ _ _ _ He3)|exact Hgood]).
  2,3: intros H; injection H as <- <-; split; [exact Hi3|];
       split; [exact Hc3|discriminate].
  destruct (parse_obj r w3) as [res4 w4] eqn:Hpo. intros H. injection H as <- <-.
  destruct (parse_obj_spec _ _ _ _ Hpo) as (He4 & Hs4 & Hl4 & Hid4).
  split; [exact (inv_extends _ _ He4 Hs4 Hi3)|].
  split; [exact (conforms_trans _ _ _ He4 Hc3 (conforms_same _ _ Hl4))|].
  intros p Hp4. rewrite (Hid4 _ Hp4). apply (Gw_extends _ _ _ _ He4).
  apply (Gw_stored w3 cls db); [|apply Hr3; reflexivity].
  destruct He3 as (_ & _ & Hd3 & _). destruct He2 as (_ & _ & Hd2 & _).
  rewrite Hd3, Hd2. exact Hdb.
Qed.

Lemma update_from_data_sound (h : Handler C) cls page data icon cover
    (w w1 : World C) res :
  handler_extends h -> handler_sound h -> inv w -> Gw w cls page ->
  update_from_data classes h cls page data icon cover w = (res, w1) ->
  sound_at cls w res w1.
Proof.
  intros He Hs Hi Hg. unfold update_from_data.
  destruct (negb (session w cls)).
  { intros H. injection H as <- <-. apply sound_at_fail; [exact Hi|discriminate]. }
  unfold mbind.
  destruct (interp h _ w) as [[props|e|] w2] eqn:Hp;
    destruct (interp_sound h _ He Hs _ _ _ Hi Hp) as (Hi2 & Hc2 & HP2).
  2,3: intros H; injection H as <- <-; split; [exact Hi2|];
       split; [exact Hc2|discriminate].
  pose proof (interp_extends h _ He _ _ _ Hp) as He2.
  pose proof (HP2 _ _ (Hprops (Gw w2) cls data) eq_refl) as Hgood.
  destruct (pages_update cls page props icon cover w2) as [[r|e|] w3] eqn:Hup;
    destruct (pages_update_spec _ _ _ _ _ _ _ _ Hup) as (Hs3 & Hw3 & Hr3);
    pose proof (pages_update_extends _ _ _ _ _ _ _ _ Hup) as He3;
    pose proof (inv_extends _ _ He3 Hs3 Hi2) as Hi3;
    assert (Hc3 : conforms w w3)
      by (apply (conforms_trans _ _ _ He3 Hc2);
          apply (payload_conforms cls props); [|exact Hw3];
          apply (Good_mono (Gw w2)); [intros c i; apply (Gw_extends _ _ _ _ He3)|exact Hgood]).
  2,3: intros H; injection H as <- <-; split; [exact Hi3|];
       split; [exact Hc3|discriminate].
  destruct (parse_obj r w3) as [res4 w4] eqn:Hpo. intros H. injection H as <- <-.
  destruct (parse_obj_spec _ _ _ _ Hpo) as (He4 & Hs4 & Hl4 & Hid4).
  split; [exact (inv_extends _ _ He4 Hs4 Hi3)|].
  split; [exact (conforms_trans _ _ _ He4 Hc3 (conforms_same _ _ Hl4))|].
  intros p Hp4. rewrite (Hid4 _ Hp4), (Hr3 _ eq_refl).
  apply (Gw_extends _ _ _ _ He4). apply (Gw_extends _ _ _ _ He3). apply (Gw_extends _ _ _ _ He2).
  exact Hg.
Qed.

Lemma body_sound (h : Handler C) cls data hints (w w1 : World C) res :
  handler_extends h -> handler_sound h -> inv w ->
  retrieve_or_create_body classes h cls data hints w = (res, w1) ->
  sound_at cls w res w1.
Proof.
  intros He Hs Hi. unfold retrieve_or_create_body, mbind.
  destruct (interp h _ w) as [[found|e|] w0] eqn:Hf;
    destruct (interp_sound h _ He Hs _ _ _ Hi Hf) as (Hi0 & Hc0 & HP0).
  2,3: intros H; injection H as <- <-; split; [exact Hi0|];
       split; [exact Hc0|discriminate].
  pose proof (interp_extends h _ He _ _ _ Hf) as He0.
  pose proof (HP0 _ _ (Hretr (Gw w0) cls data) eq_refl) as Hfound.
  destruct found as [page|].
  - specialize (Hfound _ eq_refl). destruct (update w0).
    + intros H.
      pose proof (update_from_data_extends classes h _ _ _ _ _ _ _ _ He H) as He1.
      destruct (update_from_data_sound _ _ _ _ _ _ _ _ _ He Hs Hi0 Hfound H)
        as (Hi1 & Hc1 & Hp1).
      split; [exact Hi1|]. split; [exact (conforms_trans _ _ _ He1 Hc0 Hc1)|exact Hp1].
    + intros H. injection H as <- <-. split; [exact Hi0|]. split; [exact Hc0|].
      intros p Hp. injection Hp as <-. exact Hfound.
  - intros H.
    pose proof (create_from_data_extends classes h _ _ _ _ _ _ _ He H) as He1.
    destruct (create_from_data_sound _ _ _ _ _ _ _ _ He Hs Hi0 H) as (Hi1 & Hc1 & Hp1).
    split; [exact Hi1|]. split; [exact (conforms_trans _ _ _ He1 Hc0 Hc1)|exact Hp1].
Qed.

Lemma retry_loop_sound (f : M C Page) (c : C) :
  (forall w res w1, f w = (res, w1) -> extends w w1) ->
  (forall w res w1, inv w -> f w = (res, w1) -> sound_at c w res w1) ->
  forall left slept w res w1 st,
    inv w -> retry_loop left slept f w = (res, w1, st) -> sound_at c w res w1.
Proof.
  intros Hfe Hf.
  assert (Hsleep : forall n w0 res0 w', inv w0 ->
            sound_at c (snd (sleep_before_retry n w0)) res0 w' ->
            extends (snd (sleep_before_retry n w0)) w' ->
            forall w, extends w w0 -> conforms w w0 -> sound_at c w res0 w').
  { intros n w0 res0 w' Hi0 (Hi' & Hc' & Hp') He' w He Hc.
    split; [exact Hi'|]. split; [|exact Hp'].
    apply (conforms_trans _ _ _ (extends_trans _ _ _ (sleep_before_retry_extends n w0) He') Hc).
    apply (conforms_trans _ _ _ He'); [|exact Hc'].
    apply quiet_conforms. apply sleep_before_retry_quiet. }
  induction left as [|left IH]; intros slept w res w1 st Hi H;
    cbn [retry_loop] in H.
  - destruct (f w) as [[a|e|] w0] eqn:Hfw; pose proof (Hf _ _ _ Hi Hfw) as H0.
    + injection H as <- <- <-. exact H0.
    + destruct (Tenacity.retry_if_exception_type e); injection H as <- <- <-; exact H0.
    + injection H as <- <- <-. exact H0.
  - destruct (f w) as [[a|e|] w0] eqn:Hfw; pose proof (Hf _ _ _ Hi Hfw) as H0.
    + injection H as <- <- <-. exact H0.
    + destruct (Tenacity.retry_if_exception_type e).
      * destruct H0 as (Hi0 & Hc0 & _).
        pose proof (sleep_before_retry_extends (Tenacity.max_attempt_number - S left) w0) as Hse.
        pose proof (sleep_before_retry_caches (Tenacity.max_attempt_number - S left) w0) as Hsc.
        pose proof (Hsleep (Tenacity.max_attempt_number - S left) w0) as Hsl.
        destruct (sleep_before_retry _ w0) as [seconds w2]. cbn [snd] in *.
        pose proof (inv_extends _ _ Hse Hsc Hi0) as Hi2.
        apply (Hsl res w1 Hi0 (IH _ _ _ _ _ Hi2 H)); [|exact (Hfe _ _ _ Hfw)|exact Hc0].
        refine (retry_loop_preserves (@extends C) f (@extends_refl C)
                  (@extends_trans C) Hfe (@sleep_before_retry_extends C)
                  _ _ _ _ _ _ H).
      * injection H as <- <- <-. exact H0.
    + injection H as <- <- <-. exact H0.
Qed.

Lemma base_sound (h : Handler C) cls data hints (w w1 : World C) res :
  handler_extends h -> handler_sound h -> inv w ->
  base_retrieve_or_create C_eq_dec classes h cls data hints w = (res, w1) ->
  sound_at cls w res w1.
Proof.
  intros He Hs Hi. unfold base_retrieve_or_create, lru_cache.
  destruct (cache_get C_eq_dec (cls, data, hints) (base_cache w)) as [v|] eqn:Hg.
  { intros H. injection H as <- <-. split; [exact Hi|].
    split; [apply conforms_same; reflexivity|].
    intros p Hp. injection Hp as <-.
    apply (inv_cached w (cls, data, hints) v Hi). left. exact Hg. }
  unfold retry, retrying.
  destruct (retry_loop _ _ _ w) as [[r0 w0] st] eqn:Hl. cbn [fst].
  destruct (retry_loop_sound _ cls
              (fun w res w1 => body_extends classes h cls data hints w w1 res He)
              (fun w res w1 Hi H => body_sound h cls data hints w w1 res He Hs Hi H)
              _ _ _ _ _ _ Hi Hl) as (Hi0 & Hc0 & Hp0).
  destruct r0 as [v|e|]; intros H; injection H as <- <-.
  - assert (Hx : extends w0 (set_base_cache
                               (cache_set (cls, data, hints) v (base_cache w0)) w0))
      by (apply extends_same; reflexivity).
    split; [apply inv_base; [exact Hi0 | apply Hp0; reflexivity]|].
    split.
    + apply (conforms_trans _ _ _ Hx Hc0). apply conforms_same. reflexivity.
    + intros p Hp. injection Hp as <-. apply (Gw_extends _ _ _ _ Hx).
      apply Hp0. reflexivity.
  - split; [exact Hi0|]. split; [exact Hc0|discriminate].
  - split; [exact Hi0|]. split; [exact Hc0|discriminate].
Qed.

Lemma dispatch_sound (h : Handler C) :
  handler_extends h -> handler_sound h ->
  handler_sound (dispatch C_eq_dec classes h).
Proof.
  intros He Hs cls data hints w res w1 Hi. unfold dispatch.
  destruct (override_hints (classes cls)) as [adjust|];
    [|apply base_sound; assumption].
  unfold lru_cache.
  destruct (cache_get C_eq_dec (cls, data, hints) (override_cache w)) as [v|] eqn:Hg.
  { intros H. injection H as <- <-. split; [exact Hi|].
    split; [apply conforms_same; reflexivity|].
    intros p Hp. injection Hp as <-.
    apply (inv_cached w (cls, data, hints) v Hi). right. exact Hg. }
  unfold mbind, mlift.
  destruct (adjust _ _ _) as [[icon cover]|e]; cbn [mret mraise].
  2:{ intros H. injection H as <- <-. apply sound_at_fail; [exact Hi|discriminate]. }
  destruct (base_retrieve_or_create _ _ _ _ _ _ w) as [r0 w0] eqn:Hb.
  destruct (base_sound _ _ _ _ _ _ _ He Hs Hi Hb) as (Hi0 & Hc0 & Hp0).
  destruct r0 as [v|e|]; intros H; injection H as <- <-.
  - assert (Hx : extends w0 (set_override_cache
                               (cache_set (cls, data, hints) v (override_cache w0)) w0))
      by (apply extends_same; reflexivity).
    split; [apply inv_override; [exact Hi0 | apply Hp0; reflexivity]|].
    split.
    + apply (conforms_trans _ _ _ Hx Hc0). apply conforms_same. reflexivity.
    + intros p Hp. injection Hp as <-. apply (Gw_extends _ _ _ _ Hx).
      apply Hp0. reflexivity.
  - split; [exact Hi0|]. split; [exact Hc0|discriminate].
  - split; [exact Hi0|]. split; [exact Hc0|discriminate].
Qed.

Lemma roc_sound fuel :
  handler_sound (retrieve_or_create_from_data C_eq_dec classes fuel).
Proof.
  induction fuel as [|fuel IH].
  - intros c d hs w res w1 Hi H. injection H as <- <-.
    apply sound_at_fail; [exact Hi|discriminate].
  - cbn [retrieve_or_create_from_data]. apply dispatch_sound; [|exact IH].
    apply roc_extends.
Qed.

End ConformFacts.

(* ===================================================================== *)
(** * The serializers against the schemas *)
(* ===================================================================== *)

Section EndsFacts.

Import Notion Workspace.

Context {C : Type}.
Variable G : C -> PageId -> Prop.

Lemma ends_pbind {A B} (Q : A -> Prop) (P : B -> Prop) (p : Prog C A)
    (f : A -> Prog C B) :
  ends_with G Q p -> (forall a, Q a -> ends_with G P (f a)) ->
  ends_with G P (pbind p f).
Proof.
  intros Hp Hf. induction p as [a|e|c d hs k IH|c q k IH]; cbn in *.
  - apply Hf. exact Hp.
  - exact I.
  - intros page Hg. apply IH. apply Hp. exact Hg.
  - intros found Hg. apply IH. apply Hp. exact Hg.
Qed.

Lemma ends_impl {A} (P P' : A -> Prop) (p : Prog C A) :
  (forall a, P a -> P' a) -> ends_with G P p -> ends_with G P' p.
Proof.
  intros HP. induction p as [a|e|c d hs k IH|c q k IH]; cbn; auto.
Qed.

Lemma ends_any {A} (p : Prog C A) : ends_with G (fun _ => True) p.
Proof.
  induction p as [a|e|c d hs k IH|c q k IH]; cbn; auto.
Qed.

Lemma ends_pbind_any {A B} (P : B -> Prop) (p : Prog C A) (f : A -> Prog C B) :
  (forall a, ends_with G P (f a)) -> ends_with G P (pbind p f).
Proof.
  intros Hf. apply (ends_pbind (fun _ => True)); [apply ends_any | auto].
Qed.

Lemma ends_for_each_calls (c : C) (l : list PyVal) :
  ends_with G (fun pages => Forall (G c) (map id pages))
    (for_each (fun x => Call c x [] Ret) l).
Proof.
  induction l as [|x t IH]; cbn [for_each].
  - cbn. constructor.
  - cbn [pbind ends_with]. intros page Hg.
    eapply ends_pbind; [exact IH|]. intros pages Hp. cbn. constructor; assumption.
Qed.

Lemma ends_dict_literal {V} (Q : string -> V -> Prop)
    (entries : list (string * Prog C V)) :
  Forall (fun kp => ends_with G (Q (fst kp)) (snd kp)) entries ->
  ends_with G (fun d => map fst d = map fst entries /\
                        forall k v, In (k, v) d -> Q k v)
    (dict_literal entries).
Proof.
  induction 1 as [|[k p] t Hp Ht IH]; cbn [dict_literal].
  - cbn. split; [reflexivity | intros k v []].
  - cbn [fst snd] in Hp. eapply ends_pbind; [exact Hp|]. intros v Hv.
    eapply ends_pbind; [exact IH|]. intros d [Hk Hd]. cbn.
    split; [rewrite Hk; reflexivity|].
    intros k' v' [E|Hin]; [injection E as <- <-; exact Hv | auto].
Qed.

End EndsFacts.

Section SerializerFacts.

Import Notion Workspace PageCode Schemas.

Variable G : Cls -> PageId -> Prop.
Variable Q : PropValue -> Prop.

Lemma ends_number_ e : (forall v, Q (number v)) -> ends_with G Q (number_ e).
Proof. intros H. apply ends_pbind_any. intros v. apply H. Qed.

Lemma ends_checkbox_ e : (forall v, Q (checkbox v)) -> ends_with G Q (checkbox_ e).
Proof. intros H. apply ends_pbind_any. intros v. apply H. Qed.

Lemma ends_title_ e : (forall v, Q (title v)) -> ends_with G Q (title_ e).
Proof. intros H. apply ends_pbind_any. intros v. apply H. Qed.

Lemma ends_rich_text_ e : (forall v, Q (rich_text v)) -> ends_with G Q (rich_text_ e).
Proof. intros H. apply ends_pbind_any. intros v. apply H. Qed.

Lemma ends_url_ e : (forall v, Q (url v)) -> ends_with G Q (url_ e).
Proof. intros H. apply ends_pbind_any. intros v. apply H. Qed.

Lemma ends_date_ e : (forall v, Q (date v)) -> ends_with G Q (date_ e).
Proof. intros H. apply ends_pbind_any. intros v. apply H. Qed.

Lemma ends_select_ e : (forall v, Q (select v)) -> ends_with G Q (select_ e).
Proof. intros H. apply ends_pbind_any. intros v. apply H. Qed.

Lemma ends_select_unless null e :
  (forall v, Q (select v)) -> ends_with G Q (select_unless null e).
Proof.
  intros H. apply ends_pbind_any. intros n.
  destruct (py_ne n _); [|apply H]. apply ends_pbind_any. intros v. apply H.
Qed.

Lemma ends_select_prefixed prefix null e :
  (forall v, Q (select v)) -> ends_with G Q (select_prefixed prefix null e).
Proof.
  intros H. apply ends_pbind_any. intros n.
  destruct (truthy n && py_ne n _); [|apply H].
  apply ends_pbind_any. intros v. apply ends_pbind_any. intros s. apply H.
Qed.

Lemma ends_select_if_truthy v :
  (forall v, Q (select v)) -> ends_with G Q (select_if_truthy v).
Proof. intros H. unfold select_if_truthy. destruct (truthy v); apply H. Qed.

Lemma ends_multi_select_ e :
  (forall l, Q (multi_select l)) -> ends_with G Q (multi_select_ e).
Proof.
  intros H. apply ends_pbind_any. intros v. apply ends_pbind_any. intros l. apply H.
Qed.

Lemma ends_relation_one cls e :
  (forall ids, Forall (G cls) ids -> Q (relation ids)) ->
  ends_with G Q (relation_one cls e).
Proof.
  intros H. apply ends_pbind_any. intros v. cbn. intros page Hg.
  apply H. constructor; [exact Hg | constructor].
Qed.

Lemma ends_relation_each cls e :
  (forall ids, Forall (G cls) ids -> Q (relation ids)) ->
  ends_with G Q (relation_each cls e).
Proof.
  intros H. apply ends_pbind_any. intros v. apply ends_pbind_any. intros l.
  eapply ends_pbind; [apply ends_for_each_calls|]. intros pages Hp. apply H. exact Hp.
Qed.

Lemma ends_relation_if cls e :
  (forall ids, Forall (G cls) ids -> Q (relation ids)) ->
  ends_with G Q (Custom.relation_if cls e).
Proof.
  intros H. apply ends_pbind_any. intros t. destruct (truthy t).
  - apply ends_relation_one. exact H.
  - apply H. constructor.
Qed.

End SerializerFacts.

Ltac fit_value :=
  eexists; split; [reflexivity|]; split; [reflexivity|];
  first [exact I | eexists; split; [reflexivity | assumption]].

Ltac fit_entry :=
  first
    [ apply ends_number_; intros ?; fit_value
    | apply ends_checkbox_; intros ?; fit_value
    | apply ends_title_; intros ?; fit_value
    | apply ends_rich_text_; intros ?; fit_value
    | apply ends_url_; intros ?; fit_value
    | apply ends_date_; intros ?; fit_value
    | apply ends_select_; intros ?; fit_value
    | apply ends_select_unless; intros ?; fit_value
    | apply ends_select_prefixed; intros ?; fit_value
    | apply ends_select_if_truthy; intros ?; fit_value
    | apply ends_multi_select_; intros ?; fit_value
    | apply ends_relation_one; intros ? ?; fit_value
    | apply ends_relation_each; intros ? ?; fit_value
    | apply ends_relation_if; intros ? ?; fit_value ].

Ltac fit_entries :=
  repeat first
    [ apply Forall_nil
    | apply Forall_cons; [cbn [fst snd]; fit_entry|] ].

Section SchemaFacts.

Import Notion Workspace PageCode Schemas.

Variable env : Builtins.
Variable members : string -> list PyStr.str.
Variable database : Cls -> option DbId.

Lemma agrees_mono (G G' : Cls -> PageId -> Prop) s v :
  (forall c i, G c i -> G' c i) -> agrees database G s v -> agrees database G' s v.
Proof.
  intros HG [Ht Hr]. split; [exact Ht|].
  destruct s; try exact I. destruct v; try exact I.
  destruct Hr as (c & Hd & Hf). exists c. split; [exact Hd|].
  eapply Forall_impl; [|exact Hf]. apply HG.
Qed.

Lemma fits_mono (G G' : Cls -> PageId -> Prop) c props :
  (forall c i, G c i -> G' c i) ->
  fits members database G c props -> fits members database G' c props.
Proof.
  intros HG [Hv Hk]. split; [|exact Hk].
  intros k v Hin. destruct (Hv _ _ Hin) as (s & Hs & Ha).
  exists s. split; [exact Hs|]. eapply agrees_mono; eassumption.
Qed.

Lemma ends_dict_fits (G : Cls -> PageId -> Prop) (c : Cls)
    (entries : list (string * Prog Cls PropValue)) :
  Forall (fun kp =>
            ends_with G
              (fun v => exists s,
                   assoc (fst kp) (get_notion_schema members database c) = Some s /\
                   agrees database G s v)
              (snd kp)) entries ->
  (c <> CustomGamePage ->
   map fst entries = map fst (settable (get_notion_schema members database c))) ->
  ends_with G (fits members database G c) (dict_literal entries).
Proof.
  intros He Hk.
  apply (ends_dict_literal G
           (fun k v => exists s,
                assoc k (get_notion_schema members database c) = Some s /\
                agrees database G s v)) in He.
  revert He. apply ends_impl. intros d [Hkeys Hv]. split; [exact Hv|].
  intros Hc. rewrite Hkeys. apply Hk. exact Hc.
Qed.

Ltac fit_properties :=
  lazymatch goal with
  | |- ends_with _ _ (pbind _ _) =>
      apply ends_pbind_any; intros ?; fit_properties
  | |- ends_with _ _ (dict_literal _) =>
      apply ends_dict_fits;
      [ fit_entries
      | first [ intros _; reflexivity
              | let H := fresh in intros H; destruct (H eq_refl) ] ]
  end.

(** The payload of every registered class, against the schema of the
    class *)
Lemma properties_fit (G : Cls -> PageId -> Prop) (cls : Cls) (data : PyVal) :
  ends_with G (fits members database G cls)
    (get_notion_properties (Main.classes env cls) data).
Proof.
  destruct cls; cbn [Main.classes get_notion_properties];
    match goal with |- ends_with _ _ ?p =>
      let h := head_of p in unfold h end; fit_properties.
Qed.

(** The page that [retrieve_from_data] finds is one the class's own query
    answered with. *)
Lemma retrieved_from_class (G : Cls -> PageId -> Prop) (cls : Cls) (data : PyVal) :
  ends_with G (fun found => forall page, found = Some page -> G cls (id page))
    (retrieve_from_data (Main.classes env cls) data).
Proof.
  assert (Higdb : forall c, ends_with G
            (fun found => forall page, found = Some page -> G c (id page))
            (Igdb.IGDBNotionPage_retrieve_from_data c data)).
  { intros c. unfold Igdb.IGDBNotionPage_retrieve_from_data.
    destruct (negb (hasattr data "id")); [exact I|].
    apply ends_pbind_any. intros v. cbn. auto. }
  destruct cls; cbn [Main.classes retrieve_from_data]; try apply Higdb.
  - unfold Hltb.HLTBNotionPage_retrieve_from_data.
    destruct (negb (hasattr data "game_id")); [exact I|].
    apply ends_pbind_any. intros v. cbn. auto.
  - unfold SteamSpy.SteamSpyNotionPage_retrieve_from_data.
    destruct (negb (hasattr data "appid")); [exact I|].
    apply ends_pbind_any. intros v. cbn. auto.
  - unfold Custom.CustomGamePage_retrieve_from_data.
    apply ends_pbind_any. intros igdb. cbn. auto.
Qed.

End SchemaFacts.

Section PagesOfClasses.

Import Notion Workspace.

Context {C : Type} (C_eq_dec : forall a b : C, {a = b} + {a <> b}).

Lemma page_in_extends (w w1 : World C) c i :
  extends w w1 -> page_in w c i -> page_in w1 c i.
Proof.
  intros (_ & _ & Hd & [more Hm] & _) (db & Hdb & Hin). exists db.
  rewrite Hd, Hm. split; [exact Hdb | apply in_or_app; left; exact Hin].
Qed.

Lemma page_in_stored (w : World C) c db i :
  database w c = Some db -> In (i, db) (pages_of (store w)) -> page_in w c i.
Proof. intros Hdb Hin. exists db. auto. Qed.

Lemma cache_wf_extends (w w1 : World C) (c : Cache C) :
  extends w w1 -> cache_wf w c -> cache_wf w1 c.
Proof.
  intros He. apply Forall_impl. intros kp. apply page_in_extends. exact He.
Qed.

Lemma caches_wf_extends (w w1 : World C) :
  extends w w1 -> same_caches w w1 -> caches_wf w -> caches_wf w1.
Proof.
  intros He [Hb Ho] [H1 H2]. unfold caches_wf. rewrite Hb, Ho.
  split; eapply cache_wf_extends; eassumption.
Qed.

Lemma cache_get_in (k : Key C) (c : Cache C) (p : Page) :
  cache_get C_eq_dec k c = Some p ->
  exists k', In (k', p) c /\ fst (fst k') = fst (fst k).
Proof.
  induction c as [|[k' v] t IH]; cbn [cache_get]; [discriminate|].
  destruct (key_eqb C_eq_dec k k') eqn:E.
  - intros H. injection H as <-. exists k'. split; [left; reflexivity|].
    destruct k as [[c1 d1] h1], k' as [[c2 d2] h2]. cbn in E |- *.
    destruct (C_eq_dec c1 c2); [congruence | discriminate].
  - intros H. destruct (IH H) as (k0 & Hin & Hk). exists k0. split; [right|]; auto.
Qed.

Lemma caches_wf_cached (w : World C) (k : Key C) (p : Page) :
  caches_wf w ->
  cache_get C_eq_dec k (base_cache w) = Some p \/
  cache_get C_eq_dec k (override_cache w) = Some p ->
  page_in w (fst (fst k)) (id p).
Proof.
  intros [Hb Ho] [H|H]; apply cache_get_in in H as (k' & Hin & Hk);
    [pose proof (proj1 (Forall_forall _ _) Hb _ Hin) as Hp
    |pose proof (proj1 (Forall_forall _ _) Ho _ Hin) as Hp];
    cbn [fst snd] in Hp; rewrite Hk in Hp; exact Hp.
Qed.

Lemma caches_wf_base (w : World C) (k : Key C) (p : Page) :
  caches_wf w -> page_in w (fst (fst k)) (id p) ->
  caches_wf (set_base_cache (cache_set k p (base_cache w)) w).
Proof.
  intros [Hb Ho] Hp. split; cbn.
  - constructor; [exact Hp | exact Hb].
  - exact Ho.
Qed.

Lemma caches_wf_override (w : World C) (k : Key C) (p : Page) :
  caches_wf w -> page_in w (fst (fst k)) (id p) ->
  caches_wf (set_override_cache (cache_set k p (override_cache w)) w).
Proof.
  intros [Hb Ho] Hp. split; cbn.
  - exact Hb.
  - constructor; [exact Hp | exact Ho].
Qed.

End PagesOfClasses.

Section SchemaRuns.

Import Notion Workspace Schemas.

Variable env : Builtins.
Variable members : string -> list PyStr.str.

(** The writes of a call, against the schemas *)
Lemma roc_fits fuel cls data hints (w w1 : World Cls) res :
  Main.retrieve_or_create_from_data env fuel cls data hints w = (res, w1) ->
  conforms (fun _ _ _ => True) (fits members (database w)) w w1.
Proof.
  intros H.
  refine (proj1 (proj2
    (roc_sound Cls_eq_dec (Main.classes env) (fun _ => True) (fun _ _ _ => True)
       (fits members (database w)) _ _ _ _ _ _ _ _ _ fuel cls data hints w res w1 I H)));
    auto.
  - apply fits_mono.
  - intros G c d. apply properties_fit.
  - intros G c d. apply retrieved_from_class.
Qed.

(** The same with the pages of the classes: the caches stay well formed,
    and relations are read with the pages of the databases. *)
Lemma roc_pages fuel cls data hints (w w1 : World Cls) res :
  caches_wf w ->
  Main.retrieve_or_create_from_data env fuel cls data hints w = (res, w1) ->
  sound_at (@caches_wf Cls) (@page_in Cls) (fits members (database w)) cls w res w1.
Proof.
  intros Hi H.
  refine (roc_sound Cls_eq_dec (Main.classes env) (@caches_wf Cls) (@page_in Cls)
            (fits members (database w)) _ _ _ _ _ _ _ _ _
            fuel cls data hints w res w1 Hi H).
  - intros w0 w2 c i. apply page_in_extends.
  - intros w0 c db i. apply page_in_stored.
  - apply caches_wf_extends.
  - apply caches_wf_cached.
  - apply caches_wf_base.
  - apply caches_wf_override.
  - apply fits_mono.
  - intros G c d. apply properties_fit.
  - intros G c d. apply retrieved_from_class.
Qed.

Lemma write_in_log (c : Cls) page props (new : list (Event Cls)) :
  In (EvCreate c page props) new \/ In (EvUpdate c page props) new ->
  In (Some (c, props)) (map (@write_of Cls) new).
Proof.
  intros [H|H]; apply in_map_iff; eexists; (split; [|exact H]); reflexivity.
Qed.

End SchemaRuns.

Section SchemaProperties.

Import Notion Workspace Schemas.
Local Open Scope string_scope.
Local Open Scope list_scope.

(** X7.  Every page the run creates or updates is written as the schema
    of its class declares it: each property of the payload is a property
    of the schema of the class that writes, with the type the payload
    gives it, and for every class but the composite page the payload sets
    exactly the properties of the schema that are not formulas or
    rollups, in the order of the schema. *)
Theorem written_pages_fit_the_schema (env : Builtins)
    (members : string -> list PyStr.str) (fuel : nat) (cls : Cls)
    (data : PyVal) (hints : Hints) (w : World Cls) :
  exists new,
    log (snd (Main.retrieve_or_create_from_data env fuel cls data hints w))
      = log w ++ new /\
    forall c page props,
      In (EvCreate c page props) new \/ In (EvUpdate c page props) new ->
      (forall k v, In (k, v) props ->
         exists s, assoc k (get_notion_schema members (database w) c) = Some s /\
                   schema_type s = property_type v) /\
      (c <> CustomGamePage ->
       map fst props = map fst (settable (get_notion_schema members (database w) c))).
Proof.
  destruct (Main.retrieve_or_create_from_data env fuel cls data hints w)
    as [res w1] eqn:H.
  destruct (roc_fits env members fuel cls data hints w w1 res H) as (new & Hl & Hw).
  exists new. split; [exact Hl|]. intros c page props Hin.
  destruct (Hw _ _ (write_in_log c page props new Hin)) as [Hv Hk].
  split; [|exact Hk]. intros k v Hkv.
  destruct (Hv _ _ Hkv) as (s & Hs & Ht & _). eauto.
Qed.

(** X8.  Relations point into the database that the schema names.  On a
    run whose caches hold pages of the databases of their classes, every
    page id that a created or updated page lists under a relation
    property is the id of a page of the store, in the database whose id
    the schema of the writing class gives for that property; so the
    class that the relation refers to is connected. *)
Theorem relations_point_into_declared_database (env : Builtins)
    (members : string -> list PyStr.str) (fuel : nat) (cls : Cls)
    (data : PyVal) (hints : Hints) (w : World Cls) :
  caches_wf w ->
  exists new,
    log (snd (Main.retrieve_or_create_from_data env fuel cls data hints w))
      = log w ++ new /\
    forall c page props k ids i,
      In (EvCreate c page props) new \/ In (EvUpdate c page props) new ->
      In (k, relation ids) props -> In i ids ->
      exists db kind,
        assoc k (get_notion_schema members (database w) c)
          = Some (relation_schema (Some db) kind) /\
        In (i, db)
           (pages_of
              (store (snd (Main.retrieve_or_create_from_data env fuel cls data
                             hints w)))).
Proof.
  intros Hi.
  destruct (Main.retrieve_or_create_from_data env fuel cls data hints w)
    as [res w1] eqn:H. cbn [snd].
  destruct (roc_pages env members fuel cls data hints w w1 res Hi H)
    as (_ & (new & Hl & Hw) & _).
  pose proof (roc_extends Cls_eq_dec (Main.classes env) fuel _ _ _ _ _ _ H)
    as (_ & _ & Hd & _).
  exists new. split; [exact Hl|]. intros c page props k ids i Hin Hk Hi'.
  destruct (Hw _ _ (write_in_log c page props new Hin)) as [Hv _].
  destruct (Hv _ _ Hk) as (s & Hs & Ht & Hr).
  destruct s; try discriminate Ht.
  destruct Hr as (c' & Hc' & Hf).
  pose proof (proj1 (Forall_forall _ _) Hf _ Hi') as (db & Hdb & Hpage).
  exists db, kind. split; [|exact Hpage].
  rewrite Hs, Hc', <- Hdb, Hd. reflexivity.
Qed.

(** Game 42 on an empty workspace, with the pages of its references. *)
Lemma relations_point_into_declared_database_witness :
  exists new,
    log (snd (Main.retrieve_or_create_from_data Samples.env 8 Game Samples.game_42 []
                (Samples.connected false)))
      = log (Samples.connected false) ++ new /\
    forall c page props k ids i,
      In (EvCreate c page props) new \/ In (EvUpdate c page props) new ->
      In (k, relation ids) props -> In i ids ->
      exists db kind,
        assoc k (get_notion_schema (fun _ => []) (database (Samples.connected false)) c)
          = Some (relation_schema (Some db) kind) /\
        In (i, db)
           (pages_of
              (store (snd (Main.retrieve_or_create_from_data Samples.env 8 Game
                             Samples.game_42 [] (Samples.connected false))))).
Proof.
  apply (relations_point_into_declared_database Samples.env (fun _ => []) 8 Game
           Samples.game_42 [] (Samples.connected false)).
  split; constructor.
Defined.

(** X9.  Handles stay in their class.  From caches that hold pages of
    the databases of their classes, a call of any registered class, the
    composite page included, leaves the caches so, and the handle it
    returns, whether found, updated, created or taken from a cache, is
    the handle of a page of the store in the database of the class. *)
Theorem handles_stay_in_their_class (env : Builtins) (fuel : nat) (cls : Cls)
    (data : PyVal) (hints : Hints) (w : World Cls) :
  caches_wf w ->
  caches_wf (snd (Main.retrieve_or_create_from_data env fuel cls data hints w)) /\
  forall p,
    fst (Main.retrieve_or_create_from_data env fuel cls data hints w) = Returns p ->
    page_in (snd (Main.retrieve_or_create_from_data env fuel cls data hints w))
      cls (id p).
Proof.
  intros Hi.
  destruct (Main.retrieve_or_create_from_data env fuel cls data hints w)
    as [res w1] eqn:H. cbn [fst snd].
  destruct (roc_pages env (fun _ => []) fuel cls data hints w w1 res Hi H)
    as (Hi1 & _ & Hp).
  split; assumption.
Qed.

(** The composite page of game 42 on an empty workspace *)
Lemma handles_stay_in_their_class_witness :
  caches_wf (snd (Main.retrieve_or_create_from_data Samples.env 9 CustomGamePage
                    Samples.custom_42 [] (Samples.connected false))) /\
  forall p,
    fst (Main.retrieve_or_create_from_data Samples.env 9 CustomGamePage
           Samples.custom_42 [] (Samples.connected false)) = Returns p ->
    page_in (snd (Main.retrieve_or_create_from_data Samples.env 9 CustomGamePage
                    Samples.custom_42 [] (Samples.connected false)))
      CustomGamePage (id p).
Proof.
  apply (handles_stay_in_their_class Samples.env 9 CustomGamePage Samples.custom_42 []
           (Samples.connected false)).
  split; constructor.
Defined.

End SchemaProperties.

(* ===================================================================== *)
(** * Creating and connecting the databases *)
(* ===================================================================== *)

Section SetupFacts.

Import Notion Schemas Setup.
Local Open Scope string_scope.
Local Open Scope list_scope.

Lemma assoc_set_fresh {V} (k : string) (v : V) (d : list (string * V)) :
  ~ In k (map fst d) -> assoc_set k v d = d ++ [(k, v)].
Proof.
  induction d as [|[k' v'] t IH]; cbn [assoc_set map fst In app]; [reflexivity|].
  intros Hn. destruct (String.eqb k k') eqn:E.
  - apply String.eqb_eq in E. destruct Hn. left. symmetry. exact E.
  - rewrite IH; [reflexivity|]. intros H. apply Hn. right. exact H.
Qed.

Lemma dict_of_snoc {V} (l : list (string * V)) (k : string) (v : V) :
  dict_of (l ++ [(k, v)]) = assoc_set k v (dict_of l).
Proof. unfold dict_of. rewrite fold_left_app. reflexivity. Qed.

(** With a title of its own, the composite page is the last entry, after
    the entries as written. *)
Lemma notion_db_types_distinct (name : string) :
  ~ In name (map fst fixed_db_types) ->
  notion_db_types name = fixed_db_types ++ [(name, CustomGamePage)].
Proof.
  intros Hn. unfold notion_db_types. rewrite dict_of_snoc.
  change (dict_of fixed_db_types) with fixed_db_types.
  apply assoc_set_fresh. exact Hn.
Qed.

Lemma positions_as_written (name : string) :
  map (fun entry => position (snd entry)) (fixed_db_types ++ [(name, CustomGamePage)])
  = seq 0 40.
Proof. reflexivity. Qed.

Lemma position_below (c : Cls) : position c < 40.
Proof. destruct c; cbv; repeat constructor. Qed.

Lemma position_inj (a b : Cls) : position a = position b -> a = b.
Proof. destruct a; destruct b; cbn; intros H; try reflexivity; discriminate H. Qed.

Ltac schema_entry H :=
  first
    [ discriminate H
    | injection H as _ <- _; eexists; split; [reflexivity | cbv; repeat constructor] ].

(** A schema names the databases of classes written before its class. *)
Lemma schema_refers_back (members : string -> list PyStr.str)
    (database : Cls -> option DbId) (c : Cls) k d kind :
  In (k, relation_schema d kind) (get_notion_schema members database c) ->
  exists target, d = database target /\ position target < position c.
Proof.
  destruct c; cbn [get_notion_schema];
    match goal with |- In _ ?s -> _ => let h := head_of s in unfold h end;
    cbn [In]; intros H;
    repeat (destruct H as [H|H]; [schema_entry H|]); destruct H.
Qed.

Lemma setup_step_spec (members : string -> list PyStr.str)
    (existing : list (string * DbId)) (title : string) (cls : Cls) (s : State) :
  connected_below (position cls) s -> created_complete existing s ->
  exists s',
    setup_step members existing (title, cls) s = Ok s' /\
    connected_below (S (position cls)) s' /\ created_complete existing s'.
Proof.
  intros Hc Hk. unfold setup_step. cbn [fst snd].
  assert (Hconn : forall db s0,
            session_of s0 = session_of s -> database_of s0 = database_of s ->
            connected_below (S (position cls)) (connect cls db s0)).
  { intros db s0 Hs Hd c Hlt. cbn. destruct (Cls_eq_dec c cls) as [->|Hne].
    - split; [reflexivity | eauto].
    - rewrite Hs, Hd. apply Hc.
      assert (position c <> position cls)
        by (intros E; apply Hne, position_inj, E).
      lia. }
  destruct (assoc title existing) as [db|] eqn:He.
  - eexists. split; [reflexivity|]. split; [apply Hconn; reflexivity|].
    exact Hk.
  - unfold create_database. cbn. eexists. split; [reflexivity|].
    split; [apply Hconn; reflexivity|].
    intros t db schema Hin. cbn in Hin. apply in_app_or in Hin as [Hin|Hin].
    + exact (Hk _ _ _ Hin).
    + destruct Hin as [E|[]]. injection E as <- <- <-. split; [exact He|].
      intros k d kind Hr.
      destruct (schema_refers_back _ _ _ _ _ _ Hr) as (target & -> & Hlt).
      destruct (Hc _ Hlt) as [_ [db' ->]]. discriminate.
Qed.

Lemma setup_loop_spec (members : string -> list PyStr.str)
    (existing : list (string * DbId)) (entries : list (string * Cls)) :
  forall n s,
    map (fun entry => position (snd entry)) entries = seq n (List.length entries) ->
    connected_below n s -> created_complete existing s ->
    exists s',
      setup_loop members existing entries s = Ok s' /\
      connected_below (n + List.length entries) s' /\ created_complete existing s'.
Proof.
  induction entries as [|[title cls] rest IH]; intros n s Hpos Hc Hk.
  - exists s. cbn. rewrite Nat.add_0_r. auto.
  - cbn [map snd List.length seq] in Hpos. injection Hpos as Hcls Hrest.
    rewrite <- Hcls in Hc.
    destruct (setup_step_spec members existing title cls s Hc Hk)
      as (s1 & Hs1 & Hc1 & Hk1).
    rewrite Hcls in Hc1.
    destruct (IH (S n) s1 Hrest Hc1 Hk1) as (s' & Hs' & Hc' & Hk').
    exists s'. cbn [setup_loop]. rewrite Hs1. cbn [rbind].
    split; [exact Hs'|]. split; [|exact Hk'].
    cbn [List.length]. rewrite Nat.add_succ_r. exact Hc'.
Qed.

End SetupFacts.

Section SetupProperties.

Import Notion Schemas Setup.
Local Open Scope string_scope.
Local Open Scope list_scope.

(** X10.  The databases are made in an order that works.  When
    [MAIN_GAMES_DB_NAME] is none of the titles written in
    [notion_db_types], the loop that creates and connects the databases
    ends, whatever databases the main page already has; afterwards every
    registered class has a session and a database; a database was asked
    for only under a title that none was found under; and every schema
    sent names a database in each of its relations: the classes it refers
    to were connected in an earlier turn. *)
Theorem setup_connects_in_order (members : string -> list PyStr.str)
    (MAIN_GAMES_DB_NAME : string) (children : list (string * DbId)) :
  ~ In MAIN_GAMES_DB_NAME (map fst fixed_db_types) ->
  exists s,
    setup members MAIN_GAMES_DB_NAME children = Ok s /\
    (forall c, session_of s c = true /\ exists db, database_of s c = Some db) /\
    (forall title db schema,
        In (title, db, schema) (created s) ->
        assoc title (existing_dbs MAIN_GAMES_DB_NAME children) = None /\
        forall k d kind, In (k, relation_schema d kind) schema -> d <> None).
Proof.
  intros Hn. unfold setup. rewrite (notion_db_types_distinct _ Hn).
  destruct (setup_loop_spec members (existing_dbs MAIN_GAMES_DB_NAME children)
              (fixed_db_types ++ [(MAIN_GAMES_DB_NAME, CustomGamePage)]) 0 initial)
    as (s & Hs & Hc & Hk).
  - apply positions_as_written.
  - intros c Hc. inversion Hc.
  - intros title db schema [].
  - exists s. split; [exact Hs|]. split; [|exact Hk].
    intros c. apply Hc. apply (position_below c).
Qed.

(** A main page that has the genres and the games under other titles *)
Lemma setup_connects_in_order_witness :
  exists s,
    setup (fun _ => []) "Games" [("Genres", 7); ("Notes", 8); ("Games", 9)] = Ok s /\
    (forall c, session_of s c = true /\ exists db, database_of s c = Some db) /\
    (forall title db schema,
        In (title, db, schema) (created s) ->
        assoc title (existing_dbs "Games" [("Genres", 7); ("Notes", 8); ("Games", 9)])
          = None /\
        forall k d kind, In (k, relation_schema d kind) schema -> d <> None).
Proof.
  apply (setup_connects_in_order (fun _ => []) "Games"
           [("Genres", 7); ("Notes", 8); ("Games", 9)]).
  vm_compute. intuition discriminate.
Defined.

(** Why the title must be new: under the title of the genres, the
    composite page takes the place of the genres in [notion_db_types];
    its database is asked for before the databases it refers to exist
    (the schema sent has a relation to no database), and the class of the
    genres is never connected. *)
Lemma setup_with_clashing_title :
  rbind (setup (fun _ => []) "Genres" [])
    (fun s =>
       Ok (database_of s Genre,
           existsb (fun sent =>
                      String.eqb (fst (fst sent)) "Genres" &&
                      existsb (fun ks => match snd ks with
                                         | relation_schema None _ => true
                                         | _ => false
                                         end) (snd sent))
                   (created s)))
  = Ok (None, true).
Proof. vm_compute. reflexivity. Qed.

End SetupProperties.

(* ===================================================================== *)
(** * The fields asked of the API, and the records handed on *)
(* ===================================================================== *)

Section CallsFacts.

Import Notion Workspace.

Context {C : Type} (rank : C -> nat).
Variable R : C -> PyVal -> Prop.

Lemma calls_all_pbind {A B} (p : Prog C A) (f : A -> Prog C B) :
  calls_all R p -> (forall a, calls_all R (f a)) -> calls_all R (pbind p f).
Proof.
  intros Hp Hf. induction p as [a|e|c d hs k IH|c q k IH]; cbn in *; auto.
  destruct Hp as [Hr Hk]. auto.
Qed.

Lemma calls_none {A} (p : Prog C A) : calls_below rank 0 p -> calls_all R p.
Proof.
  induction 1 as [a|e|c d hs k Hlt _ _|c f k _ IH]; cbn; auto.
  inversion Hlt.
Qed.

Lemma calls_all_lift {A} (x : Result A) : calls_all R (@lift C A x).
Proof. destruct x; exact I. Qed.

Lemma calls_all_dict_literal {V} (entries : list (string * Prog C V)) :
  Forall (fun kp => calls_all R (snd kp)) entries ->
  calls_all R (dict_literal entries).
Proof.
  induction 1 as [|[k p] t Hp _ IH]; cbn [dict_literal]; [exact I|].
  apply calls_all_pbind; [exact Hp|]. intros v.
  apply calls_all_pbind; [exact IH|]. intros d. exact I.
Qed.

Lemma calls_all_for_each (c : C) (l : list PyVal) :
  (forall x, In x l -> R c x) ->
  calls_all R (for_each (fun x => Call c x [] Ret) l).
Proof.
  induction l as [|x t IH]; intros Hl; cbn [for_each]; [exact I|].
  cbn [pbind calls_all]. split; [apply Hl; left; reflexivity|]. intros page.
  apply calls_all_pbind; [|intros; exact I]. apply IH.
  intros y Hy. apply Hl. right. exact Hy.
Qed.

End CallsFacts.

Section AskedFacts.

Import Notion Workspace PageCode Schemas.
Local Open Scope string_scope.
Local Open Scope list_scope.

Variable fields : list PyStr.str.
Variable data : PyVal.

Lemma asked_relation_one (c : Cls) (a : string) (sub : list PyStr.str) :
  get_query_fields c = Some sub ->
  (forall f, In f sub -> In (py a ++ py "." ++ f) fields) ->
  calls_all (asked_under fields data) (relation_one c (path data [a])).
Proof.
  intros Hc Hs. unfold relation_one. cbn [path].
  destruct (getattr data a) as [u|e] eqn:Hu; cbn; [|exact I].
  split; [|intros; exact I]. exists a, sub. split; [|auto].
  exists u. auto.
Qed.

Lemma asked_for_each (c : Cls) (a : string) (sub : list PyStr.str) u l0 l :
  get_query_fields c = Some sub ->
  (forall f, In f sub -> In (py a ++ py "." ++ f) fields) ->
  getattr data a = Ok u -> py_iter u = Ok l0 -> incl l l0 ->
  calls_all (asked_under fields data) (for_each (fun x => Call c x [] Ret) l).
Proof.
  intros Hc Hs Hu Hl Hi. apply calls_all_for_each. intros x Hx.
  exists a, sub. split; [|auto]. exists u. split; [exact Hu|]. right.
  exists l0. split; [exact Hl | apply Hi, Hx].
Qed.

Lemma asked_relation_each (c : Cls) (a : string) (sub : list PyStr.str) :
  get_query_fields c = Some sub ->
  (forall f, In f sub -> In (py a ++ py "." ++ f) fields) ->
  calls_all (asked_under fields data) (relation_each c (path data [a])).
Proof.
  intros Hc Hs. unfold relation_each. cbn [path].
  destruct (getattr data a) as [u|e] eqn:Hu; cbn [lift pbind]; [|exact I].
  destruct (py_iter u) as [l|e] eqn:Hl; cbn [lift pbind]; [|exact I].
  apply calls_all_pbind; [|intros; exact I].
  eapply asked_for_each; eauto. apply incl_refl.
Qed.

Lemma in_firstn {A} (n : nat) (l : list A) (x : A) :
  In x (firstn n l) -> In x l.
Proof.
  intros H. rewrite <- (firstn_skipn n l). apply in_or_app. left. exact H.
Qed.

Lemma py_iter_slice (n : nat) (u u' : PyVal) (l' : list PyVal) :
  py_slice_to n u = Ok u' -> py_iter u' = Ok l' ->
  exists l, py_iter u = Ok l /\ incl l' l.
Proof.
  destruct u; cbn; intros H; try discriminate; injection H as <-; cbn;
    intros H; injection H as <-; eexists; (split; [reflexivity|]).
  - rewrite <- firstn_map. intros x Hx. exact (in_firstn _ _ _ Hx).
  - intros x Hx. exact (in_firstn _ _ _ Hx).
Qed.

Lemma asked_relation_each_slice (c : Cls) (a : string) (n : nat)
    (sub : list PyStr.str) :
  get_query_fields c = Some sub ->
  (forall f, In f sub -> In (py a ++ py "." ++ f) fields) ->
  calls_all (asked_under fields data) (relation_each c (slice n (path data [a]))).
Proof.
  intros Hc Hs. unfold relation_each, slice. cbn [path].
  destruct (getattr data a) as [u|e] eqn:Hu; cbn [lift pbind]; [|exact I].
  destruct (py_slice_to n u) as [u'|e] eqn:Hu'; cbn [lift pbind]; [|exact I].
  destruct (py_iter u') as [l'|e] eqn:Hl'; cbn [lift pbind]; [|exact I].
  destruct (py_iter_slice _ _ _ _ Hu' Hl') as (l & Hl & Hi).
  apply calls_all_pbind; [|intros; exact I].
  eapply asked_for_each; eauto.
Qed.

End AskedFacts.

Ltac no_calls :=
  repeat first
    [ apply Forall_nil
    | apply Forall_cons; [cbn [snd]|]
    | apply calls_below_fstring
    | apply calls_below_title_; apply calls_below_fstring
    | exact I
    | solve [auto 6 with ranked] ].

Ltac asked_fields :=
  let f := fresh "f" in
  let Hf := fresh "Hf" in
  intros f Hf;
  repeat first
    [ apply in_or_app; left; exact (in_map _ _ _ Hf)
    | exact (in_map _ _ _ Hf)
    | apply in_or_app; right ].

Ltac asked_entry :=
  first
    [ eapply asked_relation_one; [reflexivity | asked_fields]
    | eapply asked_relation_each_slice; [reflexivity | asked_fields]
    | eapply asked_relation_each; [reflexivity | asked_fields]
    | apply (calls_none Main.rank); no_calls ].

Ltac asked_entries :=
  repeat first
    [ apply Forall_nil
    | apply Forall_cons; [cbn [snd]; asked_entry|] ].

Ltac asked_properties :=
  lazymatch goal with
  | |- Workspace.calls_all _ (Notion.pbind _ _) =>
      apply calls_all_pbind;
      [apply (calls_none Main.rank); no_calls | intros ?; asked_properties]
  | |- Workspace.calls_all _ (Notion.dict_literal _) =>
      apply calls_all_dict_literal; asked_entries
  end.

Section QueryProperties.

Import Notion Workspace PageCode Schemas.
Local Open Scope string_scope.
Local Open Scope list_scope.

(** X11.  What is handed on was asked for.  For every IGDB class, each
    record that the serializer of the class hands to
    [retrieve_or_create_from_data] of another class is an attribute of the
    record being serialized, or an element of one, and the fields that the
    class asks of the API hold, under the name of that attribute, every
    field that the other class asks for its own records. *)
Theorem handed_records_were_asked_for (env : Builtins) (cls : Cls)
    (fields : list PyStr.str) (data : PyVal) :
  get_query_fields cls = Some fields ->
  calls_all (asked_under fields data)
    (get_notion_properties (Main.classes env cls) data).
Proof.
  destruct cls; cbn [get_query_fields]; intros H; try discriminate H;
    injection H as <-;
    cbn [Main.classes get_notion_properties];
    match goal with |- calls_all _ ?p =>
      let h := head_of p in unfold h end;
    match goal with |- calls_all (asked_under ?fs _) _ =>
      let h := head_of fs in unfold h end;
    asked_properties.
Qed.

(** The games, whose fields go into the query of [main] *)
Lemma handed_records_were_asked_for_witness :
  calls_all (asked_under Game_get_query_fields Samples.game_42)
    (get_notion_properties (Main.classes Samples.env Game) Samples.game_42).
Proof.
  apply (handed_records_were_asked_for Samples.env Game Game_get_query_fields
           Samples.game_42).
  reflexivity.
Defined.

End QueryProperties.

(* ===================================================================== *)
(** * The hints of the overrides *)
(* ===================================================================== *)

Section HintFacts.

Import Notion PageCode.
Local Open Scope string_scope.

Variable env : Builtins.

Lemma image_hints_given image icon_replace cover_replace data icon cover :
  truthy icon = true -> truthy cover = true ->
  Igdb.image_hints env image icon_replace cover_replace data icon cover
  = Ok (icon, cover).
Proof.
  intros Hi Hc. unfold Igdb.image_hints. rewrite Hi, Hc. reflexivity.
Qed.

Lemma image_hints_keep image icon_replace cover_replace data icon cover i c :
  Igdb.image_hints env image icon_replace cover_replace data icon cover
  = Ok (i, c) ->
  (truthy icon = true -> i = icon) /\ (truthy cover = true -> c = cover).
Proof.
  unfold Igdb.image_hints.
  match goal with |- rbind ?first _ = _ -> _ => destruct first as [i0|e] eqn:Hf end;
    cbn [rbind]; [|discriminate].
  destruct (negb (truthy cover) && truthy i0) eqn:Hb.
  - destruct (py_replace _ _ i0) as [c0|e]; cbn [rbind]; [|discriminate].
    intros H. injection H as <- <-. split.
    + intros Hi. rewrite Hi in Hf. cbn in Hf. congruence.
    + intros Hc. rewrite Hc in Hb. discriminate.
  - cbn [rbind]. intros H. injection H as <- <-. split; [|reflexivity].
    intros Hi. rewrite Hi in Hf. cbn in Hf. congruence.
Qed.

End HintFacts.

Section HintProperties.

Import Notion PageCode.
Local Open Scope string_scope.

(** X12.  The overrides never replace a hint they are given.  For every
    class that overrides [retrieve_or_create_from_data], an icon or a
    cover that the caller passes (a truthy value) is the one handed to the
    inherited method; and when both are passed the record is not read for
    them, so the hints are computed without error. *)
Theorem overrides_keep_given_hints (env : Builtins) (cls : Cls)
    (adjust : PyVal -> PyVal -> PyVal -> Result (PyVal * PyVal))
    (data icon cover : PyVal) :
  override_hints (Main.classes env cls) = Some adjust ->
  (truthy icon = true -> truthy cover = true ->
   adjust data icon cover = Ok (icon, cover)) /\
  (forall i c,
      adjust data icon cover = Ok (i, c) ->
      (truthy icon = true -> i = icon) /\ (truthy cover = true -> c = cover)).
Proof.
  intros H.
  assert (Himg : forall image ir cr,
            adjust = Igdb.image_hints env image ir cr ->
            (truthy icon = true -> truthy cover = true ->
             adjust data icon cover = Ok (icon, cover)) /\
            (forall i c,
                adjust data icon cover = Ok (i, c) ->
                (truthy icon = true -> i = icon) /\
                (truthy cover = true -> c = cover))).
  { intros image ir cr ->. split.
    - apply image_hints_given.
    - apply image_hints_keep. }
  destruct cls; cbn [Main.classes override_hints] in H; try discriminate H;
    injection H as <-;
    try (match goal with |- context [?f env] =>
           unfold f end; eapply Himg; reflexivity).
  - (* HLTBNotionPage *)
    unfold Hltb.HLTBNotionPage_override_hints. split.
    + intros -> ->. reflexivity.
    + intros i c.
      destruct (truthy icon); destruct (truthy cover); cbn [rbind];
        repeat match goal with
               | |- context [getattr ?d ?n] => destruct (getattr d n); cbn [rbind]
               end;
        intros E; try discriminate E; injection E as <- <-;
        split; intros; first [reflexivity | discriminate].
  - (* SteamSpyNotionPage *)
    unfold SteamSpy.SteamSpyNotionPage_override_hints. split.
    + intros -> ->. reflexivity.
    + intros i c.
      destruct (truthy icon); destruct (truthy cover); cbn [rbind];
        repeat match goal with
               | |- context [getattr ?d ?n] => destruct (getattr d n); cbn [rbind]
               end;
        intros E; try discriminate E; injection E as <- <-;
        split; intros; first [reflexivity | discriminate].
Qed.

(** A cover that comes with an icon and a cover image of the caller *)
Lemma overrides_keep_given_hints_witness :
  (truthy (PyStr (py "https://example.com/icon.png")) = true ->
   truthy (PyStr (py "https://example.com/cover.png")) = true ->
   Igdb.Cover_override_hints Samples.env Samples.default_Cover
     (PyStr (py "https://example.com/icon.png"))
     (PyStr (py "https://example.com/cover.png"))
   = Ok (PyStr (py "https://example.com/icon.png"),
         PyStr (py "https://example.com/cover.png"))) /\
  (forall i c,
      Igdb.Cover_override_hints Samples.env Samples.default_Cover
        (PyStr (py "https://example.com/icon.png"))
        (PyStr (py "https://example.com/cover.png")) = Ok (i, c) ->
      (truthy (PyStr (py "https://example.com/icon.png")) = true ->
       i = PyStr (py "https://example.com/icon.png")) /\
      (truthy (PyStr (py "https://example.com/cover.png")) = true ->
       c = PyStr (py "https://example.com/cover.png"))).
Proof.
  apply (overrides_keep_given_hints Samples.env Cover).
  reflexivity.
Defined.

End HintProperties.

(* ===================================================================== *)
(** * Timestamps in seconds and in milliseconds *)
(* ===================================================================== *)

Section TimestampProperties.

Import Timestamps.
Local Open Scope Z_scope.

Lemma timedelta_small (s u : Z) :
  -80000000000000 <= s <= 80000000000000 -> 0 <= u < 1000000 ->
  timedelta s u = Ok (s * 1000000 + u).
Proof.
  intros Hs Hu. unfold timedelta. cbv zeta.
  destruct (Z.abs ((s * 1000000 + u) / 86400000000) >? 999999999) eqn:E;
    [|reflexivity].
  apply Z.gtb_lt in E.
  assert (-925925926 <= (s * 1000000 + u) / 86400000000 <= 925925926).
  { split.
    - apply Z.div_le_lower_bound; lia.
    - apply Z.div_le_upper_bound; lia. }
  lia.
Qed.

(** X13.  Milliseconds are told from seconds by size.  For an instant
    from 2001-09-09T01:46:40 to the end of the year 9999, the timestamp
    that counts it in milliseconds gives the datetime of the timestamp
    that counts it in seconds: that many seconds after 1970-01-01, the
    part of the count below the second dropped, the nanoseconds counted
    by the million. *)
Theorem milliseconds_read_as_seconds (s r n : Z) :
  1000000000 <= s <= 253402300799 -> 0 <= r < 1000 -> 0 <= n < 1000000000 ->
  _to_datetime (mkTimestamp (1000 * s + r) n)
    = _to_datetime (mkTimestamp s (1000 * (n / 1000000))) /\
  _to_datetime (mkTimestamp s (1000 * (n / 1000000)))
    = Ok (s * 1000000 + n / 1000000).
Proof.
  intros Hs Hr Hn.
  assert (Hq : 0 <= n / 1000000 < 1000)
    by (split; [apply Z.div_pos; lia | apply Z.div_lt_upper_bound; lia]).
  assert (Hms : (1000 * s + r) / 1000 = s).
  { rewrite Z.mul_comm, Z.div_add_l by lia. rewrite (Z.div_small r) by lia. lia. }
  assert (Hus : 1000 * (n / 1000000) / 1000 = n / 1000000).
  { rewrite Z.mul_comm. apply Z.div_mul. lia. }
  unfold _to_datetime. cbn [seconds nanos].
  destruct (1000 * s + r <? 1000000000000) eqn:E1; [apply Z.ltb_lt in E1; lia|].
  destruct (s <? 1000000000000) eqn:E2; [|apply Z.ltb_ge in E2; lia].
  rewrite Hms, Hus, (timedelta_small s (n / 1000000)) by lia.
  split; [reflexivity|]. cbn [rbind]. unfold DATETIME_ZERO_plus.
  destruct (datetime_min <=? _) eqn:A;
    [|apply Z.leb_gt in A; unfold datetime_min in A; lia].
  destruct (_ <=? datetime_max) eqn:B; [reflexivity|].
  apply Z.leb_gt in B. unfold datetime_max in B. lia.
Qed.

(** 2020-09-13T12:26:40.250, in milliseconds and in seconds *)
Lemma milliseconds_read_as_seconds_witness :
  _to_datetime (mkTimestamp (1000 * 1600000000 + 250) 999999999)
    = _to_datetime (mkTimestamp 1600000000 (1000 * (999999999 / 1000000))) /\
  _to_datetime (mkTimestamp 1600000000 (1000 * (999999999 / 1000000)))
    = Ok (1600000000 * 1000000 + 999999999 / 1000000).
Proof.
  apply (milliseconds_read_as_seconds 1600000000 250 999999999); lia.
Defined.

(** X14.  Between the two readings there is a gap.  A count from
    253402300800 up to 10^12 is read as seconds and lies after the year
    9999: the conversion raises an overflow error.  So the millisecond
    timestamps of the instants from 1978-01-11T21:31:40.8 to
    2001-09-09T01:46:40 are refused (and those of earlier instants are
    read as seconds). *)
Theorem timestamps_between_are_refused (s n : Z) :
  253402300800 <= s < 1000000000000 -> 0 <= n < 1000000000 ->
  _to_datetime (mkTimestamp s n) = Raise (OtherError "OverflowError").
Proof.
  intros Hs Hn. unfold _to_datetime. cbn [seconds nanos].
  destruct (s <? 1000000000000) eqn:E2; [|apply Z.ltb_ge in E2; lia].
  assert (Hu : 0 <= n / 1000 < 1000000)
    by (split; [apply Z.div_pos; lia | apply Z.div_lt_upper_bound; lia]).
  rewrite (timedelta_small s (n / 1000)) by lia. cbn [rbind].
  unfold DATETIME_ZERO_plus.
  destruct (_ <=? datetime_max) eqn:B;
    [apply Z.leb_le in B; unfold datetime_max in B; lia|].
  rewrite Bool.andb_false_r. reflexivity.
Qed.

(** 1990-01-01T00:00:00 in milliseconds *)
Lemma timestamps_between_are_refused_witness :
  _to_datetime (mkTimestamp 631152000000 0) = Raise (OtherError "OverflowError").
Proof.
  apply (timestamps_between_are_refused 631152000000 0); lia.
Defined.

End TimestampProperties.

(* ===================================================================== *)
(** * Rollups, and calls before [connect] *)
(* ===================================================================== *)

Section RollupProperties.

Import Notion Schemas Setup.
Local Open Scope string_scope.
Local Open Scope list_scope.

Ltac rollup_entry H :=
  first
    [ discriminate H
    | injection H as _ <- <- _;
      eexists; eexists; eexists;
      split; [reflexivity|]; split; [cbv; repeat constructor | reflexivity] ].

(** X15.  Rollups name what is declared.  In the schema of every
    registered class, a rollup goes through a relation of the same schema,
    the relation points to the database of a class written earlier in
    [notion_db_types], and the property rolled up is a property of the
    schema of that class. *)
Theorem rollups_name_declared_properties (members : string -> list PyStr.str)
    (database : Cls -> option DbId) (cls : Cls) (k p r f : string) :
  In (k, rollup_schema p r f) (get_notion_schema members database cls) ->
  exists target kind s,
    assoc r (get_notion_schema members database cls)
      = Some (relation_schema (database target) kind) /\
    position target < position cls /\
    assoc p (get_notion_schema members database target) = Some s.
Proof.
  destruct cls; cbn [get_notion_schema];
    match goal with |- In _ ?s -> _ => let h := head_of s in unfold h end;
    cbn [In]; intros H;
    repeat (destruct H as [H|H]; [rollup_entry H|]); destruct H.
Qed.

(** The review score of the composite page, rolled up from the page of
    How Long to Beat *)
Lemma rollups_name_declared_properties_witness :
  exists target kind s,
    assoc "How Long to Beat" (get_notion_schema (fun _ => []) (fun c => Some (Samples.db c)) CustomGamePage)
      = Some (relation_schema (Some (Samples.db target)) kind) /\
    position target < position CustomGamePage /\
    assoc "Review Score" (get_notion_schema (fun _ => []) (fun c => Some (Samples.db c)) target) = Some s.
Proof.
  apply (rollups_name_declared_properties (fun _ => []) (fun c => Some (Samples.db c)) CustomGamePage
           "HLTB Review Score" "Review Score" "How Long to Beat" "show_original").
  vm_compute. tauto.
Defined.

End RollupProperties.

Section UnconnectedProperties.

Import Notion Workspace.
Local Open Scope string_scope.
Local Open Scope list_scope.

Lemma query_first_unconnected {C} (cls : C) (f : Filter) (w : World C) :
  session w cls = false \/ database w cls = None ->
  exists msg, query_first cls f w = (Raises (ValueError msg), w).
Proof.
  intros H. unfold query_first. destruct (session w cls) eqn:Hs; cbn [negb].
  - destruct H as [H|H]; [discriminate|]. rewrite H. eauto.
  - eauto.
Qed.

(** X16.  A call before [connect] fails at once.  When the class of a
    record with a numeric key has no session or no database, and the
    call is not answered from a cache, [retrieve_or_create_from_data]
    raises the [ValueError] of the query: the error is not retried,
    nothing is slept, written, logged or cached, and the world is left as
    it was. *)
Theorem unconnected_class_fails_at_once (env : Builtins) (fuel : nat) (cls : Cls)
    (k : string) (data v : PyVal) (hints : Hints) (w : World Cls) :
  natural_key cls = Some k -> getattr data k = Ok v ->
  session w cls = false \/ database w cls = None ->
  base_cache w = [] -> override_cache w = [] ->
  (forall adjust, override_hints (Main.classes env cls) = Some adjust ->
     exists ic, adjust data (icon_url_of hints) (cover_url_of hints) = Ok ic) ->
  exists msg,
    Main.retrieve_or_create_from_data env (S fuel) cls data hints w
      = (Raises (ValueError msg), w).
Proof.
  intros Hk Hv Hu Hb Ho Hadj.
  pose proof (numeric_retrieve env cls k data v Hk Hv) as Hret.
  destruct (query_first_unconnected cls (NumberEquals "ID" v) w Hu) as [msg Hq].
  exists msg.
  assert (Hbase : forall h hs,
            base_retrieve_or_create Cls_eq_dec (Main.classes env) h cls data hs w
            = (Raises (ValueError msg), w)).
  { intros h hs. unfold base_retrieve_or_create, lru_cache. rewrite Hb.
    cbn [cache_get]. unfold retry, retrying.
    rewrite (retry_loop_not_retried _ _ _ w w (ValueError msg));
      [reflexivity | | reflexivity].
    unfold retrieve_or_create_body, mbind. rewrite Hret. cbn [interp].
    unfold mbind. rewrite Hq. reflexivity. }
  unfold Main.retrieve_or_create_from_data. cbn [retrieve_or_create_from_data].
  unfold dispatch.
  destruct (override_hints (Main.classes env cls)) as [adjust|] eqn:Hov;
    [|apply Hbase].
  destruct (Hadj adjust eq_refl) as [[icon cover] Hic].
  unfold lru_cache. rewrite Ho. cbn [cache_get]. unfold mbind, mlift.
  rewrite Hic. cbn [mret]. rewrite Hbase. reflexivity.
Qed.

(** Game 42 before any class is connected *)
Lemma unconnected_class_fails_at_once_witness :
  exists msg,
    Main.retrieve_or_create_from_data Samples.env 8 Game Samples.game_42 []
      (mkWorld false (fun _ => false) (fun _ => None) [] 0 0 [] [] [] [] [])
      = (Raises (ValueError msg), mkWorld false (fun _ => false) (fun _ => None) [] 0 0 [] [] [] [] []).
Proof.
  apply (unconnected_class_fails_at_once Samples.env 7 Game "id" Samples.game_42
           (PyInt 42) [] (mkWorld false (fun _ => false) (fun _ => None) [] 0 0 [] [] [] [] [])).
  - reflexivity.
  - reflexivity.
  - left. reflexivity.
  - reflexivity.
  - reflexivity.
  - intros adjust H. injection H as <-. eexists. vm_compute. reflexivity.
Defined.

End UnconnectedProperties.

(* ===================================================================== *)
(** * The retry policy at its limit *)
(* ===================================================================== *)

Section ExhaustionFacts.

Import Notion Workspace.
Local Open Scope list_scope.

Context {C : Type} (C_eq_dec : forall a b : C, {a = b} + {a <> b}).
Context (classes : C -> PageClass C).

Variables (h : Handler C) (cls : C) (data : PyVal) (hints : Hints) (f : Filter).

Hypothesis Hret : retrieve_from_data (classes cls) data = QueryFirst cls f Ret.

(** As many transient faults as attempts: every attempt makes its request
    and fails, a sleep follows each attempt but the last, and the last
    error is raised. *)
Lemma retry_loop_exhausts (db : DbId) (rest : list (option Exn)) (d : Exn) :
  forall es left slept w,
    List.length es = S left ->
    Forall (fun e => Tenacity.retry_if_exception_type e = true) es ->
    session w cls = true -> database w cls = Some db ->
    faults w = map Some es ++ rest ->
    exists w_end ws,
      retry_loop left slept (retrieve_or_create_body classes h cls data hints) w
        = (Raises (last es d), w_end,
           mkRetryState Tenacity.max_attempt_number (slept ++ ws)) /\
      List.length ws = left /\
      log w_end = log w ++ attempts_log C es ws /\
      faults w_end = rest /\ store w_end = store w /\
      base_cache w_end = base_cache w /\ override_cache w_end = override_cache w.
Proof.
  induction es as [|e es IH]; intros left slept w Hlen Hall Hs Hd Hf;
    [discriminate|].
  inversion Hall as [|? ? He Hall']; subst.
  cbn [map app] in Hf.
  pose proof (body_faulted classes h cls data hints f Hret w db e _ Hs Hd Hf) as Hb.
  destruct es as [|e2 es].
  - (* the last attempt *)
    cbn [List.length] in Hlen. injection Hlen as <-.
    cbn [retry_loop]. rewrite Hb, He.
    eexists. exists []. rewrite app_nil_r, Nat.sub_0_r.
    split; [reflexivity|]. split; [reflexivity|].
    cbn. repeat split; reflexivity.
  - destruct left as [|left]; [discriminate|].
    cbn [retry_loop]. rewrite Hb, He.
    set (w0 := emit (EvFault C e) (set_faults (map Some (e2 :: es) ++ rest) w)).
    assert (Hsl : exists seconds w2,
               sleep_before_retry (Tenacity.max_attempt_number - S left) w0
                 = (seconds, w2) /\
               log w2 = log w ++ [EvFault C e; EvSleep C seconds] /\
               faults w2 = map Some (e2 :: es) ++ rest /\
               session w2 = session w /\ database w2 = database w /\
               store w2 = store w /\ base_cache w2 = base_cache w /\
               override_cache w2 = override_cache w).
    { unfold sleep_before_retry. destruct (draws w0) as [|dr drs];
        eexists; eexists; (split; [reflexivity|]); cbn;
        rewrite <- app_assoc; repeat split; reflexivity. }
    destruct Hsl as (seconds & w2 & Hsl & Hl2 & Hf2 & Hs2 & Hd2 & Hst2 & Hb2 & Ho2).
    rewrite Hsl.
    destruct (IH left (slept ++ [seconds]) w2) as (w_end & ws & Hr & Hn & Hl & Hfa & Hst & Hbc & Hoc).
    + cbn [List.length] in *. lia.
    + exact Hall'.
    + rewrite Hs2. exact Hs.
    + rewrite Hd2. exact Hd.
    + exact Hf2.
    + exists w_end, (seconds :: ws). rewrite Hr, <- app_assoc.
      split; [reflexivity|]. split; [cbn; congruence|].
      split; [rewrite Hl, Hl2, <- app_assoc; reflexivity|].
      split; [exact Hfa|]. split; [congruence|]. split; congruence.
Qed.

End ExhaustionFacts.

Section ExhaustionClaim.

Import Notion Workspace.
Local Open Scope string_scope.
Local Open Scope list_scope.



End ExhaustionClaim.

(* ===================================================================== *)
(** * The cap on the keywords of a game *)
(* ===================================================================== *)

Section CapFacts.

Import Notion Workspace PageCode.
Local Open Scope string_scope.
Local Open Scope list_scope.

Lemma ends_dict_literal_at {C V} (G : C -> PageId -> Prop) (Q : V -> Prop)
    (entries : list (string * Prog C V)) (k : string) (p : Prog C V) :
  assoc k entries = Some p -> ends_with G Q p ->
  ends_with G (fun d => exists v, assoc k d = Some v /\ Q v) (dict_literal entries).
Proof.
  induction entries as [|[k0 p0] t IH]; cbn [assoc dict_literal]; [discriminate|].
  destruct (String.eqb k k0) eqn:E.
  - intros H Hp. injection H as ->.
    eapply ends_pbind; [exact Hp|]. intros v Hv.
    apply ends_pbind_any. intros d. cbn. rewrite E. eauto.
  - intros H Hp. apply ends_pbind_any. intros v.
    eapply ends_pbind; [exact (IH H Hp)|]. intros d Hd. cbn. rewrite E. exact Hd.
Qed.

Lemma ends_for_each_length {C} (G : C -> PageId -> Prop) (c : C) (l : list PyVal) :
  ends_with G (fun pages => List.length pages = List.length l)
    (for_each (fun x => Call c x [] Ret) l).
Proof.
  induction l as [|x t IH]; cbn [for_each]; [reflexivity|].
  cbn [pbind ends_with]. intros page _.
  eapply ends_pbind; [exact IH|]. intros pages Hp. cbn. congruence.
Qed.

Lemma py_iter_slice_length (n : nat) (u u' : PyVal) (l : list PyVal) :
  py_slice_to n u = Ok u' -> py_iter u' = Ok l -> List.length l <= n.
Proof.
  destruct u; cbn; intros H; try discriminate; injection H as <-; cbn;
    intros H; injection H as <-; rewrite ?length_map, length_firstn; lia.
Qed.

(** A relation over a slice lists at most as many pages as the slice is
    long. *)
Lemma ends_relation_each_capped (G : Cls -> PageId -> Prop) (c : Cls) (n : nat)
    (e : Prog Cls PyVal) :
  ends_with G (fun v => exists ids, v = relation ids /\ List.length ids <= n)
    (relation_each c (slice n e)).
Proof.
  unfold relation_each, slice.
  apply (ends_pbind G (fun v => forall l, py_iter v = Ok l -> List.length l <= n)).
  - apply ends_pbind_any. intros u.
    destruct (py_slice_to n u) as [u'|ex] eqn:Hu; cbn; [|exact I].
    intros l. apply py_iter_slice_length with u. exact Hu.
  - intros v Hv. destruct (py_iter v) as [l|ex] eqn:Hl; cbn [lift pbind]; [|exact I].
    eapply ends_pbind; [apply ends_for_each_length|].
    intros pages Hp. cbn. eexists. split; [reflexivity|].
    rewrite length_map, Hp. apply Hv. reflexivity.
Qed.

Variable env : Builtins.

(** Whatever class writes: a page of a game lists at most 100 keywords. *)
Lemma keywords_written_capped (G : Cls -> PageId -> Prop) (cls : Cls)
    (data : PyVal) :
  ends_with G
    (fun props => cls = Game ->
       exists ids, assoc "Keywords" props = Some (relation ids) /\
                   List.length ids <= 100)
    (get_notion_properties (Main.classes env cls) data).
Proof.
  destruct cls;
    try (apply (ends_impl G (fun _ => True));
         [intros a _ Hc; discriminate Hc | apply ends_any]).
  cbn [Main.classes get_notion_properties].
  unfold Igdb.Game_get_notion_properties.
  eapply ends_impl;
    [|eapply (ends_dict_literal_at G _ _ "Keywords");
      [reflexivity | apply ends_relation_each_capped]].
  intros d (v & Hv & ids & -> & Hlen) _. exists ids. split; [exact Hv | exact Hlen].
Qed.

(** The writes of a call: the pages of games list at most 100 keywords. *)
Lemma roc_keywords_capped fuel cls data hints (w w1 : World Cls) res :
  Main.retrieve_or_create_from_data env fuel cls data hints w = (res, w1) ->
  exists new,
    log w1 = log w ++ new /\
    forall page props,
      In (EvCreate Game page props) new \/ In (EvUpdate Game page props) new ->
      exists ids, assoc "Keywords" props = Some (relation ids) /\
                  List.length ids <= 100.
Proof.
  intros H.
  assert (Hc : conforms (fun _ _ _ => True)
                 (fun _ c props => c = Game ->
                    exists ids, assoc "Keywords" props = Some (relation ids) /\
                                List.length ids <= 100) w w1).
  { refine (proj1 (proj2
      (roc_sound Cls_eq_dec (Main.classes env) (fun _ => True) (fun _ _ _ => True)
         _ _ _ _ _ _ _ _ _ _ fuel cls data hints w res w1 I H))); auto.
    - intros G c d. apply keywords_written_capped.
    - intros G c d. apply retrieved_from_class. }
  destruct Hc as (new & Hl & Hw). exists new. split; [exact Hl|].
  intros page props Hin.
  apply (Hw Game props); [|reflexivity].
  destruct Hin as [Hin|Hin]; apply in_map_iff; eexists; (split; [|exact Hin]);
    reflexivity.
Qed.

(** The records that the serializer of a game hands to the class of the
    keywords are among the first [n] keywords. *)
Lemma calls_relation_each_slice (cls : Cls) (a : string) (n : nat)
    (data : PyVal) (l : list PyVal) :
  getattr data a = Ok (PyTuple l) ->
  calls_all (fun c v => c = cls -> In v (firstn n l))
    (relation_each cls (slice n (path data [a]))).
Proof.
  intros Ha. unfold relation_each, slice. cbn [path]. rewrite Ha.
  cbn [lift pbind py_slice_to py_iter].
  apply calls_all_pbind; [|intros; exact I].
  apply calls_all_for_each. intros x Hx _. exact Hx.
Qed.

Lemma calls_relation_one_other (R : Cls -> PyVal -> Prop) (cls : Cls)
    (e : Prog Cls PyVal) :
  calls_below Main.rank 0 e -> (forall v, R cls v) ->
  calls_all R (relation_one cls e).
Proof.
  intros He Hr. unfold relation_one.
  apply calls_all_pbind; [apply (calls_none Main.rank); exact He|].
  intros v. cbn. split; [apply Hr | intros; exact I].
Qed.

Lemma calls_relation_each_other (R : Cls -> PyVal -> Prop) (cls : Cls)
    (e : Prog Cls PyVal) :
  calls_below Main.rank 0 e -> (forall v, R cls v) ->
  calls_all R (relation_each cls e).
Proof.
  intros He Hr. unfold relation_each.
  apply calls_all_pbind; [apply (calls_none Main.rank); exact He|].
  intros v. apply calls_all_pbind; [apply calls_all_lift|]. intros l.
  apply calls_all_pbind; [|intros; exact I].
  apply calls_all_for_each. intros x _. apply Hr.
Qed.

End CapFacts.

Ltac capped_entry Hattr :=
  first
    [ apply calls_relation_one_other;
      [solve [no_calls] | let v := fresh in let Hc := fresh in intros v Hc; discriminate Hc]
    | apply calls_relation_each_other;
      [solve [no_calls] | let v := fresh in let Hc := fresh in intros v Hc; discriminate Hc]
    | apply calls_relation_each_slice; exact Hattr
    | apply (calls_none Main.rank); solve [no_calls] ].

Ltac capped_entries Hattr :=
  repeat first
    [ apply Forall_nil
    | apply Forall_cons; [cbn [snd]; capped_entry Hattr|] ].

Section BudgetFacts.

Import Notion Workspace.
Local Open Scope list_scope.

Context {C : Type} (C_eq_dec : forall a b : C, {a = b} + {a <> b}).
Context (classes : C -> PageClass C) (rank : C -> nat).
Variable c0 : C.

Local Abbreviation at_most := (calls_at_most C_eq_dec rank c0).
Local Abbreviation creates := (Notion.creates C_eq_dec).
Local Abbreviation updates := (Notion.updates C_eq_dec).

Lemma calls_at_most_mono {A} (p : Prog C A) :
  forall n m, n <= m -> at_most n p -> at_most m p.
Proof.
  induction p as [a|e|c d hs k IH|c q k IH]; cbn; auto.
  - intros n m Hle. destruct (C_eq_dec c c0).
    + destruct n as [|n]; [intros []|]. destruct m as [|m]; [lia|].
      intros H page. apply (IH page n m); [lia | apply H].
    + intros [Hr H]. split; [exact Hr|]. intros page. apply (IH page n m); auto.
  - intros n m Hle H found. apply (IH found n m); auto.
Qed.

Lemma calls_at_most_pbind {A B} (p : Prog C A) (f : A -> Prog C B) (n2 : nat) :
  (forall a, at_most n2 (f a)) ->
  forall n1, at_most n1 p -> at_most (n1 + n2) (pbind p f).
Proof.
  intros Hf. induction p as [a|e|c d hs k IH|c q k IH]; cbn [pbind calls_at_most].
  - intros n1 _. apply (calls_at_most_mono _ n2); [lia | apply Hf].
  - auto.
  - intros n1. destruct (C_eq_dec c c0).
    + destruct n1 as [|n1]; [intros []|]. intros H page.
      cbn [Nat.add]. apply IH, H.
    + intros [Hr H]. split; [exact Hr|]. intros page. apply IH, H.
  - intros n1 H found. apply IH, H.
Qed.

Lemma calls_at_most_none {A} (p : Prog C A) :
  calls_below rank 0 p -> at_most 0 p.
Proof.
  induction 1 as [a|e|c d hs k Hlt _ _|c f k _ IH]; cbn; auto.
  inversion Hlt.
Qed.

Lemma calls_at_most_dict_literal {V} (entries : list (string * Prog C V))
    (budgets : list nat) :
  Forall2 (fun kp n => at_most n (snd kp)) entries budgets ->
  at_most (list_sum budgets) (dict_literal entries).
Proof.
  induction 1 as [|[k p] n t ns Hp _ IH]; cbn [dict_literal list_sum fold_right];
    [exact I|].
  apply calls_at_most_pbind; [|exact Hp]. intros v.
  apply (calls_at_most_mono _ (list_sum ns + 0)); [unfold list_sum; lia|].
  apply calls_at_most_pbind; [intros d; exact I | exact IH].
Qed.

Lemma calls_at_most_for_each (l : list PyVal) :
  at_most (List.length l) (for_each (fun x => Call c0 x [] Ret) l).
Proof.
  induction l as [|x t IH]; cbn [for_each List.length]; [exact I|].
  cbn [pbind calls_at_most].
  destruct (C_eq_dec c0 c0) as [_|Hn]; [|destruct Hn; reflexivity].
  intros page. apply (calls_at_most_mono _ (List.length t + 0)); [lia|].
  apply calls_at_most_pbind; [intros; exact I | exact IH].
Qed.

Lemma calls_at_most_for_each_other (c : C) (l : list PyVal) :
  rank c < rank c0 ->
  at_most 0 (for_each (fun x => Call c x [] Ret) l).
Proof.
  intros Hr. induction l as [|x t IH]; cbn [for_each]; [exact I|].
  cbn [pbind calls_at_most].
  destruct (C_eq_dec c c0) as [->|_]; [lia|]. split; [exact Hr|].
  intros page.
  exact (calls_at_most_pbind (for_each (fun x => Call c x [] Ret) t)
           (fun ys => Ret (page :: ys)) 0 (fun _ => I) 0 IH).
Qed.

(** Under a handler whose calls on [c0] write at most one page of [c0]
    and whose calls on the classes below write none, code that calls
    [c0] at most [n] times writes at most [n] pages of [c0]. *)
Lemma interp_writes_at_most (h : Handler C) {A} (p : Prog C A) :
  (forall c d hs w res w1,
      h c d hs w = (res, w1) -> c = c0 \/ rank c < rank c0 ->
      exists new, log w1 = log w ++ new /\
                  creates c0 new + updates c0 new
                    <= (if C_eq_dec c c0 then 1 else 0)) ->
  forall n w res w1,
    at_most n p -> interp h p w = (res, w1) ->
    exists new, log w1 = log w ++ new /\ creates c0 new + updates c0 new <= n.
Proof.
  intros Hh. induction p as [a|e|c d hs k IH|c f k IH]; intros n w res w1 Hp H;
    cbn [interp] in H.
  - injection H as <- <-. exists []. rewrite app_nil_r. split; [reflexivity|cbn; lia].
  - injection H as <- <-. exists []. rewrite app_nil_r. split; [reflexivity|cbn; lia].
  - cbn [calls_at_most] in Hp. unfold mbind in H.
    destruct (h c d hs w) as [r0 w0] eqn:Eh.
    destruct (C_eq_dec c c0) as [Hc|Hc].
    + destruct n as [|n]; [destruct Hp|].
      destruct (Hh _ _ _ _ _ _ Eh (or_introl Hc)) as (n1 & Hn1 & Hle1).
      destruct (C_eq_dec c c0) as [_|Hn]; [|destruct (Hn Hc)].
      destruct r0 as [page|e|].
      * destruct (IH page n _ _ _ (Hp page) H) as (n2 & Hn2 & Hle2).
        exists (n1 ++ n2). rewrite Hn2, Hn1, app_assoc. split; [reflexivity|].
        rewrite (creates_app C_eq_dec), (updates_app C_eq_dec). lia.
      * injection H as <- <-. exists n1. split; [exact Hn1 | lia].
      * injection H as <- <-. exists n1. split; [exact Hn1 | lia].
    + destruct Hp as [Hr Hp].
      destruct (Hh _ _ _ _ _ _ Eh (or_intror Hr)) as (n1 & Hn1 & Hle1).
      destruct (C_eq_dec c c0) as [Hy|_]; [destruct (Hc Hy)|].
      destruct r0 as [page|e|].
      * destruct (IH page n _ _ _ (Hp page) H) as (n2 & Hn2 & Hle2).
        exists (n1 ++ n2). rewrite Hn2, Hn1, app_assoc. split; [reflexivity|].
        rewrite (creates_app C_eq_dec), (updates_app C_eq_dec). lia.
      * injection H as <- <-. exists n1. split; [exact Hn1 | lia].
      * injection H as <- <-. exists n1. split; [exact Hn1 | lia].
  - cbn [calls_at_most] in Hp. unfold mbind in H.
    destruct (query_first c f w) as [r0 w0] eqn:Eq.
    destruct (query_first_log rank _ _ _ _ _ Eq) as (n1 & Hn1 & Hb1).
    apply (writes_below_mono rank _ _ _ (Nat.le_0_l (rank c0))) in Hb1.
    destruct (writes_below_none C_eq_dec rank _ _ Hb1) as [Hc1 Hu1].
    destruct r0 as [found|e|].
    + destruct (IH found n _ _ _ (Hp found) H) as (n2 & Hn2 & Hle2).
      exists (n1 ++ n2). rewrite Hn2, Hn1, app_assoc. split; [reflexivity|].
      rewrite (creates_app C_eq_dec), (updates_app C_eq_dec). lia.
    + injection H as <- <-. exists n1. split; [exact Hn1 | lia].
    + injection H as <- <-. exists n1. split; [exact Hn1 | lia].
Qed.

(** The calls of the engine are such a handler. *)
Lemma roc_writes_one (Hrank : well_ranked classes rank) fuel :
  forall c d hs (w : World C) res w1,
    retrieve_or_create_from_data C_eq_dec classes fuel c d hs w = (res, w1) ->
    c = c0 \/ rank c < rank c0 ->
    exists new, log w1 = log w ++ new /\
                creates c0 new + updates c0 new
                  <= (if C_eq_dec c c0 then 1 else 0).
Proof.
  intros c d hs w res w1 H Hc.
  destruct (roc_log C_eq_dec classes rank Hrank fuel c d hs w w1 res H)
    as (new & Hl & Hw & Hle & _).
  exists new. split; [exact Hl|].
  destruct (C_eq_dec c c0) as [->|Hne]; [exact Hle|].
  destruct Hc as [Hc|Hc]; [destruct (Hne Hc)|].
  destruct (writes_below_none C_eq_dec rank c0 new
              (writes_within_below rank c (rank c0) new Hc Hw)) as [-> ->].
  lia.
Qed.

End BudgetFacts.

Section KeywordBudget.

Import Notion Workspace PageCode.
Local Open Scope string_scope.
Local Open Scope list_scope.

Variable env : Builtins.

(** Every registered class calls only classes that
    [rank_keywords_high] puts below it. *)
Lemma main_ranked_keywords_high :
  well_ranked (Main.classes env) rank_keywords_high.
Proof.
  assert (Higdb : forall r cls data,
            calls_below rank_keywords_high r
              (Igdb.IGDBNotionPage_retrieve_from_data cls data)).
  { intros r cls data. unfold Igdb.IGDBNotionPage_retrieve_from_data.
    destruct (negb (hasattr data "id")); [constructor|].
    apply calls_below_pbind; [apply calls_below_lift|].
    intros v. constructor. intros. constructor. }
  intros cls data. split.
  - destruct cls; cbn [Main.classes get_notion_properties];
      match goal with |- calls_below _ _ ?p =>
        let h := head_of p in unfold h end; ranked_properties.
  - destruct cls; cbn [Main.classes retrieve_from_data]; try apply Higdb.
    + unfold Hltb.HLTBNotionPage_retrieve_from_data.
      destruct (negb (hasattr data "game_id")); [constructor|].
      apply calls_below_pbind; [apply calls_below_lift|].
      intros v. constructor. intros. constructor.
    + unfold SteamSpy.SteamSpyNotionPage_retrieve_from_data.
      destruct (negb (hasattr data "appid")); [constructor|].
      apply calls_below_pbind; [apply calls_below_lift|].
      intros v. constructor. intros. constructor.
    + unfold Custom.CustomGamePage_retrieve_from_data.
      apply calls_below_pbind; [apply calls_below_path|]. intros igdb.
      apply calls_below_pbind; [|intros; constructor; intros; constructor].
      constructor; [rank_lt | constructor].
Qed.

Local Abbreviation at_most :=
  (calls_at_most Cls_eq_dec rank_keywords_high Keyword).

Lemma at_most_pbind0 {A B} (p : Prog Cls A) (f : A -> Prog Cls B) :
  at_most 0 p -> (forall a, at_most 0 (f a)) -> at_most 0 (pbind p f).
Proof.
  intros Hp Hf.
  exact (calls_at_most_pbind Cls_eq_dec rank_keywords_high Keyword p f 0 Hf 0 Hp).
Qed.

Lemma at_most_relation_one_other (cls : Cls) (e : Prog Cls PyVal) :
  calls_below rank_keywords_high 0 e ->
  rank_keywords_high cls < rank_keywords_high Keyword ->
  at_most 0 (relation_one cls e).
Proof.
  intros He Hr. unfold relation_one.
  apply at_most_pbind0; [apply calls_at_most_none; exact He|].
  intros v. cbn. destruct (Cls_eq_dec cls Keyword) as [->|_]; [lia|].
  split; [exact Hr | intros; exact I].
Qed.

Lemma at_most_relation_each_other (cls : Cls) (e : Prog Cls PyVal) :
  calls_below rank_keywords_high 0 e ->
  rank_keywords_high cls < rank_keywords_high Keyword ->
  at_most 0 (relation_each cls e).
Proof.
  intros He Hr. unfold relation_each.
  apply at_most_pbind0; [apply calls_at_most_none; exact He|].
  intros v. apply at_most_pbind0; [destruct (py_iter v); exact I|].
  intros l. apply at_most_pbind0; [|intros; exact I].
  apply calls_at_most_for_each_other. exact Hr.
Qed.

Lemma at_most_relation_each_slice (a : string) (n : nat) (data : PyVal)
    (l : list PyVal) :
  getattr data a = Ok (PyTuple l) ->
  at_most (List.length (firstn n l))
    (relation_each Keyword (slice n (path data [a]))).
Proof.
  intros Ha. unfold relation_each, slice. cbn [path]. rewrite Ha.
  cbn [lift pbind py_slice_to py_iter].
  apply (calls_at_most_mono _ _ _ _ (List.length (firstn n l) + 0)); [lia|].
  apply calls_at_most_pbind; [intros; exact I|].
  apply calls_at_most_for_each.
Qed.

End KeywordBudget.

Ltac budget_entry Hattr :=
  first
    [ apply at_most_relation_one_other; [solve [no_calls] | solve [rank_lt]]
    | apply at_most_relation_each_other; [solve [no_calls] | solve [rank_lt]]
    | apply at_most_relation_each_slice; exact Hattr
    | apply calls_at_most_none; solve [no_calls] ].

Ltac budget_entries Hattr :=
  repeat first
    [ apply Forall2_nil
    | eapply Forall2_cons; [cbn [snd]; budget_entry Hattr|] ].

Section KeywordBudgetOfGames.

Import Notion Workspace PageCode.
Local Open Scope string_scope.
Local Open Scope list_scope.

(** The serializer of a game calls the class of the keywords once for
    each of the first 100 keywords, and no more. *)
Lemma game_calls_keywords_at_most (env : Builtins) (data : PyVal)
    (keywords : list PyVal) :
  getattr data "keywords" = Ok (PyTuple keywords) ->
  calls_at_most Cls_eq_dec rank_keywords_high Keyword
    (Nat.min 100 (List.length keywords))
    (get_notion_properties (Main.classes env Game) data).
Proof.
  intros Hattr. cbn [Main.classes get_notion_properties].
  unfold Igdb.Game_get_notion_properties.
  match goal with |- calls_at_most _ _ _ _ (dict_literal ?entries) =>
    assert (Hb : exists budgets,
               Forall2 (fun kp n =>
                          calls_at_most Cls_eq_dec rank_keywords_high Keyword n
                            (snd kp)) entries budgets /\
               list_sum budgets <= Nat.min 100 (List.length keywords))
  end.
  { eexists. split; [budget_entries Hattr|].
    cbn [list_sum fold_right Nat.add]. rewrite length_firstn.
    unfold Igdb.MAX_RELATION_PAGES. lia. }
  destruct Hb as (budgets & HF & Hle).
  apply (calls_at_most_mono _ _ _ _ (list_sum budgets)); [exact Hle|].
  apply calls_at_most_dict_literal. exact HF.
Qed.

End KeywordBudgetOfGames.

Section CapClaim.

Import Notion Workspace PageCode.
Local Open Scope string_scope.
Local Open Scope list_scope.



End CapClaim.

(* ===================================================================== *)
(** * The game that the fuzzy lookup returns *)
(* ===================================================================== *)

Section LookupFacts.

Import PageCode Dataclass Hltb Lookup.
Local Open Scope string_scope.

Lemma assoc_assoc_set {V} (k k' : string) (v : V) (d : list (string * V)) :
  assoc k (assoc_set k' v d) = if String.eqb k k' then Some v else assoc k d.
Proof.
  induction d as [|[k0 v0] t IH]; simpl.
  - destruct (String.eqb k k'); reflexivity.
  - destruct (String.eqb k' k0) eqn:E0; simpl.
    + apply String.eqb_eq in E0. subst k0.
      destruct (String.eqb k k'); reflexivity.
    + destruct (String.eqb k k0) eqn:E1.
      * apply String.eqb_eq in E1. subst k0.
        rewrite String.eqb_sym in E0. rewrite E0. reflexivity.
      * exact IH.
Qed.

Lemma assoc_assoc_remove {V} (k k' : string) (d : list (string * V)) :
  assoc k (assoc_remove k' d) = if String.eqb k k' then None else assoc k d.
Proof.
  induction d as [|[k0 v0] t IH]; simpl.
  - destruct (String.eqb k k'); reflexivity.
  - destruct (String.eqb k' k0) eqn:E0.
    + apply String.eqb_eq in E0. subst k0. rewrite IH.
      destruct (String.eqb k k'); reflexivity.
    + simpl. destruct (String.eqb k k0) eqn:E1.
      * apply String.eqb_eq in E1. subst k0.
        rewrite String.eqb_sym in E0. rewrite E0. reflexivity.
      * exact IH.
Qed.

Lemma assoc_app {V} (k : string) (a b : list (string * V)) :
  assoc k (a ++ b) = match assoc k a with Some v => Some v | None => assoc k b end.
Proof.
  induction a as [|[k0 v0] t IH]; simpl; [reflexivity|].
  destruct (String.eqb k k0); [reflexivity | exact IH].
Qed.

(** What [dic.pop(key, default)] leaves in the dict *)
Lemma assoc_pop (k key : string) (default : PyVal) (d : list (string * PyVal)) :
  assoc k (snd (pop key default d))
  = if String.eqb k key then None else assoc k d.
Proof.
  unfold pop. destruct (assoc key d) eqn:E; simpl.
  - apply assoc_assoc_remove.
  - destruct (String.eqb k key) eqn:Ek; [|reflexivity].
    apply String.eqb_eq in Ek. subst k. exact E.
Qed.

(** A text, or nothing, pops as a text. *)
Lemma pop_text (key : string) (d : list (string * PyVal)) :
  text_or_absent key d = true ->
  exists s, fst (pop key (PyStr []) d) = PyStr s.
Proof.
  unfold text_or_absent, pop. destruct (assoc key d) as [v|]; simpl.
  - destruct v; try discriminate. eexists. reflexivity.
  - eexists. reflexivity.
Qed.

(** Every field that has its keyword or its default is bound, to the
    keyword where there is one. *)
Lemma bind_fields_total (kwargs : list (string * PyVal)) :
  forall fields,
    (forall name, In (name, None) fields -> exists v, assoc name kwargs = Some v) ->
    exists attrs,
      bind_fields fields kwargs = Ok attrs /\
      forall name v, In name (map fst fields) -> assoc name kwargs = Some v ->
                     assoc name attrs = Some v.
Proof.
  induction fields as [|[name default] rest IH]; intros Hall.
  - exists []. split; [reflexivity|]. intros ? ? [].
  - destruct IH as (attrs & Hb & Hl).
    { intros n Hn. apply Hall. right. exact Hn. }
    simpl. rewrite Hb.
    destruct (assoc name kwargs) as [v|] eqn:Ek.
    + exists ((name, v) :: attrs). split; [reflexivity|].
      intros n v' Hin Hv'. simpl.
      destruct (String.eqb n name) eqn:En.
      * apply String.eqb_eq in En. subst n. congruence.
      * destruct Hin as [Heq|Hin]; [|exact (Hl _ _ Hin Hv')].
        simpl in Heq. subst n. rewrite String.eqb_refl in En. discriminate.
    + destruct default as [dv|].
      * exists ((name, dv) :: attrs). split; [reflexivity|].
        intros n v' Hin Hv'. simpl.
        destruct (String.eqb n name) eqn:En.
        -- apply String.eqb_eq in En. subst n. congruence.
        -- destruct Hin as [Heq|Hin]; [|exact (Hl _ _ Hin Hv')].
           simpl in Heq. subst n. rewrite String.eqb_refl in En. discriminate.
      * destruct (Hall name (or_introl eq_refl)) as (v & Hv). congruence.
Qed.

(** No field of the game is one of the two keys that [from_dict] pops. *)
Lemma field_not_popped (name : string) :
  In name (map fst HowLongToBeatGame_fields) ->
  String.eqb name "profile_dev" = false /\
  String.eqb name "profile_platform" = false.
Proof.
  intros Hin.
  assert (Hall : forallb (fun n => negb (String.eqb n "profile_dev")
                                   && negb (String.eqb n "profile_platform"))
                   (map fst HowLongToBeatGame_fields) = true)
    by (vm_compute; reflexivity).
  rewrite forallb_forall in Hall. specialize (Hall _ Hin).
  apply andb_prop in Hall as [H1 H2].
  apply negb_true_iff in H1, H2. split; assumption.
Qed.

Variable env : Builtins.

(** [from_dict] on a complete JSON, with the similarity added, builds a
    game: the similarity is the one added, and every other field that the
    JSON has is the JSON's. *)
Lemma from_dict_complete (items : list (string * PyVal)) (sim : PyVal) :
  complete_json items = true ->
  exists attrs,
    HowLongToBeatGame_from_dict env (PyDict (assoc_set "similarity" sim items))
      = Ok (PyObj "HowLongToBeatGame" attrs) /\
    assoc "similarity" attrs = Some sim /\
    (forall name v,
        In name (map fst HowLongToBeatGame_fields) -> name <> "similarity" ->
        assoc name items = Some v -> assoc name attrs = Some v) /\
    (forall game_id,
        assoc "game_id" items = Some game_id ->
        assoc "game_web_link" attrs
          = Some (PyStr (GAME_URL_PREFIX env ++ py_str env game_id)%list)).
Proof.
  intros Hc. unfold complete_json in Hc.
  apply andb_prop in Hc as [Hc Hpp]. apply andb_prop in Hc as [Hc Hpd].
  apply andb_prop in Hc as [Hfields Hcomp].
  rewrite forallb_forall in Hfields.
  set (d0 := assoc_set "similarity" sim items).
  assert (L0 : forall k, assoc k d0
                         = if String.eqb k "similarity" then Some sim else assoc k items)
    by (intros k; apply assoc_assoc_set).
  set (d1 := snd (pop "profile_dev" (PyStr []) d0)).
  assert (L1 : forall k, assoc k d1
                         = if String.eqb k "profile_dev" then None else assoc k d0)
    by (intros k; apply assoc_pop).
  set (d2 := snd (pop "profile_platform" (PyStr []) d1)).
  assert (L2 : forall k, assoc k d2
                         = if String.eqb k "profile_platform" then None else assoc k d1)
    by (intros k; apply assoc_pop).
  assert (T0 : text_or_absent "profile_dev" d0 = true).
  { unfold text_or_absent in *. rewrite L0. exact Hpd. }
  assert (T1 : text_or_absent "profile_platform" d1 = true).
  { unfold text_or_absent in *. rewrite L1, L0. exact Hpp. }
  destruct (pop_text _ _ T0) as (s0 & Hs0).
  destruct (pop_text _ _ T1) as (s1 & Hs1).
  (* what the fields of the game find in the dict *)
  assert (L : forall name, In name (map fst HowLongToBeatGame_fields) ->
                assoc name d2
                = if String.eqb name "similarity" then Some sim else assoc name items).
  { intros name Hin. destruct (field_not_popped _ Hin) as [E1 E2].
    rewrite L2, E2, L1, E1. apply L0. }
  assert (Hkey : forall name, In (name, None) HowLongToBeatGame_fields ->
                   String.eqb name "similarity" = false ->
                   existsb (String.eqb name) computed_keys = false ->
                   exists v, assoc name items = Some v).
  { intros name Hin Hs Hk. specialize (Hfields _ Hin). simpl in Hfields.
    rewrite Hs in Hfields. simpl in Hk. rewrite Hk in Hfields.
    unfold has_key in Hfields.
    destruct (assoc name items) as [v|]; [exists v; reflexivity|].
    simpl in Hfields. destruct (String.eqb name "game_web_link"); discriminate. }
  destruct (Hkey "game_image") as (game_image & Himage);
    [vm_compute; tauto | reflexivity | reflexivity |].
  destruct (Hkey "game_id") as (game_id & Hid);
    [vm_compute; tauto | reflexivity | reflexivity |].
  assert (Hnone : forall k, In k computed_keys -> assoc k d2 = None).
  { intros k Hin. rewrite forallb_forall in Hcomp. specialize (Hcomp _ Hin).
    unfold has_key in Hcomp.
    rewrite L2, L1, L0.
    destruct Hin as [<-|[<-|[<-|[<-|[]]]]]; simpl;
      destruct (assoc _ items); try reflexivity; discriminate. }
  set (explicit :=
         [("profile_devs", PyTuple (map PyStr (filter nonempty (split (py ", ") s0))));
          ("profile_platforms",
           PyTuple (map PyStr (filter nonempty (split (py ", ") s1))));
          ("game_image_url",
           PyStr (IMAGE_URL_PREFIX env ++ py_str env game_image)%list);
          ("game_web_link",
           PyStr (GAME_URL_PREFIX env ++ py_str env game_id)%list)]).
  destruct (bind_fields_total (d2 ++ explicit) HowLongToBeatGame_fields)
    as (attrs & Hbind & Hattrs).
  { intros name Hin. rewrite assoc_app.
    destruct (assoc name d2) as [v|] eqn:Ed; [exists v; reflexivity|].
    destruct (existsb (String.eqb name) computed_keys) eqn:Ek.
    - simpl in Ek. simpl.
      destruct (String.eqb name "profile_devs"); [eexists; reflexivity|].
      destruct (String.eqb name "profile_platforms"); [eexists; reflexivity|].
      destruct (String.eqb name "game_image_url"); [eexists; reflexivity|].
      destruct (String.eqb name "game_web_link"); [eexists; reflexivity|].
      discriminate.
    - assert (Hn : In name (map fst HowLongToBeatGame_fields))
        by (apply (in_map fst) in Hin; exact Hin).
      rewrite (L _ Hn) in Ed.
      destruct (String.eqb name "similarity") eqn:Es; [discriminate|].
      destruct (Hkey _ Hin Es Ek) as (v & Hv). congruence. }
  exists attrs.
  assert (Hrun : HowLongToBeatGame_from_dict env (PyDict d0)
                 = Ok (PyObj "HowLongToBeatGame" attrs)).
  { unfold HowLongToBeatGame_from_dict. cbn [as_dict rbind].
    rewrite (surjective_pairing (pop "profile_dev" (PyStr []) d0)).
    rewrite Hs0. cbn [split_names rbind].
    fold d1.
    rewrite (surjective_pairing (pop "profile_platform" (PyStr []) d1)).
    rewrite Hs1. cbn [split_names rbind].
    fold d2.
    unfold getitem.
    rewrite (L "game_image") by (vm_compute; tauto).
    rewrite (L "game_id") by (vm_compute; tauto).
    change (String.eqb "game_image" "similarity") with false.
    change (String.eqb "game_id" "similarity") with false.
    cbv iota. rewrite Himage, Hid. cbn [rbind].
    unfold keywords.
    replace (existsb _ _) with false.
    2:{ symmetry. cbn [existsb fst].
        rewrite !Hnone by (vm_compute; tauto). reflexivity. }
    cbn [rbind]. unfold construct. fold explicit. rewrite Hbind. reflexivity. }
  split; [exact Hrun|].
  split; [|split].
  - apply Hattrs; [vm_compute; tauto|].
    rewrite assoc_app, (L "similarity") by (vm_compute; tauto). reflexivity.
  - intros name v Hin Hne Hv. apply Hattrs; [exact Hin|].
    rewrite assoc_app, (L _ Hin).
    destruct (String.eqb name "similarity") eqn:Es.
    + apply String.eqb_eq in Es. contradiction.
    + rewrite Hv. reflexivity.
  - intros gid Hgid. rewrite Hid in Hgid. injection Hgid as <-.
    apply Hattrs; [vm_compute; tauto|].
    rewrite assoc_app, (Hnone "game_web_link") by (vm_compute; tauto).
    reflexivity.
Qed.

End LookupFacts.

Section LookupClaim.

Local Open Scope string_scope.


End LookupClaim.

